(** * Emission-spectrum dataset generator ([simulasi.py]): model and properties

    The development follows the source file class by class:
    [SpectrumSimulator] (per-species line spectra), [MixedSpectrumSimulator]
    (mixture, convolution, normalisation) and [DatasetGenerator] (scheduler,
    deduplication, persistence); of [DataManager] it has the loop that
    completes the ionization energies. Reading the NIST and atomic-data
    files ([DataFetcher], the first part of [load_ionization_energies]) is
    left to the caller: the tables and dictionaries are arguments.

    Conventions of the model.
    - Python floats and NumPy/Torch float arrays are real numbers and lists of
      real numbers: arithmetic is exact, the casts between float32 and
      float64 are the identity, and overflow to [inf]/[nan] does not occur.
      Neither does underflow: the tail of a Gaussian, which float32 rounds
      to 0.0 some 14 sigma from the centre, is a small positive number here.
    - The two split sizes [int(0.7 * n)] and [int(0.15 * n)] are the
      exception: they are computed in binary64, as the truncation makes the
      rounding of the product visible.
    - A division whose divisor is zero leaves the model with
      [ZeroDivisionError] (Python raises it on its own floats; NumPy scalars
      would continue with [inf]/[nan], which the reals do not have).
    - Python dictionaries are insertion-ordered association lists.
    - Logging is not modelled. *)

From Stdlib Require Import Reals Lra Lia ZArith List Bool Permutation.
From Stdlib Require OrderedTypeEx.
From stdpp Require Import gmap strings list pretty.

(** ** Exceptions and the result monad *)

Inductive exn : Type :=
  | ZeroDivisionError
  | ValueError
  | TypeError
  | IndexError
  | KeyError
  | RuntimeError
  (** not a Python exception: a loop that has not ended within the bound the
      model gives it *)
  | Diverges.

Inductive result (A : Type) : Type :=
  | Ok (a : A)
  | Raise (e : exn).
Arguments Ok {A} a.
Arguments Raise {A} e.

#[global] Instance result_ret : MRet result := fun A a => Ok a.
#[global] Instance result_bind : MBind result := fun A B k m =>
  match m with
  | Ok a => k a
  | Raise e => Raise e
  end.

(** [try: body except (ValueError, TypeError): continue] in a loop whose
    state is [s] when the body starts: the two exceptions are swallowed and
    the loop goes on from [s], any other one propagates. *)
Definition caught (e : exn) : bool :=
  match e with
  | ValueError | TypeError => true
  | _ => false
  end.

Definition attempt {S : Type} (s : S) (body : result S) : result S :=
  match body with
  | Ok s' => Ok s'
  | Raise e => if caught e then Ok s else Raise e
  end.

(** A [for] loop threading a state, and a list comprehension, both stopping
    at the first exception. *)
Fixpoint foldlM {M : Type → Type} `{!MRet M, !MBind M} {S A : Type}
    (f : S → A → M S) (s : S) (l : list A) : M S :=
  match l with
  | [] => mret s
  | x :: l' => s' ← f s x; foldlM f s' l'
  end.

Fixpoint mapM_result {A B : Type} (f : A → result B) (l : list A) : result (list B) :=
  match l with
  | [] => Ok []
  | x :: l' => y ← f x; ys ← mapM_result f l'; Ok (y :: ys)
  end.

(** Equality of floats decides dictionary membership and [==]. *)
#[global] Instance R_eq_dec : EqDecision R := Req_dec_T.
#[global] Instance R_lt_dec : RelDecision Rlt := Rlt_dec.
#[global] Instance R_le_dec : RelDecision Rle := Rle_dec.

(** ** Insertion-ordered dictionaries *)

Module Dict.
Section Dict.
Context {K V : Type} `{EqDecision K}.

Definition t := list (K * V).

Fixpoint get (d : list (K * V)) (k : K) : option V :=
  match d with
  | [] => None
  | (k', v) :: d' => if decide (k' = k) then Some v else get d' k
  end.

Definition mem (d : list (K * V)) (k : K) : bool :=
  match get d k with Some _ => true | None => false end.

(** [d[k] = v]: in place for a present key, at the end for a new one. *)
Fixpoint set (d : list (K * V)) (k : K) (v : V) : list (K * V) :=
  match d with
  | [] => [(k, v)]
  | (k', v') :: d' =>
      if decide (k' = k) then (k', v) :: d' else (k', v') :: set d' k v
  end.

Definition get_default (d : list (K * V)) (k : K) (dflt : V) : V :=
  match get d k with Some v => v | None => dflt end.

Definition keys (d : list (K * V)) : list K := map fst d.
Definition values (d : list (K * V)) : list V := map snd d.
End Dict.
End Dict.

(** ** Configuration and constants *)

Open Scope R_scope.

Record Config : Type := {
  cfg_resolution : nat;
  cfg_wl_range : R * R;
  cfg_sigma : R;
  cfg_target_max_intensity : R;
  cfg_convolution_sigma : R;
  cfg_num_samples : nat;
  cfg_temperature_range : list R;
  cfg_electron_density_range : list R
}.

Definition k_B : R := 8.617333262145e-5.
Definition m_e : R := 9.1093837e-31.
Definition h_planck : R := 4.135667696e-15.

Definition BASE_ELEMENTS : list string :=
  ["Si"; "Al"; "Fe"; "Ca"; "O"; "Na"; "N"; "Ni"; "Cr"; "Cl"]%string.

Definition species_label (elem : string) (ion : nat) : string :=
  (elem +:+ "_" +:+ pretty ion)%string.

Definition REQUIRED_ELEMENTS : list string :=
  flat_map (fun elem => map (species_label elem) [1%nat; 2%nat]) BASE_ELEMENTS.

(** [list.index]: position of the first occurrence. *)
Fixpoint list_index {A : Type} `{EqDecision A} (x : A) (l : list A) : option nat :=
  match l with
  | [] => None
  | y :: l' => if decide (y = x) then Some 0%nat else S <$> list_index x l'
  end.

(** Python's [x / y] on floats. *)
Definition fdiv (x y : R) : result R :=
  if decide (y = 0) then Raise ZeroDivisionError else Ok (x / y).

Definition Rsum (l : list R) : R := fold_right Rplus 0 l.
Definition nat_sum (l : list nat) : nat := fold_right Nat.add 0%nat l.

(** ** NumPy helpers *)

(** [np.linspace(a, b, n)]. *)
Definition linspace (a b : R) (n : nat) : list R :=
  map (fun i : nat => a + IZR (Z.of_nat i) * ((b - a) / IZR (Z.of_nat (n - 1))))
      (seq 0 n).

(** [np.searchsorted(a, v)] (side left): NumPy's binary search, which on an
    ascending array returns the first index whose entry is not below [v]. *)
Fixpoint binsearch_left (fuel : nat) (a : list R) (v : R) (min_idx max_idx : nat) : nat :=
  match fuel with
  | O => min_idx
  | S fuel' =>
      if (min_idx <? max_idx)%nat then
        let mid_idx := (min_idx + (max_idx - min_idx) / 2)%nat in
        if Rlt_dec (nth mid_idx a 0) v
        then binsearch_left fuel' a v (mid_idx + 1)%nat max_idx
        else binsearch_left fuel' a v min_idx mid_idx
      else min_idx
  end.

Definition searchsorted (a : list R) (v : R) : nat :=
  binsearch_left (length a) a v 0%nat (length a).

(** [dst[start:start+len(src)] += src], for a window inside [dst]. *)
Fixpoint slice_add (dst : list R) (start : nat) (src : list R) : list R :=
  match dst, start with
  | [], _ => []
  | x :: dst', S start' => x :: slice_add dst' start' src
  | x :: dst', O =>
      match src with
      | [] => x :: dst'
      | y :: src' => (x + y) :: slice_add dst' O src'
      end
  end.

(** ** Cells of the transition table *)

(** A cell of a row of [nist_data]: [None], a number, or any other object
    that [float()] rejects. *)
Inductive pyval : Type :=
  | PNone
  | PFloat (r : R)
  | PObj.

Definition to_float (v : pyval) : result R :=
  match v with
  | PFloat r => Ok r
  | PNone => Raise TypeError
  | PObj => Raise ValueError
  end.

Definition is_not_none (v : pyval) : bool :=
  match v with PNone => false | _ => true end.

(** [wl, Aki, Ek, Ei, gi, gk, _ = data]. *)
Definition unpack7 (data : list pyval)
    : result (pyval * pyval * pyval * pyval * pyval * pyval) :=
  match data with
  | [wl; Aki; Ek; Ei; gi; gk; _] => Ok (wl, Aki, Ek, Ei, gi, gk)
  | _ => Raise ValueError
  end.

(** ** SpectrumSimulator *)

Module SpectrumSimulator.

Record t : Type := {
  nist_data : list (list pyval);
  element : string;
  ion : nat;
  temperatures : list R;
  ionization_energy : R;
  resolution : nat;
  wl_range : R * R;
  sigma : R;
  wavelengths : list R;
  element_label : string
}.

(** [__init__]. The profile cache only stores what [_gaussian_profile]
    computes from [wavelengths] and [sigma], which never change afterwards,
    so a cached profile is the computed one and the cache is left out. *)
Definition init (nist_data : list (list pyval)) (element : string) (ion : nat)
    (temperatures : list R) (ionization_energy : R) (config : Config) : t :=
  {| nist_data := nist_data;
     element := element;
     ion := ion;
     temperatures := temperatures;
     ionization_energy := ionization_energy;
     resolution := config.(cfg_resolution);
     wl_range := config.(cfg_wl_range);
     sigma := config.(cfg_sigma);
     wavelengths := linspace (fst config.(cfg_wl_range)) (snd config.(cfg_wl_range))
                      config.(cfg_resolution);
     element_label := species_label element ion |}.

(** [Σ g·exp(−E/(k_B·T))] over the levels whose energy is not [None], in the
    order of the two lists; [or 1.0] replaces a zero sum. *)
Fixpoint boltzmann_terms (degeneracies : list R) (energy_levels : list (option R))
    (temperature : R) : result (list R) :=
  match degeneracies, energy_levels with
  | g :: gs, oE :: Es =>
      match oE with
      | Some E =>
          x ← fdiv (- E) (k_B * temperature);
          rest ← boltzmann_terms gs Es temperature;
          Ok (g * exp x :: rest)
      | None => boltzmann_terms gs Es temperature
      end
  | _, _ => Ok []
  end.

Definition _partition_function (energy_levels : list (option R)) (degeneracies : list R)
    (temperature : R) : result R :=
  terms ← boltzmann_terms degeneracies energy_levels temperature;
  let s := Rsum terms in
  Ok (if decide (s = 0) then 1.0 else s).

Definition _calculate_intensity (temperature energy degeneracy einstein_coeff Z : R)
    : result R :=
  x ← fdiv (- energy) (k_B * temperature);
  fdiv (degeneracy * einstein_coeff * exp x) Z.

(** The Gaussian [exp(−½((x−c)/σ)²) / (σ·√(2π))] at every grid wavelength. *)
Definition gaussian_at (sigma center x : R) : R :=
  exp (- 0.5 * ((x - center) / sigma) ^ 2) / (sigma * sqrt (2 * PI)).

Definition _gaussian_profile (self : t) (center : R) : result (list R) :=
  if decide (self.(sigma) = 0) then Raise ZeroDivisionError
  else Ok (map (gaussian_at self.(sigma) center) self.(wavelengths)).

Record LineRecord : Type := {
  lr_wavelength : R;
  lr_intensity : R;
  lr_element_label : string;
  lr_index : nat
}.

Record SimResult : Type := {
  sr_wavelengths : list R;
  sr_spectra : list (list R);
  sr_peak_indices : list (list nat);
  sr_peak_labels : list (list nat);
  sr_temperatures : list R;
  sr_intensity_data : list (list LineRecord);
  sr_contributions : list (list R)
}.

Definition empty_result (self : t) : SimResult :=
  {| sr_wavelengths := self.(wavelengths);
     sr_spectra := [];
     sr_peak_indices := [];
     sr_peak_labels := [];
     sr_temperatures := [];
     sr_intensity_data := [];
     sr_contributions := [] |}.

(** First loop of [simulate]: the energy levels, first degeneracy seen per
    energy. An insertion made before a later [float()] fails is kept. *)
Definition add_level (levels : list (R * R)) (E : R) (g : pyval) : result (list (R * R)) :=
  if Dict.mem levels E then Ok levels
  else g' ← to_float g; Ok (Dict.set levels E g').

Definition collect_levels (levels : list (R * R)) (data : list pyval)
    : result (list (R * R)) :=
  attempt levels (
    '(wl, Aki, Ek, Ei, gi, gk) ← unpack7 data;
    if forallb is_not_none [wl; Aki; Ek; Ei; gi; gk] then
      Ek' ← to_float Ek;
      Ei' ← to_float Ei;
      levels1 ← add_level levels Ei' gi;
      attempt levels1 (add_level levels1 Ek' gk)
    else Ok levels).

(** State of the per-temperature loop. *)
Record acc : Type := {
  intensities : list R;
  element_contributions : list R;
  peak_idx : list nat;
  peak_label : list nat;
  temp_intensity_data : list LineRecord
}.

Definition class_index (label : string) : nat :=
  match list_index label REQUIRED_ELEMENTS with
  | Some i => i
  | None => length REQUIRED_ELEMENTS
  end.

Definition add_line (self : t) (atom_percentage temp Z : R) (a : acc)
    (data : list pyval) : result acc :=
  attempt a (
    '(wl, Aki, Ek, Ei, gi, gk) ← unpack7 data;
    if forallb is_not_none [wl; Aki; Ek; Ei; gi; gk] then
      wl' ← to_float wl;
      Aki' ← to_float Aki;
      Ek' ← to_float Ek;
      gk' ← to_float gk;
      intensity ← _calculate_intensity temp Ek' gk' Aki' Z;
      let idx := searchsorted self.(wavelengths) wl' in
      if (idx <? self.(resolution))%nat then
        profile ← _gaussian_profile self wl';
        let gaussian_contribution :=
          map (fun p => intensity * atom_percentage * p) profile in
        (* [max(0, idx - len // 2)]: the subtraction of [nat] stops at 0 *)
        let start_idx := Nat.max 0 (idx - length gaussian_contribution / 2) in
        let end_idx := Nat.min self.(resolution) (start_idx + length gaussian_contribution) in
        let window := firstn (end_idx - start_idx) gaussian_contribution in
        let added := (start_idx <? end_idx)%nat in
        Ok {| intensities :=
                if added then slice_add a.(intensities) start_idx window
                else a.(intensities);
              element_contributions :=
                if added then slice_add a.(element_contributions) start_idx window
                else a.(element_contributions);
              peak_idx := a.(peak_idx) ++ [idx];
              peak_label := a.(peak_label) ++ [class_index self.(element_label)];
              temp_intensity_data :=
                a.(temp_intensity_data) ++
                [{| lr_wavelength := wl';
                    lr_intensity := intensity * atom_percentage;
                    lr_element_label := self.(element_label);
                    lr_index := idx |}] |}
      else Ok a
    else Ok a).

Definition simulate_temperature (self : t) (atom_percentage : R)
    (energy_levels degeneracies : list R) (temp : R) : result acc :=
  Z ← _partition_function (map Some energy_levels) degeneracies temp;
  foldlM (add_line self atom_percentage temp Z)
    {| intensities := repeat 0 self.(resolution);
       element_contributions := repeat 0 self.(resolution);
       peak_idx := [];
       peak_label := [];
       temp_intensity_data := [] |}
    self.(nist_data).

Definition simulate (self : t) (atom_percentage : R) : result SimResult :=
  match self.(nist_data) with
  | [] => Ok (empty_result self)
  | _ =>
      levels ← foldlM collect_levels [] self.(nist_data);
      match levels with
      | [] => Ok (empty_result self)
      | _ =>
          let energy_levels := Dict.keys levels in
          let degeneracies := Dict.values levels in
          per_temp ← mapM_result
            (simulate_temperature self atom_percentage energy_levels degeneracies)
            self.(temperatures);
          Ok {| sr_wavelengths := self.(wavelengths);
                sr_spectra := map intensities per_temp;
                sr_peak_indices := map peak_idx per_temp;
                sr_peak_labels := map peak_label per_temp;
                sr_temperatures := self.(temperatures);
                sr_intensity_data := map temp_intensity_data per_temp;
                sr_contributions := map element_contributions per_temp |}
      end
  end.

End SpectrumSimulator.

(** ** Reference notions used in the statements *)

(** The levels that [_partition_function] sums over: pairs of degeneracy and
    energy, without the levels whose energy is [None]. *)
Fixpoint paired_levels (degeneracies : list R) (energy_levels : list (option R))
    : list (R * R) :=
  match degeneracies, energy_levels with
  | g :: gs, Some E :: Es => (g, E) :: paired_levels gs Es
  | _ :: gs, None :: Es => paired_levels gs Es
  | _, _ => []
  end.

(** [Σ g·exp(−E/(k_B·T))]. *)
Definition boltzmann_sum (levels : list (R * R)) (T : R) : R :=
  Rsum (map (fun gE : R * R => fst gE * exp (- snd gE / (k_B * T))) levels).

(** A row from which the first loop of [simulate] takes an energy level when
    no level is known yet: seven cells, none of the first six [None], and
    numbers for [Ek], [Ei] and [gi]. *)
Definition is_number (v : pyval) : bool :=
  match v with PFloat _ => true | _ => false end.

Definition row_gives_level (data : list pyval) : bool :=
  match data with
  | [wl; Aki; Ek; Ei; gi; gk; _] =>
      forallb is_not_none [wl; Aki; Ek; Ei; gi; gk]
      && is_number Ek && is_number Ei && is_number gi
  | _ => false
  end.

(** ** Configurations *)

(** [np.logspace(a, b, n)]. *)
Definition logspace (a b : R) (n : nat) : list R :=
  map (fun x => Rpower 10 x) (linspace a b n).

Definition SIMULATION_CONFIG : Config :=
  {| cfg_resolution := 4096;
     cfg_wl_range := (200, 900);
     cfg_sigma := 0.1;
     cfg_target_max_intensity := 0.8;
     cfg_convolution_sigma := 0.1;
     cfg_num_samples := 500;
     cfg_temperature_range := [6000; 8000; 10000; 12000; 14000; 15000];
     cfg_electron_density_range := logspace 15 17 10 |}.

(** The configuration of the single-transition scenario: 100 grid points
    over 400..500 nm, everything else as configured. *)
Definition scenario_config : Config :=
  {| cfg_resolution := 100;
     cfg_wl_range := (400, 500);
     cfg_sigma := SIMULATION_CONFIG.(cfg_sigma);
     cfg_target_max_intensity := SIMULATION_CONFIG.(cfg_target_max_intensity);
     cfg_convolution_sigma := SIMULATION_CONFIG.(cfg_convolution_sigma);
     cfg_num_samples := SIMULATION_CONFIG.(cfg_num_samples);
     cfg_temperature_range := SIMULATION_CONFIG.(cfg_temperature_range);
     cfg_electron_density_range := SIMULATION_CONFIG.(cfg_electron_density_range) |}.

(** One species whose table is the single transition at [wl] nm, simulated
    at 10000 K. *)
Definition scenario_simulator (wl Aki Ek Ei gi gk : R) (last : pyval) : SpectrumSimulator.t :=
  SpectrumSimulator.init
    [[PFloat wl; PFloat Aki; PFloat Ek; PFloat Ei; PFloat gi; PFloat gk; last]]
    "Fe" 1 [10000] 7.9 scenario_config.

(** The grid of the scenario. *)
Definition scenario_grid : list R := linspace 400 500 100.

(** ** Arrays *)

(** A NumPy array of dimension 0 or 1. [squeeze] turns a [1×1×L] result
    into a vector, or into a 0-dimensional array when [L = 1]. *)
Inductive ndarray : Type :=
  | Arr0 (x : R)
  | Arr1 (l : list R).

Definition arr_values (a : ndarray) : list R :=
  match a with
  | Arr0 x => [x]
  | Arr1 l => l
  end.

Definition arr_map (f : R → R) (a : ndarray) : ndarray :=
  match a with
  | Arr0 x => Arr0 (f x)
  | Arr1 l => Arr1 (map f l)
  end.

Definition squeeze (l : list R) : ndarray :=
  match l with
  | [x] => Arr0 x
  | _ => Arr1 l
  end.

(** [a[i]]. *)
Definition arr_getitem (a : ndarray) (i : nat) : result R :=
  match a with
  | Arr0 _ => Raise IndexError
  | Arr1 l => match nth_error l i with Some x => Ok x | None => Raise IndexError end
  end.

(** [max] of an array; on an empty one Torch and NumPy raise [e]. *)
Definition list_max (e : exn) (l : list R) : result R :=
  match l with
  | [] => Raise e
  | x :: l' => Ok (fold_left Rmax l' x)
  end.

(** [int(x)]: truncation towards zero. *)
Definition int_of_float (x : R) : Z :=
  if Rle_dec 0 x then Int_part x else (- Int_part (- x))%Z.

(** ** Binary64 products that are truncated

    [int(c * n)] for a float constant [c] and a length [n] is computed as
    Python computes it, because the truncation makes the rounding of the
    product visible ([int(0.7 * 90)] is 62). A positive binary64 number is
    a pair [(m, e)] that stands for [m * 2 ** e]. *)

(** [p / 2 ** shift] rounded to the nearest integer, ties to even. *)
Definition round_half_even (p shift : Z) : Z :=
  let q := (p / 2 ^ shift)%Z in
  let r := (p mod 2 ^ shift)%Z in
  if (2 * r <? 2 ^ shift)%Z then q
  else if (2 ^ shift <? 2 * r)%Z then (q + 1)%Z
  else if Z.even q then q else (q + 1)%Z.

(** The binary64 number nearest to [m * 2 ** e], for [0 <= m]: at most 53
    significant bits are kept. The exponent range is not modelled (the
    numbers rounded here are lengths of lists in memory and their products
    with 0.7 and 0.15). *)
Definition binary64_round (m e : Z) : Z * Z :=
  let shift := (Z.log2 m - 52)%Z in
  if (shift <=? 0)%Z then (m, e) else (round_half_even m shift, (e + shift)%Z).

(** The floats [0.7] ([0x1.6666666666666p-1]) and [0.15]
    ([0x1.3333333333333p-3]). *)
Definition FLOAT_0_7 : Z * Z := (6305039478318694, -53)%Z.
Definition FLOAT_0_15 : Z * Z := (5404319552844595, -55)%Z.

(** [int(c * n)]: [n] is converted to a float, the product is rounded, and
    [int] truncates. *)
Definition int_of_product (c : Z * Z) (n : nat) : nat :=
  let '(n_m, n_e) := binary64_round (Z.of_nat n) 0 in
  let '(p_m, p_e) := binary64_round (fst c * n_m) (snd c + n_e) in
  Z.to_nat (Z.shiftl p_m p_e).

(** [scipy.signal.windows.gaussian(M, std)]. *)
Definition gaussian (M : Z) (std : R) : result (list R) :=
  if (M <? 0)%Z then Raise ValueError
  else if (M <=? 1)%Z then Ok (repeat 1 (Z.to_nat M))
  else if decide (std = 0) then Raise ZeroDivisionError
  else Ok (map (fun n : nat =>
                  exp (- (IZR (Z.of_nat n) - (IZR M - 1.0) / 2.0) ^ 2 / (2 * std * std)))
               (seq 0 (Z.to_nat M))).

(** Sum of products of a kernel with the start of a signal. *)
Fixpoint dot (kernel xs : list R) : R :=
  match kernel, xs with
  | k :: kernel', x :: xs' => k * x + dot kernel' xs'
  | _, _ => 0
  end.

(** [F.conv1d(input, kernel, padding=p)] on one channel: zeros are put on
    both sides and the kernel slides over the result (cross-correlation). *)
Definition conv1d (input kernel : list R) (padding : Z) : result (list R) :=
  if (padding <? 0)%Z then Raise RuntimeError
  else
    let padded := repeat 0 (Z.to_nat padding) ++ input ++ repeat 0 (Z.to_nat padding) in
    match kernel with
    | [] => Raise RuntimeError
    | _ =>
        if (length padded <? length kernel)%nat then Raise RuntimeError
        else Ok (map (fun i : nat => dot kernel (skipn i padded))
                     (seq 0 (length padded - length kernel + 1)))
    end.

(** ** NumPy's global random generator *)

(** The generator is a state [rng] with the four draws the program makes.
    Nothing is assumed about the values drawn beyond what NumPy documents
    ([RandomStateSpec] below). *)
Record RandomState : Type := {
  rng : Type;
  (** [np.random.seed(n)] *)
  seed : nat → rng;
  (** [np.random.choice(a, size, replace)] *)
  choice : ∀ A : Type, list A → nat → bool → rng → result (list A * rng);
  (** [np.random.uniform(low, high)] *)
  uniform : R → R → rng → R * rng;
  (** [np.random.randint(low, high)] *)
  randint : nat → nat → rng → result (nat * rng);
  (** [np.random.permutation(n)] *)
  permutation : nat → rng → list nat * rng
}.

Record RandomStateSpec (rs : RandomState) : Prop := {
  choice_ok :
    ∀ (A : Type) (a : list A) (size : nat) (replace : bool) (g : rs.(rng)),
      (size = 0%nat ∨ a ≠ []) → (replace = false → (size ≤ length a)%nat) →
      ∃ l g', rs.(choice) A a size replace g = Ok (l, g')
            ∧ length l = size
            ∧ (∀ x, In x l → In x a)
            ∧ (replace = false → NoDup a → NoDup l);
  choice_empty :
    ∀ (A : Type) (size : nat) (replace : bool) (g : rs.(rng)),
      size ≠ 0%nat → rs.(choice) A [] size replace g = Raise ValueError;
  choice_too_many :
    ∀ (A : Type) (a : list A) (size : nat) (g : rs.(rng)),
      (length a < size)%nat → rs.(choice) A a size false g = Raise ValueError;
  uniform_range :
    ∀ (low high : R) (g : rs.(rng)),
      low < high → low <= fst (rs.(uniform) low high g) < high;
  randint_ok :
    ∀ (low high : nat) (g : rs.(rng)),
      (low < high)%nat →
      ∃ n g', rs.(randint) low high g = Ok (n, g') ∧ (low ≤ n < high)%nat;
  randint_empty :
    ∀ (low high : nat) (g : rs.(rng)),
      (high ≤ low)%nat → rs.(randint) low high g = Raise ValueError;
  permutation_ok :
    ∀ (n : nat) (g : rs.(rng)), Permutation (seq 0 n) (fst (rs.(permutation) n g))
}.

(** Computations that draw random numbers and may raise. *)
Definition rand (G A : Type) : Type := G → result (A * G).

#[global] Instance rand_ret {G : Type} : MRet (rand G) := fun A a g => Ok (a, g).
#[global] Instance rand_bind {G : Type} : MBind (rand G) := fun A B k m g =>
  match m g with
  | Ok (a, g') => k a g'
  | Raise e => Raise e
  end.

Definition lift {G A : Type} (r : result A) : rand G A := fun g =>
  match r with
  | Ok a => Ok (a, g)
  | Raise e => Raise e
  end.

(** A generator whose draws are fixed: the first [size] entries (or copies of
    the first entry when drawing with replacement), the lower bound, and the
    identity permutation. *)
Definition first_choice (A : Type) (a : list A) (size : nat) (replace : bool) (g : unit)
    : result (list A * unit) :=
  match a with
  | [] => if decide (size = 0%nat) then Ok ([], g) else Raise ValueError
  | x :: _ =>
      if replace then Ok (repeat x size, g)
      else if (length a <? size)%nat then Raise ValueError
      else Ok (firstn size a, g)
  end.

Definition first_draws : RandomState :=
  {| rng := unit;
     seed := fun _ => tt;
     choice := first_choice;
     uniform := fun low high g => (low, g);
     randint := fun low high g => if (low <? high)%nat then Ok (low, g) else Raise ValueError;
     permutation := fun n g => (seq 0 n, g) |}.

(** ** MixedSpectrumSimulator *)

Module MixedSpectrumSimulator.

Record t : Type := {
  simulators : list SpectrumSimulator.t;
  resolution : nat;
  wl_range : R * R;
  convolution_sigma : R;
  electron_density_range : list R;
  delta_E_max : list (string * R);
  wavelengths : list R;
  intensity_threshold : R;
  current_T : R;
  current_n_e : R
}.

Definition init (simulators : list SpectrumSimulator.t) (config : Config)
    (delta_E_max : list (string * R)) : t :=
  {| simulators := simulators;
     resolution := config.(cfg_resolution);
     wl_range := config.(cfg_wl_range);
     convolution_sigma := config.(cfg_convolution_sigma);
     electron_density_range := config.(cfg_electron_density_range);
     delta_E_max := delta_E_max;
     wavelengths := linspace (fst config.(cfg_wl_range)) (snd config.(cfg_wl_range))
                      config.(cfg_resolution);
     intensity_threshold := 0.01;
     current_T := 0.0;
     current_n_e := 0.0 |}.

(** [mixed_simulator.current_T = T; mixed_simulator.current_n_e = n_e]. *)
Definition set_conditions (self : t) (T n_e : R) : t :=
  {| simulators := self.(simulators);
     resolution := self.(resolution);
     wl_range := self.(wl_range);
     convolution_sigma := self.(convolution_sigma);
     electron_density_range := self.(electron_density_range);
     delta_E_max := self.(delta_E_max);
     wavelengths := self.(wavelengths);
     intensity_threshold := self.(intensity_threshold);
     current_T := T;
     current_n_e := n_e |}.

Definition max_abs (intensity : ndarray) : result R :=
  list_max RuntimeError (map Rabs (arr_values intensity)).

Definition _normalize_intensity (intensity : ndarray) (target_max : R) : result ndarray :=
  max_intensity ← max_abs intensity;
  if decide (max_intensity = 0) then Ok intensity
  else Ok (arr_map (fun x => x / max_intensity * target_max) intensity).

(** The pieces of [_convolve_spectrum]. *)
Definition wavelength_step (wavelengths : list R) : result R :=
  match wavelengths with
  | [] => Raise IndexError
  | first :: _ => fdiv (List.last wavelengths 0 - first) (IZR (Z.of_nat (length wavelengths)) - 1)
  end.

Definition kernel_size_of (sigma_points : R) : Z :=
  Z.lor (int_of_float (6 * sigma_points)) 1.

Definition instrument_kernel (sigma_points : R) : result (list R) :=
  window ← gaussian (kernel_size_of sigma_points) sigma_points;
  Ok (map (fun w => w / Rsum window) window).

Definition _convolve_spectrum (self : t) (spectrum : list R) (sigma_nm : R) : result ndarray :=
  step ← wavelength_step self.(wavelengths);
  sigma_points ← fdiv sigma_nm step;
  let kernel_size := kernel_size_of sigma_points in
  kernel ← instrument_kernel sigma_points;
  convolved ← conv1d spectrum kernel (kernel_size / 2)%Z;
  Ok (squeeze convolved).

Definition pow_3_2 (x : R) : result R :=
  (* [x ** (3/2)]; for [x < 0] Python goes on with a complex number, which
     no later step can turn into a float: the model stops there *)
  if Rlt_dec x 0 then Raise TypeError else Ok (x * sqrt x).

Definition _saha_ratio (ion_energy temp electron_density : R) : result R :=
  two_pi_me_kT_h2 ← pow_3_2 (2 * PI * m_e * (k_B * temp * 1.60217662e-16)
                               / (h_planck * 1.60217662e-19) ^ 2);
  let two_pi_me_kT_h2 := two_pi_me_kT_h2 / 1e6 in
  let U_i := 1.0 in
  let U_ip1 := 1.0 in
  saha_factor ← fdiv ((2 * U_ip1 / U_i) * two_pi_me_kT_h2) electron_density;
  x ← fdiv (- ion_energy) (k_B * temp);
  Ok (saha_factor * exp x).

Definition META_KEYS : list string :=
  ["temperature"; "electron_density"; "delta_E_max"]%string.

Definition is_species_key (k : string) : bool := negb (bool_decide (k ∈ META_KEYS)).

Record Sample : Type := {
  s_wavelengths : list R;
  s_spectrum : ndarray;
  s_labels : list nat;
  s_atom_percentages : list (string * R)
}.

(** [max(values) if values else dflt]. *)
Definition max_or (dflt : R) (values : list R) : R :=
  match values with
  | [] => dflt
  | x :: values' => fold_left Rmax values' x
  end.

Section Sampling.
Context {G : Type}.
Variable uniform : R → R → G → R * G.
Variable choice : list string → nat → bool → G → result (list string * G).

(** One round of the composition loop: the neutral and the ionised share of
    a base element, as fractions of 1, and the running total in percent. *)
Definition add_element_pair (ionization_energies : list (string * R))
    (temp electron_density : R) (st : list (string * R) * R)
    (pair : string * string * string) : rand G (list (string * R) * R) :=
  let '(base_elem, elem_neutral, elem_ion) := pair in
  let '(atom_percentages_dict, total_target_percentage) := st in
  let ion_energy := Dict.get_default ionization_energies (base_elem +:+ " I")%string 0.0 in
  if decide (ion_energy = 0.0) then mret st
  else
    saha_ratio ← lift (_saha_ratio ion_energy temp electron_density);
    total_percentage ← ((fun g => Ok (uniform 5 20 g)) : rand G R);
    fraction_neutral ← lift (fdiv 1 (1 + saha_ratio));
    fraction_ion ← lift (fdiv saha_ratio (1 + saha_ratio));
    let percentage_neutral := total_percentage * fraction_neutral in
    let percentage_ion := total_percentage * fraction_ion in
    let d := Dict.set atom_percentages_dict elem_neutral (percentage_neutral / 100.0) in
    let d := Dict.set d elem_ion (percentage_ion / 100.0) in
    mret (d, total_target_percentage + total_percentage).

(** NumPy broadcasting of a vector against [n] bins. *)
Definition broadcast_to (n : nat) (b : list R) : result (list R) :=
  if decide (length b = n) then Ok b
  else match b with
       | [x] => Ok (repeat x n)
       | _ => Raise ValueError
       end.

(** [a += b]. *)
Definition vec_iadd (a b : list R) : result (list R) :=
  b' ← broadcast_to (length a) b;
  Ok (map (fun xy : R * R => fst xy + snd xy) (combine a b')).

(** The first [(spectrum, contrib)] of [zip(spectra, temps, contributions)]
    whose temperature is [temp]. *)
Fixpoint first_at_temperature (spectra : list (list R)) (temps : list R)
    (contributions : list (list R)) (temp : R) : option (list R * list R) :=
  match spectra, temps, contributions with
  | spectrum :: spectra', t :: temps', contrib :: contributions' =>
      if decide (t = temp) then Some (spectrum, contrib)
      else first_at_temperature spectra' temps' contributions' temp
  | _, _, _ => None
  end.

(** One round of the mixing loop: the state is the mixture spectrum and the
    rows of [element_contributions] filled so far. *)
Definition add_species (self : t) (selected_target_elements : list string)
    (atom_percentages : list R) (temp : R) (st : list R * list (list R))
    (simulator : SpectrumSimulator.t) : result (list R * list (list R)) :=
  let '(mixed_spectrum, element_contributions) := st in
  idx ← match list_index (species_label simulator.(SpectrumSimulator.element)
                                        simulator.(SpectrumSimulator.ion))
                         selected_target_elements with
        | Some i => Ok i
        | None => Raise ValueError
        end;
  atom_percentage ← match nth_error atom_percentages idx with
                    | Some p => Ok p
                    | None => Raise IndexError
                    end;
  r ← SpectrumSimulator.simulate simulator atom_percentage;
  match first_at_temperature r.(SpectrumSimulator.sr_spectra)
          r.(SpectrumSimulator.sr_temperatures)
          r.(SpectrumSimulator.sr_contributions) temp with
  | Some (spectrum, contrib) =>
      mixed_spectrum' ← vec_iadd mixed_spectrum spectrum;
      row ← broadcast_to self.(resolution) contrib;
      Ok (mixed_spectrum', element_contributions ++ [row])
  | None => Ok (mixed_spectrum, element_contributions ++ [repeat 0 self.(resolution)])
  end.

(** [np.argmax]: position of the first largest entry. *)
Fixpoint argmax_from (best : R) (best_idx next_idx : nat) (l : list R) : nat :=
  match l with
  | [] => best_idx
  | x :: l' =>
      if Rlt_dec best x then argmax_from x next_idx (S next_idx) l'
      else argmax_from best best_idx (S next_idx) l'
  end.

Definition argmax (l : list R) : nat :=
  match l with
  | [] => 0%nat
  | x :: l' => argmax_from x 0%nat 1%nat l'
  end.

(** The label of one grid bin. The write into [contributions_array], which
    is not returned, still reads [normalized_spectrum[idx]]. *)
Definition label_at (self : t) (selected_simulators : list SpectrumSimulator.t)
    (element_contributions : list (list R)) (normalized_spectrum : ndarray)
    (idx : nat) : result nat :=
  let contributions_at_point := map (fun row => nth idx row 0) element_contributions in
  let total_intensity := Rsum contributions_at_point in
  if Rle_dec self.(intensity_threshold) total_intensity then
    let dominant_sim_idx := argmax contributions_at_point in
    match nth_error selected_simulators dominant_sim_idx with
    | None => Raise IndexError
    | Some sim =>
        match list_index sim.(SpectrumSimulator.element_label) REQUIRED_ELEMENTS with
        | Some dominant_label =>
            _ ← arr_getitem normalized_spectrum idx;
            Ok (dominant_label + 1)%nat
        | None => Ok 0%nat
        end
    end
  else Ok 0%nat.

Definition generate_sample (self : t) (ionization_energies : list (string * R))
    : rand G (option Sample) :=
  let temp := self.(current_T) in
  let electron_density := self.(current_n_e) in
  let num_target_elements := 7%nat in
  selected_base_elements ← (choice BASE_ELEMENTS num_target_elements false : rand G (list string));
  let selected_pairs :=
    map (fun elem => (elem, species_label elem 1, species_label elem 2))
        selected_base_elements in
  let delta_E_values :=
    flat_map (fun pair : string * string * string =>
                let '(_, elem_neutral, elem_ion) := pair in
                List.filter (fun delta_E => bool_decide (0.0 < delta_E))
                       [Dict.get_default self.(delta_E_max) elem_neutral 0.0;
                        Dict.get_default self.(delta_E_max) elem_ion 0.0])
             selected_pairs in
  let delta_E_max := max_or 4.0 delta_E_values in
  '(atom_percentages_dict, total_target_percentage) ←
    foldlM (add_element_pair ionization_energies temp electron_density) ([], 0.0)
           selected_pairs;
  if decide (total_target_percentage = 0) then mret None
  else
    let scaling_factor := 100.0 / total_target_percentage in
    let atom_percentages_dict :=
      map (fun kv : string * R => (fst kv, snd kv * scaling_factor)) atom_percentages_dict in
    let atom_percentages_dict := Dict.set atom_percentages_dict "temperature"%string temp in
    let atom_percentages_dict :=
      Dict.set atom_percentages_dict "electron_density"%string electron_density in
    let atom_percentages_dict := Dict.set atom_percentages_dict "delta_E_max"%string delta_E_max in
    let selected_target_elements := List.filter is_species_key (Dict.keys atom_percentages_dict) in
    let atom_percentages :=
      map (fun elem => Dict.get_default atom_percentages_dict elem 0) selected_target_elements in
    let selected_simulators :=
      List.filter (fun sim => bool_decide
                (species_label sim.(SpectrumSimulator.element) sim.(SpectrumSimulator.ion)
                 ∈ selected_target_elements))
             self.(simulators) in
    match selected_simulators with
    | [] => mret None
    | _ =>
        '(mixed_spectrum, element_contributions) ←
          lift (foldlM (add_species self selected_target_elements atom_percentages temp)
                       (repeat 0 self.(resolution), []) selected_simulators);
        peak ← lift (list_max ValueError mixed_spectrum);
        if decide (peak = 0) then mret None
        else
          convolved_spectrum ← lift (_convolve_spectrum self mixed_spectrum
                                       self.(convolution_sigma));
          normalized_spectrum ← lift (_normalize_intensity convolved_spectrum
                                        SIMULATION_CONFIG.(cfg_target_max_intensity));
          labels ← lift (mapM_result
                           (label_at self selected_simulators element_contributions
                                     normalized_spectrum)
                           (seq 0 self.(resolution)));
          let atom_percentages_dict :=
            map (fun kv : string * R =>
                   (fst kv, if is_species_key (fst kv) then snd kv * 100 else snd kv))
                atom_percentages_dict in
          mret (Some {| s_wavelengths := self.(wavelengths);
                        s_spectrum := normalized_spectrum;
                        s_labels := labels;
                        s_atom_percentages := atom_percentages_dict |})
    end.

End Sampling.

End MixedSpectrumSimulator.

(** ** DatasetGenerator *)

Module DatasetGenerator.

(** [1.6e12 * temp ** 0.5 * delta_E ** 3]. For a negative temperature Python
    computes a complex number ([None] here), which the comparison with a
    density then rejects with [TypeError]. *)
Definition _calculate_lte_electron_density (temp delta_E : R) : option R :=
  if decide (temp < 0) then None else Some (1.6e12 * sqrt temp * delta_E ^ 3).

(** State of the round-robin interleaving. *)
Record round_robin : Type := {
  sample_params : list (R * R);
  indices : list (R * nat);
  remaining : list (R * nat);
  total_remaining : nat
}.

(** Body of [for T in self.temperature_range] inside the [while] loop. *)
Definition take_next (temp_specific_params : list (R * list (R * R)))
    (st : round_robin) (T : R) : result round_robin :=
  if (0 <? Dict.get_default st.(remaining) T 0)%nat then
    let idx := Dict.get_default st.(indices) T 0%nat in
    match nth_error (Dict.get_default temp_specific_params T []) idx with
    | None => Raise IndexError
    | Some param =>
        Ok {| sample_params := st.(sample_params) ++ [param];
              indices := Dict.set st.(indices) T (idx + 1)%nat;
              remaining := Dict.set st.(remaining) T
                             (Dict.get_default st.(remaining) T 0 - 1)%nat;
              total_remaining := (st.(total_remaining) - 1)%nat |}
    end
  else Ok st.

(** [while total_remaining > 0]: at most [fuel] passes over the
    temperatures; [Diverges] stands for a loop that has not ended by then. *)
Fixpoint interleave (fuel : nat) (temp_specific_params : list (R * list (R * R)))
    (temperature_range : list R) (st : round_robin) : result round_robin :=
  if (0 <? st.(total_remaining))%nat then
    match fuel with
    | O => Raise Diverges
    | S fuel' =>
        st' ← foldlM (take_next temp_specific_params) st temperature_range;
        interleave fuel' temp_specific_params temperature_range st'
    end
  else Ok st.

Section WithRandom.
Variable rs : RandomState.

(** Body of [for i, T in enumerate(self.temperature_range)]: the pairs of
    temperature [T], appended to its entry of [temp_specific_params]. *)
Definition schedule_temperature (config : Config) (delta_E_max_dict : list (string * R))
    (samples_per_temp remainder : nat)
    (temp_specific_params : list (R * list (R * R))) (iT : nat * R)
    : rand rs.(rng) (list (R * list (R * R))) :=
  let '(i, T) := iT in
  let n_samples_for_temp := (samples_per_temp + (if (i <? remainder)%nat then 1 else 0))%nat in
  let delta_E_values :=
    List.filter (fun v => bool_decide (0 < v)) (Dict.values delta_E_max_dict) in
  let delta_E_max_value := MixedSpectrumSimulator.max_or 4.0 delta_E_values in
  let n_e_min := _calculate_lte_electron_density T delta_E_max_value in
  valid_n_e ← lift (match n_e_min with
                    | Some n_e_min =>
                        Ok (List.filter (fun n_e => bool_decide (n_e_min <= n_e))
                                        config.(cfg_electron_density_range))
                    | None =>
                        match config.(cfg_electron_density_range) with
                        | [] => Ok []
                        | _ => Raise TypeError
                        end
                    end);
  let valid_n_e :=
    match valid_n_e with
    | [] => config.(cfg_electron_density_range)
    | _ => valid_n_e
    end in
  let max_ne_per_temp := Nat.min (length valid_n_e) 5 in
  let max_ne_per_temp :=
    if decide (max_ne_per_temp = 0%nat) then length config.(cfg_electron_density_range)
    else max_ne_per_temp in
  selected_n_e ← (rs.(choice) R valid_n_e max_ne_per_temp false : rand rs.(rng) (list R));
  selected_n_e ←
    (if (length selected_n_e <? n_samples_for_temp)%nat then
       additional_n_e ← (rs.(choice) R selected_n_e
                           (n_samples_for_temp - length selected_n_e) true
                         : rand rs.(rng) (list R));
       mret (selected_n_e ++ additional_n_e)
     else mret selected_n_e);
  mret (Dict.set temp_specific_params T
          (Dict.get_default temp_specific_params T []
           ++ map (fun n_e => (T, n_e)) (firstn n_samples_for_temp selected_n_e))).

(** [while len(sample_params) < self.num_samples]: one duplicate per round. *)
Fixpoint pad_with_duplicates (fuel : nat) (num_samples : nat) (sample_params : list (R * R))
    : rand rs.(rng) (list (R * R)) :=
  if (length sample_params <? num_samples)%nat then
    match fuel with
    | O => lift (Raise Diverges)
    | S fuel' =>
        idx ← (rs.(randint) 0 (length sample_params) : rand rs.(rng) nat);
        param ← lift (match nth_error sample_params idx with
                      | Some p => Ok p
                      | None => Raise IndexError
                      end);
        pad_with_duplicates fuel' num_samples (sample_params ++ [param])
    end
  else mret sample_params.

Definition _generate_sample_params (config : Config) (delta_E_max_dict : list (string * R))
    : rand rs.(rng) (list (R * R)) :=
  let temperature_range := config.(cfg_temperature_range) in
  let num_temperatures := length temperature_range in
  if decide (num_temperatures = 0%nat) then lift (Raise ZeroDivisionError)
  else
    let samples_per_temp := (config.(cfg_num_samples) / num_temperatures)%nat in
    let remainder := (config.(cfg_num_samples) mod num_temperatures)%nat in
    let temp_specific_params :=
      fold_left (fun d T => Dict.set d T []) temperature_range [] in
    temp_specific_params ←
      foldlM (schedule_temperature config delta_E_max_dict samples_per_temp remainder)
             temp_specific_params
             (combine (seq 0 num_temperatures) temperature_range);
    let indices := fold_left (fun d T => Dict.set d T 0%nat) temperature_range [] in
    let remaining := map (fun Tp : R * list (R * R) => (fst Tp, length (snd Tp)))
                         temp_specific_params in
    let total_remaining := nat_sum (Dict.values remaining) in
    st ← lift (interleave total_remaining temp_specific_params temperature_range
                 {| sample_params := [];
                    indices := indices;
                    remaining := remaining;
                    total_remaining := total_remaining |});
    let sample_params := st.(sample_params) in
    if (length sample_params <? config.(cfg_num_samples))%nat then
      pad_with_duplicates (config.(cfg_num_samples) - length sample_params)
        config.(cfg_num_samples) sample_params
    else if (config.(cfg_num_samples) <? length sample_params)%nat then
      mret (firstn config.(cfg_num_samples) sample_params)
    else mret sample_params.

End WithRandom.
(** *** Deduplication *)

(** Python's number formatting, [round], [str] of a list of pairs and
    SHA-256, taken as given. *)
Record Formatting : Type := {
  format_2f : R → string;
  format_2e : R → string;
  round6 : R → R;
  str_pairs : list (string * R) → string;
  sha256_hex : string → string
}.

(** [sorted(..., key=lambda x: x[0])]: stable insertion by key. *)
Fixpoint insert_by_key (kv : string * R) (l : list (string * R)) : list (string * R) :=
  match l with
  | [] => [kv]
  | kv' :: l' =>
      if String.ltb (fst kv') (fst kv) then kv' :: insert_by_key kv l'
      else kv :: l
  end.

Definition sorted_by_key (l : list (string * R)) : list (string * R) :=
  fold_right insert_by_key [] l.

Definition _hash_combination (fmt : Formatting) (temp n_e : R)
    (atom_percentages : list (string * R)) : string :=
  let elements_sorted :=
    sorted_by_key
      (map (fun kv : string * R => (fst kv, fmt.(round6) (snd kv)))
           (List.filter (fun kv => MixedSpectrumSimulator.is_species_key (fst kv))
                        atom_percentages)) in
  let combination_str :=
    (fmt.(format_2f) temp +:+ "_" +:+ fmt.(format_2e) n_e +:+ "_"
     +:+ fmt.(str_pairs) elements_sorted)%string in
  fmt.(sha256_hex) combination_str.

Record Combination : Type := {
  c_sample_id : string;
  c_hash : string;
  c_temperature : R;
  c_electron_density : R;
  c_elements : list (string * R);
  c_delta_E_max : R
}.

(** The file [combinations.json]: absent, a JSON array of records, or
    content that [json.load] rejects. *)
Inductive json_file : Type :=
  | Missing
  | Records (data : list Combination)
  | Unreadable.

(** What the environment does to one read-modify-write of the log: nothing,
    an error before the file is opened for writing, or an error after it was
    truncated. *)
Inductive io_fault : Type :=
  | NoFault
  | FailsBeforeWrite
  | FailsWhileWriting.

Definition _load_used_combinations (log : json_file) : gset string :=
  match log with
  | Records data => list_to_set (map c_hash data)
  | Missing | Unreadable => ∅
  end.

(** [_save_combination]: every exception is caught, so the method returns
    in all cases; the result is the content of the file afterwards. *)
Definition _save_combination (log : json_file) (combination : Combination)
    (fault : io_fault) : json_file :=
  match log with
  | Unreadable => Unreadable
  | Missing =>
      match fault with
      | NoFault => Records [combination]
      | FailsBeforeWrite => Missing
      | FailsWhileWriting => Unreadable
      end
  | Records data =>
      match fault with
      | NoFault => Records (data ++ [combination])
      | FailsBeforeWrite => Records data
      | FailsWhileWriting => Unreadable
      end
  end.

(** *** The dataset file *)

Record H5Group : Type := {
  spectra : option (list (list R));
  labels : option (list (list nat));
  atom_percentages : option (list (list (string * R)))
}.

Inductive attr : Type :=
  | AttrStr (s : string)
  | AttrNat (n : nat)
  | AttrConfig (c : Config).

Record H5File : Type := {
  h5_wavelengths : option (list R);
  h5_groups : gmap string H5Group;
  h5_attrs : gmap string attr
}.

Definition SPLITS : list string := ["train"; "validation"; "test"]%string.

(** One split in memory: spectra, labels and composition records. *)
Definition split_data : Type :=
  (list (list R) * list (list nat) * list (list (string * R)))%type.

(** [existing_data[ds_name]] as read from the file. *)
Definition read_split (f : option H5File) (ds_name : string) : split_data :=
  match f with
  | None => ([], [], [])
  | Some f =>
      match f.(h5_groups) !! ds_name with
      | None => ([], [], [])
      | Some grp =>
          (default [] grp.(spectra), default [] grp.(labels),
           default [] grp.(atom_percentages))
      end
  end.

(** [np.concatenate([existing, new]) if len(existing) > 0 else new] on
    two-dimensional arrays. [new] holds rows of an array with [width]
    columns, and may hold none: NumPy compares the second dimensions of the
    two arrays, also when one has no row. *)
Definition concat_rows {A : Type} (width : nat) (existing new : list (list A))
    : result (list (list A)) :=
  match existing with
  | [] => Ok new
  | row :: _ =>
      if (length row =? width)%nat then Ok (existing ++ new)
      else Raise ValueError
  end.

(** [spectra_width] and [labels_width] are the second dimensions of
    [spectra_array] and [labels_array]. *)
Definition combine_split (spectra_width labels_width : nat) (existing new : split_data)
    : result split_data :=
  let '(existing_spectra, existing_labels, existing_atom_percentages) := existing in
  let '(new_spectra, new_labels, new_atom_percentages) := new in
  combined_spectra ← concat_rows spectra_width existing_spectra new_spectra;
  combined_labels ← concat_rows labels_width existing_labels new_labels;
  let combined_atom_percentages :=
    match existing_atom_percentages with
    | [] => new_atom_percentages
    | _ => existing_atom_percentages ++ new_atom_percentages
    end in
  Ok (combined_spectra, combined_labels, combined_atom_percentages).

Definition group_of (d : split_data) : H5Group :=
  let '(s, l, a) := d in
  {| spectra := Some s; labels := Some l; atom_percentages := Some a |}.

(** The [with h5py.File(output_path, 'a')] block. *)
Definition write_dataset (f : option H5File) (wavelengths_array : list R)
    (train validation test : split_data) (now : string) (config : Config) : H5File :=
  let groups := match f with Some f => f.(h5_groups) | None => ∅ end in
  let attrs := match f with Some f => f.(h5_attrs) | None => ∅ end in
  let groups := foldr delete groups SPLITS in
  let groups := <["train"%string := group_of train]> groups in
  let groups := <["validation"%string := group_of validation]> groups in
  let groups := <["test"%string := group_of test]> groups in
  let total_samples :=
    (length (fst (fst train)) + length (fst (fst validation)) + length (fst (fst test)))%nat in
  let attrs := <["lastbud"%string := AttrStr now]> attrs in
  let attrs := <["total_samples"%string := AttrNat total_samples]> attrs in
  let attrs := <["simulation_config"%string := AttrConfig config]> attrs in
  {| h5_wavelengths := Some wavelengths_array; h5_groups := groups; h5_attrs := attrs |}.

(** *** The driver *)

Section Driver.
Variable rs : RandomState.
Variable fmt : Formatting.

(** Everything the run reads and changes. [w_trace] is not kept by the
    program: it records, for each acceptance that reached
    [used_combinations.add], the hash and the sample. *)
Record state : Type := {
  w_rng : rs.(rng);
  w_used : gset string;
  w_accepted : list MixedSpectrumSimulator.Sample;
  w_trace : list (string * MixedSpectrumSimulator.Sample);
  w_log : json_file;
  w_faults : list io_fault;
  w_dataset : option H5File;
  w_backups : list H5File
}.

(** Statements of the driver: the state survives an exception. *)
Definition drv (A : Type) : Type := state → result A * state.

#[global] Instance drv_ret : MRet drv := fun A a st => (Ok a, st).
#[global] Instance drv_bind : MBind drv := fun A B k m st =>
  match m st with
  | (Ok a, st') => k a st'
  | (Raise e, st') => (Raise e, st')
  end.

Definition get_state : drv state := fun st => (Ok st, st).
Definition modify (f : state → state) : drv unit := fun st => (Ok tt, f st).
Definition raise {A : Type} (e : exn) : drv A := fun st => (Raise e, st).

Definition set_rng (g : rs.(rng)) (st : state) : state :=
  {| w_rng := g; w_used := st.(w_used); w_accepted := st.(w_accepted);
     w_trace := st.(w_trace); w_log := st.(w_log); w_faults := st.(w_faults);
     w_dataset := st.(w_dataset); w_backups := st.(w_backups) |}.

Definition draw {A : Type} (m : rand rs.(rng) A) : drv A := fun st =>
  match m st.(w_rng) with
  | Ok (a, g') => (Ok a, set_rng g' st)
  | Raise e => (Raise e, st)
  end.

Definition start_run (st : state) : state :=
  {| w_rng := rs.(seed) 42; w_used := _load_used_combinations st.(w_log);
     w_accepted := []; w_trace := []; w_log := st.(w_log); w_faults := st.(w_faults);
     w_dataset := st.(w_dataset); w_backups := st.(w_backups) |}.

(** The four [append]s. *)
Definition append_sample (sample : MixedSpectrumSimulator.Sample) (st : state) : state :=
  {| w_rng := st.(w_rng); w_used := st.(w_used);
     w_accepted := st.(w_accepted) ++ [sample];
     w_trace := st.(w_trace); w_log := st.(w_log); w_faults := st.(w_faults);
     w_dataset := st.(w_dataset); w_backups := st.(w_backups) |}.

(** [self._save_combination(combination)] under the next fault of the
    environment. *)
Definition save_combination (combination : Combination) (st : state) : state :=
  {| w_rng := st.(w_rng); w_used := st.(w_used); w_accepted := st.(w_accepted);
     w_trace := st.(w_trace);
     w_log := _save_combination st.(w_log) combination (hd NoFault st.(w_faults));
     w_faults := tl st.(w_faults);
     w_dataset := st.(w_dataset); w_backups := st.(w_backups) |}.

(** [self.used_combinations.add(combination_hash)]. *)
Definition add_used (combination_hash : string) (sample : MixedSpectrumSimulator.Sample)
    (st : state) : state :=
  {| w_rng := st.(w_rng); w_used := {[combination_hash]} ∪ st.(w_used);
     w_accepted := st.(w_accepted);
     w_trace := st.(w_trace) ++ [(combination_hash, sample)];
     w_log := st.(w_log); w_faults := st.(w_faults);
     w_dataset := st.(w_dataset); w_backups := st.(w_backups) |}.

Definition set_dataset (f : H5File) (st : state) : state :=
  {| w_rng := st.(w_rng); w_used := st.(w_used); w_accepted := st.(w_accepted);
     w_trace := st.(w_trace); w_log := st.(w_log); w_faults := st.(w_faults);
     w_dataset := Some f; w_backups := st.(w_backups) |}.

Definition add_backup (f : H5File) (st : state) : state :=
  {| w_rng := st.(w_rng); w_used := st.(w_used); w_accepted := st.(w_accepted);
     w_trace := st.(w_trace); w_log := st.(w_log); w_faults := st.(w_faults);
     w_dataset := st.(w_dataset); w_backups := st.(w_backups) ++ [f] |}.

(** [mixed_simulator.generate_sample(ionization_energies)] with
    [current_T] and [current_n_e] set. *)
Variable generate : R → R → rand rs.(rng) (option MixedSpectrumSimulator.Sample).

(** The [combination] dictionary of an accepted sample. *)
Definition combination_of (used_combinations : gset string) (T n_e : R)
    (sample : MixedSpectrumSimulator.Sample) (delta_E_max : R) : Combination :=
  {| c_sample_id := ("sample_" +:+ pretty (size used_combinations + 1)%nat)%string;
     c_hash := _hash_combination fmt T n_e sample.(MixedSpectrumSimulator.s_atom_percentages);
     c_temperature := T;
     c_electron_density := n_e;
     c_elements :=
       List.filter (fun kv => MixedSpectrumSimulator.is_species_key (fst kv))
                   sample.(MixedSpectrumSimulator.s_atom_percentages);
     c_delta_E_max := delta_E_max |}.

(** [while attempt < max_attempts and not sample_generated]; the result is
    [sample_generated]. *)
Fixpoint attempt_sample (attempts_left : nat) (T n_e : R) : drv bool :=
  match attempts_left with
  | O => mret false
  | S attempts_left' =>
      result ← draw (generate T n_e);
      match result with
      | None => attempt_sample attempts_left' T n_e
      | Some sample =>
          st ← get_state;
          let atom_percentages := sample.(MixedSpectrumSimulator.s_atom_percentages) in
          let combination_hash := _hash_combination fmt T n_e atom_percentages in
          if decide (combination_hash ∈ st.(w_used)) then attempt_sample attempts_left' T n_e
          else
            _ ← modify (append_sample sample);
            delta_E_max ← match Dict.get atom_percentages "delta_E_max"%string with
                          | Some d => mret d
                          | None => raise KeyError
                          end;
            let combination := combination_of st.(w_used) T n_e sample delta_E_max in
            _ ← modify (save_combination combination);
            _ ← modify (add_used combination_hash sample);
            mret true
      end
  end.

(** Body of the loop over [sample_params]; the progress test divides by
    [num_samples // 5]. *)
Definition process_slot (num_samples : nat) (_ : unit) (param : R * R) : drv unit :=
  let '(T, n_e) := param in
  _ ← attempt_sample 5 T n_e;
  if decide ((num_samples / 5)%nat = 0%nat) then raise ZeroDivisionError else mret tt.

(** [array[idx]] with a list of row indices. *)
Definition take_rows {A : Type} (rows : list A) (idx : list nat) : result (list A) :=
  mapM_result (fun i => match nth_error rows i with
                        | Some r => Ok r
                        | None => Raise IndexError
                        end) idx.

Definition split_of (samples : list MixedSpectrumSimulator.Sample) (idx : list nat)
    : result split_data :=
  chosen ← take_rows samples idx;
  Ok (map (fun s => arr_values s.(MixedSpectrumSimulator.s_spectrum)) chosen,
      map MixedSpectrumSimulator.s_labels chosen,
      map MixedSpectrumSimulator.s_atom_percentages chosen).

Definition lift_result {A : Type} (r : result A) : drv A := fun st =>
  match r with
  | Ok a => (Ok a, st)
  | Raise e => (Raise e, st)
  end.

(** From [if not spectra_list] to the end of [generate_dataset]. *)
Definition persist (config : Config) (now : string) : drv unit :=
  st ← get_state;
  match st.(w_accepted) with
  | [] => raise ValueError
  | first :: _ =>
      let spectra_list := st.(w_accepted) in
      let wavelengths_array := first.(MixedSpectrumSimulator.s_wavelengths) in
      (* the second dimensions of [np.array(spectra_list)] and
         [np.array(labels_list)]: the length of a row, read off the first *)
      let spectra_width := length (arr_values first.(MixedSpectrumSimulator.s_spectrum)) in
      let labels_width := length first.(MixedSpectrumSimulator.s_labels) in
      let num_train := int_of_product FLOAT_0_7 (length spectra_list) in
      let num_val := int_of_product FLOAT_0_15 (length spectra_list) in
      indices ← draw (fun g => Ok (rs.(permutation) (length spectra_list) g));
      let train_idx := firstn num_train indices in
      let val_idx := firstn num_val (skipn num_train indices) in
      let test_idx := skipn (num_train + num_val) indices in
      train_data ← lift_result (split_of spectra_list train_idx);
      val_data ← lift_result (split_of spectra_list val_idx);
      test_data ← lift_result (split_of spectra_list test_idx);
      _ ← match st.(w_dataset) with
          | Some f => modify (add_backup f)
          | None => mret tt
          end;
      _ ← match st.(w_dataset) with
          | Some f =>
              match f.(h5_wavelengths) with
              | Some existing_wavelengths =>
                  if decide (existing_wavelengths = wavelengths_array) then mret tt
                  else raise ValueError
              | None => mret tt
              end
          | None => mret tt
          end;
      train ← lift_result (combine_split spectra_width labels_width
                             (read_split st.(w_dataset) "train") train_data);
      validation ← lift_result (combine_split spectra_width labels_width
                                  (read_split st.(w_dataset) "validation") val_data);
      test ← lift_result (combine_split spectra_width labels_width
                            (read_split st.(w_dataset) "test") test_data);
      modify (set_dataset (write_dataset st.(w_dataset) wavelengths_array
                                         train validation test now config))
  end.

Definition run (config : Config) (delta_E_max : list (string * R)) (now : string)
    : drv unit :=
  _ ← modify start_run;
  sample_params ← draw (_generate_sample_params rs config delta_E_max);
  _ ← foldlM (process_slot config.(cfg_num_samples)) tt sample_params;
  persist config now.

End Driver.

(** [generate_dataset]: the run with the mixture simulator of the given
    species as sample generator. *)
Definition generate_dataset (rs : RandomState) (fmt : Formatting) (config : Config)
    (simulators : list SpectrumSimulator.t) (delta_E_max : list (string * R))
    (ionization_energies : list (string * R)) (now : string) : drv rs unit :=
  let mixed_simulator := MixedSpectrumSimulator.init simulators config delta_E_max in
  run rs fmt
    (fun T n_e =>
       MixedSpectrumSimulator.generate_sample rs.(uniform) (rs.(choice) string)
         (MixedSpectrumSimulator.set_conditions mixed_simulator T n_e) ionization_energies)
    config delta_E_max now.

End DatasetGenerator.


(** ** The instrument convolution as the specification words it *)

(** Edge padding: [p] copies of the first value before the signal and [p]
    copies of the last value after it. *)
Definition edge_padded (signal : list R) (p : nat) : list R :=
  repeat (hd 0 signal) p ++ signal ++ repeat (List.last signal 0) p.

Definition convolve_edge_padded (kernel signal : list R) (p : nat) : list R :=
  map (fun i : nat => dot kernel (skipn i (edge_padded signal p))) (seq 0 (length signal)).

(** What the code pads with. *)
Definition zero_padded (signal : list R) (p : nat) : list R :=
  repeat 0 p ++ signal ++ repeat 0 p.

(** A two-point grid over 0..1 nm. *)
Definition two_point_config : Config :=
  {| cfg_resolution := 2;
     cfg_wl_range := (0, 1);
     cfg_sigma := SIMULATION_CONFIG.(cfg_sigma);
     cfg_target_max_intensity := SIMULATION_CONFIG.(cfg_target_max_intensity);
     cfg_convolution_sigma := 0.5;
     cfg_num_samples := SIMULATION_CONFIG.(cfg_num_samples);
     cfg_temperature_range := SIMULATION_CONFIG.(cfg_temperature_range);
     cfg_electron_density_range := SIMULATION_CONFIG.(cfg_electron_density_range) |}.

(** The two dictionary keys of a base element. *)
Definition pair_keys (elem : string) : list string :=
  [species_label elem 1; species_label elem 2].

(** What the composition loop maintains: the fractions add up to the
    running total (in percent) over 100, and the keys are species keys of
    the elements seen so far. *)
Definition composition_ok (seen : list string) (st : list (string * R) * R) : Prop :=
  Rsum (Dict.values (fst st)) = snd st / 100
  ∧ (∀ k, In k (Dict.keys (fst st)) → In k (flat_map pair_keys seen)).

(** ** Reference notions for the scheduler *)

(** Number of scheduled pairs with temperature [T]. *)
Definition count_temperature (T : R) (params : list (R * R)) : nat :=
  length (List.filter (fun p : R * R => bool_decide (fst p = T)) params).

(** The quota of the [i]-th temperature: the even share, plus one for the
    first [remainder] temperatures. *)
Definition quota (num_samples num_temperatures i : nat) : nat :=
  (num_samples / num_temperatures
   + (if (i <? num_samples mod num_temperatures)%nat then 1 else 0))%nat.

(** The densities the scheduler draws from for temperature [T]: the
    densities of the configured range that reach the LTE minimum
    [1.6e12 * sqrt(T) * delta_E ** 3], where [delta_E] is the largest
    positive entry of [delta_E_max_dict] (4.0 without one), or the whole
    range when none reaches it. *)
Definition valid_densities (config : Config) (delta_E_max_dict : list (string * R))
    (T : R) : list R :=
  let delta_E_values :=
    List.filter (fun v => bool_decide (0 < v)) (Dict.values delta_E_max_dict) in
  let delta_E_max_value := MixedSpectrumSimulator.max_or 4.0 delta_E_values in
  let valid_n_e :=
    List.filter (fun n_e => bool_decide (1.6e12 * sqrt T * delta_E_max_value ^ 3 <= n_e))
                config.(cfg_electron_density_range) in
  match valid_n_e with
  | [] => config.(cfg_electron_density_range)
  | _ => valid_n_e
  end.

(** What the round-robin loop maintains. [total] is the number of pairs in
    [temp_specific_params]. *)
Definition interleave_inv (temp_specific_params : list (R * list (R * R)))
    (temperature_range : list R) (total : nat)
    (st : DatasetGenerator.round_robin) : Prop :=
  NoDup (Dict.keys st.(DatasetGenerator.remaining))
  ∧ (∀ T, In T (Dict.keys st.(DatasetGenerator.remaining)) → In T temperature_range)
  ∧ st.(DatasetGenerator.total_remaining)
    = nat_sum (Dict.values st.(DatasetGenerator.remaining))
  ∧ (∀ T, (Dict.get_default st.(DatasetGenerator.indices) T 0
           + Dict.get_default st.(DatasetGenerator.remaining) T 0
           = length (Dict.get_default temp_specific_params T []))%nat)
  ∧ (length st.(DatasetGenerator.sample_params) + st.(DatasetGenerator.total_remaining)
     = total)%nat
  ∧ (∀ T, count_temperature T st.(DatasetGenerator.sample_params)
          = Dict.get_default st.(DatasetGenerator.indices) T 0%nat)
  ∧ (∀ p, In p st.(DatasetGenerator.sample_params) →
          In p (Dict.get_default temp_specific_params (fst p) [])).

(** Pairs scheduled for temperature [T] by the rounds [rounds] of the first
    loop, each round being an index and its temperature. *)
Definition scheduled_for (num_samples num_temperatures : nat) (rounds : list (nat * R))
    (T : R) : nat :=
  nat_sum (map (fun iT : nat * R =>
                  if decide (snd iT = T) then quota num_samples num_temperatures (fst iT)
                  else 0%nat) rounds).

(** Number of pairs in [temp_specific_params]. *)
Definition total_pairs (temp_specific_params : list (R * list (R * R))) : nat :=
  nat_sum (map (fun Tp : R * list (R * R) => length (snd Tp)) temp_specific_params).

(** ** Reference notions for the driver *)

(** What deduplication maintains, [loaded] being the hashes read from the
    combination log at the start of the run: the set of used hashes is
    [loaded] plus the hashes of the acceptances, which are pairwise distinct,
    not in [loaded], and each the hash of its sample. *)
Definition dedup_inv (rs : RandomState) (fmt : DatasetGenerator.Formatting)
    (loaded : gset string) (st : DatasetGenerator.state rs) : Prop :=
  st.(DatasetGenerator.w_used rs)
  = loaded ∪ list_to_set (map fst st.(DatasetGenerator.w_trace rs))
  ∧ NoDup (map fst st.(DatasetGenerator.w_trace rs))
  ∧ (∀ h, h ∈ map fst st.(DatasetGenerator.w_trace rs) → h ∉ loaded)
  ∧ Forall (fun hs : string * MixedSpectrumSimulator.Sample =>
              ∃ T n_e, fst hs = DatasetGenerator._hash_combination fmt T n_e
                                  (snd hs).(MixedSpectrumSimulator.s_atom_percentages))
           st.(DatasetGenerator.w_trace rs).

(** The dataset file and its backups are the same in both states. *)
Definition same_files (rs : RandomState) (st st' : DatasetGenerator.state rs) : Prop :=
  st'.(DatasetGenerator.w_dataset rs) = st.(DatasetGenerator.w_dataset rs)
  ∧ st'.(DatasetGenerator.w_backups rs) = st.(DatasetGenerator.w_backups rs).

(** Hashes recorded in the combination log. *)
Definition logged_hashes (log : DatasetGenerator.json_file) : list string :=
  match log with
  | DatasetGenerator.Records data => map DatasetGenerator.c_hash data
  | _ => []
  end.

(** The fields that the persistence phase only reads are the same in both
    states. *)
Definition same_memory (rs : RandomState) (st st' : DatasetGenerator.state rs) : Prop :=
  st'.(DatasetGenerator.w_used rs) = st.(DatasetGenerator.w_used rs)
  ∧ st'.(DatasetGenerator.w_trace rs) = st.(DatasetGenerator.w_trace rs)
  ∧ st'.(DatasetGenerator.w_accepted rs) = st.(DatasetGenerator.w_accepted rs)
  ∧ st'.(DatasetGenerator.w_log rs) = st.(DatasetGenerator.w_log rs)
  ∧ st'.(DatasetGenerator.w_faults rs) = st.(DatasetGenerator.w_faults rs).

(** ** A one-species mixture *)

(** A run of five samples on a two-point grid over 0..1 nm, at 10000 K and
    an electron density of 1e16 cm^-3. *)
Definition example_config : Config :=
  {| cfg_resolution := 2;
     cfg_wl_range := (0, 1);
     cfg_sigma := 0.1;
     cfg_target_max_intensity := 0.8;
     cfg_convolution_sigma := 0.5;
     cfg_num_samples := 5;
     cfg_temperature_range := [10000];
     cfg_electron_density_range := [1e16] |}.

(** Neutral silicon with a single transition at 0.5 nm; only silicon has an
    ionization energy. *)
Definition example_simulator : SpectrumSimulator.t :=
  SpectrumSimulator.init
    [[PFloat 0.5; PFloat 1e8; PFloat 3; PFloat 0; PFloat 2; PFloat 4; PObj]]
    "Si" 1 [10000] 8.15 example_config.

Definition example_mixture : MixedSpectrumSimulator.t :=
  MixedSpectrumSimulator.set_conditions
    (MixedSpectrumSimulator.init [example_simulator] example_config []) 10000 1e16.

Definition example_ionization_energies : list (string * R) := [("Si I"%string, 8.15)].

(** ** Reference notions for the combination log *)

(** What the log writes of a run maintain, [faults] being what the
    environment does to the successive writes and [log0] the log at the
    start: each acceptance consumed one fault, and a hash in the log was
    there at the start or belongs to an acceptance whose write met no
    fault. *)
Definition log_inv (rs : RandomState) (faults : list DatasetGenerator.io_fault)
    (log0 : DatasetGenerator.json_file) (st : DatasetGenerator.state rs) : Prop :=
  st.(DatasetGenerator.w_faults rs)
  = skipn (length st.(DatasetGenerator.w_trace rs)) faults
  ∧ ∀ h, In h (logged_hashes st.(DatasetGenerator.w_log rs)) →
      In h (logged_hashes log0)
      ∨ ∃ j sample, nth_error st.(DatasetGenerator.w_trace rs) j = Some (h, sample)
                  ∧ nth j faults DatasetGenerator.NoFault = DatasetGenerator.NoFault.

(** The dataset file holds the spectrum and the composition record of
    [sample] in one of its three splits. *)
Definition persisted (f : DatasetGenerator.H5File) (sample : MixedSpectrumSimulator.Sample)
    : Prop :=
  ∃ ds grp rows records,
    In ds DatasetGenerator.SPLITS
    ∧ f.(DatasetGenerator.h5_groups) !! ds = Some grp
    ∧ grp.(DatasetGenerator.spectra) = Some rows
    ∧ In (arr_values sample.(MixedSpectrumSimulator.s_spectrum)) rows
    ∧ grp.(DatasetGenerator.atom_percentages) = Some records
    ∧ In sample.(MixedSpectrumSimulator.s_atom_percentages) records.

(** ** An example run *)

(** A formatting that keeps the keys of the composition only. *)
Definition plain_formatting : DatasetGenerator.Formatting :=
  {| DatasetGenerator.format_2f := fun _ => "T"%string;
     DatasetGenerator.format_2e := fun _ => "n"%string;
     DatasetGenerator.round6 := fun x => x;
     DatasetGenerator.str_pairs := fun l => String.concat "," (map fst l);
     DatasetGenerator.sha256_hex := fun s => s |}.

(** Before a first run: no combination log, nothing in memory, and the
    given faults and dataset file. *)
Definition example_state (faults : list DatasetGenerator.io_fault)
    (dataset : option DatasetGenerator.H5File) : DatasetGenerator.state first_draws :=
  {| DatasetGenerator.w_rng := (tt : first_draws.(rng));
     DatasetGenerator.w_used := ∅;
     DatasetGenerator.w_accepted := [];
     DatasetGenerator.w_trace := [];
     DatasetGenerator.w_log := DatasetGenerator.Missing;
     DatasetGenerator.w_faults := faults;
     DatasetGenerator.w_dataset := dataset;
     DatasetGenerator.w_backups := [] |}.

(** A dataset file written for another grid. *)
Definition stale_dataset : DatasetGenerator.H5File :=
  {| DatasetGenerator.h5_wavelengths := Some [];
     DatasetGenerator.h5_groups := ∅;
     DatasetGenerator.h5_attrs := ∅ |}.

(** The sample generator of [generate_dataset] on the example. *)
Definition example_generate : R → R → rand unit (option MixedSpectrumSimulator.Sample) :=
  fun T n_e =>
    MixedSpectrumSimulator.generate_sample first_draws.(uniform) (first_draws.(choice) string)
      (MixedSpectrumSimulator.set_conditions
         (MixedSpectrumSimulator.init [example_simulator] example_config []) T n_e)
      example_ionization_energies.

(** An array in ascending order, as [np.searchsorted] expects. *)
Definition ascending (a : list R) : Prop :=
  ∀ i j : nat, (i ≤ j)%nat → (j < length a)%nat → nth i a 0 <= nth j a 0.

(** ** Reference notions for the line loop *)

(** What the line loop of [simulate] maintains: both arrays keep
    [resolution] bins, every recorded peak index is a bin of the grid, and
    the three lists of line data have one entry per recorded line. *)
Definition acc_ok (self : SpectrumSimulator.t) (a : SpectrumSimulator.acc) : Prop :=
  length a.(SpectrumSimulator.intensities) = self.(SpectrumSimulator.resolution)
  ∧ length a.(SpectrumSimulator.element_contributions) = self.(SpectrumSimulator.resolution)
  ∧ Forall (fun i => (i < self.(SpectrumSimulator.resolution))%nat)
           a.(SpectrumSimulator.peak_idx)
  ∧ length a.(SpectrumSimulator.peak_label) = length a.(SpectrumSimulator.peak_idx)
  ∧ length a.(SpectrumSimulator.temp_intensity_data) = length a.(SpectrumSimulator.peak_idx).

(** Successive writes of the combination log, each with what the
    environment does to it. *)
Definition save_all (log : DatasetGenerator.json_file)
    (writes : list (DatasetGenerator.Combination * DatasetGenerator.io_fault))
    : DatasetGenerator.json_file :=
  fold_left (fun log w => DatasetGenerator._save_combination log (fst w) (snd w)) writes log.

(** The hashes of the writes that met no fault. *)
Definition written_hashes
    (writes : list (DatasetGenerator.Combination * DatasetGenerator.io_fault)) : list string :=
  map (fun w => DatasetGenerator.c_hash (fst w))
      (List.filter (fun w => match snd w with DatasetGenerator.NoFault => true | _ => false end)
                   writes).

(** Two states of the driver that differ at most in the random generator. *)
Definition same_but_rng (rs : RandomState) (st st' : DatasetGenerator.state rs) : Prop :=
  st'.(DatasetGenerator.w_used rs) = st.(DatasetGenerator.w_used rs)
  ∧ st'.(DatasetGenerator.w_accepted rs) = st.(DatasetGenerator.w_accepted rs)
  ∧ st'.(DatasetGenerator.w_trace rs) = st.(DatasetGenerator.w_trace rs)
  ∧ st'.(DatasetGenerator.w_log rs) = st.(DatasetGenerator.w_log rs)
  ∧ st'.(DatasetGenerator.w_faults rs) = st.(DatasetGenerator.w_faults rs)
  ∧ st'.(DatasetGenerator.w_dataset rs) = st.(DatasetGenerator.w_dataset rs)
  ∧ st'.(DatasetGenerator.w_backups rs) = st.(DatasetGenerator.w_backups rs).

(** The example configuration with three samples. *)
Definition few_samples_config : Config :=
  {| cfg_resolution := example_config.(cfg_resolution);
     cfg_wl_range := example_config.(cfg_wl_range);
     cfg_sigma := example_config.(cfg_sigma);
     cfg_target_max_intensity := example_config.(cfg_target_max_intensity);
     cfg_convolution_sigma := example_config.(cfg_convolution_sigma);
     cfg_num_samples := 3;
     cfg_temperature_range := example_config.(cfg_temperature_range);
     cfg_electron_density_range := example_config.(cfg_electron_density_range) |}.

(** A sample on the two-point grid. *)
Definition example_row : MixedSpectrumSimulator.Sample :=
  {| MixedSpectrumSimulator.s_wavelengths := [0; 1];
     MixedSpectrumSimulator.s_spectrum := Arr1 [0.8; 0.4];
     MixedSpectrumSimulator.s_labels := [1; 0]%nat;
     MixedSpectrumSimulator.s_atom_percentages :=
       [("Si_1"%string, 100); ("temperature"%string, 10000);
        ("electron_density"%string, 1e16); ("delta_E_max"%string, 4.0)] |}.

(** The example configuration without candidate densities. *)
Definition no_density_config : Config :=
  {| cfg_resolution := example_config.(cfg_resolution);
     cfg_wl_range := example_config.(cfg_wl_range);
     cfg_sigma := example_config.(cfg_sigma);
     cfg_target_max_intensity := example_config.(cfg_target_max_intensity);
     cfg_convolution_sigma := example_config.(cfg_convolution_sigma);
     cfg_num_samples := example_config.(cfg_num_samples);
     cfg_temperature_range := example_config.(cfg_temperature_range);
     cfg_electron_density_range := [] |}.

(** The example configuration with a negative second temperature. *)
Definition negative_temperature_config : Config :=
  {| cfg_resolution := example_config.(cfg_resolution);
     cfg_wl_range := example_config.(cfg_wl_range);
     cfg_sigma := example_config.(cfg_sigma);
     cfg_target_max_intensity := example_config.(cfg_target_max_intensity);
     cfg_convolution_sigma := example_config.(cfg_convolution_sigma);
     cfg_num_samples := example_config.(cfg_num_samples);
     cfg_temperature_range := [10000; -1];
     cfg_electron_density_range := example_config.(cfg_electron_density_range) |}.

(** ** Reference notions for the hash *)

(** Strictly ascending keys. *)
Fixpoint ascending_keys (l : list (string * R)) : Prop :=
  match l with
  | [] => True
  | kv :: l' =>
      Forall (fun kv' : string * R => String.ltb (fst kv) (fst kv') = true) l'
      ∧ ascending_keys l'
  end.

(** ** Reference notions for the transition table *)

(** A row that does not have seven cells, or has [None] among the first
    six. *)
Definition incomplete (data : list pyval) : bool :=
  negb (length data =? 7)%nat || negb (forallb is_not_none (firstn 6 data)).

(** ** DataManager *)

Module DataManager.
Import Stdlib.Strings.Ascii.

(** [s.split(sep)] for a separator of one character. *)
Fixpoint split (sep : ascii) (s : string) : list string :=
  match s with
  | EmptyString => [EmptyString]
  | String c s' =>
      if decide (c = sep) then EmptyString :: split sep s'
      else match split sep s' with
           | part :: parts => String c part :: parts
           | [] => [String c EmptyString]
           end
  end.

(** [base_elem, ion = elem.split('_')] and the name [f"{base_elem} {ion_level}"]
    made of the two parts. *)
Definition species_name (elem : string) : result string :=
  match split "_"%char elem with
  | [base_elem; ion] =>
      let ion_level := if decide (ion = "1"%string) then "I"%string else "II"%string in
      Ok (base_elem +:+ " " +:+ ion_level)%string
  | _ => Raise ValueError
  end.

(** The last loop of [load_ionization_energies], on the dictionary that was
    read from the file: a required species without an entry gets 0.0 eV. *)
Definition fill_missing_energies (ionization_energies : list (string * R))
    : result (list (string * R)) :=
  foldlM (fun (ionization_energies : list (string * R)) (elem : string) =>
            sp_name ← species_name elem;
            if Dict.mem ionization_energies sp_name then Ok ionization_energies
            else Ok (Dict.set ionization_energies sp_name 0.0))
         ionization_energies REQUIRED_ELEMENTS.

End DataManager.

(** The names under which the energies of the required species are kept. *)
Definition SPECIES_NAMES : list string :=
  flat_map (fun elem => [elem +:+ " I"; elem +:+ " II"]%string) BASE_ELEMENTS.

(** ** Reference notions for the splits *)

(** The rows that samples give to a split: spectra, labels and composition
    records, sample by sample. *)
Definition rows_of (samples : list MixedSpectrumSimulator.Sample)
    : DatasetGenerator.split_data :=
  (map (fun s => arr_values s.(MixedSpectrumSimulator.s_spectrum)) samples,
   map MixedSpectrumSimulator.s_labels samples,
   map MixedSpectrumSimulator.s_atom_percentages samples).

(** The rows of [existing] followed by the rows of [new], column by
    column. *)
Definition split_append (existing new : DatasetGenerator.split_data)
    : DatasetGenerator.split_data :=
  (fst (fst existing) ++ fst (fst new),
   snd (fst existing) ++ snd (fst new),
   snd existing ++ snd new).

(** The rows a split holds already have the widths of the new arrays. *)
Definition widths_fit (spectra_width labels_width : nat)
    (existing : DatasetGenerator.split_data) : Prop :=
  match fst (fst existing) with [] => True | row :: _ => length row = spectra_width end
  ∧ match snd (fst existing) with [] => True | row :: _ => length row = labels_width end.

(** The state before the persistence phase of a run that holds [samples]
    in memory. *)
Definition example_state_holding (samples : list MixedSpectrumSimulator.Sample)
    (dataset : option DatasetGenerator.H5File) : DatasetGenerator.state first_draws :=
  {| DatasetGenerator.w_rng := (tt : first_draws.(rng));
     DatasetGenerator.w_used := ∅;
     DatasetGenerator.w_accepted := samples;
     DatasetGenerator.w_trace := [];
     DatasetGenerator.w_log := DatasetGenerator.Missing;
     DatasetGenerator.w_faults := [];
     DatasetGenerator.w_dataset := dataset;
     DatasetGenerator.w_backups := [] |}.

(** A row written by an earlier run on the two-point grid. *)
Definition earlier_rows : DatasetGenerator.split_data :=
  ([[0.2; 0.8]], [[0; 2]%nat], [[("Al_1"%string, 100)]]).

(** A dataset file with the two-point grid that holds one row in [train]
    and one in [test], and a group and an attribute of its own. *)
Definition filled_dataset : DatasetGenerator.H5File :=
  {| DatasetGenerator.h5_wavelengths := Some [0; 1];
     DatasetGenerator.h5_groups :=
       <["train"%string := DatasetGenerator.group_of earlier_rows]>
         (<["test"%string := DatasetGenerator.group_of earlier_rows]>
            (<["notes"%string := DatasetGenerator.group_of ([], [], [])]> ∅));
     DatasetGenerator.h5_attrs :=
       <["author"%string := DatasetGenerator.AttrStr "lab"]> ∅ |}.

(** * Properties *)

(** ** The result monad *)

Lemma fdiv_ok (x y : R) : y ≠ 0 → fdiv x y = Ok (x / y).
Proof. intros Hy. unfold fdiv. destruct (decide (y = 0)); [contradiction | reflexivity]. Qed.

Lemma k_B_pos : 0 < k_B.
Proof. unfold k_B. lra. Qed.

Lemma kT_nonzero (T : R) : 0 < T → k_B * T ≠ 0.
Proof. intros HT. pose proof k_B_pos. nra. Qed.

(** ** Partition function *)

Section PartitionFunction.
Import SpectrumSimulator.

Lemma boltzmann_terms_ok (T : R) (degs : list R) :
  0 < T →
  ∀ els, boltzmann_terms degs els T
         = Ok (map (fun gE : R * R => fst gE * exp (- snd gE / (k_B * T)))
                   (paired_levels degs els)).
Proof.
  intros HT. induction degs as [|g gs IH]; intros [|[E|] Es]; simpl; try reflexivity.
  - rewrite (fdiv_ok _ _ (kT_nonzero T HT)). simpl. rewrite IH. reflexivity.
  - apply IH.
Qed.

Lemma boltzmann_sum_pos (T : R) (levels : list (R * R)) :
  levels ≠ [] → Forall (fun gE => 0 < fst gE) levels → 0 < boltzmann_sum levels T.
Proof.
  unfold boltzmann_sum. induction levels as [|[g E] ls IH]; intros Hne Hpos; [congruence|].
  inversion Hpos as [|? ? Hg Hrest]; subst. simpl in *.
  assert (0 < g * exp (- E / (k_B * T))) by (apply Rmult_lt_0_compat; [exact Hg | apply exp_pos]).
  destruct ls as [|l ls'].
  - simpl. lra.
  - assert (0 < Rsum (map (fun gE : R * R => fst gE * exp (- snd gE / (k_B * T))) (l :: ls')))
      by (apply IH; [congruence | exact Hrest]).
    lra.
Qed.

(** For T > 0 and levels with positive degeneracies, what the line loop needs:
    the partition function is positive and the intensity is defined. *)
Lemma partition_function_ok (els : list (option R)) (degs : list R) (T : R) :
  0 < T →
  paired_levels degs els ≠ [] →
  Forall (fun gE => 0 < fst gE) (paired_levels degs els) →
  ∃ Z, _partition_function els degs T = Ok Z
     ∧ 0 < Z
     ∧ ∀ E g A, _calculate_intensity T E g A Z
                = Ok (g * A * exp (- E / (k_B * T)) / Z).
Proof.
  intros HT Hne Hpos. unfold _partition_function.
  rewrite (boltzmann_terms_ok T degs HT els). cbn [mbind result_bind].
  fold (boltzmann_sum (paired_levels degs els) T).
  pose proof (boltzmann_sum_pos T _ Hne Hpos) as Hs.
  destruct (decide (boltzmann_sum (paired_levels degs els) T = 0)) as [Hz|_]; [lra|].
  eexists. split; [reflexivity|]. split; [exact Hs|].
  intros E g A. unfold _calculate_intensity.
  rewrite (fdiv_ok _ _ (kT_nonzero T HT)). cbn [mbind result_bind].
  apply fdiv_ok. lra.
Qed.

(** C7. For T > 0 the partition function returns Z with: Z = 1.0 when the
    Boltzmann sum is zero (empty input included) and Z = the sum otherwise;
    for a non-empty level set with positive degeneracies Z is that sum and
    is strictly positive; Z is never zero, so the division by Z in
    [_calculate_intensity] succeeds. *)
Theorem partition_function_positive (els : list (option R)) (degs : list R) (T : R) :
  0 < T →
  ∃ Z, _partition_function els degs T = Ok Z
     ∧ (boltzmann_sum (paired_levels degs els) T = 0 → Z = 1.0)
     ∧ (boltzmann_sum (paired_levels degs els) T ≠ 0 →
        Z = boltzmann_sum (paired_levels degs els) T)
     ∧ (paired_levels degs els ≠ [] →
        Forall (fun gE => 0 < fst gE) (paired_levels degs els) →
        Z = boltzmann_sum (paired_levels degs els) T ∧ 0 < Z)
     ∧ Z ≠ 0
     ∧ ∀ E g A, _calculate_intensity T E g A Z
                = Ok (g * A * exp (- E / (k_B * T)) / Z).
Proof.
  intros HT. unfold _partition_function. rewrite (boltzmann_terms_ok T degs HT els). simpl.
  fold (boltzmann_sum (paired_levels degs els) T).
  set (s := boltzmann_sum (paired_levels degs els) T).
  assert (HZ : (if decide (s = 0) then 1.0 else s) ≠ 0)
    by (destruct (decide (s = 0)); [lra | assumption]).
  eexists; split; [reflexivity|].
  repeat split.
  - intros Hs. destruct (decide (s = 0)); [reflexivity | contradiction].
  - intros Hs. destruct (decide (s = 0)); [contradiction | reflexivity].
  - destruct (decide (s = 0)) as [Hs|Hs]; [|reflexivity].
    pose proof (boltzmann_sum_pos T _ H H0). fold s in H1. lra.
  - pose proof (boltzmann_sum_pos T _ H H0). fold s in H1.
    destruct (decide (s = 0)); lra.
  - exact HZ.
  - intros E g A. unfold _calculate_intensity.
    rewrite (fdiv_ok _ _ (kT_nonzero T HT)). simpl.
    apply fdiv_ok. exact HZ.
Qed.

Lemma partition_function_positive_witness :
  ∃ Z, _partition_function [Some 0; Some 2.5] [2; 4] 10000 = Ok Z
     ∧ (boltzmann_sum (paired_levels [2; 4] [Some 0; Some 2.5]) 10000 = 0 → Z = 1.0)
     ∧ (boltzmann_sum (paired_levels [2; 4] [Some 0; Some 2.5]) 10000 ≠ 0 →
        Z = boltzmann_sum (paired_levels [2; 4] [Some 0; Some 2.5]) 10000)
     ∧ (paired_levels [2; 4] [Some 0; Some 2.5] ≠ [] →
        Forall (fun gE => 0 < fst gE) (paired_levels [2; 4] [Some 0; Some 2.5]) →
        Z = boltzmann_sum (paired_levels [2; 4] [Some 0; Some 2.5]) 10000 ∧ 0 < Z)
     ∧ Z ≠ 0
     ∧ ∀ E g A, _calculate_intensity 10000 E g A Z
                = Ok (g * A * exp (- E / (k_B * 10000)) / Z).
Proof. apply (partition_function_positive [Some 0; Some 2.5] [2; 4] 10000). lra. Defined.

End PartitionFunction.

(** ** Species without usable transition data *)

Section NoData.
Import SpectrumSimulator.

Lemma to_float_is_number (v : pyval) :
  is_number v = false → ∃ e, to_float v = Raise e ∧ caught e = true.
Proof. destruct v; simpl; intros Hv; try discriminate; eexists; split; reflexivity. Qed.

Lemma to_float_number (v : pyval) : is_number v = true → ∃ r, v = PFloat r.
Proof. destruct v; simpl; intros Hv; try discriminate. eexists; reflexivity. Qed.

Lemma collect_levels_nothing (data : list pyval) :
  row_gives_level data = false → collect_levels [] data = Ok [].
Proof.
  intros Hrow. unfold collect_levels.
  destruct data as [|wl [|Aki [|Ek [|Ei [|gi [|gk [|last [|? ?]]]]]]]]; try reflexivity.
  cbn [unpack7 mbind result_bind]. unfold row_gives_level in Hrow.
  destruct (forallb is_not_none [wl; Aki; Ek; Ei; gi; gk]); [|reflexivity].
  cbn [andb] in Hrow.
  destruct (is_number Ek) eqn:HEk.
  2:{ destruct (to_float_is_number Ek HEk) as (e & -> & He). simpl. rewrite He. reflexivity. }
  destruct (to_float_number Ek HEk) as [ek ->].
  destruct (is_number Ei) eqn:HEi.
  2:{ destruct (to_float_is_number Ei HEi) as (e & -> & He). simpl. rewrite He. reflexivity. }
  destruct (to_float_number Ei HEi) as [ei ->].
  cbn [andb] in Hrow.
  destruct gi; simpl in Hrow; try discriminate; reflexivity.
Qed.

Lemma collect_levels_all_nothing (rows : list (list pyval)) :
  Forall (fun data => row_gives_level data = false) rows →
  foldlM collect_levels [] rows = Ok [].
Proof.
  induction 1 as [|data rows Hrow _ IH]; [reflexivity|].
  simpl. rewrite (collect_levels_nothing data Hrow). exact IH.
Qed.

(** C9. When no row of the species' transition table gives an energy level
    (the table is empty, or every row lacks seven cells, has a [None]
    among the first six, or has no number for Ek, Ei or gi), [simulate]
    does not raise and returns the wavelength grid with empty spectra,
    peak indices, labels, temperatures, line records and contributions. *)
Theorem simulate_without_data (self : t) (atom_percentage : R) :
  Forall (fun data => row_gives_level data = false) self.(nist_data) →
  simulate self atom_percentage
  = Ok {| sr_wavelengths := self.(wavelengths);
          sr_spectra := [];
          sr_peak_indices := [];
          sr_peak_labels := [];
          sr_temperatures := [];
          sr_intensity_data := [];
          sr_contributions := [] |}.
Proof.
  intros Hrows. unfold simulate.
  destruct (nist_data self) as [|row rows] eqn:Hdata; [reflexivity|].
  rewrite (collect_levels_all_nothing _ Hrows). reflexivity.
Qed.

End NoData.

(** ** Grid, binary search and window addition *)

Lemma length_linspace (a b : R) (n : nat) : length (linspace a b n) = n.
Proof. unfold linspace. rewrite length_map, length_seq. reflexivity. Qed.

Lemma nth_map_seq {A : Type} (f : nat → A) (n i : nat) (d : A) :
  (i < n)%nat → nth i (map f (seq 0 n)) d = f i.
Proof.
  intros Hi. rewrite (nth_indep _ d (f 0%nat)) by (rewrite length_map, length_seq; exact Hi).
  rewrite map_nth, seq_nth by exact Hi. reflexivity.
Qed.

Lemma nth_linspace (a b : R) (n i : nat) :
  (i < n)%nat →
  nth i (linspace a b n) 0 = a + IZR (Z.of_nat i) * ((b - a) / IZR (Z.of_nat (n - 1))).
Proof. intros Hi. unfold linspace. rewrite nth_map_seq by exact Hi. reflexivity. Qed.

Lemma linspace_ascending (a b : R) (n : nat) : a <= b → ascending (linspace a b n).
Proof.
  intros Hab i j Hij Hj. rewrite length_linspace in Hj.
  rewrite !nth_linspace by lia.
  assert (Hstep : 0 <= (b - a) / IZR (Z.of_nat (n - 1))).
  { destruct (decide (n - 1 = 0)%nat) as [->|Hn].
    - change (IZR (Z.of_nat 0)) with 0. unfold Rdiv. rewrite Rinv_0. lra.
    - apply Rmult_le_pos; [lra|]. apply Rlt_le, Rinv_0_lt_compat, IZR_lt. lia. }
  assert (IZR (Z.of_nat i) <= IZR (Z.of_nat j)) by (apply IZR_le; lia).
  nra.
Qed.

Lemma binsearch_left_spec (a : list R) (v : R) :
  ascending a →
  ∀ fuel lo hi : nat,
    (hi - lo ≤ fuel)%nat → (lo ≤ hi)%nat → (hi ≤ length a)%nat →
    (∀ i : nat, (i < lo)%nat → nth i a 0 < v) →
    (∀ i : nat, (hi ≤ i)%nat → (i < length a)%nat → ¬ nth i a 0 < v) →
    let r := binsearch_left fuel a v lo hi in
    (∀ i : nat, (i < r)%nat → nth i a 0 < v)
    ∧ (∀ i : nat, (r ≤ i)%nat → (i < length a)%nat → ¬ nth i a 0 < v)
    ∧ (r ≤ length a)%nat.
Proof.
  intros Hasc. induction fuel as [|fuel IH]; intros lo hi Hfuel Hle Hhi Hlo Hup;
    cbn [binsearch_left]; cbv zeta.
  - assert (lo = hi) by lia. subst. auto.
  - destruct (lo <? hi)%nat eqn:Hlt.
    + apply Nat.ltb_lt in Hlt.
      assert (Hmid : (lo ≤ lo + (hi - lo) / 2 < hi)%nat).
      { split; [lia|]. pose proof (Nat.Div0.div_lt_upper_bound (hi - lo) 2 (hi - lo)). lia. }
      set (mid := (lo + (hi - lo) / 2)%nat) in *.
      destruct (Rlt_dec (nth mid a 0) v) as [Hm|Hm].
      * apply IH; try lia.
        -- intros i Hi. pose proof (Hasc i mid ltac:(lia) ltac:(lia)). lra.
        -- exact Hup.
      * apply IH; try lia.
        -- exact Hlo.
        -- intros i Hi Hi'. pose proof (Hasc mid i Hi Hi'). lra.
    + apply Nat.ltb_ge in Hlt. assert (lo = hi) by lia. subst. auto.
Qed.

(** On an ascending array [searchsorted] is the first index whose entry is
    not below [v]. *)
Lemma searchsorted_spec (a : list R) (v : R) :
  ascending a →
  (∀ i : nat, (i < searchsorted a v)%nat → nth i a 0 < v)
  ∧ (∀ i : nat, (searchsorted a v ≤ i)%nat → (i < length a)%nat → ¬ nth i a 0 < v)
  ∧ (searchsorted a v ≤ length a)%nat.
Proof.
  intros Hasc. unfold searchsorted.
  apply (binsearch_left_spec a v Hasc (length a) 0%nat (length a)); try lia.
Qed.

Lemma searchsorted_unique (a : list R) (v : R) (k : nat) :
  ascending a → (k ≤ length a)%nat →
  (∀ i : nat, (i < k)%nat → nth i a 0 < v) →
  (∀ i : nat, (k ≤ i)%nat → (i < length a)%nat → ¬ nth i a 0 < v) →
  searchsorted a v = k.
Proof.
  intros Hasc Hk Hlow Hup.
  destruct (searchsorted_spec a v Hasc) as (Hl & Hu & Hlen).
  destruct (Nat.lt_trichotomy (searchsorted a v) k) as [Hlt|[Heq|Hgt]]; [|exact Heq|].
  - exfalso. apply (Hu (searchsorted a v)); [lia | lia | apply Hlow; exact Hlt].
  - exfalso. apply (Hup k); [lia | lia | apply Hl; exact Hgt].
Qed.

Lemma length_slice_add (src dst : list R) (start : nat) :
  length (slice_add dst start src) = length dst.
Proof.
  revert start src. induction dst as [|x dst IH]; intros [|start] src; simpl; try reflexivity.
  - destruct src; simpl; [reflexivity | rewrite IH; reflexivity].
  - rewrite IH. reflexivity.
Qed.

Lemma nth_slice_add_before (dst src : list R) (start j : nat) :
  (j < start)%nat → nth j (slice_add dst start src) 0 = nth j dst 0.
Proof.
  revert start j src. induction dst as [|x dst IH]; intros [|start] [|j] src Hj; simpl;
    try reflexivity; try lia.
  apply IH. lia.
Qed.

Lemma nth_slice_add_inside (dst src : list R) (start j : nat) :
  (start ≤ j)%nat → (j < start + length src)%nat → (j < length dst)%nat →
  nth j (slice_add dst start src) 0 = nth j dst 0 + nth (j - start) src 0.
Proof.
  revert start j src. induction dst as [|x dst IH]; intros start j src Hs Hj Hd; simpl in Hd; [lia|].
  destruct start as [|start].
  - destruct src as [|y src]; simpl in Hj; [lia|]. simpl.
    destruct j as [|j]; [reflexivity|]. simpl.
    rewrite (IH 0%nat j src) by lia. rewrite Nat.sub_0_r. reflexivity.
  - destruct j as [|j]; [lia|]. simpl. apply IH; lia.
Qed.

(** ** A species with a single transition at one temperature *)

Lemma sqrt_2PI_pos : 0 < sqrt (2 * PI).
Proof. apply sqrt_lt_R0. pose proof PI_RGT_0. lra. Qed.

Lemma gaussian_at_pos (s c x : R) : 0 < s → 0 < SpectrumSimulator.gaussian_at s c x.
Proof.
  intros Hs. unfold SpectrumSimulator.gaussian_at.
  apply Rdiv_lt_0_compat; [apply exp_pos|]. pose proof sqrt_2PI_pos. nra.
Qed.

(** The profile is larger where the wavelength is closer to the centre. *)
Lemma gaussian_at_closer (s c x y : R) :
  0 < s → (y - c) ^ 2 < (x - c) ^ 2 →
  SpectrumSimulator.gaussian_at s c x < SpectrumSimulator.gaussian_at s c y.
Proof.
  intros Hs Hd. unfold SpectrumSimulator.gaussian_at.
  pose proof sqrt_2PI_pos as Hq.
  apply Rmult_lt_compat_r; [apply Rinv_0_lt_compat; nra|].
  apply exp_increasing.
  assert (Hinv : 0 < / s) by (apply Rinv_0_lt_compat; exact Hs).
  unfold Rdiv. rewrite !Rpow_mult_distr.
  assert (0 < (/ s) ^ 2) by nra.
  nra.
Qed.

Lemma gaussian_at_same_distance (s c x y : R) :
  (y - c) ^ 2 = (x - c) ^ 2 →
  SpectrumSimulator.gaussian_at s c x = SpectrumSimulator.gaussian_at s c y.
Proof.
  intros Hd. unfold SpectrumSimulator.gaussian_at, Rdiv.
  rewrite !Rpow_mult_distr, Hd. reflexivity.
Qed.

Lemma add_line_numeric (self : SpectrumSimulator.t) (atom_percentage T Z I : R)
    (a : SpectrumSimulator.acc) (wl Aki Ek Ei gi gk : R) (last : pyval) :
  SpectrumSimulator._calculate_intensity T Ek gk Aki Z = Ok I →
  self.(SpectrumSimulator.sigma) ≠ 0 →
  (searchsorted self.(SpectrumSimulator.wavelengths) wl < self.(SpectrumSimulator.resolution))%nat →
  let idx := searchsorted self.(SpectrumSimulator.wavelengths) wl in
  let gc := map (fun p => I * atom_percentage * p)
              (map (SpectrumSimulator.gaussian_at self.(SpectrumSimulator.sigma) wl)
                   self.(SpectrumSimulator.wavelengths)) in
  let start_idx := Nat.max 0 (idx - length gc / 2) in
  let end_idx := Nat.min self.(SpectrumSimulator.resolution) (start_idx + length gc) in
  let window := firstn (end_idx - start_idx) gc in
  SpectrumSimulator.add_line self atom_percentage T Z a
    [PFloat wl; PFloat Aki; PFloat Ek; PFloat Ei; PFloat gi; PFloat gk; last]
  = Ok {| SpectrumSimulator.intensities :=
            if (start_idx <? end_idx)%nat
            then slice_add a.(SpectrumSimulator.intensities) start_idx window
            else a.(SpectrumSimulator.intensities);
          SpectrumSimulator.element_contributions :=
            if (start_idx <? end_idx)%nat
            then slice_add a.(SpectrumSimulator.element_contributions) start_idx window
            else a.(SpectrumSimulator.element_contributions);
          SpectrumSimulator.peak_idx := a.(SpectrumSimulator.peak_idx) ++ [idx];
          SpectrumSimulator.peak_label :=
            a.(SpectrumSimulator.peak_label)
            ++ [SpectrumSimulator.class_index self.(SpectrumSimulator.element_label)];
          SpectrumSimulator.temp_intensity_data :=
            a.(SpectrumSimulator.temp_intensity_data)
            ++ [{| SpectrumSimulator.lr_wavelength := wl;
                   SpectrumSimulator.lr_intensity := I * atom_percentage;
                   SpectrumSimulator.lr_element_label := self.(SpectrumSimulator.element_label);
                   SpectrumSimulator.lr_index := idx |}] |}.
Proof.
  intros HI Hsig Hidx. cbv zeta.
  unfold SpectrumSimulator.add_line.
  cbn [unpack7 mbind result_bind forallb is_not_none andb to_float].
  rewrite HI. cbn [mbind result_bind].
  apply Nat.ltb_lt in Hidx. rewrite Hidx.
  unfold SpectrumSimulator._gaussian_profile.
  destruct (decide (SpectrumSimulator.sigma self = 0)) as [Hz|_]; [contradiction|].
  reflexivity.
Qed.

Section SingleLine.
Import SpectrumSimulator.

Variables (config : Config) (elem : string) (stage : nat) (ion_energy : R).
Variables (wl Aki Ek Ei gi gk : R) (last : pyval).
Variables (T atom_percentage : R).

Hypothesis T_pos : 0 < T.
Hypothesis sigma_pos : 0 < config.(cfg_sigma).
Hypothesis gi_pos : 0 < gi.
Hypothesis gk_pos : 0 < gk.

Let row : list pyval :=
  [PFloat wl; PFloat Aki; PFloat Ek; PFloat Ei; PFloat gi; PFloat gk; last].
Let self : t := init [row] elem stage [T] ion_energy config.
Let res : nat := config.(cfg_resolution).
Let grid : list R := self.(wavelengths).
Let idx : nat := searchsorted grid wl.
Let start_idx : nat := (idx - res / 2)%nat.

Lemma single_line_levels :
  ∃ levels, foldlM collect_levels [] [row] = Ok levels ∧ levels ≠ []
          ∧ Forall (fun gE => 0 < fst gE)
              (paired_levels (Dict.values levels) (map Some (Dict.keys levels))).
Proof.
  unfold row, collect_levels, add_level, Dict.mem. cbn.
  destruct (decide (Ei = Ek)) as [Heq|Hne].
  - eexists; split; [reflexivity|]. split; [discriminate|].
    cbn. repeat constructor; assumption.
  - eexists; split; [reflexivity|]. split; [discriminate|].
    cbn. repeat constructor; assumption.
Qed.

(** The spectrum the code builds: the scaled profile, taken from its first
    entry, written from [start_idx] on. *)
Lemma single_line_spectrum :
  (idx < res)%nat →
  ∃ (Z : R) (r : SimResult) (spectrum : list R),
    0 < Z
    ∧ simulate self atom_percentage = Ok r
    ∧ r.(sr_spectra) = [spectrum]
    ∧ r.(sr_peak_indices) = [[idx]]
    ∧ r.(sr_temperatures) = [T]
    ∧ r.(sr_contributions) = [spectrum]
    ∧ length spectrum = res
    ∧ ∀ j : nat, (j < res)%nat →
        nth j spectrum 0
        = if (start_idx <=? j)%nat
          then gk * Aki * exp (- Ek / (k_B * T)) / Z * atom_percentage
               * gaussian_at config.(cfg_sigma) wl (nth (j - start_idx) grid 0)
          else 0.
Proof.
  intros Hidx.
  destruct single_line_levels as (levels & Hlev & Hne & Hpos).
  destruct (partition_function_ok (map Some (Dict.keys levels)) (Dict.values levels) T T_pos
              ltac:(destruct levels; [congruence | cbn; discriminate]) Hpos)
    as (Z & HZ & HZ0 & Hint).
  assert (Hlen : length grid = res) by apply length_linspace.
  assert (Hsig : sigma self ≠ 0) by (change (sigma self) with (cfg_sigma config); lra).
  exists Z.
  unfold simulate. change (nist_data self) with [row]. rewrite Hlev.
  destruct levels as [|l0 levels']; [congruence|].
  cbn [mbind result_bind temperatures self init mapM_result].
  unfold simulate_temperature. rewrite HZ.
  cbn [mbind result_bind]. change (nist_data self) with [row].
  cbn [foldlM mbind result_bind]. unfold row at 1.
  rewrite (add_line_numeric self atom_percentage T Z _ _ wl Aki Ek Ei gi gk last (Hint Ek gk Aki) Hsig Hidx).
  cbn [mbind result_bind intensities element_contributions peak_idx peak_label temp_intensity_data app].
  change (searchsorted (wavelengths self) wl) with idx.
  change (resolution self) with res.
  change (wavelengths self) with grid.
  change (sigma self) with (cfg_sigma config).
  rewrite !length_map, Hlen, Nat.max_0_l. fold start_idx.
  assert (Hend : Nat.min res (start_idx + res) = res) by lia.
  rewrite Hend.
  assert (Hstart : (start_idx <? res)%nat = true) by (apply Nat.ltb_lt; unfold start_idx; lia).
  rewrite Hstart.
  eexists; eexists; split; [exact HZ0|]. split; [reflexivity|].
  cbn [sr_spectra sr_peak_indices sr_temperatures sr_contributions map intensities
       element_contributions peak_idx app].
  split; [reflexivity|]. split; [reflexivity|]. split; [reflexivity|]. split; [reflexivity|].
  split; [rewrite length_slice_add, repeat_length; reflexivity|].
  intros j Hj. destruct (start_idx <=? j)%nat eqn:Hsj.
  - apply Nat.leb_le in Hsj.
    rewrite nth_slice_add_inside;
      [| exact Hsj
       | rewrite length_firstn, !length_map, Hlen; lia
       | rewrite repeat_length; exact Hj].
    rewrite nth_repeat.
    rewrite nth_firstn.
    assert (Hjs : (j - start_idx <? res - start_idx)%nat = true) by (apply Nat.ltb_lt; lia).
    rewrite Hjs.
    rewrite (nth_indep _ 0 ((fun p => gk * Aki * exp (- Ek / (k_B * T)) / Z * atom_percentage * p) 0))
      by (rewrite !length_map, Hlen; lia).
    rewrite (map_nth (fun p => gk * Aki * exp (- Ek / (k_B * T)) / Z * atom_percentage * p)).
    rewrite (nth_indep _ 0 (gaussian_at (cfg_sigma config) wl 0))
      by (rewrite !length_map, Hlen; lia).
    rewrite (map_nth (gaussian_at (cfg_sigma config) wl)).
    lra.
  - apply Nat.leb_gt in Hsj.
    rewrite nth_slice_add_before by exact Hsj. apply nth_repeat.
Qed.

End SingleLine.

(** ** The single-transition scenario on the 100-point grid *)

Lemma gaussian_at_not_closer (s c x y : R) :
  0 < s → (y - c) ^ 2 <= (x - c) ^ 2 →
  SpectrumSimulator.gaussian_at s c x <= SpectrumSimulator.gaussian_at s c y.
Proof.
  intros Hs [Hlt|Heq].
  - left. apply gaussian_at_closer; assumption.
  - right. apply gaussian_at_same_distance. exact Heq.
Qed.

Lemma scenario_grid_nth (k : nat) :
  (k < 100)%nat → nth k scenario_grid 0 = 400 + IZR (Z.of_nat k) * (100 / 99).
Proof.
  intros Hk. unfold scenario_grid. rewrite nth_linspace by exact Hk.
  change (Z.of_nat (100 - 1)) with 99%Z. lra.
Qed.

Lemma scenario_grid_ascending : ascending scenario_grid.
Proof. apply linspace_ascending. lra. Qed.

Lemma IZR_of_nat_le (k n : nat) : (k ≤ n)%nat → IZR (Z.of_nat k) <= IZR (Z.of_nat n).
Proof. intros Hk. apply IZR_le. lia. Qed.

Lemma IZR_of_nat_nonneg (k : nat) : 0 <= IZR (Z.of_nat k).
Proof. apply IZR_le. lia. Qed.

Lemma scenario_searchsorted_450 : searchsorted scenario_grid 450 = 50%nat.
Proof.
  apply searchsorted_unique.
  - exact scenario_grid_ascending.
  - unfold scenario_grid. rewrite length_linspace. lia.
  - intros i Hi. rewrite scenario_grid_nth by lia.
    pose proof (IZR_of_nat_le i 49 ltac:(lia)) as H. change (IZR (Z.of_nat 49)) with 49 in H. lra.
  - intros i Hi Hlen Hlt. unfold scenario_grid in Hlen. rewrite length_linspace in Hlen.
    rewrite scenario_grid_nth in Hlt by lia.
    pose proof (IZR_of_nat_le 50 i ltac:(lia)) as H. change (IZR (Z.of_nat 50)) with 50 in H. lra.
Qed.

Lemma scenario_searchsorted_460 : searchsorted scenario_grid 460 = 60%nat.
Proof.
  apply searchsorted_unique.
  - exact scenario_grid_ascending.
  - unfold scenario_grid. rewrite length_linspace. lia.
  - intros i Hi. rewrite scenario_grid_nth by lia.
    pose proof (IZR_of_nat_le i 59 ltac:(lia)) as H. change (IZR (Z.of_nat 59)) with 59 in H. lra.
  - intros i Hi Hlen Hlt. unfold scenario_grid in Hlen. rewrite length_linspace in Hlen.
    rewrite scenario_grid_nth in Hlt by lia.
    pose proof (IZR_of_nat_le 60 i ltac:(lia)) as H. change (IZR (Z.of_nat 60)) with 60 in H. lra.
Qed.

Section Scenario.
Import SpectrumSimulator.

Variables (Aki Ek Ei gi gk : R) (last : pyval).
Hypothesis Aki_pos : 0 < Aki.
Hypothesis gi_pos : 0 < gi.
Hypothesis gk_pos : 0 < gk.

Lemma scenario_sigma : cfg_sigma scenario_config = 0.1.
Proof. reflexivity. Qed.

(** Spec scenario (transition at 450 nm): the line lands in bin 50, the
    window starts at bin 0, and the spectrum is largest at bins 49 and 50,
    the two grid points at the same, smallest distance from 450 nm. *)
Lemma scenario_450_maximum :
  ∃ (r : SimResult) (spectrum : list R),
    simulate (scenario_simulator 450 Aki Ek Ei gi gk last) 1.0 = Ok r
    ∧ r.(sr_spectra) = [spectrum]
    ∧ r.(sr_peak_indices) = [[50%nat]]
    ∧ length spectrum = 100%nat
    ∧ (∀ j : nat, (j < 100)%nat → nth j spectrum 0 <= nth 49 spectrum 0)
    ∧ nth 50 spectrum 0 = nth 49 spectrum 0
    ∧ 0 < nth 49 spectrum 0
    ∧ (∀ j : nat, (j < 100)%nat →
         (nth 49 scenario_grid 0 - 450) ^ 2 <= (nth j scenario_grid 0 - 450) ^ 2)
    ∧ (nth 50 scenario_grid 0 - 450) ^ 2 = (nth 49 scenario_grid 0 - 450) ^ 2.
Proof.
  assert (Hidx : (searchsorted (wavelengths (scenario_simulator 450 Aki Ek Ei gi gk last)) 450
                  < cfg_resolution scenario_config)%nat).
  { change (searchsorted scenario_grid 450 < 100)%nat. rewrite scenario_searchsorted_450. lia. }
  destruct (single_line_spectrum scenario_config "Fe" 1%nat 7.9 450 Aki Ek Ei gi gk last 10000 1.0
              ltac:(lra) ltac:(rewrite scenario_sigma; lra) gi_pos gk_pos Hidx)
    as (Z & r & spectrum & HZ & Hsim & Hsp & Hpk & _ & _ & Hlen & Hnth).
  change (wavelengths (init _ _ _ _ _ _)) with scenario_grid in Hnth, Hpk.
  change (cfg_resolution scenario_config) with 100%nat in Hnth, Hlen.
  rewrite scenario_searchsorted_450 in Hnth, Hpk.
  change (50 - 100 / 2)%nat with 0%nat in Hnth.
  rewrite scenario_sigma in Hnth.
  set (c := gk * Aki * exp (- Ek / (k_B * 10000)) / Z * 1.0) in Hnth.
  assert (Hc : 0 < c).
  { unfold c. apply Rmult_lt_0_compat; [|lra].
    apply Rdiv_lt_0_compat; [|exact HZ].
    apply Rmult_lt_0_compat; [nra | apply exp_pos]. }
  assert (Hval : ∀ j : nat, (j < 100)%nat →
            nth j spectrum 0 = c * gaussian_at 0.1 450 (nth j scenario_grid 0)).
  { intros j Hj. rewrite (Hnth j Hj). cbn [Nat.leb]. rewrite Nat.sub_0_r. reflexivity. }
  assert (Hdist : ∀ j : nat, (j < 100)%nat →
            (nth 49 scenario_grid 0 - 450) ^ 2 <= (nth j scenario_grid 0 - 450) ^ 2).
  { intros j Hj. rewrite !scenario_grid_nth by lia.
    change (IZR (Z.of_nat 49)) with 49.
    destruct (Nat.le_gt_cases j 49) as [Hle|Hgt].
    - pose proof (IZR_of_nat_le j 49 Hle) as H. change (IZR (Z.of_nat 49)) with 49 in H. nra.
    - pose proof (IZR_of_nat_le 50 j Hgt) as H. change (IZR (Z.of_nat 50)) with 50 in H. nra. }
  assert (Heq : (nth 50 scenario_grid 0 - 450) ^ 2 = (nth 49 scenario_grid 0 - 450) ^ 2).
  { rewrite !scenario_grid_nth by lia.
    change (IZR (Z.of_nat 49)) with 49. change (IZR (Z.of_nat 50)) with 50. lra. }
  exists r, spectrum. repeat split; try assumption.
  - intros j Hj. rewrite (Hval j Hj), (Hval 49%nat) by lia.
    apply Rmult_le_compat_l; [lra|].
    apply gaussian_at_not_closer; [lra | apply Hdist; exact Hj].
  - rewrite (Hval 50%nat), (Hval 49%nat) by lia. f_equal.
    apply gaussian_at_same_distance. symmetry. exact Heq.
  - rewrite (Hval 49%nat) by lia. apply Rmult_lt_0_compat; [exact Hc|].
    apply gaussian_at_pos. lra.
Qed.

(** C5 (failing input). In the scenario with the transition at 460 nm the
    line is located at bin 60, the window starts at bin 60 - 100//2 = 10,
    and the profile is written from its first entry there: bin j >= 10
    receives the profile value of grid point j - 10. The largest profile
    value, the one of grid point 59 (459.6 nm, 4 sigma from the line), thus
    lands in bin 69 (469.7 nm): the spectrum is largest there, and strictly
    smaller at bins 59 and 60, the grid points next to 460 nm, which receive
    the profile values of grid points 49 and 50, about 100 sigma away. *)
Theorem scenario_460_misplaced :
  ∃ (Z : R) (r : SimResult) (spectrum : list R),
    0 < Z
    ∧ simulate (scenario_simulator 460 Aki Ek Ei gi gk last) 1.0 = Ok r
    ∧ r.(sr_spectra) = [spectrum]
    ∧ r.(sr_peak_indices) = [[60%nat]]
    ∧ length spectrum = 100%nat
    ∧ (∀ j : nat, (j < 10)%nat → nth j spectrum 0 = 0)
    ∧ (∀ j : nat, (10 ≤ j)%nat → (j < 100)%nat →
         nth j spectrum 0
         = gk * Aki * exp (- Ek / (k_B * 10000)) / Z * 1.0
           * gaussian_at 0.1 460 (nth (j - 10) scenario_grid 0))
    ∧ (∀ j : nat, (j < 100)%nat →
         (nth 59 scenario_grid 0 - 460) ^ 2 <= (nth j scenario_grid 0 - 460) ^ 2)
    ∧ (∀ j : nat, (j < 100)%nat → nth j spectrum 0 <= nth 69 spectrum 0)
    ∧ 0 < nth 69 spectrum 0
    ∧ nth 59 spectrum 0 < nth 69 spectrum 0
    ∧ nth 60 spectrum 0 < nth 69 spectrum 0.
Proof.
  assert (Hidx : (searchsorted (wavelengths (scenario_simulator 460 Aki Ek Ei gi gk last)) 460
                  < cfg_resolution scenario_config)%nat).
  { change (searchsorted scenario_grid 460 < 100)%nat. rewrite scenario_searchsorted_460. lia. }
  destruct (single_line_spectrum scenario_config "Fe" 1%nat 7.9 460 Aki Ek Ei gi gk last 10000 1.0
              ltac:(lra) ltac:(rewrite scenario_sigma; lra) gi_pos gk_pos Hidx)
    as (Z & r & spectrum & HZ & Hsim & Hsp & Hpk & _ & _ & Hlen & Hnth).
  change (wavelengths (init _ _ _ _ _ _)) with scenario_grid in Hnth, Hpk.
  change (cfg_resolution scenario_config) with 100%nat in Hnth, Hlen.
  rewrite scenario_searchsorted_460 in Hnth, Hpk.
  change (60 - 100 / 2)%nat with 10%nat in Hnth.
  rewrite scenario_sigma in Hnth.
  set (c := gk * Aki * exp (- Ek / (k_B * 10000)) / Z * 1.0) in *.
  assert (Hc : 0 < c).
  { unfold c. apply Rmult_lt_0_compat; [|lra].
    apply Rdiv_lt_0_compat; [|exact HZ].
    apply Rmult_lt_0_compat; [nra | apply exp_pos]. }
  assert (Hlow : ∀ j : nat, (j < 10)%nat → nth j spectrum 0 = 0).
  { intros j Hj. rewrite (Hnth j) by lia.
    destruct (10 <=? j)%nat eqn:Hb; [apply Nat.leb_le in Hb; lia | reflexivity]. }
  assert (Hval : ∀ j : nat, (10 ≤ j)%nat → (j < 100)%nat →
            nth j spectrum 0 = c * gaussian_at 0.1 460 (nth (j - 10) scenario_grid 0)).
  { intros j Hj Hj'. rewrite (Hnth j Hj').
    destruct (10 <=? j)%nat eqn:Hb; [reflexivity | apply Nat.leb_gt in Hb; lia]. }
  assert (Hd : ∀ k : nat, (k < 100)%nat → k ≠ 59%nat →
            (nth 59 scenario_grid 0 - 460) ^ 2 < (nth k scenario_grid 0 - 460) ^ 2).
  { intros k Hk Hne. rewrite !scenario_grid_nth by lia.
    change (IZR (Z.of_nat 59)) with 59.
    destruct (Nat.lt_ge_cases k 59) as [Hlt|Hge].
    - pose proof (IZR_of_nat_le k 58 ltac:(lia)) as H. change (IZR (Z.of_nat 58)) with 58 in H.
      pose proof (IZR_of_nat_nonneg k). nra.
    - pose proof (IZR_of_nat_le 60 k ltac:(lia)) as H. change (IZR (Z.of_nat 60)) with 60 in H.
      nra. }
  assert (Hg : ∀ k : nat, (k < 100)%nat → k ≠ 59%nat →
            gaussian_at 0.1 460 (nth k scenario_grid 0)
            < gaussian_at 0.1 460 (nth 59 scenario_grid 0)).
  { intros k Hk Hne. apply gaussian_at_closer; [lra | apply Hd; assumption]. }
  assert (H69 : 0 < nth 69 spectrum 0).
  { rewrite (Hval 69%nat) by lia. apply Rmult_lt_0_compat; [exact Hc|].
    apply gaussian_at_pos. lra. }
  exists Z, r, spectrum. repeat split; try assumption.
  - intros j Hj. destruct (decide (j = 59%nat)) as [->|Hne]; [lra|].
    left. apply Hd; assumption.
  - intros j Hj. destruct (Nat.lt_ge_cases j 10) as [Hlt|Hge].
    + rewrite (Hlow j Hlt). lra.
    + rewrite (Hval j Hge Hj), (Hval 69%nat) by lia.
      apply Rmult_le_compat_l; [lra|].
      destruct (decide (j = 69%nat)) as [->|Hne]; [lra|].
      left. change (69 - 10)%nat with 59%nat. apply Hg; lia.
  - rewrite (Hval 59%nat), (Hval 69%nat) by lia.
    apply Rmult_lt_compat_l; [exact Hc|]. apply (Hg 49%nat); lia.
  - rewrite (Hval 60%nat), (Hval 69%nat) by lia.
    apply Rmult_lt_compat_l; [exact Hc|]. apply (Hg 50%nat); lia.
Qed.

End Scenario.

(** ** Peak normalisation *)

Lemma fold_left_Rmax_ge (l : list R) (x : R) : x <= fold_left Rmax l x.
Proof.
  revert x. induction l as [|y l IH]; intros x; simpl; [lra|].
  pose proof (IH (Rmax x y)). pose proof (Rmax_l x y). lra.
Qed.

Lemma fold_left_Rmax_bound (l : list R) (x : R) :
  Forall (fun y => y <= fold_left Rmax l x) l.
Proof.
  revert x. induction l as [|y l IH]; intros x; simpl; constructor.
  - pose proof (fold_left_Rmax_ge l (Rmax x y)). pose proof (Rmax_r x y). lra.
  - apply IH.
Qed.

Lemma fold_left_Rmax_attained (l : list R) (x : R) :
  fold_left Rmax l x = x ∨ In (fold_left Rmax l x) l.
Proof.
  revert x. induction l as [|y l IH]; intros x; simpl; [left; reflexivity|].
  destruct (IH (Rmax x y)) as [Heq|Hin]; [|right; right; exact Hin].
  rewrite Heq. unfold Rmax. destruct (Rle_dec x y); [right; left; reflexivity | left; reflexivity].
Qed.

(** [list_max] returns an element that bounds all the others. *)
Lemma list_max_spec (e : exn) (l : list R) (m : R) :
  list_max e l = Ok m ↔ In m l ∧ Forall (fun y => y <= m) l.
Proof.
  destruct l as [|x l]; simpl.
  - split; [discriminate | intros [[] _]].
  - split.
    + intros [= <-]. split.
      * destruct (fold_left_Rmax_attained l x) as [->|Hin]; [left; reflexivity | right; exact Hin].
      * constructor; [apply fold_left_Rmax_ge | apply fold_left_Rmax_bound].
    + intros [Hin Hall]. f_equal. apply Rle_antisym.
      * destruct (fold_left_Rmax_attained l x) as [->|Hin'].
        -- inversion Hall; assumption.
        -- inversion Hall as [|? ? _ Hl]; subst.
           rewrite Forall_forall in Hl. apply Hl. apply list_elem_of_In. exact Hin'.
      * destruct Hin as [<-|Hin]; [apply fold_left_Rmax_ge|].
        pose proof (fold_left_Rmax_bound l x) as Hb. rewrite Forall_forall in Hb.
        apply Hb. apply list_elem_of_In. exact Hin.
Qed.

Lemma arr_values_map (f : R → R) (a : ndarray) :
  arr_values (arr_map f a) = map f (arr_values a).
Proof. destruct a; reflexivity. Qed.

Lemma max_abs_scaled (a : ndarray) (m target_max : R) :
  MixedSpectrumSimulator.max_abs a = Ok m → m ≠ 0 →
  MixedSpectrumSimulator.max_abs (arr_map (fun x => x / m * target_max) a)
  = Ok (Rabs target_max).
Proof.
  unfold MixedSpectrumSimulator.max_abs. rewrite arr_values_map.
  generalize (arr_values a) as l. intros l Hm Hne.
  apply list_max_spec in Hm. destruct Hm as [Hin Hall].
  assert (Hpos : 0 < m).
  { apply in_map_iff in Hin. destruct Hin as (x & <- & _).
    pose proof (Rabs_pos x). lra. }
  apply list_max_spec. split.
  - apply in_map_iff in Hin. destruct Hin as (x & Hx & Hin).
    apply in_map_iff. exists (x / m * target_max). split.
    + rewrite Rabs_mult. unfold Rdiv. rewrite Rabs_mult, Hx, (Rabs_pos_eq (/ m)).
      * field. lra.
      * left. apply Rinv_0_lt_compat. exact Hpos.
    + apply in_map_iff. exists x. split; [reflexivity | exact Hin].
  - rewrite Forall_forall. intros y Hy. apply list_elem_of_In in Hy.
    apply in_map_iff in Hy. destruct Hy as (z & <- & Hz).
    apply in_map_iff in Hz. destruct Hz as (x & <- & Hx).
    rewrite Forall_forall in Hall.
    assert (Hxm : Rabs x <= m).
    { apply Hall. apply list_elem_of_In. apply in_map_iff. exists x. split; [reflexivity | exact Hx]. }
    rewrite Rabs_mult. unfold Rdiv. rewrite Rabs_mult.
    assert (Hinv : 0 < / m) by (apply Rinv_0_lt_compat; exact Hpos).
    rewrite (Rabs_pos_eq (/ m)) by lra.
    pose proof (Rabs_pos target_max) as Ht.
    assert (Hle : Rabs x * / m <= 1).
    { apply (Rmult_le_reg_r m); [exact Hpos|]. rewrite Rmult_assoc, Rinv_l by lra. lra. }
    pose proof (Rabs_pos x). nra.
Qed.

(** C4. For a spectrum whose largest absolute value [m] is not zero,
    [_normalize_intensity] returns a spectrum of the same length whose
    largest absolute value is the target peak intensity (a non-negative
    number, 0.8 as configured); when [m] is zero it returns the input
    unchanged. *)
Theorem normalize_intensity_peak (intensity : ndarray) (target_max m : R) :
  MixedSpectrumSimulator.max_abs intensity = Ok m →
  0 <= target_max →
  (m ≠ 0 →
   ∃ out, MixedSpectrumSimulator._normalize_intensity intensity target_max = Ok out
        ∧ MixedSpectrumSimulator.max_abs out = Ok target_max
        ∧ length (arr_values out) = length (arr_values intensity))
  ∧ (m = 0 →
     MixedSpectrumSimulator._normalize_intensity intensity target_max = Ok intensity).
Proof.
  intros Hm Ht. unfold MixedSpectrumSimulator._normalize_intensity. rewrite Hm.
  cbn [mbind result_bind]. split; intros Hz.
  - destruct (decide (m = 0)) as [|_]; [contradiction|].
    eexists. split; [reflexivity|]. split.
    + rewrite (max_abs_scaled intensity m target_max Hm Hz), Rabs_pos_eq by exact Ht. reflexivity.
    + rewrite arr_values_map, length_map. reflexivity.
  - destruct (decide (m = 0)); [reflexivity | contradiction].
Qed.

(** ** Instrument convolution *)

Lemma lor_1 (a : Z) : Z.lor a 1 = (2 * (a / 2) + 1)%Z.
Proof.
  apply Z.bits_inj'. intros n Hn. rewrite Z.lor_spec.
  destruct (Z.eq_dec n 0%Z) as [->|Hne].
  - rewrite Z.testbit_odd_0. apply orb_true_r.
  - replace n with (Z.succ (n - 1))%Z by lia.
    rewrite Z.testbit_odd_succ by lia.
    assert (H1 : Z.testbit 1 (Z.succ (n - 1)) = false).
    { replace (Z.succ (n - 1))%Z with n by lia. destruct n; try lia; reflexivity. }
    rewrite H1, orb_false_r.
    rewrite Z.div2_bits by lia. reflexivity.
Qed.

Lemma int_of_float_nonneg (x : R) :
  0 <= x → (0 <= int_of_float x)%Z ∧ IZR (int_of_float x) <= x < IZR (int_of_float x) + 1.
Proof.
  intros Hx. unfold int_of_float. destruct (Rle_dec 0 x) as [_|Hn]; [|contradiction].
  destruct (base_Int_part x) as [Hlo Hhi]. split; [|lra].
  apply le_IZR. destruct (Z_le_gt_dec 0%Z (Int_part x)) as [Hz|Hz]; [apply IZR_le; exact Hz|].
  exfalso. assert (IZR (Int_part x) <= -1) by (apply IZR_le; lia). lra.
Qed.

Lemma kernel_size_of_spec (sigma_points : R) :
  0 <= sigma_points →
  let k := MixedSpectrumSimulator.kernel_size_of sigma_points in
  (1 <= k)%Z ∧ Z.odd k = true
  ∧ (k = 2 * (k / 2) + 1)%Z
  ∧ (int_of_float (6 * sigma_points) <= k <= int_of_float (6 * sigma_points) + 1)%Z
  ∧ 6 * sigma_points - 1 < IZR k <= 6 * sigma_points + 1.
Proof.
  intros Hs k. unfold k, MixedSpectrumSimulator.kernel_size_of.
  destruct (int_of_float_nonneg (6 * sigma_points) ltac:(lra)) as [Hn [Hlo Hhi]].
  set (n := int_of_float (6 * sigma_points)) in *.
  rewrite lor_1.
  pose proof (Z.div_mod n 2%Z ltac:(lia)) as Hdm.
  pose proof (Z.mod_pos_bound n 2%Z ltac:(lia)) as Hmod.
  assert (Hk : (n <= 2 * (n / 2) + 1 <= n + 1)%Z) by lia.
  repeat split; try lia.
  - rewrite Z.add_comm, Z.odd_add_mul_2. reflexivity.
  - assert (Hdiv : ((2 * (n / 2) + 1) / 2 = n / 2)%Z)
      by (symmetry; apply (Z.div_unique _ 2 (n / 2) 1)%Z; lia).
    rewrite Hdiv. reflexivity.
  - assert (IZR n <= IZR (2 * (n / 2) + 1)) by (apply IZR_le; lia). lra.
  - assert (IZR (2 * (n / 2) + 1) <= IZR (n + 1)) by (apply IZR_le; lia).
    rewrite (plus_IZR n 1) in H. lra.
Qed.

Lemma Rsum_map_div (l : list R) (s : R) : Rsum (map (fun w => w / s) l) = Rsum l / s.
Proof. induction l as [|x l IH]; simpl; [lra | rewrite IH; lra]. Qed.

Lemma Rsum_pos (l : list R) : l ≠ [] → Forall (fun x => 0 < x) l → 0 < Rsum l.
Proof.
  induction l as [|x l IH]; intros Hne Hall; [congruence|].
  inversion Hall as [|? ? Hx Hl]; subst. simpl.
  destruct l as [|y l']; [simpl; lra|].
  pose proof (IH ltac:(discriminate) Hl). lra.
Qed.

(** The window is positive and has [M] entries, whenever it is computed. *)
Lemma gaussian_window (M : Z) (std : R) (window : list R) :
  gaussian M std = Ok window →
  length window = Z.to_nat M ∧ Forall (fun x => 0 < x) window.
Proof.
  unfold gaussian. destruct (M <? 0)%Z; [discriminate|].
  destruct (M <=? 1)%Z.
  - intros [= <-]. split; [apply repeat_length|].
    apply Forall_forall. intros x Hx. apply list_elem_of_In, repeat_spec in Hx. lra.
  - destruct (decide (std = 0)); [discriminate|]. intros [= <-]. split.
    + rewrite length_map, length_seq. reflexivity.
    + apply Forall_forall. intros x Hx. apply list_elem_of_In, in_map_iff in Hx.
      destruct Hx as (j & <- & _). apply exp_pos.
Qed.

Lemma gaussian_defined (sigma_points : R) :
  0 <= sigma_points →
  ∃ window, gaussian (MixedSpectrumSimulator.kernel_size_of sigma_points) sigma_points
            = Ok window.
Proof.
  intros Hs. destruct (kernel_size_of_spec sigma_points Hs) as (Hk1 & _ & _ & _ & Hlo & Hhi).
  unfold gaussian.
  destruct (MixedSpectrumSimulator.kernel_size_of sigma_points <? 0)%Z eqn:Hneg;
    [apply Z.ltb_lt in Hneg; lia|].
  destruct (MixedSpectrumSimulator.kernel_size_of sigma_points <=? 1)%Z eqn:Hone;
    [eexists; reflexivity|].
  apply Z.leb_gt in Hone.
  destruct (decide (sigma_points = 0)) as [Hz|_]; [|eexists; reflexivity].
  exfalso. assert (2 <= IZR (MixedSpectrumSimulator.kernel_size_of sigma_points))
    by (apply IZR_le; lia). lra.
Qed.

(** The kernel: as long as the kernel size, positive, of sum 1. *)
Lemma instrument_kernel_normalized (sigma_points : R) :
  0 <= sigma_points →
  ∃ kernel, MixedSpectrumSimulator.instrument_kernel sigma_points = Ok kernel
          ∧ length kernel = Z.to_nat (MixedSpectrumSimulator.kernel_size_of sigma_points)
          ∧ Forall (fun x => 0 < x) kernel
          ∧ Rsum kernel = 1.
Proof.
  intros Hs. destruct (gaussian_defined sigma_points Hs) as [window Hw].
  destruct (gaussian_window _ _ _ Hw) as [Hlen Hpos].
  destruct (kernel_size_of_spec sigma_points Hs) as (Hk1 & _).
  assert (Hne : window ≠ []) by (intros ->; simpl in Hlen; lia).
  pose proof (Rsum_pos window Hne Hpos) as Hsum.
  unfold MixedSpectrumSimulator.instrument_kernel. rewrite Hw. cbn [mbind result_bind].
  eexists. split; [reflexivity|]. repeat split.
  - rewrite length_map. exact Hlen.
  - apply Forall_forall. intros x Hx. apply list_elem_of_In, in_map_iff in Hx.
    destruct Hx as (w & <- & Hin). rewrite Forall_forall in Hpos.
    apply Rdiv_lt_0_compat; [apply Hpos, list_elem_of_In; exact Hin | exact Hsum].
  - rewrite Rsum_map_div. field. lra.
Qed.

Lemma conv1d_same_length (input kernel : list R) (p : nat) :
  length kernel = (2 * p + 1)%nat → input ≠ [] →
  ∃ out, conv1d input kernel (Z.of_nat p) = Ok out
       ∧ length out = length input
       ∧ ∀ i : nat, (i < length input)%nat →
           nth i out 0 = dot kernel (skipn i (zero_padded input p)).
Proof.
  intros Hk Hne. unfold conv1d.
  destruct (Z.of_nat p <? 0)%Z eqn:Hneg; [apply Z.ltb_lt in Hneg; lia|].
  rewrite Nat2Z.id. fold (zero_padded input p).
  destruct kernel as [|k0 kernel']; [simpl in Hk; lia|].
  assert (Hpad : length (zero_padded input p) = (length input + 2 * p)%nat).
  { unfold zero_padded. rewrite !length_app, !repeat_length. lia. }
  assert (Hin : (1 ≤ length input)%nat) by (destruct input; [congruence | simpl; lia]).
  destruct (length (zero_padded input p) <? length (k0 :: kernel'))%nat eqn:Hshort;
    [apply Nat.ltb_lt in Hshort; lia|].
  eexists. split; [reflexivity|].
  assert (Hn : (length (zero_padded input p) - length (k0 :: kernel') + 1 = length input)%nat) by lia.
  rewrite Hn. split.
  - rewrite length_map, length_seq. reflexivity.
  - intros i Hi. rewrite nth_map_seq by exact Hi. reflexivity.
Qed.

Lemma convolve_spectrum_result (self : MixedSpectrumSimulator.t) (spectrum : list R)
    (sigma_nm step : R) :
  MixedSpectrumSimulator.wavelength_step self.(MixedSpectrumSimulator.wavelengths) = Ok step →
  0 < step → 0 <= sigma_nm → (2 ≤ length spectrum)%nat →
  ∃ (kernel out : list R),
    MixedSpectrumSimulator.instrument_kernel (sigma_nm / step) = Ok kernel
    ∧ MixedSpectrumSimulator._convolve_spectrum self spectrum sigma_nm = Ok (Arr1 out)
    ∧ length kernel = Z.to_nat (MixedSpectrumSimulator.kernel_size_of (sigma_nm / step))
    ∧ Forall (fun x => 0 < x) kernel
    ∧ Rsum kernel = 1
    ∧ length out = length spectrum
    ∧ ∀ i : nat, (i < length spectrum)%nat →
        nth i out 0
        = dot kernel
            (skipn i (zero_padded spectrum
                        (Z.to_nat (MixedSpectrumSimulator.kernel_size_of (sigma_nm / step) / 2)))).
Proof.
  intros Hstep Hpos Hsig Hlen.
  assert (Hsp : 0 <= sigma_nm / step) by (apply Rmult_le_pos; [exact Hsig | left; apply Rinv_0_lt_compat; exact Hpos]).
  destruct (instrument_kernel_normalized _ Hsp) as (kernel & Hker & Hklen & Hkpos & Hksum).
  destruct (kernel_size_of_spec _ Hsp) as (Hk1 & _ & Hk2 & _).
  set (k := MixedSpectrumSimulator.kernel_size_of (sigma_nm / step)) in *.
  assert (Hhalf : (0 <= k / 2)%Z) by (apply Z.div_pos; lia).
  destruct (conv1d_same_length spectrum kernel (Z.to_nat (k / 2)))
    as (out & Hconv & Holen & Hnth).
  { rewrite Hklen. lia. }
  { destruct spectrum; [simpl in Hlen; lia | discriminate]. }
  rewrite Z2Nat.id in Hconv by exact Hhalf.
  exists kernel, out. split; [exact Hker|]. split.
  - unfold MixedSpectrumSimulator._convolve_spectrum. rewrite Hstep. cbn [mbind result_bind].
    rewrite fdiv_ok by lra. cbn [mbind result_bind]. rewrite Hker. cbn [mbind result_bind].
    fold k. rewrite Hconv. cbn [mbind result_bind]. f_equal.
    destruct out as [|x [|y out']]; simpl in Holen; try lia; reflexivity.
  - repeat split; assumption.
Qed.

(** C6 (as amended). On a grid with a positive step, for a non-negative
    [sigma_nm] and a spectrum of at least two bins, [_convolve_spectrum] uses
    a Gaussian kernel of sum 1 whose length is [int(6·sigma_points) | 1]: an
    odd number within 1 of 6 times the sigma in grid bins. The kernel slides
    over the spectrum padded with [kernel_size // 2] zeros on each side, and
    the result has the length of the input. *)
Theorem convolve_spectrum_zero_padded (self : MixedSpectrumSimulator.t)
    (spectrum : list R) (sigma_nm step : R) :
  MixedSpectrumSimulator.wavelength_step self.(MixedSpectrumSimulator.wavelengths) = Ok step →
  0 < step → 0 <= sigma_nm → (2 ≤ length spectrum)%nat →
  ∃ (kernel out : list R),
    MixedSpectrumSimulator.instrument_kernel (sigma_nm / step) = Ok kernel
    ∧ MixedSpectrumSimulator._convolve_spectrum self spectrum sigma_nm = Ok (Arr1 out)
    ∧ Z.odd (MixedSpectrumSimulator.kernel_size_of (sigma_nm / step)) = true
    ∧ 6 * (sigma_nm / step) - 1
      < IZR (MixedSpectrumSimulator.kernel_size_of (sigma_nm / step))
      <= 6 * (sigma_nm / step) + 1
    ∧ length kernel = Z.to_nat (MixedSpectrumSimulator.kernel_size_of (sigma_nm / step))
    ∧ Rsum kernel = 1
    ∧ length out = length spectrum
    ∧ ∀ i : nat, (i < length spectrum)%nat →
        nth i out 0
        = dot kernel
            (skipn i (zero_padded spectrum
                        (Z.to_nat (MixedSpectrumSimulator.kernel_size_of (sigma_nm / step) / 2)))).
Proof.
  intros Hstep Hpos Hsig Hlen.
  destruct (convolve_spectrum_result self spectrum sigma_nm step Hstep Hpos Hsig Hlen)
    as (kernel & out & Hker & Hconv & Hklen & _ & Hksum & Holen & Hnth).
  assert (Hsp : 0 <= sigma_nm / step)
    by (apply Rmult_le_pos; [exact Hsig | left; apply Rinv_0_lt_compat; exact Hpos]).
  destruct (kernel_size_of_spec _ Hsp) as (_ & Hodd & _ & _ & Hbounds).
  exists kernel, out. repeat split; try assumption; apply Hbounds.
Qed.

Lemma two_point_step :
  MixedSpectrumSimulator.wavelength_step
    (MixedSpectrumSimulator.wavelengths (MixedSpectrumSimulator.init [] two_point_config []))
  = Ok 1.
Proof.
  cbn. unfold fdiv.
  change (IZR (Z.of_nat 2)) with 2. change (IZR (Z.of_nat 1)) with 1.
  change (IZR (Z.of_nat 0)) with 0.
  destruct (decide (2 - 1 = 0)) as [H|_]; [lra|].
  f_equal. field.
Qed.

Lemma convolve_spectrum_zero_padded_witness :
  ∃ (kernel out : list R),
    MixedSpectrumSimulator.instrument_kernel (0.5 / 1) = Ok kernel
    ∧ MixedSpectrumSimulator._convolve_spectrum
        (MixedSpectrumSimulator.init [] two_point_config []) [1; 1] 0.5 = Ok (Arr1 out)
    ∧ Z.odd (MixedSpectrumSimulator.kernel_size_of (0.5 / 1)) = true
    ∧ 6 * (0.5 / 1) - 1
      < IZR (MixedSpectrumSimulator.kernel_size_of (0.5 / 1))
      <= 6 * (0.5 / 1) + 1
    ∧ length kernel = Z.to_nat (MixedSpectrumSimulator.kernel_size_of (0.5 / 1))
    ∧ Rsum kernel = 1
    ∧ length out = length [1; 1]
    ∧ ∀ i : nat, (i < length [1; 1])%nat →
        nth i out 0
        = dot kernel
            (skipn i (zero_padded [1; 1]
                        (Z.to_nat (MixedSpectrumSimulator.kernel_size_of (0.5 / 1) / 2)))).
Proof.
  apply (convolve_spectrum_zero_padded
           (MixedSpectrumSimulator.init [] two_point_config []) [1; 1] 0.5 1).
  - exact two_point_step.
  - lra.
  - lra.
  - simpl. lia.
Defined.

Lemma kernel_size_of_half : MixedSpectrumSimulator.kernel_size_of (0.5 / 1) = 3%Z.
Proof.
  unfold MixedSpectrumSimulator.kernel_size_of, int_of_float.
  destruct (Rle_dec 0 (6 * (0.5 / 1))) as [_|Hn]; [|exfalso; lra].
  rewrite <- (Int_part_spec (6 * (0.5 / 1)) 3); [reflexivity|]. lra.
Qed.

(** C6 (counterexample). On the two-point grid with step 1 and sigma 0.5 the
    kernel has three entries. For the constant spectrum [1; 1] the code's
    first output bin is below 1, because one kernel entry falls on a padding
    zero, while edge padding (copies of the boundary value) gives 1: the
    code does not pad with the edge values. *)
Lemma convolve_spectrum_not_edge_padded :
  ∃ (kernel out : list R),
    MixedSpectrumSimulator.instrument_kernel (0.5 / 1) = Ok kernel
    ∧ MixedSpectrumSimulator._convolve_spectrum
        (MixedSpectrumSimulator.init [] two_point_config []) [1; 1] 0.5 = Ok (Arr1 out)
    ∧ nth 0 (convolve_edge_padded kernel [1; 1]
               (Z.to_nat (MixedSpectrumSimulator.kernel_size_of (0.5 / 1) / 2))) 0 = 1
    ∧ nth 0 out 0 < 1
    ∧ out ≠ convolve_edge_padded kernel [1; 1]
              (Z.to_nat (MixedSpectrumSimulator.kernel_size_of (0.5 / 1) / 2)).
Proof.
  destruct (convolve_spectrum_result (MixedSpectrumSimulator.init [] two_point_config [])
              [1; 1] 0.5 1 two_point_step ltac:(lra) ltac:(lra) ltac:(simpl; lia))
    as (kernel & out & Hker & Hconv & Hklen & Hkpos & Hksum & Holen & Hnth).
  rewrite kernel_size_of_half in Hklen, Hnth |- *.
  change (Z.to_nat (3 / 2)) with 1%nat in Hnth |- *.
  change (Z.to_nat 3) with 3%nat in Hklen.
  destruct kernel as [|k0 [|k1 [|k2 [|]]]]; simpl in Hklen; try lia.
  inversion Hkpos as [|? ? Hk0 _]; subst.
  simpl in Hksum.
  assert (Hedge : nth 0 (convolve_edge_padded [k0; k1; k2] [1; 1] 1) 0 = 1)
    by (cbn; lra).
  assert (Hcode : nth 0 out 0 < 1).
  { rewrite (Hnth 0%nat) by (simpl; lia). cbn. lra. }
  exists [k0; k1; k2], out. repeat split; try assumption.
  intros Heq. rewrite Heq in Hcode. lra.
Qed.

(** ** Instances on concrete inputs *)

Lemma simulate_without_data_witness :
  SpectrumSimulator.simulate
    (SpectrumSimulator.init
       [[PFloat 450; PNone; PFloat 3; PFloat 0; PFloat 2; PFloat 4; PObj]]
       "Fe" 1 [6000; 8000] 7.9 SIMULATION_CONFIG) 1.0
  = Ok {| SpectrumSimulator.sr_wavelengths :=
            SpectrumSimulator.wavelengths
              (SpectrumSimulator.init
                 [[PFloat 450; PNone; PFloat 3; PFloat 0; PFloat 2; PFloat 4; PObj]]
                 "Fe" 1 [6000; 8000] 7.9 SIMULATION_CONFIG);
          SpectrumSimulator.sr_spectra := [];
          SpectrumSimulator.sr_peak_indices := [];
          SpectrumSimulator.sr_peak_labels := [];
          SpectrumSimulator.sr_temperatures := [];
          SpectrumSimulator.sr_intensity_data := [];
          SpectrumSimulator.sr_contributions := [] |}.
Proof.
  apply (simulate_without_data
           (SpectrumSimulator.init
              [[PFloat 450; PNone; PFloat 3; PFloat 0; PFloat 2; PFloat 4; PObj]]
              "Fe" 1 [6000; 8000] 7.9 SIMULATION_CONFIG) 1.0).
  repeat constructor.
Defined.

Lemma scenario_460_misplaced_witness :
  ∃ (Z : R) (r : SpectrumSimulator.SimResult) (spectrum : list R),
    0 < Z
    ∧ SpectrumSimulator.simulate (scenario_simulator 460 1e8 3 0 2 4 PObj) 1.0 = Ok r
    ∧ r.(SpectrumSimulator.sr_spectra) = [spectrum]
    ∧ r.(SpectrumSimulator.sr_peak_indices) = [[60%nat]]
    ∧ length spectrum = 100%nat
    ∧ (∀ j : nat, (j < 10)%nat → nth j spectrum 0 = 0)
    ∧ (∀ j : nat, (10 ≤ j)%nat → (j < 100)%nat →
         nth j spectrum 0
         = 4 * 1e8 * exp (- 3 / (k_B * 10000)) / Z * 1.0
           * SpectrumSimulator.gaussian_at 0.1 460 (nth (j - 10) scenario_grid 0))
    ∧ (∀ j : nat, (j < 100)%nat →
         (nth 59 scenario_grid 0 - 460) ^ 2 <= (nth j scenario_grid 0 - 460) ^ 2)
    ∧ (∀ j : nat, (j < 100)%nat → nth j spectrum 0 <= nth 69 spectrum 0)
    ∧ 0 < nth 69 spectrum 0
    ∧ nth 59 spectrum 0 < nth 69 spectrum 0
    ∧ nth 60 spectrum 0 < nth 69 spectrum 0.
Proof. apply (scenario_460_misplaced 1e8 3 0 2 4 PObj); lra. Defined.

Lemma max_abs_example : MixedSpectrumSimulator.max_abs (Arr1 [1; -4; 2]) = Ok 4.
Proof.
  unfold MixedSpectrumSimulator.max_abs. apply list_max_spec. cbn [arr_values map].
  assert (H1 : Rabs 1 = 1) by (apply Rabs_pos_eq; lra).
  assert (H4 : Rabs (-4) = 4) by (rewrite Rabs_left; lra).
  assert (H2 : Rabs 2 = 2) by (apply Rabs_pos_eq; lra).
  rewrite H1, H4, H2. split.
  - right; left; reflexivity.
  - repeat constructor; lra.
Qed.

Lemma normalize_intensity_peak_witness :
  (4 ≠ 0 →
   ∃ out, MixedSpectrumSimulator._normalize_intensity (Arr1 [1; -4; 2]) 0.8 = Ok out
        ∧ MixedSpectrumSimulator.max_abs out = Ok 0.8
        ∧ length (arr_values out) = length (arr_values (Arr1 [1; -4; 2])))
  ∧ (4 = 0 →
     MixedSpectrumSimulator._normalize_intensity (Arr1 [1; -4; 2]) 0.8 = Ok (Arr1 [1; -4; 2])).
Proof.
  apply (normalize_intensity_peak (Arr1 [1; -4; 2]) 0.8 4).
  - exact max_abs_example.
  - lra.
Defined.

(** ** Composition of a generated sample *)

Lemma rand_bind_ok {G A B : Type} (m : rand G A) (k : A → rand G B) (g g' : G) (b : B) :
  (m ≫= k) g = Ok (b, g') → ∃ a g1, m g = Ok (a, g1) ∧ k a g1 = Ok (b, g').
Proof.
  unfold mbind, rand_bind. destruct (m g) as [[a g1]|e]; [|discriminate].
  intros Hk. exists a, g1. split; [reflexivity | exact Hk].
Qed.

Lemma lift_ok {G A : Type} (r : result A) (g g' : G) (a : A) :
  lift r g = Ok (a, g') → r = Ok a ∧ g' = g.
Proof. unfold lift. destruct r; [intros [= -> ->]; split; reflexivity | discriminate]. Qed.

Lemma fdiv_inv (x y q : R) : fdiv x y = Ok q → y ≠ 0 ∧ q = x / y.
Proof.
  unfold fdiv. destruct (decide (y = 0)); [discriminate|].
  intros [= <-]. split; [assumption | reflexivity].
Qed.

Lemma Rsum_app (l1 l2 : list R) : Rsum (l1 ++ l2) = Rsum l1 + Rsum l2.
Proof. induction l1 as [|x l1 IH]; simpl; [lra | rewrite IH; lra]. Qed.

Lemma Rsum_map_scale {A : Type} (f : A → R) (c : R) (l : list A) :
  Rsum (map (fun x => f x * c) l) = Rsum (map f l) * c.
Proof. induction l as [|x l IH]; simpl; [lra | rewrite IH; lra]. Qed.

Lemma dict_set_fresh {V : Type} (d : list (string * V)) (k : string) (v : V) :
  ¬ In k (Dict.keys d) → Dict.set d k v = d ++ [(k, v)].
Proof.
  induction d as [|[k' v'] d IH]; intros Hk; simpl; [reflexivity|].
  simpl in Hk. destruct (decide (k' = k)) as [->|Hne]; [exfalso; apply Hk; left; reflexivity|].
  rewrite IH; [reflexivity|]. intros Hin. apply Hk. right. exact Hin.
Qed.

Lemma pair_keys_species (e : string) :
  In e BASE_ELEMENTS →
  Forall (fun k => MixedSpectrumSimulator.is_species_key k = true) (pair_keys e).
Proof.
  intros He. repeat (destruct He as [<-|He]; [repeat constructor|]). destruct He.
Qed.

Lemma pair_keys_distinct (e : string) :
  In e BASE_ELEMENTS → species_label e 1 ≠ species_label e 2.
Proof.
  intros He. repeat (destruct He as [<-|He]; [discriminate|]). destruct He.
Qed.

Lemma pair_keys_disjoint (e e' : string) :
  In e BASE_ELEMENTS → In e' BASE_ELEMENTS → e ≠ e' →
  ∀ k, In k (pair_keys e) → ¬ In k (pair_keys e').
Proof.
  intros He He' Hne k Hk Hk'.
  assert (Hdec : e = e').
  { repeat (destruct He as [<-|He];
            [repeat (destruct He' as [<-|He']; [first [reflexivity | exfalso; simpl in Hk, Hk'; intuition (subst; discriminate)] |]); destruct He' |]).
    destruct He. }
  contradiction.
Qed.

Section Composition.
Import MixedSpectrumSimulator.
Context {G : Type}.
Variable uniform : R → R → G → R * G.

Lemma add_element_pair_ok (ie : list (string * R)) (temp n_e : R) (seen : list string)
    (st st' : list (string * R) * R) (e : string) (g g' : G) :
  composition_ok seen st →
  In e BASE_ELEMENTS → (∀ x, In x seen → In x BASE_ELEMENTS) → ¬ In e seen →
  add_element_pair uniform ie temp n_e st (e, species_label e 1, species_label e 2) g
  = Ok (st', g') →
  composition_ok (seen ++ [e]) st'.
Proof.
  intros [Hsum Hkeys] He Hseen Hnew. destruct st as [d total]. unfold add_element_pair.
  assert (Hmono : ∀ k, In k (flat_map pair_keys seen) → In k (flat_map pair_keys (seen ++ [e]))).
  { intros k Hk. rewrite flat_map_app. apply in_or_app. left. exact Hk. }
  destruct (decide (Dict.get_default ie (e +:+ " I")%string 0.0 = 0.0)) as [_|_].
  { intros [= <- <-]. split; [exact Hsum | intros k Hk; apply Hmono, Hkeys, Hk]. }
  intros H.
  apply rand_bind_ok in H as (S & g1 & HS & H). apply lift_ok in HS as [HS ->].
  apply rand_bind_ok in H as (tp & g2 & Htp & H).
  apply rand_bind_ok in H as (fn & g3 & Hfn & H). apply lift_ok in Hfn as [Hfn ->].
  apply rand_bind_ok in H as (fi & g4 & Hfi & H). apply lift_ok in Hfi as [Hfi ->].
  apply fdiv_inv in Hfn as [Hden ->]. apply fdiv_inv in Hfi as [_ ->].
  injection H as <- <-. simpl in Hsum, Hkeys.
  assert (Hfresh1 : ¬ In (species_label e 1) (Dict.keys d)).
  { intros Hin. apply Hkeys, in_flat_map in Hin. destruct Hin as (e' & He' & Hk).
    apply (pair_keys_disjoint e e' He (Hseen e' He') ltac:(intros ->; contradiction)
             (species_label e 1)); [left; reflexivity | exact Hk]. }
  assert (Hfresh2 : ¬ In (species_label e 2) (Dict.keys d)).
  { intros Hin. apply Hkeys, in_flat_map in Hin. destruct Hin as (e' & He' & Hk).
    apply (pair_keys_disjoint e e' He (Hseen e' He') ltac:(intros ->; contradiction)
             (species_label e 2)); [right; left; reflexivity | exact Hk]. }
  rewrite (dict_set_fresh d _ _ Hfresh1).
  rewrite dict_set_fresh.
  2:{ unfold Dict.keys. rewrite map_app, in_app_iff. intros [Hin|[Heq|[]]].
      - apply Hfresh2. exact Hin.
      - simpl in Heq. apply (pair_keys_distinct e He). exact Heq. }
  split.
  - cbn [fst snd]. unfold Dict.values. rewrite !map_app, !Rsum_app. cbn [map snd Rsum fold_right].
    unfold Dict.values in Hsum. rewrite Hsum.
    assert (Hshare : tp * (1 / (1 + S)) + tp * (S / (1 + S)) = tp) by (field; exact Hden).
    lra.
  - cbn [fst]. intros k Hk. unfold Dict.keys in Hk. rewrite !map_app, !in_app_iff in Hk.
    rewrite flat_map_app, in_app_iff.
    destruct Hk as [[Hk|[<-|[]]]|[<-|[]]].
    + left. apply Hkeys. exact Hk.
    + right. simpl. left. reflexivity.
    + right. simpl. right. left. reflexivity.
Qed.

Lemma composition_loop_ok (ie : list (string * R)) (temp n_e : R) (elems : list string) :
  ∀ (seen : list string) (st st' : list (string * R) * R) (g g' : G),
    composition_ok seen st →
    NoDup (seen ++ elems) → (∀ x, In x (seen ++ elems) → In x BASE_ELEMENTS) →
    foldlM (add_element_pair uniform ie temp n_e) st
      (map (fun elem => (elem, species_label elem 1, species_label elem 2)) elems) g
    = Ok (st', g') →
    composition_ok (seen ++ elems) st'.
Proof.
  induction elems as [|e elems IH]; intros seen st st' g g' Hok Hnd Hbase H.
  - cbn in H. injection H as <- <-. rewrite app_nil_r. exact Hok.
  - cbn [map foldlM] in H. apply rand_bind_ok in H as (st1 & g1 & Hstep & H).
    replace (seen ++ e :: elems) with ((seen ++ [e]) ++ elems) in *
      by (rewrite <- app_assoc; reflexivity).
    apply (IH (seen ++ [e]) st1 st' g1 g'); try assumption.
    apply (add_element_pair_ok ie temp n_e seen st st1 e g g1 Hok).
    + apply Hbase. rewrite !in_app_iff. left. right. left. reflexivity.
    + intros x Hx. apply Hbase. rewrite !in_app_iff. left. left. exact Hx.
    + apply NoDup_app in Hnd as (Hnd & _ & _).
      apply NoDup_app in Hnd as (_ & Hdisj & _).
      intros Hin. apply (Hdisj e); [apply list_elem_of_In; exact Hin | left].
    + exact Hstep.
Qed.

End Composition.

Lemma BASE_ELEMENTS_NoDup : NoDup BASE_ELEMENTS.
Proof. apply (bool_decide_unpack (NoDup BASE_ELEMENTS)). vm_compute. exact I. Qed.

Lemma species_keys_not_meta (seen : list string) (k : string) :
  (∀ x, In x seen → In x BASE_ELEMENTS) → In k (flat_map pair_keys seen) →
  MixedSpectrumSimulator.is_species_key k = true.
Proof.
  intros Hseen Hk. apply in_flat_map in Hk. destruct Hk as (e & He & Hk).
  pose proof (pair_keys_species e (Hseen e He)) as Hall.
  rewrite Forall_forall in Hall. apply Hall, list_elem_of_In. exact Hk.
Qed.

Lemma filter_species_map (d : list (string * R)) (f : string * R → string * R) :
  (∀ kv, fst (f kv) = fst kv) →
  Forall (fun kv => MixedSpectrumSimulator.is_species_key (fst kv) = true) d →
  List.filter (fun kv => MixedSpectrumSimulator.is_species_key (fst kv)) (map f d) = map f d.
Proof.
  intros Hf Hall. induction Hall as [|kv d Hkv _ IH]; [reflexivity|].
  simpl. rewrite Hf, Hkv, IH. reflexivity.
Qed.

(** C3. Whenever [generate_sample] returns a sample, the percentages stored
    under the species keys of its composition mapping (all keys except
    temperature, electron_density and delta_E_max) add up to 100, hence to
    100.0 within 1e-3. *)
Theorem generate_sample_percentages (rs : RandomState) (self : MixedSpectrumSimulator.t)
    (ionization_energies : list (string * R)) (g g' : rs.(rng))
    (s : MixedSpectrumSimulator.Sample) :
  RandomStateSpec rs →
  MixedSpectrumSimulator.generate_sample rs.(uniform) (rs.(choice) string)
    self ionization_energies g = Ok (Some s, g') →
  Rsum (map snd (List.filter (fun kv => MixedSpectrumSimulator.is_species_key (fst kv))
                             s.(MixedSpectrumSimulator.s_atom_percentages))) = 100
  ∧ Rabs (Rsum (map snd (List.filter
                           (fun kv => MixedSpectrumSimulator.is_species_key (fst kv))
                           s.(MixedSpectrumSimulator.s_atom_percentages))) - 100.0) <= 1e-3.
Proof.
  intros Hrs H.
  assert (Hgoal : ∀ x : R, x = 100 → x = 100 ∧ Rabs (x - 100.0) <= 1e-3).
  { intros x ->. split; [reflexivity|]. replace (100 - 100.0) with 0 by lra.
    rewrite Rabs_R0. lra. }
  apply Hgoal. clear Hgoal.
  unfold MixedSpectrumSimulator.generate_sample in H.
  apply rand_bind_ok in H as (sel & g1 & Hsel & H).
  destruct (choice_ok rs Hrs string BASE_ELEMENTS 7 false g
              ltac:(right; discriminate) ltac:(intros _; simpl; lia))
    as (sel' & g1' & Hsel' & _ & Hsub & Hnd).
  rewrite Hsel' in Hsel. injection Hsel as -> ->.
  specialize (Hnd eq_refl BASE_ELEMENTS_NoDup).
  cbv zeta in H.
  apply rand_bind_ok in H as ([d total] & g2 & Hfold & H).
  pose proof (composition_loop_ok rs.(uniform) ionization_energies
                (MixedSpectrumSimulator.current_T self)
                (MixedSpectrumSimulator.current_n_e self) sel [] ([], 0.0)
                (d, total) g1 g2) as Hcomp.
  destruct Hcomp as [Hsum Hkeys]; [split; [simpl; lra | intros k []] | exact Hnd | exact Hsub | exact Hfold |].
  cbn [fst snd app] in Hsum, Hkeys.
  destruct (decide (total = 0)) as [|Htot]; [discriminate|].
  assert (Hspecies : Forall (fun kv : string * R =>
                               MixedSpectrumSimulator.is_species_key (fst kv) = true) d).
  { apply Forall_forall. intros [k v] Hkv. apply (species_keys_not_meta sel k Hsub).
    apply Hkeys. apply list_elem_of_In in Hkv. apply (in_map fst) in Hkv. exact Hkv. }
  set (scaled := map (fun kv : string * R => (fst kv, snd kv * (100.0 / total))) d) in H.
  assert (Hscaled_species : Forall (fun kv : string * R =>
                               MixedSpectrumSimulator.is_species_key (fst kv) = true) scaled).
  { unfold scaled. apply Forall_forall. intros kv Hkv.
    apply list_elem_of_In, in_map_iff in Hkv. destruct Hkv as (kv0 & <- & Hin).
    rewrite Forall_forall in Hspecies. cbn [fst].
    apply (Hspecies kv0), list_elem_of_In. exact Hin. }
  assert (Hscaled_keys : ∀ k, In k (Dict.keys scaled) →
                              MixedSpectrumSimulator.is_species_key k = true).
  { intros k Hk. unfold Dict.keys in Hk. apply in_map_iff in Hk. destruct Hk as (kv & <- & Hin).
    rewrite Forall_forall in Hscaled_species. apply Hscaled_species, list_elem_of_In. exact Hin. }
  rewrite (dict_set_fresh scaled "temperature") in H
    by (intros Hin; apply Hscaled_keys in Hin; discriminate).
  rewrite (dict_set_fresh _ "electron_density") in H.
  2:{ unfold Dict.keys. rewrite map_app, in_app_iff. intros [Hin|[Heq|[]]].
      - apply Hscaled_keys in Hin. discriminate.
      - discriminate. }
  rewrite (dict_set_fresh _ "delta_E_max") in H.
  2:{ unfold Dict.keys. rewrite !map_app, !in_app_iff. intros [[Hin|[Heq|[]]]|[Heq|[]]].
      - apply Hscaled_keys in Hin. discriminate.
      - discriminate.
      - discriminate. }
  match type of H with
  | context [List.filter (fun sim => bool_decide (_ ∈ ?keys)) ?sims] =>
      destruct (List.filter (fun sim => bool_decide (species_label
                 (SpectrumSimulator.element sim) (SpectrumSimulator.ion sim) ∈ keys)) sims)
        as [|sim0 sims0]; [discriminate|]
  end.
  apply rand_bind_ok in H as ([mixed contribs] & g3 & _ & H).
  apply rand_bind_ok in H as (peak & g4 & _ & H).
  destruct (decide (peak = 0)); [discriminate|].
  apply rand_bind_ok in H as (convolved & g5 & _ & H).
  apply rand_bind_ok in H as (normalized & g6 & _ & H).
  apply rand_bind_ok in H as (labels & g7 & _ & H).
  injection H as <- _. cbn [MixedSpectrumSimulator.s_atom_percentages].
  rewrite !map_app, !List.filter_app. cbn [map List.filter fst snd].
  change (MixedSpectrumSimulator.is_species_key "temperature") with false.
  change (MixedSpectrumSimulator.is_species_key "electron_density") with false.
  change (MixedSpectrumSimulator.is_species_key "delta_E_max") with false.
  cbn [List.filter app]. rewrite !app_nil_r.
  rewrite filter_species_map; [|reflexivity|exact Hscaled_species].
  rewrite map_map. cbn [snd fst].
  rewrite (map_ext_in _ (fun kv : string * R => snd kv * 100)).
  2:{ intros kv Hkv. rewrite Forall_forall in Hscaled_species.
      rewrite (Hscaled_species kv) by (apply list_elem_of_In; exact Hkv). reflexivity. }
  rewrite (Rsum_map_scale snd 100 scaled). unfold scaled. rewrite map_map. cbn [snd].
  rewrite (Rsum_map_scale snd (100.0 / total) d).
  unfold Dict.values in Hsum. rewrite Hsum.
  replace 100.0 with 100 by lra. field. exact Htot.
Qed.

(** ** Dictionaries *)

Section DictFacts.
Context {K V : Type} `{EqDecision K}.
Implicit Types (d : list (K * V)) (k : K) (v : V).

Lemma dict_get_set_eq d k v : Dict.get (Dict.set d k v) k = Some v.
Proof.
  induction d as [|[k' v'] d IH]; simpl.
  - destruct (decide (k = k)); [reflexivity | contradiction].
  - destruct (decide (k' = k)) as [Heq|Hne]; simpl.
    + destruct (decide (k' = k)); [reflexivity | contradiction].
    + destruct (decide (k' = k)); [contradiction | exact IH].
Qed.

Lemma dict_get_set_ne d k k' v : k ≠ k' → Dict.get (Dict.set d k v) k' = Dict.get d k'.
Proof.
  intros Hne. induction d as [|[k0 v0] d IH]; simpl.
  - destruct (decide (k = k')); [contradiction | reflexivity].
  - destruct (decide (k0 = k)) as [->|Hk0]; simpl.
    + destruct (decide (k = k')); [contradiction | reflexivity].
    + destruct (decide (k0 = k')); [reflexivity | exact IH].
Qed.

Lemma dict_get_default_set_eq d k v dflt : Dict.get_default (Dict.set d k v) k dflt = v.
Proof. unfold Dict.get_default. rewrite dict_get_set_eq. reflexivity. Qed.

Lemma dict_get_default_set_ne d k k' v dflt :
  k ≠ k' → Dict.get_default (Dict.set d k v) k' dflt = Dict.get_default d k' dflt.
Proof. intros Hne. unfold Dict.get_default. rewrite dict_get_set_ne by exact Hne. reflexivity. Qed.

Lemma dict_keys_set d k v :
  ∀ k', In k' (Dict.keys (Dict.set d k v)) ↔ In k' (Dict.keys d) ∨ k' = k.
Proof.
  intros k'. induction d as [|[k0 v0] d IH]; simpl.
  - intuition congruence.
  - destruct (decide (k0 = k)) as [->|Hne]; simpl.
    + intuition congruence.
    + rewrite IH. intuition congruence.
Qed.

Lemma dict_get_in_keys d k v : Dict.get d k = Some v → In k (Dict.keys d).
Proof.
  induction d as [|[k0 v0] d IH]; simpl; [discriminate|].
  destruct (decide (k0 = k)) as [->|Hne]; [left; reflexivity | right; apply IH; assumption].
Qed.

Lemma dict_get_not_in_keys d k : ¬ In k (Dict.keys d) → Dict.get d k = None.
Proof.
  induction d as [|[k0 v0] d IH]; simpl; [reflexivity|].
  intros Hk. destruct (decide (k0 = k)) as [->|Hne]; [exfalso; apply Hk; left; reflexivity|].
  apply IH. intros Hin. apply Hk. right. exact Hin.
Qed.

Lemma dict_keys_set_NoDup d k v : NoDup (Dict.keys d) → NoDup (Dict.keys (Dict.set d k v)).
Proof.
  induction d as [|[k0 v0] d IH]; simpl; intros Hnd.
  - apply NoDup_singleton.
  - apply NoDup_cons in Hnd as [Hk0 Hnd].
    destruct (decide (k0 = k)) as [->|Hne]; simpl.
    + apply NoDup_cons. split; assumption.
    + apply NoDup_cons. split; [|apply IH; exact Hnd].
      intros Hin. apply list_elem_of_In, dict_keys_set in Hin.
      destruct Hin as [Hin|Heq]; [apply Hk0, list_elem_of_In; exact Hin | congruence].
Qed.

Lemma dict_get_map {W : Type} (f : V → W) d k :
  Dict.get (map (fun kv : K * V => (fst kv, f (snd kv))) d) k = f <$> Dict.get d k.
Proof.
  induction d as [|[k0 v0] d IH]; simpl; [reflexivity|].
  destruct (decide (k0 = k)); [reflexivity | exact IH].
Qed.

End DictFacts.

Lemma nat_sum_set {K : Type} `{EqDecision K} (d : list (K * nat)) (k : K) (v : nat) :
  (nat_sum (Dict.values (Dict.set d k v)) + Dict.get_default d k 0
   = nat_sum (Dict.values d) + v)%nat.
Proof.
  unfold Dict.get_default. induction d as [|[k0 v0] d IH]; simpl; [lia|].
  destruct (decide (k0 = k)) as [->|Hne]; simpl; [lia|].
  unfold nat_sum, Dict.values in *. simpl. lia.
Qed.

Lemma nat_sum_ge_get {K : Type} `{EqDecision K} (d : list (K * nat)) (k : K) :
  (Dict.get_default d k 0 ≤ nat_sum (Dict.values d))%nat.
Proof.
  unfold Dict.get_default. induction d as [|[k0 v0] d IH]; simpl; [lia|].
  destruct (decide (k0 = k)); unfold nat_sum, Dict.values in *; simpl; lia.
Qed.

Lemma nat_sum_pos_entry {K : Type} `{EqDecision K} (d : list (K * nat)) :
  NoDup (Dict.keys d) → (0 < nat_sum (Dict.values d))%nat →
  ∃ k, In k (Dict.keys d) ∧ (0 < Dict.get_default d k 0)%nat.
Proof.
  unfold Dict.get_default. induction d as [|[k0 v0] d IH]; simpl; intros Hnd Hpos.
  - unfold nat_sum in Hpos. simpl in Hpos. lia.
  - apply NoDup_cons in Hnd as [Hk0 Hnd].
    destruct (Nat.eq_dec v0 0%nat) as [->|Hv].
    + destruct (IH Hnd) as (k & Hin & Hk); [unfold nat_sum, Dict.values in *; simpl in Hpos; lia|].
      exists k. split; [right; exact Hin|].
      destruct (decide (k0 = k)) as [->|_]; [exfalso; apply Hk0, list_elem_of_In; exact Hin | exact Hk].
    + exists k0. split; [left; reflexivity|].
      destruct (decide (k0 = k0)); [lia | contradiction].
Qed.

(** ** The scheduler: round-robin interleaving *)

Section Interleave.
Import DatasetGenerator.
Local Open Scope nat_scope.
Variable temp_specific_params : list (R * list (R * R)).
Variable temperature_range : list R.
Variable total : nat.

(** Every pair stored under a temperature carries that temperature. *)
Hypothesis params_keyed :
  ∀ T p, In p (Dict.get_default temp_specific_params T []) → fst p = T.

Lemma count_temperature_app (T : R) (l1 l2 : list (R * R)) :
  count_temperature T (l1 ++ l2) = (count_temperature T l1 + count_temperature T l2)%nat.
Proof. unfold count_temperature. rewrite List.filter_app, length_app. reflexivity. Qed.

Lemma take_next_inv (st : round_robin) (T : R) :
  interleave_inv temp_specific_params temperature_range total st →
  In T temperature_range →
  ∃ st', take_next temp_specific_params st T = Ok st'
       ∧ interleave_inv temp_specific_params temperature_range total st'
       ∧ (total_remaining st' ≤ total_remaining st)%nat
       ∧ ((0 < Dict.get_default (remaining st) T 0)%nat →
          (total_remaining st' < total_remaining st)%nat)
       ∧ (∀ T', (Dict.get_default (remaining st') T' 0
                 ≤ Dict.get_default (remaining st) T' 0)%nat)
       ∧ ((Dict.get_default (remaining st) T 0 = 0)%nat → st' = st).
Proof.
  intros (Hnd & Hkeys & Htot & Hlen & Hsize & Hcount & Hmem) HT.
  unfold take_next.
  destruct (0 <? Dict.get_default (remaining st) T 0)%nat eqn:Hrem.
  2:{ apply Nat.ltb_ge in Hrem. exists st.
      split; [reflexivity|]. split; [repeat split; assumption|].
      repeat split; lia. }
  apply Nat.ltb_lt in Hrem.
  pose proof (Hlen T) as HlenT.
  destruct (nth_error (Dict.get_default temp_specific_params T [])
              (Dict.get_default (indices st) T 0%nat)) as [param|] eqn:Hnth.
  2:{ apply nth_error_None in Hnth. lia. }
  assert (Hin : In param (Dict.get_default temp_specific_params T []))
    by (apply nth_error_In in Hnth; exact Hnth).
  assert (Hfst : fst param = T) by (apply (params_keyed T), Hin).
  pose proof (nat_sum_ge_get (remaining st) T) as Hge.
  pose proof (nat_sum_set (remaining st) T (Dict.get_default (remaining st) T 0 - 1)) as Hset.
  eexists. split; [reflexivity|]. split; [|cbn [total_remaining remaining]; repeat split].
  - unfold interleave_inv. cbn [sample_params indices remaining total_remaining].
    split; [apply dict_keys_set_NoDup; exact Hnd|].
    split; [intros T' HT'; apply dict_keys_set in HT' as [HT' | ->]; [apply Hkeys, HT' | exact HT]|].
    split; [lia|].
    split.
    { intros T'. destruct (decide (T = T')) as [<-|Hne].
      - rewrite !dict_get_default_set_eq. lia.
      - rewrite !dict_get_default_set_ne by exact Hne. apply Hlen. }
    split; [rewrite length_app; simpl; lia|].
    split.
    { intros T'. rewrite count_temperature_app, Hcount. unfold count_temperature at 1.
      cbn [List.filter]. rewrite Hfst.
      destruct (decide (T = T')) as [<-|Hne].
      - rewrite dict_get_default_set_eq, bool_decide_eq_true_2 by reflexivity. simpl. lia.
      - rewrite dict_get_default_set_ne, bool_decide_eq_false_2 by exact Hne. simpl. lia. }
    intros p Hp. apply in_app_or in Hp as [Hp|[<-|[]]]; [apply Hmem, Hp|].
    rewrite Hfst. exact Hin.
  - lia.
  - intros _. lia.
  - intros T'. destruct (decide (T = T')) as [<-|Hne].
    + rewrite dict_get_default_set_eq. lia.
    + rewrite dict_get_default_set_ne by exact Hne. lia.
  - intros Hz. lia.
Qed.

(** One pass over the temperatures: nothing is lost, and the pass takes at
    least one pair when a temperature of the pass still has one. *)
Lemma pass_inv (temps : list R) :
  (∀ T, In T temps → In T temperature_range) →
  ∀ st : round_robin,
    interleave_inv temp_specific_params temperature_range total st →
    ∃ st', foldlM (take_next temp_specific_params) st temps = Ok st'
         ∧ interleave_inv temp_specific_params temperature_range total st'
         ∧ (total_remaining st' ≤ total_remaining st)%nat
         ∧ ((∃ T, In T temps ∧ (0 < Dict.get_default (remaining st) T 0)%nat) →
            (total_remaining st' < total_remaining st)%nat).
Proof.
  induction temps as [|T temps IH]; intros Hsub st Hinv.
  - exists st. split; [reflexivity|]. split; [exact Hinv|]. split; [lia|].
    intros (T & [] & _).
  - destruct (take_next_inv st T Hinv (Hsub T (or_introl eq_refl)))
      as (st1 & Hstep & Hinv1 & Hle1 & Hlt1 & Hmono & Hsame).
    destruct (IH (fun T' HT' => Hsub T' (or_intror HT')) st1 Hinv1)
      as (st' & Hfold & Hinv' & Hle' & Hlt').
    exists st'. cbn [foldlM]. rewrite Hstep. cbn [mbind result_bind].
    split; [exact Hfold|]. split; [exact Hinv'|]. split; [lia|].
    intros (T0 & [<-|HT0] & Hpos).
    + specialize (Hlt1 Hpos). lia.
    + destruct (Nat.eq_dec (Dict.get_default (remaining st) T 0) 0%nat) as [Hz|Hnz].
      * rewrite (Hsame Hz) in *. apply Hlt'. exists T0. split; assumption.
      * specialize (Hlt1 ltac:(lia)). lia.
Qed.

Lemma interleave_ends (fuel : nat) :
  ∀ st : round_robin,
    interleave_inv temp_specific_params temperature_range total st →
    (total_remaining st ≤ fuel)%nat →
    ∃ st', interleave fuel temp_specific_params temperature_range st = Ok st'
         ∧ interleave_inv temp_specific_params temperature_range total st'
         ∧ total_remaining st' = 0%nat.
Proof.
  induction fuel as [|fuel IH]; intros st Hinv Hfuel.
  - exists st. cbn [interleave].
    replace (0 <? total_remaining st)%nat with false by (symmetry; apply Nat.ltb_ge; lia).
    split; [reflexivity|]. split; [exact Hinv | lia].
  - cbn [interleave]. destruct (0 <? total_remaining st)%nat eqn:Hpos.
    2:{ apply Nat.ltb_ge in Hpos. exists st. split; [reflexivity|]. split; [exact Hinv | lia]. }
    apply Nat.ltb_lt in Hpos.
    destruct (pass_inv temperature_range (fun T HT => HT) st Hinv)
      as (st1 & Hpass & Hinv1 & _ & Hlt).
    rewrite Hpass. cbn [mbind result_bind]. apply IH; [exact Hinv1|].
    assert (total_remaining st1 < total_remaining st)%nat; [|lia].
    apply Hlt. destruct Hinv as (Hnd & Hkeys & Htot & _).
    destruct (nat_sum_pos_entry (remaining st) Hnd ltac:(lia)) as (T & HT & HTpos).
    exists T. split; [apply Hkeys, HT | exact HTpos].
Qed.

End Interleave.

(** ** The scheduler: quotas per temperature *)

Lemma firstn_In {A : Type} (n : nat) (l : list A) (x : A) : In x (firstn n l) → In x l.
Proof.
  revert l. induction n as [|n IH]; intros [|y l]; simpl; try tauto.
  intros [->|Hin]; [left; reflexivity | right; apply IH, Hin].
Qed.

Section Quotas.
Import DatasetGenerator.
Local Open Scope nat_scope.
Variable rs : RandomState.
Hypothesis rs_ok : RandomStateSpec rs.
Variable config : Config.
Variable delta_E_max_dict : list (string * R).
Hypothesis densities : config.(cfg_electron_density_range) ≠ [].

Let N := config.(cfg_num_samples).
Let m := length config.(cfg_temperature_range).

Lemma total_pairs_set (d : list (R * list (R * R))) (T : R) (new : list (R * R)) :
  total_pairs (Dict.set d T (Dict.get_default d T [] ++ new)) = total_pairs d + length new.
Proof.
  unfold total_pairs, Dict.get_default. induction d as [|[T0 l0] d IH]; simpl.
  - unfold nat_sum. simpl. lia.
  - destruct (decide (T0 = T)) as [->|Hne]; unfold nat_sum in *; simpl.
    + rewrite length_app. lia.
    + rewrite IH. lia.
Qed.

Lemma schedule_temperature_ok (tsp : list (R * list (R * R))) (i : nat) (T : R)
    (g : rs.(rng)) :
  (0 <= T)%R →
  ∃ new g',
    schedule_temperature rs config delta_E_max_dict (N / m) (N mod m) tsp (i, T) g
    = Ok (Dict.set tsp T (Dict.get_default tsp T [] ++ new), g')
    ∧ length new = quota N m i
    ∧ Forall (fun p : R * R =>
                fst p = T ∧ In (snd p) (valid_densities config delta_E_max_dict T)) new.
Proof.
  intros HT. unfold schedule_temperature, _calculate_lte_electron_density.
  destruct (decide (T < 0)%R) as [Hneg|_]; [lra|].
  set (n := N / m + (if i <? N mod m then 1 else 0)).
  set (filtered := List.filter _ (cfg_electron_density_range config)).
  set (valid := match filtered with [] => cfg_electron_density_range config | _ => filtered end).
  assert (Hvalid_ne : valid ≠ []).
  { unfold valid. destruct filtered; [exact densities | discriminate]. }
  set (size := if decide (Nat.min (length valid) 5 = 0)
               then length (cfg_electron_density_range config)
               else Nat.min (length valid) 5).
  assert (Hsize : 1 ≤ size ≤ length valid).
  { unfold size. destruct valid; [congruence|]. simpl length.
    destruct (decide (Nat.min (S (length valid)) 5 = 0)); lia. }
  destruct (choice_ok rs rs_ok R valid size false g ltac:(right; exact Hvalid_ne) ltac:(intros _; lia))
    as (selected & g1 & Hsel & Hsel_len & Hsel_sub & _).
  unfold mbind at 1, rand_bind at 1, lift at 1. unfold mbind at 1, rand_bind at 1.
  fold filtered. fold valid. fold size. rewrite Hsel.
  unfold mbind at 1, rand_bind at 1. fold n.
  destruct (length selected <? n) eqn:Hshort.
  - apply Nat.ltb_lt in Hshort.
    destruct (choice_ok rs rs_ok R selected (n - length selected) true g1
                ltac:(right; intros ->; simpl in Hsel_len; lia) ltac:(discriminate))
      as (additional & g2 & Hadd & Hadd_len & Hadd_sub & _).
    unfold mbind at 1, rand_bind at 1. rewrite Hadd.
    eexists _, g2. split; [reflexivity|]. split.
    + rewrite length_map, length_firstn, length_app. unfold quota. fold n. lia.
    + apply Forall_forall. intros p Hp. apply list_elem_of_In, in_map_iff in Hp.
      destruct Hp as (n_e & <- & Hin). apply firstn_In, in_app_or in Hin.
      split; [reflexivity|]. change (In n_e valid).
      destruct Hin as [Hin|Hin]; [apply Hsel_sub, Hin | apply Hsel_sub, Hadd_sub, Hin].
  - apply Nat.ltb_ge in Hshort.
    eexists _, g1. split; [reflexivity|]. split.
    + rewrite length_map, length_firstn. unfold quota. fold n. lia.
    + apply Forall_forall. intros p Hp. apply list_elem_of_In, in_map_iff in Hp.
      destruct Hp as (n_e & <- & Hin). apply firstn_In in Hin.
      split; [reflexivity|]. change (In n_e valid). apply Hsel_sub, Hin.
Qed.

(** The first loop: every temperature receives the pairs of its rounds. *)
Lemma schedule_rounds_ok (rounds : list (nat * R)) :
  Forall (fun iT : nat * R => (0 <= snd iT)%R) rounds →
  ∀ (tsp : list (R * list (R * R))) (g : rs.(rng)),
    ∃ tsp' g',
      foldlM (schedule_temperature rs config delta_E_max_dict (N / m) (N mod m)) tsp rounds g
      = Ok (tsp', g')
      ∧ total_pairs tsp' = total_pairs tsp + nat_sum (map (fun iT => quota N m (fst iT)) rounds)
      ∧ (∀ T, In T (Dict.keys tsp') ↔ In T (Dict.keys tsp) ∨ In T (map snd rounds))
      ∧ (NoDup (Dict.keys tsp) → NoDup (Dict.keys tsp'))
      ∧ (∀ T, ∃ extra,
           Dict.get_default tsp' T [] = Dict.get_default tsp T [] ++ extra
           ∧ length extra = scheduled_for N m rounds T
           ∧ Forall (fun p : R * R =>
                       fst p = T ∧ In (snd p) (valid_densities config delta_E_max_dict T))
                    extra).
Proof.
  induction 1 as [|[i T] rounds HT _ IH]; intros tsp g.
  - exists tsp, g. split; [reflexivity|]. split; [unfold nat_sum; simpl; lia|].
    split; [simpl; tauto|]. split; [auto|].
    intros T. exists []. rewrite app_nil_r. repeat split. constructor.
  - destruct (schedule_temperature_ok tsp i T g HT) as (new & g1 & Hstep & Hlen & Hnew).
    destruct (IH (Dict.set tsp T (Dict.get_default tsp T [] ++ new)) g1)
      as (tsp' & g' & Hfold & Htotal & Hkeys & Hnd & Hget).
    exists tsp', g'. cbn [foldlM]. unfold mbind at 1, rand_bind at 1. rewrite Hstep.
    split; [exact Hfold|]. split.
    { rewrite Htotal, total_pairs_set, Hlen. unfold nat_sum. simpl. lia. }
    split.
    { intros T'. rewrite Hkeys, dict_keys_set. simpl. intuition congruence. }
    split; [intros Hnd0; apply Hnd, dict_keys_set_NoDup, Hnd0|].
    intros T'. destruct (Hget T') as (extra & Heq & Hextra_len & Hextra).
    unfold scheduled_for. cbn [map fst snd]. fold (scheduled_for N m rounds T').
    destruct (decide (T = T')) as [<-|Hne].
    + rewrite dict_get_default_set_eq in Heq. exists (new ++ extra).
      split; [rewrite Heq, app_assoc; reflexivity|]. split.
      * rewrite length_app, Hlen, Hextra_len. unfold nat_sum. simpl. reflexivity.
      * apply Forall_app. split; assumption.
    + rewrite dict_get_default_set_ne in Heq by exact Hne. exists extra.
      split; [exact Heq|]. split; [|exact Hextra].
      rewrite Hextra_len. unfold nat_sum. simpl. reflexivity.
Qed.

End Quotas.

Section QuotaArithmetic.
Local Open Scope nat_scope.

Lemma nat_sum_app (l1 l2 : list nat) : nat_sum (l1 ++ l2) = nat_sum l1 + nat_sum l2.
Proof. unfold nat_sum. induction l1 as [|x l1 IH]; simpl; [reflexivity | rewrite IH; lia]. Qed.

Lemma quota_prefix_sum (N m k : nat) :
  nat_sum (map (quota N m) (seq 0 k)) = k * (N / m) + Nat.min k (N mod m).
Proof.
  induction k as [|k IH]; [reflexivity|].
  rewrite seq_S, map_app, nat_sum_app, IH.
  change (nat_sum (map (quota N m) [0 + k])) with (quota N m k + 0).
  unfold quota.
  destruct (k <? N mod m) eqn:Hk; [apply Nat.ltb_lt in Hk | apply Nat.ltb_ge in Hk]; lia.
Qed.

Lemma quota_total (N m : nat) : m ≠ 0 → nat_sum (map (quota N m) (seq 0 m)) = N.
Proof.
  intros Hm. rewrite quota_prefix_sum.
  pose proof (Nat.mod_upper_bound N m Hm). pose proof (Nat.div_mod_eq N m). lia.
Qed.

Lemma map_fst_combine_seq {A : Type} (l : list A) (a : nat) :
  map fst (combine (seq a (length l)) l) = seq a (length l).
Proof.
  revert a. induction l as [|x l IH]; intros a; simpl; [reflexivity|].
  rewrite IH. reflexivity.
Qed.

Lemma map_snd_combine_seq {A : Type} (l : list A) (a : nat) :
  map snd (combine (seq a (length l)) l) = l.
Proof.
  revert a. induction l as [|x l IH]; intros a; simpl; [reflexivity|].
  rewrite IH. reflexivity.
Qed.

Lemma scheduled_for_cons (N m i : nat) (T0 T : R) (rounds : list (nat * R)) :
  scheduled_for N m ((i, T0) :: rounds) T
  = (if decide (T0 = T) then quota N m i else 0) + scheduled_for N m rounds T.
Proof. reflexivity. Qed.

Lemma scheduled_for_absent (N m : nat) (temps : list R) (a : nat) (T : R) :
  ¬ In T temps → scheduled_for N m (combine (seq a (length temps)) temps) T = 0.
Proof.
  revert a. induction temps as [|T0 temps IH]; intros a Hin; [reflexivity|].
  cbn [length seq combine]. rewrite scheduled_for_cons.
  destruct (decide (T0 = T)) as [->|_]; [exfalso; apply Hin; left; reflexivity|].
  rewrite IH; [reflexivity|]. intros H. apply Hin. right. exact H.
Qed.

Lemma scheduled_for_nth (N m : nat) (temps : list R) (a i : nat) (T : R) :
  NoDup temps → nth_error temps i = Some T →
  scheduled_for N m (combine (seq a (length temps)) temps) T = quota N m (a + i).
Proof.
  revert a i. induction temps as [|T0 temps IH]; intros a i Hnd Hnth; [destruct i; discriminate|].
  apply NoDup_cons in Hnd as [HT0 Hnd].
  cbn [length seq combine]. rewrite scheduled_for_cons.
  destruct i as [|i]; simpl in Hnth.
  - injection Hnth as ->. destruct (decide (T = T)); [|contradiction].
    rewrite scheduled_for_absent by (intros H; apply HT0, list_elem_of_In; exact H).
    rewrite !Nat.add_0_r. reflexivity.
  - destruct (decide (T0 = T)) as [->|_].
    + exfalso. apply HT0, list_elem_of_In. apply nth_error_In in Hnth. exact Hnth.
    + rewrite (IH (S a) i Hnd Hnth). simpl. f_equal. lia.
Qed.

Lemma dict_init_get {V : Type} (temps : list R) (v dflt : V) :
  ∀ (d : list (R * V)) (T : R),
    (∀ T', Dict.get_default d T' dflt = dflt ∨ Dict.get_default d T' dflt = v) →
    Dict.get_default (fold_left (fun d T => Dict.set d T v) temps d) T dflt = dflt
    ∨ Dict.get_default (fold_left (fun d T => Dict.set d T v) temps d) T dflt = v.
Proof.
  induction temps as [|T0 temps IH]; intros d T Hd; simpl; [apply Hd|].
  apply IH. intros T'. destruct (decide (T0 = T')) as [<-|Hne].
  - right. apply dict_get_default_set_eq.
  - rewrite dict_get_default_set_ne by exact Hne. apply Hd.
Qed.

Lemma dict_init_keys {V : Type} (temps : list R) (v : V) :
  ∀ (d : list (R * V)),
    NoDup (Dict.keys d) →
    NoDup (Dict.keys (fold_left (fun d T => Dict.set d T v) temps d))
    ∧ ∀ T, In T (Dict.keys (fold_left (fun d T => Dict.set d T v) temps d))
           ↔ In T (Dict.keys d) ∨ In T temps.
Proof.
  induction temps as [|T0 temps IH]; intros d Hnd; simpl; [split; [exact Hnd | tauto]|].
  destruct (IH (Dict.set d T0 v) (dict_keys_set_NoDup d T0 v Hnd)) as [Hnd' Hkeys].
  split; [exact Hnd'|]. intros T. rewrite Hkeys, dict_keys_set. intuition congruence.
Qed.

Lemma dict_init_empty (temps : list R) :
  ∀ d : list (R * list (R * R)),
    Forall (fun Tp => snd Tp = []) d →
    Forall (fun Tp => snd Tp = []) (fold_left (fun d T => Dict.set d T []) temps d).
Proof.
  induction temps as [|T0 temps IH]; intros d Hd; simpl; [exact Hd|].
  apply IH. clear IH. induction Hd as [|[T1 l1] d H1 Hd IHd]; simpl.
  - repeat constructor.
  - destruct (decide (T1 = T0)); constructor; try assumption; reflexivity.
Qed.

Lemma total_pairs_empty (d : list (R * list (R * R))) :
  Forall (fun Tp => snd Tp = []) d → total_pairs d = 0.
Proof.
  unfold total_pairs, nat_sum. induction 1 as [|[T l] d Hl _ IH]; simpl; [reflexivity|].
  simpl in Hl. subst l. simpl. exact IH.
Qed.

Lemma dict_get_default_empty (d : list (R * list (R * R))) (T : R) :
  Forall (fun Tp => snd Tp = []) d → Dict.get_default d T [] = [].
Proof.
  unfold Dict.get_default. induction 1 as [|[T0 l] d Hl _ IH]; simpl; [reflexivity|].
  destruct (decide (T0 = T)); [exact Hl | exact IH].
Qed.

End QuotaArithmetic.

Section Schedule.
Import DatasetGenerator.
Local Open Scope nat_scope.

(** The densities drawn from are densities of the configured range. *)
Lemma valid_densities_range (config : Config) (delta_E_max_dict : list (string * R))
    (T n_e : R) :
  In n_e (valid_densities config delta_E_max_dict T) →
  In n_e config.(cfg_electron_density_range).
Proof.
  unfold valid_densities.
  destruct (List.filter _ (cfg_electron_density_range config)) eqn:Hf; [auto|].
  rewrite <- Hf. intros Hx. apply filter_In in Hx. apply Hx.
Qed.

(** The scheduler on a well-formed configuration: it returns [num_samples]
    pairs, each a configured temperature with one of the densities drawn
    from for it, and a temperature occurs in as many pairs as were scheduled
    for it. *)
Lemma generate_sample_params_scheduled (rs : RandomState) (config : Config)
    (delta_E_max_dict : list (string * R)) (g : rs.(rng)) :
  RandomStateSpec rs →
  config.(cfg_temperature_range) ≠ [] →
  config.(cfg_electron_density_range) ≠ [] →
  Forall (fun T => (0 <= T)%R) config.(cfg_temperature_range) →
  ∃ params g',
    _generate_sample_params rs config delta_E_max_dict g = Ok (params, g')
    ∧ length params = config.(cfg_num_samples)
    ∧ Forall (fun p : R * R =>
                In (fst p) config.(cfg_temperature_range)
                ∧ In (snd p) (valid_densities config delta_E_max_dict (fst p))) params
    ∧ (NoDup config.(cfg_temperature_range) →
       ∀ i T, nth_error config.(cfg_temperature_range) i = Some T →
         count_temperature T params
         = quota config.(cfg_num_samples) (length config.(cfg_temperature_range)) i).
Proof.
  intros Hrs Htemps Hdens Hpos.
  set (temps := cfg_temperature_range config) in *.
  set (N := cfg_num_samples config).
  set (m := length temps).
  assert (Hm : m ≠ 0) by (unfold m; destruct temps; [congruence | discriminate]).
  unfold _generate_sample_params. fold temps. fold m. fold N.
  destruct (decide (m = 0)) as [|_]; [contradiction|].
  set (tsp0 := fold_left (fun d T => Dict.set d T []) temps []).
  assert (Hempty0 : Forall (fun Tp : R * list (R * R) => snd Tp = []) tsp0)
    by (apply dict_init_empty; constructor).
  destruct (dict_init_keys temps ([] : list (R * R)) [] (NoDup_nil_2 (A:=R))) as [Hnd0 Hkeys0].
  fold tsp0 in Hnd0, Hkeys0.
  assert (Hrounds : Forall (fun iT : nat * R => (0 <= snd iT)%R) (combine (seq 0 m) temps)).
  { apply Forall_forall. intros [i T] HiT. apply list_elem_of_In, in_combine_r in HiT.
    rewrite Forall_forall in Hpos. apply Hpos, list_elem_of_In. exact HiT. }
  destruct (schedule_rounds_ok rs Hrs config delta_E_max_dict Hdens
              (combine (seq 0 m) temps) Hrounds tsp0 g)
    as (tsp & g1 & Hfold & Htotal & Hkeys & Hnd & Hget).
  specialize (Hnd Hnd0).
  change (length (cfg_temperature_range config)) with m in Hfold, Htotal, Hget.
  change (cfg_num_samples config) with N in Hfold, Htotal, Hget.
  unfold mbind at 1, rand_bind at 1. rewrite Hfold.
  replace (map (fun iT : nat * R => quota N m (fst iT)) (combine (seq 0 m) temps))
    with (map (quota N m) (seq 0 m)) in Htotal
    by (unfold m; rewrite <- (map_fst_combine_seq temps 0) at 1; rewrite map_map; reflexivity).
  rewrite (total_pairs_empty tsp0 Hempty0), (quota_total N m Hm), Nat.add_0_l in Htotal.
  assert (Hkeyed : ∀ T p, In p (Dict.get_default tsp T []) →
                          fst p = T ∧ In (snd p) (valid_densities config delta_E_max_dict T)).
  { intros T p Hp. destruct (Hget T) as (extra & Heq & _ & Hextra).
    rewrite Heq, (dict_get_default_empty tsp0 T Hempty0) in Hp. simpl in Hp.
    rewrite Forall_forall in Hextra. apply Hextra, list_elem_of_In. exact Hp. }
  set (remaining0 := map (fun Tp : R * list (R * R) => (fst Tp, length (snd Tp))) tsp).
  set (indices0 := fold_left (fun d T => Dict.set d T 0) temps []).
  assert (Hvalues : Dict.values remaining0 = map (fun Tp : R * list (R * R) => length (snd Tp)) tsp)
    by (unfold remaining0, Dict.values; rewrite map_map; reflexivity).
  assert (Hkeys_rem : Dict.keys remaining0 = Dict.keys tsp)
    by (unfold remaining0, Dict.keys; rewrite map_map; reflexivity).
  assert (Htot0 : nat_sum (Dict.values remaining0) = N)
    by (rewrite Hvalues; exact Htotal).
  set (st0 := {| sample_params := []; indices := indices0; remaining := remaining0;
                 total_remaining := nat_sum (Dict.values remaining0) |}).
  assert (Hinv0 : interleave_inv tsp temps N st0).
  { unfold interleave_inv, st0. cbn [sample_params indices remaining total_remaining].
    split; [rewrite Hkeys_rem; exact Hnd|].
    split.
    { intros T HT. rewrite Hkeys_rem in HT. apply Hkeys in HT.
      destruct HT as [HT|HT]; [apply Hkeys0 in HT; destruct HT as [[]|HT]; exact HT|].
      unfold m in HT. rewrite map_snd_combine_seq in HT. exact HT. }
    split; [reflexivity|].
    split.
    { intros T.
      assert (Hidx : Dict.get_default indices0 T 0 = 0).
      { destruct (dict_init_get temps 0 0 [] T (fun _ => or_introl eq_refl)); assumption. }
      rewrite Hidx. unfold remaining0, Dict.get_default.
      rewrite (dict_get_map (fun l : list (R * R) => length l) tsp T).
      destruct (Dict.get tsp T); reflexivity. }
    split; [simpl; exact Htot0|].
    split.
    { intros T. unfold indices0.
      destruct (dict_init_get temps 0 0 [] T (fun _ => or_introl eq_refl)) as [H|H];
        rewrite H; reflexivity. }
    intros p []. }
  destruct (interleave_ends tsp temps N (fun T p Hp => proj1 (Hkeyed T p Hp))
              (nat_sum (Dict.values remaining0)) st0 Hinv0 (Nat.le_refl _))
    as (st & Hrun & Hinv & Hdone).
  unfold mbind at 1, rand_bind at 1, lift at 1. fold st0. rewrite Hrun.
  destruct Hinv as (_ & _ & Hsum & Hlen & Hsize & Hcount & Hmem).
  assert (Hlength : length (sample_params st) = N) by lia.
  rewrite Hlength, Nat.ltb_irrefl.
  exists (sample_params st), g1. split; [reflexivity|]. split; [exact Hlength|].
  split.
  { apply Forall_forall. intros p Hp. apply list_elem_of_In in Hp.
    pose proof (Hmem p Hp) as Hin. destruct (Hkeyed _ p Hin) as [_ Hdens_p].
    split; [|exact Hdens_p].
    assert (Hkey : In (fst p) (Dict.keys tsp)).
    { destruct (Dict.get tsp (fst p)) as [l|] eqn:Hl.
      - apply (dict_get_in_keys tsp (fst p) l Hl).
      - unfold Dict.get_default in Hin. rewrite Hl in Hin. destruct Hin. }
    apply Hkeys in Hkey. destruct Hkey as [Hk|Hk].
    - apply Hkeys0 in Hk. destruct Hk as [[]|Hk]. exact Hk.
    - unfold m in Hk. rewrite map_snd_combine_seq in Hk. exact Hk. }
  intros Hnodup i T Hnth.
  rewrite Hcount.
  pose proof (Hlen T) as HlenT.
  pose proof (nat_sum_ge_get (remaining st) T) as Hge.
  destruct (Hget T) as (extra & Heq & Hextra_len & _).
  rewrite Heq, (dict_get_default_empty tsp0 T Hempty0) in HlenT. simpl in HlenT.
  rewrite Hextra_len in HlenT. unfold m in HlenT.
  rewrite (scheduled_for_nth N (length temps) temps 0 i T Hnodup Hnth) in HlenT.
  simpl in HlenT. fold m in HlenT. lia.
Qed.

(** The scheduler on a well-formed configuration: it returns [num_samples]
    pairs of configured values, and a temperature occurs in as many pairs as
    were scheduled for it. *)
Lemma generate_sample_params_run (rs : RandomState) (config : Config)
    (delta_E_max_dict : list (string * R)) (g : rs.(rng)) :
  RandomStateSpec rs →
  config.(cfg_temperature_range) ≠ [] →
  config.(cfg_electron_density_range) ≠ [] →
  Forall (fun T => (0 <= T)%R) config.(cfg_temperature_range) →
  ∃ params g',
    _generate_sample_params rs config delta_E_max_dict g = Ok (params, g')
    ∧ length params = config.(cfg_num_samples)
    ∧ Forall (fun p : R * R => In (fst p) config.(cfg_temperature_range)
                               ∧ In (snd p) config.(cfg_electron_density_range)) params
    ∧ (NoDup config.(cfg_temperature_range) →
       ∀ i T, nth_error config.(cfg_temperature_range) i = Some T →
         count_temperature T params
         = quota config.(cfg_num_samples) (length config.(cfg_temperature_range)) i).
Proof.
  intros Hrs Htemps Hdens Hpos.
  destruct (generate_sample_params_scheduled rs config delta_E_max_dict g Hrs Htemps Hdens Hpos)
    as (params & g' & Hrun & Hlen & Hall & Hcount).
  exists params, g'. split; [exact Hrun|]. split; [exact Hlen|]. split; [|exact Hcount].
  eapply Forall_impl; [exact Hall|]. intros p [HT Hn]. split; [exact HT|].
  exact (valid_densities_range config delta_E_max_dict (fst p) (snd p) Hn).
Qed.

(** C8. With at least one temperature (none negative) and at least one
    candidate density, the scheduler returns exactly [num_samples] pairs,
    each made of a configured temperature and a configured density. When the
    temperatures are pairwise distinct, the [i]-th temperature occurs in
    [num_samples // m + 1] pairs if [i < num_samples % m] and in
    [num_samples // m] pairs otherwise, which is within 1 of
    [num_samples / m]. *)
Theorem generate_sample_params_quota (rs : RandomState) (config : Config)
    (delta_E_max_dict : list (string * R)) (g : rs.(rng)) :
  RandomStateSpec rs →
  config.(cfg_temperature_range) ≠ [] →
  config.(cfg_electron_density_range) ≠ [] →
  Forall (fun T => (0 <= T)%R) config.(cfg_temperature_range) →
  ∃ params g',
    _generate_sample_params rs config delta_E_max_dict g = Ok (params, g')
    ∧ length params = config.(cfg_num_samples)
    ∧ Forall (fun p : R * R => In (fst p) config.(cfg_temperature_range)
                               ∧ In (snd p) config.(cfg_electron_density_range)) params
    ∧ (NoDup config.(cfg_temperature_range) →
       ∀ i T, nth_error config.(cfg_temperature_range) i = Some T →
         count_temperature T params
         = quota config.(cfg_num_samples) (length config.(cfg_temperature_range)) i
         ∧ config.(cfg_num_samples) / length config.(cfg_temperature_range)
           ≤ count_temperature T params
           ≤ config.(cfg_num_samples) / length config.(cfg_temperature_range) + 1
         ∧ (Rabs (INR (count_temperature T params)
                  - INR config.(cfg_num_samples)
                    / INR (length config.(cfg_temperature_range))) <= 1)%R).
Proof.
  intros Hrs Htemps Hdens Hpos.
  destruct (generate_sample_params_run rs config delta_E_max_dict g Hrs Htemps Hdens Hpos)
    as (params & g' & Hrun & Hlength & Hmem & Hquotas).
  exists params, g'. split; [exact Hrun|]. split; [exact Hlength|]. split; [exact Hmem|].
  intros Hnodup i T Hnth. pose proof (Hquotas Hnodup i T Hnth) as Hquota.
  set (N := cfg_num_samples config) in *.
  set (m := length (cfg_temperature_range config)) in *.
  assert (Hm : m ≠ 0)
    by (unfold m; destruct (cfg_temperature_range config); [congruence | discriminate]).
  split; [exact Hquota|]. rewrite Hquota. unfold quota.
  assert (Hbounds : N / m ≤ N / m + (if i <? N mod m then 1 else 0) ≤ N / m + 1)
    by (destruct (i <? N mod m); lia).
  split; [exact Hbounds|].
  pose proof (Nat.div_mod_eq N m) as Hdiv.
  pose proof (Nat.mod_upper_bound N m Hm) as Hmod.
  assert (HmR : (0 < INR m)%R) by (apply lt_0_INR; lia).
  assert (HN : (INR N = INR m * INR (N / m) + INR (N mod m))%R)
    by (rewrite <- mult_INR, <- plus_INR; f_equal; exact Hdiv).
  assert (HmodR : (0 <= INR (N mod m) < INR m)%R)
    by (split; [apply pos_INR | apply lt_INR; exact Hmod]).
  assert (Hfrac : (INR N / INR m = INR (N / m) + INR (N mod m) / INR m)%R)
    by (rewrite HN; field; lra).
  assert (Hfrac_bounds : (0 <= INR (N mod m) / INR m < 1)%R).
  { split.
    - apply Rmult_le_pos; [apply HmodR | left; apply Rinv_0_lt_compat; exact HmR].
    - apply (Rmult_lt_reg_r (INR m)); [exact HmR|].
      unfold Rdiv. rewrite Rmult_assoc, Rinv_l by lra. lra. }
  rewrite Hfrac. apply Rabs_le.
  destruct (i <? N mod m).
  - rewrite plus_INR. simpl INR. lra.
  - rewrite Nat.add_0_r. lra.
Qed.



End Schedule.

(** ** A generator meeting NumPy's contract *)

Lemma first_draws_ok : RandomStateSpec first_draws.
Proof.
  split.
  - intros A a size replace g Hne Hsize. cbn [choice first_draws]. unfold first_choice.
    destruct a as [|x a].
    + destruct Hne as [->|Hne]; [|congruence].
      destruct (decide (0 = 0)%nat); [|contradiction].
      exists [], g. repeat split; [intros y [] | intros _ _; constructor].
    + destruct replace.
      * exists (repeat x size), g. split; [reflexivity|]. split; [apply repeat_length|].
        split; [|discriminate]. intros y Hy. apply repeat_spec in Hy. subst. left. reflexivity.
      * specialize (Hsize eq_refl).
        destruct (length (x :: a) <? size)%nat eqn:Hlt; [apply Nat.ltb_lt in Hlt; lia|].
        exists (firstn size (x :: a)), g. split; [reflexivity|].
        split; [rewrite length_firstn; lia|].
        split; [intros y Hy; apply (firstn_In size), Hy|].
        intros _ Hnd. exact (sublist_NoDup _ _ Hnd (sublist_take _ _)).
  - intros A size replace g Hsize. cbn [choice first_draws]. unfold first_choice.
    destruct (decide (size = 0%nat)); [contradiction | reflexivity].
  - intros A a size g Hlen. cbn [choice first_draws]. unfold first_choice.
    destruct a as [|x a].
    + destruct (decide (size = 0%nat)); [simpl in Hlen; lia | reflexivity].
    + apply Nat.ltb_lt in Hlen. rewrite Hlen. reflexivity.
  - intros low high g Hlt. cbn. lra.
  - intros low high g Hlt. cbn [randint first_draws]. apply Nat.ltb_lt in Hlt. rewrite Hlt.
    exists low, g. split; [reflexivity|]. apply Nat.ltb_lt in Hlt. lia.
  - intros low high g Hle. cbn [randint first_draws].
    apply Nat.ltb_ge in Hle. rewrite Hle. reflexivity.
  - intros n g. cbn. apply Permutation_refl.
Qed.

Lemma SIMULATION_CONFIG_temperatures_NoDup : NoDup SIMULATION_CONFIG.(cfg_temperature_range).
Proof.
  cbn. repeat (apply NoDup_cons; split;
               [intros H; repeat (apply elem_of_cons in H as [H|H]; [lra|]);
                apply elem_of_nil in H; exact H|]).
  apply NoDup_nil_2.
Qed.

Lemma generate_sample_params_quota_witness :
  ∃ params g',
    DatasetGenerator._generate_sample_params first_draws SIMULATION_CONFIG [] tt
    = Ok (params, g')
    ∧ length params = SIMULATION_CONFIG.(cfg_num_samples)
    ∧ Forall (fun p : R * R => In (fst p) SIMULATION_CONFIG.(cfg_temperature_range)
                               ∧ In (snd p) SIMULATION_CONFIG.(cfg_electron_density_range))
             params
    ∧ (NoDup SIMULATION_CONFIG.(cfg_temperature_range) →
       ∀ i T, nth_error SIMULATION_CONFIG.(cfg_temperature_range) i = Some T →
         count_temperature T params
         = quota SIMULATION_CONFIG.(cfg_num_samples)
                 (length SIMULATION_CONFIG.(cfg_temperature_range)) i
         ∧ (SIMULATION_CONFIG.(cfg_num_samples) / length SIMULATION_CONFIG.(cfg_temperature_range)
            ≤ count_temperature T params
            ≤ SIMULATION_CONFIG.(cfg_num_samples)
              / length SIMULATION_CONFIG.(cfg_temperature_range) + 1)%nat
         ∧ Rabs (INR (count_temperature T params)
                 - INR SIMULATION_CONFIG.(cfg_num_samples)
                   / INR (length SIMULATION_CONFIG.(cfg_temperature_range))) <= 1).
Proof.
  apply (generate_sample_params_quota first_draws SIMULATION_CONFIG [] tt).
  - exact first_draws_ok.
  - discriminate.
  - discriminate.
  - cbn. repeat constructor; lra.
Defined.

(** The scenario of the specification: 500 samples over the 6 configured
    temperatures give the quotas 84, 84, 83, 83, 83, 83. *)
Lemma quota_500_over_6 :
  map (quota 500 6) (seq 0 6) = [84; 84; 83; 83; 83; 83]%nat.
Proof. reflexivity. Qed.

(** ** The driver: deduplication *)

Section Dedup.
Import DatasetGenerator.
Variable rs : RandomState.
Variable fmt : Formatting.
Variable generate : R → R → rand rs.(rng) (option MixedSpectrumSimulator.Sample).
Variable loaded : gset string.

Let inv := dedup_inv rs fmt loaded.

Lemma draw_cases {A : Type} (m : rand rs.(rng) A) (st : state rs) :
  (∃ a g', m (w_rng rs st) = Ok (a, g') ∧ draw rs m st = (Ok a, set_rng rs g' st))
  ∨ (∃ e, draw rs m st = (Raise e, st)).
Proof.
  unfold draw. destruct (m (w_rng rs st)) as [[a g']|e].
  - left. exists a, g'. split; reflexivity.
  - right. exists e. reflexivity.
Qed.

Lemma inv_set_rng (g : rs.(rng)) (st : state rs) : inv st → inv (set_rng rs g st).
Proof. intros H. exact H. Qed.

Lemma inv_accept (h : string) (sample : MixedSpectrumSimulator.Sample)
    (c : Combination) (T n_e : R) (st : state rs) :
  inv st → h ∉ w_used rs st →
  h = _hash_combination fmt T n_e sample.(MixedSpectrumSimulator.s_atom_percentages) →
  inv (add_used rs h sample (save_combination rs c (append_sample rs sample st))).
Proof.
  intros (Hused & Hnd & Hfresh & Hhash) Hh Heq.
  unfold inv, dedup_inv. cbn [w_used w_trace add_used save_combination append_sample].
  rewrite map_app. cbn [map fst].
  assert (Hnotin : h ∉ map fst (w_trace rs st)).
  { intros Hin. apply Hh. rewrite Hused. apply elem_of_union_r, elem_of_list_to_set. exact Hin. }
  split.
  { rewrite Hused, list_to_set_app_L. cbn [list_to_set foldr].
    rewrite (right_id_L ∅ (∪)), (comm_L (∪) {[h]}), (assoc_L (∪)). reflexivity. }
  split.
  { apply NoDup_app. split; [exact Hnd|]. split; [|apply NoDup_singleton].
    intros x Hx Hx'. apply list_elem_of_singleton in Hx'. subst x. contradiction. }
  split.
  { intros x Hx. apply elem_of_app in Hx as [Hx|Hx]; [apply Hfresh, Hx|].
    apply list_elem_of_singleton in Hx. subst x.
    intros Hl. apply Hh. rewrite Hused. apply elem_of_union_l. exact Hl. }
  apply Forall_app. split; [exact Hhash|]. constructor; [|constructor].
  exists T, n_e. exact Heq.
Qed.

(** One attempt, case by case. *)
Lemma attempt_sample_step (k : nat) (T n_e : R) (st : state rs) :
  attempt_sample rs fmt generate (S k) T n_e st
  = match generate T n_e (w_rng rs st) with
    | Raise e => (Raise e, st)
    | Ok (None, g') => attempt_sample rs fmt generate k T n_e (set_rng rs g' st)
    | Ok (Some sample, g') =>
        let h := _hash_combination fmt T n_e
                   sample.(MixedSpectrumSimulator.s_atom_percentages) in
        if decide (h ∈ w_used rs st)
        then attempt_sample rs fmt generate k T n_e (set_rng rs g' st)
        else
          match Dict.get sample.(MixedSpectrumSimulator.s_atom_percentages)
                  "delta_E_max"%string with
          | None => (Raise KeyError, append_sample rs sample (set_rng rs g' st))
          | Some d =>
              (Ok true,
               add_used rs h sample
                 (save_combination rs (combination_of fmt (w_used rs st) T n_e sample d)
                    (append_sample rs sample (set_rng rs g' st))))
          end
    end.
Proof.
  cbn [attempt_sample]. unfold mbind at 1, drv_bind at 1, draw at 1.
  destruct (generate T n_e (w_rng rs st)) as [[[sample|] g']|e]; try reflexivity.
  unfold mbind at 1, drv_bind at 1, get_state at 1. cbv zeta. cbn [w_used set_rng].
  destruct (decide (_ ∈ w_used rs st)); [reflexivity|].
  unfold mbind at 1, drv_bind at 1, modify at 1.
  unfold mbind at 1, drv_bind at 1.
  destruct (Dict.get (MixedSpectrumSimulator.s_atom_percentages sample) "delta_E_max");
    reflexivity.
Qed.

(** The attempts of one slot keep the invariant, leave the dataset file
    alone, and end with one trace entry per kept sample unless they raise. *)
Lemma attempt_sample_inv (attempts_left : nat) (T n_e : R) :
  ∀ (st st' : state rs) (r : result bool),
    inv st → w_accepted rs st = map snd (w_trace rs st) →
    attempt_sample rs fmt generate attempts_left T n_e st = (r, st') →
    inv st' ∧ same_files rs st st'
    ∧ (∀ b, r = Ok b → w_accepted rs st' = map snd (w_trace rs st')).
Proof.
  induction attempts_left as [|k IH]; intros st st' r Hinv Hacc Hrun.
  - cbn in Hrun. injection Hrun as <- <-.
    split; [exact Hinv|]. split; [split; reflexivity|]. intros _ _. exact Hacc.
  - rewrite attempt_sample_step in Hrun.
    destruct (generate T n_e (w_rng rs st)) as [[[sample|] g']|e].
    + cbv zeta in Hrun.
      destruct (decide (_ ∈ w_used rs st)) as [Hin|Hnotin];
        [apply (IH (set_rng rs g' st) st' r); assumption|].
      destruct (Dict.get (MixedSpectrumSimulator.s_atom_percentages sample) "delta_E_max")
        as [d|]; injection Hrun as <- <-.
      * split.
        { apply (inv_accept _ sample _ T n_e (set_rng rs g' st));
            [exact Hinv | exact Hnotin | reflexivity]. }
        split; [split; reflexivity|].
        intros _ _. cbn. rewrite map_app, Hacc. reflexivity.
      * split; [exact Hinv|]. split; [split; reflexivity|]. intros b [=].
    + apply (IH (set_rng rs g' st) st' r); assumption.
    + injection Hrun as <- <-.
      split; [exact Hinv|]. split; [split; reflexivity|]. intros b [=].
Qed.

Lemma process_slot_inv (num_samples : nat) (param : R * R) (st st' : state rs)
    (r : result unit) :
  inv st → w_accepted rs st = map snd (w_trace rs st) →
  process_slot rs fmt generate num_samples tt param st = (r, st') →
  inv st' ∧ same_files rs st st'
  ∧ (∀ u, r = Ok u → w_accepted rs st' = map snd (w_trace rs st')).
Proof.
  intros Hinv Hacc. destruct param as [T n_e]. unfold process_slot.
  unfold mbind, drv_bind.
  destruct (attempt_sample rs fmt generate 5 T n_e st) as [[b|e] st1] eqn:Hrun;
    destruct (attempt_sample_inv 5 T n_e st st1 _ Hinv Hacc Hrun) as (Hinv' & Hfiles & Hacc').
  - destruct (decide ((num_samples / 5)%nat = 0%nat)); intros [= <- <-].
    + split; [exact Hinv'|]. split; [exact Hfiles|]. intros u [=].
    + split; [exact Hinv'|]. split; [exact Hfiles|]. intros _ _. apply (Hacc' b eq_refl).
  - intros [= <- <-]. split; [exact Hinv'|]. split; [exact Hfiles|]. intros u [=].
Qed.

Lemma slots_inv (num_samples : nat) (params : list (R * R)) :
  ∀ (st st' : state rs) (r : result unit),
    inv st → w_accepted rs st = map snd (w_trace rs st) →
    foldlM (process_slot rs fmt generate num_samples) tt params st = (r, st') →
    inv st' ∧ same_files rs st st'
    ∧ (∀ u, r = Ok u → w_accepted rs st' = map snd (w_trace rs st')).
Proof.
  induction params as [|param params IH]; intros st st' r Hinv Hacc Hrun.
  - cbn in Hrun. injection Hrun as <- <-.
    split; [exact Hinv|]. split; [split; reflexivity|]. intros _ _. exact Hacc.
  - cbn [foldlM] in Hrun. unfold mbind at 1, drv_bind at 1 in Hrun.
    destruct (process_slot rs fmt generate num_samples tt param st) as [[[]|e] st1] eqn:Hslot;
      destruct (process_slot_inv num_samples param st st1 _ Hinv Hacc Hslot)
        as (Hinv1 & Hfiles1 & Hacc1).
    + destruct (IH st1 st' r Hinv1 (Hacc1 tt eq_refl) Hrun) as (Hinv2 & Hfiles2 & Hacc2).
      split; [exact Hinv2|]. split; [|exact Hacc2].
      destruct Hfiles1 as [Hd1 Hb1], Hfiles2 as [Hd2 Hb2]. split; congruence.
    + injection Hrun as <- <-.
      split; [exact Hinv1|]. split; [exact Hfiles1|]. intros u [=].
Qed.

End Dedup.

(** ** The driver: persistence *)

Section Persist.
Import DatasetGenerator.
Variable rs : RandomState.
Variable config : Config.
Variable now : string.

Lemma lift_result_cases {A : Type} (r : result A) (st : state rs) :
  lift_result rs r st = (r, st).
Proof. destruct r; reflexivity. Qed.

Lemma persist_outcome (st st' : state rs) (r : result unit) :
  persist rs config now st = (r, st') →
  same_memory rs st st'
  ∧ (∀ e, r = Raise e → w_dataset rs st' = w_dataset rs st)
  ∧ (∀ f w first rest,
       w_dataset rs st = Some f → h5_wavelengths f = Some w →
       w_accepted rs st = first :: rest →
       w ≠ first.(MixedSpectrumSimulator.s_wavelengths) →
       ∃ e, r = Raise e).
Proof.
  unfold persist. unfold mbind at 1, drv_bind at 1, get_state at 1.
  destruct (w_accepted rs st) as [|first rest] eqn:Hacc.
  { intros [= <- <-]. split; [repeat split; assumption|]. split; [reflexivity|].
    intros f w first rest _ _ [=]. }
  cbv zeta. unfold mbind at 1, drv_bind at 1, draw at 1.
  destruct (permutation rs (length (first :: rest)) (w_rng rs st)) as [indices g'].
  set (st1 := set_rng rs g' st).
  assert (Hmem1 : same_memory rs st st1) by (repeat split; try reflexivity; exact Hacc).
  assert (Hds1 : w_dataset rs st1 = w_dataset rs st) by reflexivity.
  clearbody st1.
  unfold mbind at 1, drv_bind at 1. rewrite lift_result_cases.
  destruct (split_of (first :: rest) _) as [train_data|e].
  2:{ intros [= <- <-]. split; [exact Hmem1|]. split; [intros; exact Hds1|].
      intros. eexists; reflexivity. }
  unfold mbind at 1, drv_bind at 1. rewrite lift_result_cases.
  destruct (split_of (first :: rest) _) as [val_data|e].
  2:{ intros [= <- <-]. split; [exact Hmem1|]. split; [intros; exact Hds1|].
      intros. eexists; reflexivity. }
  unfold mbind at 1, drv_bind at 1. rewrite lift_result_cases.
  destruct (split_of (first :: rest) _) as [test_data|e].
  2:{ intros [= <- <-]. split; [exact Hmem1|]. split; [intros; exact Hds1|].
      intros. eexists; reflexivity. }
  unfold mbind at 1, drv_bind at 1.
  destruct (w_dataset rs st) as [f|] eqn:Hfile.
  - cbn [modify]. set (st2 := add_backup rs f st1).
    assert (Hmem2 : same_memory rs st st2) by exact Hmem1.
    assert (Hds2 : w_dataset rs st2 = Some f) by exact Hds1.
    unfold mbind at 1, drv_bind at 1.
    destruct (h5_wavelengths f) as [w|] eqn:Hw.
    + destruct (decide (w = MixedSpectrumSimulator.s_wavelengths first)) as [Heq|Hne].
      * cbn [mret drv_ret].
        unfold mbind at 1, drv_bind at 1. rewrite lift_result_cases.
        destruct (combine_split _ _ _ train_data) as [train|e].
        2:{ intros [= <- <-]. split; [exact Hmem2|]. split; [intros; exact Hds2|].
            intros f0 w0 first0 rest0 [= <-] Hw0 [= <- <-] Hne0. congruence. }
        unfold mbind at 1, drv_bind at 1. rewrite lift_result_cases.
        destruct (combine_split _ _ _ val_data) as [validation|e].
        2:{ intros [= <- <-]. split; [exact Hmem2|]. split; [intros; exact Hds2|].
            intros f0 w0 first0 rest0 [= <-] Hw0 [= <- <-] Hne0. congruence. }
        unfold mbind at 1, drv_bind at 1. rewrite lift_result_cases.
        destruct (combine_split _ _ _ test_data) as [test|e].
        2:{ intros [= <- <-]. split; [exact Hmem2|]. split; [intros; exact Hds2|].
            intros f0 w0 first0 rest0 [= <-] Hw0 [= <- <-] Hne0. congruence. }
        intros [= <- <-]. split; [exact Hmem2|]. split; [intros e [=]|].
        intros f0 w0 first0 rest0 [= <-] Hw0 [= <- <-] Hne0. congruence.
      * cbn [raise]. intros [= <- <-]. split; [exact Hmem2|]. split; [intros; exact Hds2|].
        intros. eexists; reflexivity.
    + cbn [mret drv_ret].
      unfold mbind at 1, drv_bind at 1. rewrite lift_result_cases.
      destruct (combine_split _ _ _ train_data) as [train|e].
      2:{ intros [= <- <-]. split; [exact Hmem2|]. split; [intros; exact Hds2|].
          intros f0 w0 first0 rest0 [= <-] Hw0. congruence. }
      unfold mbind at 1, drv_bind at 1. rewrite lift_result_cases.
      destruct (combine_split _ _ _ val_data) as [validation|e].
      2:{ intros [= <- <-]. split; [exact Hmem2|]. split; [intros; exact Hds2|].
          intros f0 w0 first0 rest0 [= <-] Hw0. congruence. }
      unfold mbind at 1, drv_bind at 1. rewrite lift_result_cases.
      destruct (combine_split _ _ _ test_data) as [test|e].
      2:{ intros [= <- <-]. split; [exact Hmem2|]. split; [intros; exact Hds2|].
          intros f0 w0 first0 rest0 [= <-] Hw0. congruence. }
      intros [= <- <-]. split; [exact Hmem2|]. split; [intros e [=]|].
      intros f0 w0 first0 rest0 [= <-] Hw0. congruence.
  - cbn [mret drv_ret].
    unfold mbind at 1, drv_bind at 1. cbn [mret drv_ret].
    unfold mbind at 1, drv_bind at 1. rewrite lift_result_cases.
    destruct (combine_split _ _ _ train_data) as [train|e].
    2:{ intros [= <- <-]. split; [exact Hmem1|]. split; [intros; exact Hds1|].
        intros f0 w0 first0 rest0 [=]. }
    unfold mbind at 1, drv_bind at 1. rewrite lift_result_cases.
    destruct (combine_split _ _ _ val_data) as [validation|e].
    2:{ intros [= <- <-]. split; [exact Hmem1|]. split; [intros; exact Hds1|].
        intros f0 w0 first0 rest0 [=]. }
    unfold mbind at 1, drv_bind at 1. rewrite lift_result_cases.
    destruct (combine_split _ _ _ test_data) as [test|e].
    2:{ intros [= <- <-]. split; [exact Hmem1|]. split; [intros; exact Hds1|].
        intros f0 w0 first0 rest0 [=]. }
    intros [= <- <-]. split; [exact Hmem1|]. split; [intros e [=]|].
    intros f0 w0 first0 rest0 [=].
Qed.

End Persist.

(** ** The driver: whole runs *)

Section Run.
Import DatasetGenerator.
Variable rs : RandomState.
Variable fmt : Formatting.
Variable generate : R → R → rand rs.(rng) (option MixedSpectrumSimulator.Sample).

(** A property of every sample the generator returns. *)
Variable P : MixedSpectrumSimulator.Sample → Prop.
Hypothesis generate_P :
  ∀ T n_e g sample g', generate T n_e g = Ok (Some sample, g') → P sample.

Lemma attempt_sample_accepted (attempts_left : nat) (T n_e : R) :
  ∀ (st st' : state rs) (r : result bool),
    Forall P (w_accepted rs st) →
    attempt_sample rs fmt generate attempts_left T n_e st = (r, st') →
    Forall P (w_accepted rs st').
Proof.
  induction attempts_left as [|k IH]; intros st st' r Hall Hrun.
  - cbn in Hrun. injection Hrun as <- <-. exact Hall.
  - rewrite attempt_sample_step in Hrun.
    destruct (generate T n_e (w_rng rs st)) as [[[sample|] g']|e] eqn:Hgen.
    + cbv zeta in Hrun.
      destruct (decide (_ ∈ w_used rs st)); [apply (IH (set_rng rs g' st) st' r); assumption|].
      assert (Hnew : Forall P (w_accepted rs st ++ [sample])).
      { apply Forall_app. split; [exact Hall|]. constructor; [|constructor].
        apply (generate_P T n_e _ sample g' Hgen). }
      destruct (Dict.get (MixedSpectrumSimulator.s_atom_percentages sample) "delta_E_max");
        injection Hrun as <- <-; exact Hnew.
    + apply (IH (set_rng rs g' st) st' r); assumption.
    + injection Hrun as <- <-. exact Hall.
Qed.

Lemma slots_accepted (num_samples : nat) (params : list (R * R)) :
  ∀ (st st' : state rs) (r : result unit),
    Forall P (w_accepted rs st) →
    foldlM (process_slot rs fmt generate num_samples) tt params st = (r, st') →
    Forall P (w_accepted rs st').
Proof.
  induction params as [|[T n_e] params IH]; intros st st' r Hall Hrun.
  - cbn in Hrun. injection Hrun as <- <-. exact Hall.
  - cbn [foldlM] in Hrun. unfold mbind at 1, drv_bind at 1 in Hrun.
    unfold process_slot at 1 in Hrun. unfold mbind at 1, drv_bind at 1 in Hrun.
    destruct (attempt_sample rs fmt generate 5 T n_e st) as [[b|e] st1] eqn:Hatt;
      pose proof (attempt_sample_accepted 5 T n_e st st1 _ Hall Hatt) as Hall1.
    + destruct (decide ((num_samples / 5)%nat = 0%nat)).
      * injection Hrun as <- <-. exact Hall1.
      * apply (IH st1 st' r Hall1 Hrun).
    + injection Hrun as <- <-. exact Hall1.
Qed.

(** Every run, completed or not: the deduplication invariant holds at its
    end over the hashes read from the log at its start, a run that raises
    leaves the dataset file as it was, and a run whose samples have another
    grid than the one stored in the file raises. *)
Lemma run_outcome (config : Config) (delta_E_max : list (string * R)) (now : string)
    (st0 st1 : state rs) (r : result unit) :
  run rs fmt generate config delta_E_max now st0 = (r, st1) →
  dedup_inv rs fmt (_load_used_combinations (w_log rs st0)) st1
  ∧ (∀ u, r = Ok u → w_accepted rs st1 = map snd (w_trace rs st1))
  ∧ Forall P (w_accepted rs st1)
  ∧ (∀ e, r = Raise e → w_dataset rs st1 = w_dataset rs st0)
  ∧ (∀ f w, w_dataset rs st0 = Some f → h5_wavelengths f = Some w →
            (∀ sample, P sample → w ≠ sample.(MixedSpectrumSimulator.s_wavelengths)) →
            ∃ e, r = Raise e).
Proof.
  unfold run. unfold mbind at 1, drv_bind at 1, modify at 1.
  set (loaded := _load_used_combinations (w_log rs st0)).
  assert (Hinv0 : dedup_inv rs fmt loaded (start_run rs st0)).
  { unfold dedup_inv. cbn. split; [fold loaded; rewrite (right_id_L ∅ (∪)); reflexivity|].
    split; [constructor|]. split; [intros h Hh; apply elem_of_nil in Hh; destruct Hh|].
    constructor. }
  unfold mbind at 1, drv_bind at 1, draw at 1.
  destruct (_generate_sample_params rs config delta_E_max (w_rng rs (start_run rs st0)))
    as [[params g1]|e].
  2:{ intros [= <- <-]. split; [exact Hinv0|]. split; [intros u [=]|].
      split; [constructor|]. split; [reflexivity|]. intros. eexists; reflexivity. }
  set (stA := set_rng rs g1 (start_run rs st0)).
  unfold mbind at 1, drv_bind at 1.
  destruct (foldlM (process_slot rs fmt generate (cfg_num_samples config)) tt params stA)
    as [[[]|e] stB] eqn:Hslots.
  2:{ destruct (slots_inv rs fmt generate loaded _ params stA stB _ Hinv0 eq_refl Hslots)
        as (HinvB & [HdsB _] & _).
      pose proof (slots_accepted _ params stA stB _ (Forall_nil_2 _) Hslots) as HallB.
      intros [= <- <-]. split; [exact HinvB|]. split; [intros u [=]|].
      split; [exact HallB|]. split; [intros; exact HdsB|]. intros. eexists; reflexivity. }
  destruct (slots_inv rs fmt generate loaded _ params stA stB _ Hinv0 eq_refl Hslots)
    as (HinvB & [HdsB _] & HaccB).
  pose proof (slots_accepted _ params stA stB _ (Forall_nil_2 _) Hslots) as HallB.
  intros Hpersist.
  destruct (persist_outcome rs config now stB st1 r Hpersist)
    as ((Hused & Htrace & Hacc & Hlog & _) & Hkeep & Hmismatch).
  split.
  { unfold dedup_inv in *. rewrite Hused, Htrace. exact HinvB. }
  split; [intros u _; rewrite Hacc, Htrace; apply (HaccB tt eq_refl)|].
  split; [rewrite Hacc; exact HallB|].
  split; [intros e He; rewrite (Hkeep e He); exact HdsB|].
  intros f w Hf Hw Hgrid.
  destruct (w_accepted rs stB) as [|first rest] eqn:HaccB'.
  - unfold persist in Hpersist.
    unfold mbind at 1, drv_bind at 1, get_state at 1 in Hpersist.
    rewrite HaccB' in Hpersist. injection Hpersist as <- _. eexists; reflexivity.
  - apply (Hmismatch f w first rest); [rewrite HdsB; exact Hf | exact Hw | reflexivity|].
    apply Hgrid. inversion HallB; assumption.
Qed.

End Run.

(** Every sample comes with the grid of the mixture simulator. *)
Lemma generate_sample_wavelengths {G : Type} (uniform : R → R → G → R * G)
    (choice : list string → nat → bool → G → result (list string * G))
    (self : MixedSpectrumSimulator.t) (ionization_energies : list (string * R))
    (g g' : G) (s : MixedSpectrumSimulator.Sample) :
  MixedSpectrumSimulator.generate_sample uniform choice self ionization_energies g
  = Ok (Some s, g') →
  s.(MixedSpectrumSimulator.s_wavelengths) = self.(MixedSpectrumSimulator.wavelengths).
Proof.
  intros H. unfold MixedSpectrumSimulator.generate_sample in H.
  apply rand_bind_ok in H as (sel & g1 & _ & H). cbv zeta in H.
  apply rand_bind_ok in H as ([d total] & g2 & _ & H).
  destruct (decide (total = 0)); [discriminate|].
  match type of H with
  | context [match ?x with [] => _ | _ :: _ => _ end] => destruct x; [discriminate|]
  end.
  apply rand_bind_ok in H as ([mixed contribs] & g3 & _ & H).
  apply rand_bind_ok in H as (peak & g4 & _ & H).
  destruct (decide (peak = 0)); [discriminate|].
  apply rand_bind_ok in H as (convolved & g5 & _ & H).
  apply rand_bind_ok in H as (normalized & g6 & _ & H).
  apply rand_bind_ok in H as (labels & g7 & _ & H).
  injection H as <- _. reflexivity.
Qed.

Section Claims.
Import DatasetGenerator.

(** C1. In every run of the driver, completed or aborted: the hashes under
    which samples were accepted are pairwise distinct and none of them was in
    the set loaded from the combination log; the set of used hashes is the
    loaded set plus these hashes; each is the content hash of its sample; and
    after a completed run the accepted samples are exactly the samples of
    these acceptances. Per candidate: a sample whose hash is in the set is
    not appended (the attempt is spent and the next one starts from the same
    lists and set), and a fresh one is appended and its hash is in the set
    when the attempt returns. *)
Theorem no_duplicate_combination (rs : RandomState) (fmt : Formatting)
    (generate : R → R → rand rs.(rng) (option MixedSpectrumSimulator.Sample))
    (config : Config) (delta_E_max : list (string * R)) (now : string)
    (st0 : state rs) :
  let out := run rs fmt generate config delta_E_max now st0 in
  let trace := w_trace rs (snd out) in
  let loaded := _load_used_combinations (w_log rs st0) in
  NoDup (map fst trace)
  ∧ (∀ h, h ∈ map fst trace → h ∉ loaded)
  ∧ w_used rs (snd out) = loaded ∪ list_to_set (map fst trace)
  ∧ Forall (fun hs : string * MixedSpectrumSimulator.Sample =>
              ∃ T n_e, fst hs = _hash_combination fmt T n_e
                                  (snd hs).(MixedSpectrumSimulator.s_atom_percentages))
           trace
  ∧ (fst out = Ok tt → w_accepted rs (snd out) = map snd trace)
  ∧ (∀ (k : nat) (T n_e : R) (st : state rs) (sample : MixedSpectrumSimulator.Sample)
       (g' : rs.(rng)),
       generate T n_e (w_rng rs st) = Ok (Some sample, g') →
       let h := _hash_combination fmt T n_e
                  sample.(MixedSpectrumSimulator.s_atom_percentages) in
       (h ∈ w_used rs st →
        attempt_sample rs fmt generate (S k) T n_e st
        = attempt_sample rs fmt generate k T n_e (set_rng rs g' st))
       ∧ (h ∉ w_used rs st →
          ∀ d, Dict.get sample.(MixedSpectrumSimulator.s_atom_percentages)
                 "delta_E_max"%string = Some d →
               ∃ st', attempt_sample rs fmt generate (S k) T n_e st = (Ok true, st')
                    ∧ w_accepted rs st' = w_accepted rs st ++ [sample]
                    ∧ w_used rs st' = {[h]} ∪ w_used rs st)).
Proof.
  intros out trace loaded.
  destruct out as [r st1] eqn:Hout. unfold out in Hout.
  destruct (run_outcome rs fmt generate (fun _ => True) (fun _ _ _ _ _ _ => I)
              config delta_E_max now st0 st1 r Hout)
    as ((Hused & Hnd & Hfresh & Hhash) & Hacc & _).
  unfold trace, loaded. cbn [fst snd].
  split; [exact Hnd|]. split; [exact Hfresh|]. split; [exact Hused|].
  split; [exact Hhash|]. split; [intros ->; apply (Hacc tt eq_refl)|].
  intros k T n_e st sample g' Hgen. cbv zeta. split.
  - intros Hin. rewrite attempt_sample_step, Hgen. cbv zeta.
    destruct (decide (_ ∈ w_used rs st)); [reflexivity | contradiction].
  - intros Hnotin d Hd. rewrite attempt_sample_step, Hgen. cbv zeta.
    destruct (decide (_ ∈ w_used rs st)); [contradiction|]. rewrite Hd.
    eexists. split; [reflexivity|]. split; reflexivity.
Qed.

(** C2. When the dataset file exists and the wavelength grid stored in it is
    not the current grid ([np.linspace] over the configured range),
    [generate_dataset] raises, and the dataset file (its wavelength array,
    its groups and its attributes) is afterwards what it was before. *)
Theorem grid_mismatch_no_write (rs : RandomState) (fmt : Formatting) (config : Config)
    (simulators : list SpectrumSimulator.t) (delta_E_max ionization_energies : list (string * R))
    (now : string) (st0 : state rs) (f : H5File) (w : list R) :
  w_dataset rs st0 = Some f →
  h5_wavelengths f = Some w →
  w ≠ linspace (fst config.(cfg_wl_range)) (snd config.(cfg_wl_range)) config.(cfg_resolution) →
  ∃ e st1,
    generate_dataset rs fmt config simulators delta_E_max ionization_energies now st0
    = (Raise e, st1)
    ∧ w_dataset rs st1 = Some f.
Proof.
  intros Hf Hw Hgrid. unfold generate_dataset.
  match goal with
  | |- ∃ e st1, run rs fmt ?gen _ _ _ _ = _ ∧ _ => set (generate := gen)
  end.
  destruct (run rs fmt generate config delta_E_max now st0) as [r st1] eqn:Hrun.
  destruct (run_outcome rs fmt generate
              (fun s => s.(MixedSpectrumSimulator.s_wavelengths)
                        = linspace (fst config.(cfg_wl_range)) (snd config.(cfg_wl_range))
                                   config.(cfg_resolution))
              ltac:(intros T n_e g sample g' Hgen;
                    apply generate_sample_wavelengths in Hgen; exact Hgen)
              config delta_E_max now st0 st1 r Hrun)
    as (_ & _ & _ & Hkeep & Hmismatch).
  destruct (Hmismatch f w Hf Hw) as [e ->].
  { intros sample Hs. rewrite Hs. exact Hgrid. }
  exists e, st1. split; [reflexivity|]. rewrite (Hkeep e eq_refl). exact Hf.
Qed.

End Claims.

(** ** A complete run of [generate_sample] *)

Lemma saha_ratio_pos (ion_energy temp electron_density : R) :
  0 < temp → 0 < electron_density →
  ∃ S, MixedSpectrumSimulator._saha_ratio ion_energy temp electron_density = Ok S ∧ 0 < S.
Proof.
  intros HT Hne. unfold MixedSpectrumSimulator._saha_ratio, MixedSpectrumSimulator.pow_3_2.
  set (x := 2 * PI * m_e * (k_B * temp * 1.60217662e-16) / (h_planck * 1.60217662e-19) ^ 2).
  assert (Hx : 0 < x).
  { unfold x. pose proof PI_RGT_0 as Hpi. pose proof k_B_pos as Hk.
    assert (Hme : 0 < m_e) by (unfold m_e; lra).
    assert (Hh : 0 < h_planck) by (unfold h_planck; lra).
    apply Rdiv_lt_0_compat.
    - assert (H1 : 0 < 2 * PI * m_e) by (apply Rmult_lt_0_compat; lra).
      assert (H2 : 0 < k_B * temp) by (apply Rmult_lt_0_compat; lra).
      apply Rmult_lt_0_compat; [exact H1|]. apply Rmult_lt_0_compat; [exact H2 | lra].
    - apply pow_lt. apply Rmult_lt_0_compat; lra. }
  destruct (Rlt_dec x 0) as [Hneg|_]; [lra|]. cbn [mbind result_bind].
  clearbody x.
  assert (Hne0 : electron_density ≠ 0) by lra.
  rewrite (fdiv_ok _ _ Hne0). cbn [mbind result_bind].
  rewrite (fdiv_ok _ _ (kT_nonzero temp HT)). cbn [mbind result_bind].
  eexists. split; [reflexivity|].
  apply Rmult_lt_0_compat; [|apply exp_pos].
  apply Rdiv_lt_0_compat; [|exact Hne].
  apply Rmult_lt_0_compat; [lra|].
  apply Rdiv_lt_0_compat; [|lra].
  apply Rmult_lt_0_compat; [exact Hx | apply sqrt_lt_R0; exact Hx].
Qed.

Section CompositionSteps.
Import MixedSpectrumSimulator.
Context {G : Type}.
Variable uniform : R → R → G → R * G.

Lemma add_element_pair_skip (ie : list (string * R)) (temp n_e : R)
    (st : list (string * R) * R) (base neutral ion : string) (g : G) :
  Dict.get_default ie (base +:+ " I")%string 0.0 = 0.0 →
  add_element_pair uniform ie temp n_e st (base, neutral, ion) g = Ok (st, g).
Proof.
  intros Hie. unfold add_element_pair. destruct st as [d total].
  destruct (decide (Dict.get_default ie (base +:+ " I")%string 0.0 = 0.0)); [reflexivity|contradiction].
Qed.

Lemma add_element_pair_step (ie : list (string * R)) (temp n_e S : R)
    (d : list (string * R)) (total : R) (base neutral ion : string) (g : G) :
  Dict.get_default ie (base +:+ " I")%string 0.0 ≠ 0.0 →
  _saha_ratio (Dict.get_default ie (base +:+ " I")%string 0.0) temp n_e = Ok S →
  0 < S →
  add_element_pair uniform ie temp n_e (d, total) (base, neutral, ion) g
  = Ok ((Dict.set (Dict.set d neutral (fst (uniform 5 20 g) * (1 / (1 + S)) / 100.0))
                  ion (fst (uniform 5 20 g) * (S / (1 + S)) / 100.0),
         total + fst (uniform 5 20 g)),
        snd (uniform 5 20 g)).
Proof.
  intros Hie HS Hpos. unfold add_element_pair.
  destruct (decide (Dict.get_default ie (base +:+ " I")%string 0.0 = 0.0)); [contradiction|].
  unfold mbind at 1, rand_bind at 1, lift at 1. rewrite HS.
  unfold mbind at 1, rand_bind at 1. destruct (uniform 5 20 g) as [tp g1]. cbn [fst snd].
  unfold mbind at 1, rand_bind at 1, lift at 1. rewrite fdiv_ok by lra.
  unfold mbind at 1, rand_bind at 1, lift at 1. rewrite fdiv_ok by lra.
  reflexivity.
Qed.

End CompositionSteps.

Lemma normalize_intensity_defined (out : list R) (target_max : R) :
  out ≠ [] →
  ∃ out', MixedSpectrumSimulator._normalize_intensity (Arr1 out) target_max = Ok (Arr1 out')
        ∧ length out' = length out.
Proof.
  intros Hne. unfold MixedSpectrumSimulator._normalize_intensity, MixedSpectrumSimulator.max_abs.
  cbn [arr_values]. destruct out as [|x out]; [congruence|].
  cbn [map list_max mbind result_bind].
  destruct (decide _) as [_|_].
  - eexists. split; reflexivity.
  - eexists. split; [reflexivity|]. apply length_map.
Qed.

Lemma example_searchsorted : searchsorted (linspace 0 1 2) 0.5 = 1%nat.
Proof.
  apply searchsorted_unique.
  - apply linspace_ascending. lra.
  - rewrite length_linspace. lia.
  - intros i Hi. rewrite nth_linspace by lia.
    assert (i = 0%nat) as -> by lia. change (IZR (Z.of_nat 0)) with 0. lra.
  - intros i Hi Hlen Hlt. rewrite length_linspace in Hlen.
    assert (i = 1%nat) as -> by lia. rewrite nth_linspace in Hlt by lia.
    change (IZR (Z.of_nat 1)) with 1 in Hlt. change (IZR (Z.of_nat (2 - 1))) with 1 in Hlt.
    lra.
Qed.

(** The one line of the example gives a spectrum that is positive in both
    bins. *)
Lemma example_spectrum (atom_percentage : R) :
  0 < atom_percentage →
  ∃ (r : SpectrumSimulator.SimResult) (spectrum : list R),
    SpectrumSimulator.simulate example_simulator atom_percentage = Ok r
    ∧ r.(SpectrumSimulator.sr_spectra) = [spectrum]
    ∧ r.(SpectrumSimulator.sr_temperatures) = [10000]
    ∧ r.(SpectrumSimulator.sr_contributions) = [spectrum]
    ∧ length spectrum = 2%nat
    ∧ Forall (fun y => 0 < y) spectrum.
Proof.
  intros Hap.
  assert (Hidx : (searchsorted (SpectrumSimulator.wavelengths example_simulator) 0.5
                  < cfg_resolution example_config)%nat).
  { change (searchsorted (linspace 0 1 2) 0.5 < 2)%nat. rewrite example_searchsorted. lia. }
  destruct (single_line_spectrum example_config "Si" 1%nat 8.15 0.5 1e8 3 0 2 4 PObj 10000
              atom_percentage ltac:(lra) ltac:(cbn; lra) ltac:(lra) ltac:(lra) Hidx)
    as (Z & r & spectrum & HZ & Hsim & Hsp & _ & Htemps & Hcontrib & Hlen & Hnth).
  exists r, spectrum. split; [exact Hsim|]. split; [exact Hsp|]. split; [exact Htemps|].
  split; [exact Hcontrib|]. split; [exact Hlen|].
  change (SpectrumSimulator.wavelengths (SpectrumSimulator.init _ _ _ _ _ _))
    with (linspace 0 1 2) in Hnth.
  change (cfg_resolution example_config) with 2%nat in Hnth, Hlen.
  rewrite example_searchsorted in Hnth.
  change (1 - 2 / 2)%nat with 0%nat in Hnth.
  assert (Hval : ∀ j : nat, (j < 2)%nat → 0 < nth j spectrum 0).
  { intros j Hj. rewrite (Hnth j Hj). cbn [Nat.leb].
    apply Rmult_lt_0_compat; [|apply gaussian_at_pos; cbn; lra].
    apply Rmult_lt_0_compat; [|exact Hap].
    apply Rdiv_lt_0_compat; [|exact HZ].
    apply Rmult_lt_0_compat; [lra | apply exp_pos]. }
  destruct spectrum as [|y0 [|y1 [|y2 spectrum]]]; try discriminate Hlen.
  constructor; [exact (Hval 0%nat ltac:(lia))|].
  constructor; [exact (Hval 1%nat ltac:(lia))|]. constructor.
Qed.

(** [generate_sample] stage by stage: when every stage succeeds, the sample
    is made of the stages' results. *)
Section SampleStages.
Import MixedSpectrumSimulator.
Context {G : Type}.
Variable uniform : R → R → G → R * G.
Variable choice : list string → nat → bool → G → result (list string * G).

Lemma generate_sample_stages (self : t) (ionization_energies : list (string * R))
    (g g1 g2 : G) (selected_base_elements : list string)
    (d : list (string * R)) (total : R)
    (mixed_spectrum : list R) (element_contributions : list (list R)) (peak : R)
    (convolved_spectrum normalized_spectrum : ndarray) (labels : list nat) :
  let delta_E_values :=
    flat_map (fun pair : string * string * string =>
                let '(_, elem_neutral, elem_ion) := pair in
                List.filter (fun delta_E => bool_decide (0.0 < delta_E))
                       [Dict.get_default self.(delta_E_max) elem_neutral 0.0;
                        Dict.get_default self.(delta_E_max) elem_ion 0.0])
             (map (fun elem => (elem, species_label elem 1, species_label elem 2))
                  selected_base_elements) in
  let atom_percentages_dict :=
    Dict.set (Dict.set (Dict.set
      (map (fun kv : string * R => (fst kv, snd kv * (100.0 / total))) d)
      "temperature"%string self.(current_T))
      "electron_density"%string self.(current_n_e))
      "delta_E_max"%string (max_or 4.0 delta_E_values) in
  let selected_target_elements := List.filter is_species_key (Dict.keys atom_percentages_dict) in
  let atom_percentages :=
    map (fun elem => Dict.get_default atom_percentages_dict elem 0) selected_target_elements in
  let selected_simulators :=
    List.filter (fun sim => bool_decide
              (species_label sim.(SpectrumSimulator.element) sim.(SpectrumSimulator.ion)
               ∈ selected_target_elements))
           self.(simulators) in
  choice BASE_ELEMENTS 7%nat false g = Ok (selected_base_elements, g1) →
  foldlM (add_element_pair uniform ionization_energies self.(current_T) self.(current_n_e))
         ([], 0.0)
         (map (fun elem => (elem, species_label elem 1, species_label elem 2))
              selected_base_elements) g1
  = Ok ((d, total), g2) →
  total ≠ 0 →
  selected_simulators ≠ [] →
  foldlM (add_species self selected_target_elements atom_percentages self.(current_T))
         (repeat 0 self.(resolution), []) selected_simulators
  = Ok (mixed_spectrum, element_contributions) →
  list_max ValueError mixed_spectrum = Ok peak →
  peak ≠ 0 →
  _convolve_spectrum self mixed_spectrum self.(convolution_sigma) = Ok convolved_spectrum →
  _normalize_intensity convolved_spectrum SIMULATION_CONFIG.(cfg_target_max_intensity)
  = Ok normalized_spectrum →
  mapM_result (label_at self selected_simulators element_contributions normalized_spectrum)
              (seq 0 self.(resolution)) = Ok labels →
  generate_sample uniform choice self ionization_energies g
  = Ok (Some {| s_wavelengths := self.(wavelengths);
                s_spectrum := normalized_spectrum;
                s_labels := labels;
                s_atom_percentages :=
                  map (fun kv : string * R =>
                         (fst kv, if is_species_key (fst kv) then snd kv * 100 else snd kv))
                      atom_percentages_dict |}, g2).
Proof.
  intros delta_E_values atom_percentages_dict selected_target_elements atom_percentages
         selected_simulators Hchoice Hfold Htotal Hsims Hmix Hpeak Hpeak0 Hconv Hnorm Hlabels.
  unfold generate_sample.
  unfold mbind at 1, rand_bind at 1. rewrite Hchoice. cbv zeta.
  unfold mbind at 1, rand_bind at 1. rewrite Hfold.
  destruct (decide (total = 0)) as [|_]; [contradiction|].
  fold delta_E_values. fold atom_percentages_dict. fold selected_target_elements.
  fold atom_percentages. fold selected_simulators.
  destruct selected_simulators as [|sim sims] eqn:Hsel; [congruence|].
  unfold mbind at 1, rand_bind at 1, lift at 1. rewrite Hmix.
  unfold mbind at 1, rand_bind at 1, lift at 1. rewrite Hpeak.
  destruct (decide (peak = 0)) as [|_]; [contradiction|].
  unfold mbind at 1, rand_bind at 1, lift at 1. rewrite Hconv.
  unfold mbind at 1, rand_bind at 1, lift at 1. rewrite Hnorm.
  unfold mbind at 1, rand_bind at 1, lift at 1. rewrite Hlabels.
  reflexivity.
Qed.

End SampleStages.

Lemma example_composition (S : R) :
  MixedSpectrumSimulator._saha_ratio 8.15 10000 1e16 = Ok S → 0 < S →
  foldlM (MixedSpectrumSimulator.add_element_pair first_draws.(uniform)
            example_ionization_energies 10000 1e16)
         ([], 0.0)
         (map (fun elem => (elem, species_label elem 1, species_label elem 2))
              ["Si"; "Al"; "Fe"; "Ca"; "O"; "Na"; "N"]%string) tt
  = Ok (([("Si_1"%string, 5 * (1 / (1 + S)) / 100.0);
          ("Si_2"%string, 5 * (S / (1 + S)) / 100.0)], 0.0 + 5), tt).
Proof.
  intros HS HSpos. cbn [map foldlM].
  unfold mbind at 1, rand_bind at 1.
  rewrite (add_element_pair_step _ example_ionization_energies 10000 1e16 S [] 0.0
             "Si" _ _ tt).
  - do 6 (unfold mbind at 1, rand_bind at 1;
          rewrite add_element_pair_skip by reflexivity).
    reflexivity.
  - change (Dict.get_default example_ionization_energies ("Si" +:+ " I") 0.0) with 8.15. lra.
  - exact HS.
  - exact HSpos.
Qed.

Lemma example_dictionary (v1 v2 scaling_factor temp electron_density delta_E : R) :
  Dict.set (Dict.set (Dict.set
    (map (fun kv : string * R => (fst kv, snd kv * scaling_factor))
         [("Si_1"%string, v1); ("Si_2"%string, v2)])
    "temperature"%string temp) "electron_density"%string electron_density)
    "delta_E_max"%string delta_E
  = [("Si_1"%string, v1 * scaling_factor); ("Si_2"%string, v2 * scaling_factor);
     ("temperature"%string, temp); ("electron_density"%string, electron_density);
     ("delta_E_max"%string, delta_E)].
Proof. reflexivity. Qed.

Lemma example_targets (a1 a2 temp electron_density delta_E : R) :
  List.filter MixedSpectrumSimulator.is_species_key
    (Dict.keys [("Si_1"%string, a1); ("Si_2"%string, a2);
                ("temperature"%string, temp); ("electron_density"%string, electron_density);
                ("delta_E_max"%string, delta_E)])
  = ["Si_1"; "Si_2"]%string.
Proof. reflexivity. Qed.

Lemma example_percentages (a1 a2 temp electron_density delta_E : R) :
  map (fun elem => Dict.get_default
                     [("Si_1"%string, a1); ("Si_2"%string, a2);
                      ("temperature"%string, temp);
                      ("electron_density"%string, electron_density);
                      ("delta_E_max"%string, delta_E)] elem 0)
      ["Si_1"; "Si_2"]%string
  = [a1; a2].
Proof. reflexivity. Qed.

Lemma example_selected :
  List.filter (fun sim => bool_decide
            (species_label sim.(SpectrumSimulator.element) sim.(SpectrumSimulator.ion)
             ∈ ["Si_1"; "Si_2"]%string))
         (MixedSpectrumSimulator.simulators example_mixture)
  = [example_simulator].
Proof. reflexivity. Qed.

Lemma example_label (row out : list R) (idx : nat) :
  (idx < length out)%nat →
  ∃ label, MixedSpectrumSimulator.label_at example_mixture [example_simulator] [row]
             (Arr1 out) idx = Ok label.
Proof.
  intros Hidx. unfold MixedSpectrumSimulator.label_at. cbv zeta. cbn [map].
  destruct (Rle_dec _ _) as [_|_]; [|eexists; reflexivity].
  cbn [MixedSpectrumSimulator.argmax MixedSpectrumSimulator.argmax_from nth_error].
  change (list_index (SpectrumSimulator.element_label example_simulator) REQUIRED_ELEMENTS)
    with (Some 0%nat).
  cbn [arr_getitem].
  destruct (nth_error out idx) as [x|] eqn:Hx.
  - eexists. reflexivity.
  - apply nth_error_None in Hx. lia.
Qed.

Lemma example_sample :
  ∃ (s : MixedSpectrumSimulator.Sample) (d : R),
    MixedSpectrumSimulator.generate_sample first_draws.(uniform) (first_draws.(choice) string)
      example_mixture example_ionization_energies tt = Ok (Some s, tt)
    ∧ Dict.get s.(MixedSpectrumSimulator.s_atom_percentages) "delta_E_max"%string = Some d.
Proof.
  destruct (saha_ratio_pos 8.15 10000 1e16 ltac:(lra) ltac:(lra)) as (S & HS & HSpos).
  pose proof (example_composition S HS HSpos) as Hfold.
  set (v1 := 5 * (1 / (1 + S)) / 100.0) in Hfold.
  set (v2 := 5 * (S / (1 + S)) / 100.0) in Hfold.
  assert (Hv1 : 0 < v1 * (100.0 / (0.0 + 5))).
  { unfold v1. apply Rmult_lt_0_compat; [|lra].
    apply Rdiv_lt_0_compat; [|lra]. apply Rmult_lt_0_compat; [lra|].
    apply Rdiv_lt_0_compat; lra. }
  clearbody v1 v2.
  pose proof (generate_sample_stages first_draws.(uniform) (first_draws.(choice) string)
                example_mixture example_ionization_energies tt tt tt
                ["Si"; "Al"; "Fe"; "Ca"; "O"; "Na"; "N"]%string
                [("Si_1"%string, v1); ("Si_2"%string, v2)] (0.0 + 5)) as Hstages.
  cbv zeta in Hstages.
  rewrite example_dictionary in Hstages.
  set (a1 := v1 * (100.0 / (0.0 + 5))) in *.
  set (a2 := v2 * (100.0 / (0.0 + 5))) in *.
  clearbody a1 a2.
  rewrite example_targets, example_percentages, example_selected in Hstages.
  destruct (example_spectrum a1 Hv1) as (r & spectrum & Hsim & Hsp & Htemps & Hcontrib & Hlen & Hpos).
  destruct spectrum as [|y0 [|y1 [|y2 spectrum]]]; try discriminate Hlen.
  inversion Hpos as [|? ? Hy0 Hpos1]; subst. inversion Hpos1 as [|? ? Hy1 _]; subst.
  assert (Hmix : foldlM (MixedSpectrumSimulator.add_species example_mixture
                           ["Si_1"; "Si_2"]%string [a1; a2]
                           (MixedSpectrumSimulator.current_T example_mixture))
                   (repeat 0 (MixedSpectrumSimulator.resolution example_mixture), [])
                   [example_simulator]
                 = Ok ([0 + y0; 0 + y1], [[y0; y1]])).
  { cbn [foldlM]. unfold MixedSpectrumSimulator.add_species at 1.
    change (list_index _ _) with (Some 0%nat).
    cbn [mbind result_bind nth_error]. rewrite Hsim. cbn [mbind result_bind].
    rewrite Hsp, Htemps, Hcontrib.
    change (MixedSpectrumSimulator.current_T example_mixture) with 10000.
    cbn [MixedSpectrumSimulator.first_at_temperature].
    destruct (decide (10000 = 10000)) as [_|Hne]; [|contradiction].
    reflexivity. }
  assert (Hpeak : list_max ValueError [0 + y0; 0 + y1] = Ok (Rmax (0 + y0) (0 + y1)))
    by reflexivity.
  assert (Hpeak0 : Rmax (0 + y0) (0 + y1) ≠ 0).
  { pose proof (Rmax_l (0 + y0) (0 + y1)). lra. }
  destruct (convolve_spectrum_result example_mixture [0 + y0; 0 + y1]
              (MixedSpectrumSimulator.convolution_sigma example_mixture) 1
              two_point_step ltac:(lra) ltac:(cbn; lra) ltac:(simpl; lia))
    as (kernel & out & _ & Hconv & _ & _ & _ & Hout & _).
  destruct (normalize_intensity_defined out (cfg_target_max_intensity SIMULATION_CONFIG))
    as (out' & Hnorm & Hout'); [intros ->; discriminate Hout|].
  destruct (example_label [y0; y1] out' 0) as [l0 Hl0]; [rewrite Hout', Hout; simpl; lia|].
  destruct (example_label [y0; y1] out' 1) as [l1 Hl1]; [rewrite Hout', Hout; simpl; lia|].
  assert (Hlabels : mapM_result
                      (MixedSpectrumSimulator.label_at example_mixture [example_simulator]
                         [[y0; y1]] (Arr1 out'))
                      (seq 0 (MixedSpectrumSimulator.resolution example_mixture))
                    = Ok [l0; l1]).
  { change (seq 0 (MixedSpectrumSimulator.resolution example_mixture)) with [0; 1]%nat.
    cbn [mapM_result]. rewrite Hl0, Hl1. reflexivity. }
  eexists. eexists. split.
  - exact (Hstages _ _ _ _ _ [l0; l1] eq_refl Hfold ltac:(lra) ltac:(discriminate)
             Hmix Hpeak Hpeak0 Hconv Hnorm Hlabels).
  - reflexivity.
Qed.

Lemma generate_sample_percentages_witness :
  ∃ s : MixedSpectrumSimulator.Sample,
    MixedSpectrumSimulator.generate_sample first_draws.(uniform) (first_draws.(choice) string)
      example_mixture example_ionization_energies tt = Ok (Some s, tt)
    ∧ Rsum (map snd (List.filter (fun kv => MixedSpectrumSimulator.is_species_key (fst kv))
                               s.(MixedSpectrumSimulator.s_atom_percentages))) = 100
    ∧ Rabs (Rsum (map snd (List.filter
                             (fun kv => MixedSpectrumSimulator.is_species_key (fst kv))
                             s.(MixedSpectrumSimulator.s_atom_percentages))) - 100.0) <= 1e-3.
Proof.
  destruct example_sample as (s & _ & Hs & _). exists s. split; [exact Hs|].
  exact (generate_sample_percentages first_draws example_mixture example_ionization_energies
           tt tt s first_draws_ok Hs).
Defined.

(** ** The driver: failures of the combination log *)

Lemma hd_skipn {A : Type} (d : A) (n : nat) (l : list A) : hd d (skipn n l) = nth n l d.
Proof.
  revert l. induction n as [|n IH]; intros [|x l]; simpl; try reflexivity. apply IH.
Qed.

Lemma tl_skipn {A : Type} (n : nat) (l : list A) : tl (skipn n l) = skipn (S n) l.
Proof.
  revert l. induction n as [|n IH]; intros [|x l]; try reflexivity.
  exact (IH l).
Qed.

Lemma save_combination_hashes (log : DatasetGenerator.json_file)
    (c : DatasetGenerator.Combination) (fault : DatasetGenerator.io_fault) (h : string) :
  In h (logged_hashes (DatasetGenerator._save_combination log c fault)) →
  In h (logged_hashes log)
  ∨ (fault = DatasetGenerator.NoFault ∧ h = DatasetGenerator.c_hash c).
Proof.
  destruct log as [|data|], fault; simpl; try tauto.
  - intros [<-|[]]. right. split; reflexivity.
  - rewrite map_app, in_app_iff. simpl. intros [H|[<-|[]]]; [left; exact H|].
    right. split; reflexivity.
Qed.

(** A failed write leaves the recorded hashes as they were, or the file
    unreadable. *)
Lemma save_combination_failed (log : DatasetGenerator.json_file)
    (c : DatasetGenerator.Combination) (fault : DatasetGenerator.io_fault) :
  fault ≠ DatasetGenerator.NoFault →
  DatasetGenerator._save_combination log c fault = log
  ∨ DatasetGenerator._save_combination log c fault = DatasetGenerator.Unreadable.
Proof. destruct log, fault; simpl; intros H; try congruence; tauto. Qed.

Section LogFaults.
Import DatasetGenerator.
Variable rs : RandomState.
Variable fmt : Formatting.
Variable generate : R → R → rand rs.(rng) (option MixedSpectrumSimulator.Sample).
Variable faults : list io_fault.
Variable log0 : json_file.

Let linv := log_inv rs faults log0.

Lemma log_inv_accept (sample : MixedSpectrumSimulator.Sample) (T n_e d : R)
    (used : gset string) (st : state rs) :
  linv st →
  linv (add_used rs
          (_hash_combination fmt T n_e sample.(MixedSpectrumSimulator.s_atom_percentages)) sample
          (save_combination rs (combination_of fmt used T n_e sample d)
             (append_sample rs sample st))).
Proof.
  intros [Hfaults Hlog]. unfold linv, log_inv.
  cbn [w_faults w_trace w_log add_used save_combination append_sample].
  split.
  - rewrite Hfaults, tl_skipn, length_app, Nat.add_1_r. reflexivity.
  - intros h Hh. apply save_combination_hashes in Hh as [Hh|[Hfault ->]].
    + destruct (Hlog h Hh) as [H0|(j & s & Hj & Hnf)]; [left; exact H0|].
      right. exists j, s. split; [|exact Hnf].
      rewrite nth_error_app1; [exact Hj|]. apply nth_error_Some. congruence.
    + right. exists (length (w_trace rs st)), sample. split.
      * rewrite nth_error_app2, Nat.sub_diag by lia. reflexivity.
      * rewrite <- hd_skipn, <- Hfaults. exact Hfault.
Qed.

Lemma attempt_sample_log (attempts_left : nat) (T n_e : R) :
  ∀ (st st' : state rs) (r : result bool),
    linv st →
    attempt_sample rs fmt generate attempts_left T n_e st = (r, st') →
    linv st'.
Proof.
  induction attempts_left as [|k IH]; intros st st' r Hinv Hrun.
  - cbn in Hrun. injection Hrun as <- <-. exact Hinv.
  - rewrite attempt_sample_step in Hrun.
    destruct (generate T n_e (w_rng rs st)) as [[[sample|] g']|e].
    + cbv zeta in Hrun.
      destruct (decide (_ ∈ w_used rs st)) as [Hin|Hnotin];
        [apply (IH (set_rng rs g' st) st' r); assumption|].
      destruct (Dict.get (MixedSpectrumSimulator.s_atom_percentages sample) "delta_E_max")
        as [d|]; injection Hrun as <- <-.
      * apply (log_inv_accept sample T n_e d _ (set_rng rs g' st)). exact Hinv.
      * exact Hinv.
    + apply (IH (set_rng rs g' st) st' r); assumption.
    + injection Hrun as <- <-. exact Hinv.
Qed.

Lemma slots_log (num_samples : nat) (params : list (R * R)) :
  ∀ (st st' : state rs) (r : result unit),
    linv st →
    foldlM (process_slot rs fmt generate num_samples) tt params st = (r, st') →
    linv st'.
Proof.
  induction params as [|[T n_e] params IH]; intros st st' r Hinv Hrun.
  - cbn in Hrun. injection Hrun as <- <-. exact Hinv.
  - cbn [foldlM] in Hrun. unfold mbind at 1, drv_bind at 1 in Hrun.
    unfold process_slot at 1 in Hrun. unfold mbind at 1, drv_bind at 1 in Hrun.
    destruct (attempt_sample rs fmt generate 5 T n_e st) as [[b|e] st1] eqn:Hatt;
      pose proof (attempt_sample_log 5 T n_e st st1 _ Hinv Hatt) as Hinv1.
    + destruct (decide ((num_samples / 5)%nat = 0%nat)).
      * injection Hrun as <- <-. exact Hinv1.
      * apply (IH st1 st' r Hinv1 Hrun).
    + injection Hrun as <- <-. exact Hinv1.
Qed.

End LogFaults.

Section PersistSuccess.
Import DatasetGenerator.
Variable rs : RandomState.
Hypothesis rs_ok : RandomStateSpec rs.
Variable config : Config.
Variable now : string.

Lemma drv_bind_ok {A B : Type} (m : drv rs A) (k : A → drv rs B) (st st' : state rs) (b : B) :
  (m ≫= k) st = (Ok b, st') → ∃ a st1, m st = (Ok a, st1) ∧ k a st1 = (Ok b, st').
Proof.
  unfold mbind, drv_bind. destruct (m st) as [[a|e] st1]; [|discriminate].
  intros Hk. exists a, st1. split; [reflexivity | exact Hk].
Qed.

Lemma lift_result_ok {A : Type} (r : result A) (st st' : state rs) (a : A) :
  lift_result rs r st = (Ok a, st') → r = Ok a ∧ st' = st.
Proof. destruct r; simpl; [intros [= -> ->]; split; reflexivity | discriminate]. Qed.

Lemma take_rows_In {A : Type} (rows : list A) (idx : list nat) (chosen : list A)
    (i : nat) (x : A) :
  take_rows rows idx = Ok chosen → In i idx → nth_error rows i = Some x → In x chosen.
Proof.
  unfold take_rows. revert chosen.
  induction idx as [|i0 idx IH]; intros chosen Hrows Hi Hx; [destruct Hi|].
  cbn [mapM_result] in Hrows.
  destruct (nth_error rows i0) as [x0|] eqn:Hx0; [|discriminate].
  cbn [mbind result_bind] in Hrows.
  destruct (mapM_result _ idx) as [chosen'|]; [|discriminate].
  cbn [mbind result_bind] in Hrows. injection Hrows as <-.
  destruct Hi as [->|Hi].
  - left. congruence.
  - right. apply (IH chosen' eq_refl Hi Hx).
Qed.

Lemma split_of_In (samples : list MixedSpectrumSimulator.Sample) (idx : list nat)
    (data : split_data) (i : nat) (s : MixedSpectrumSimulator.Sample) :
  split_of samples idx = Ok data → In i idx → nth_error samples i = Some s →
  In (arr_values s.(MixedSpectrumSimulator.s_spectrum)) (fst (fst data))
  ∧ In s.(MixedSpectrumSimulator.s_atom_percentages) (snd data).
Proof.
  unfold split_of. destruct (take_rows samples idx) as [chosen|] eqn:Hrows; [|discriminate].
  cbn [mbind result_bind]. intros [= <-] Hi Hs.
  pose proof (take_rows_In samples idx chosen i s Hrows Hi Hs) as Hin.
  cbn [fst snd]. split.
  - apply (in_map (fun s => arr_values (MixedSpectrumSimulator.s_spectrum s))) in Hin.
    exact Hin.
  - apply (in_map MixedSpectrumSimulator.s_atom_percentages) in Hin. exact Hin.
Qed.

Lemma concat_rows_In {A : Type} (width : nat) (existing new combined : list (list A))
    (x : list A) :
  concat_rows width existing new = Ok combined → In x new → In x combined.
Proof.
  unfold concat_rows. destruct existing as [|row existing]; [intros [= <-] H; exact H|].
  destruct (length row =? width)%nat; [|discriminate].
  intros [= <-] H. apply (in_or_app (row :: existing) new). right. exact H.
Qed.

Lemma combine_split_In (ws wl : nat) (existing new combined : split_data) :
  combine_split ws wl existing new = Ok combined →
  (∀ x, In x (fst (fst new)) → In x (fst (fst combined)))
  ∧ (∀ x, In x (snd new) → In x (snd combined)).
Proof.
  destruct existing as [[es el] ea], new as [[ns nl] na]. unfold combine_split.
  destruct (concat_rows ws es ns) as [cs|] eqn:Hcs; [|discriminate].
  cbn [mbind result_bind].
  destruct (concat_rows wl el nl) as [cl|]; [|discriminate].
  cbn [mbind result_bind]. intros [= <-]. cbn [fst snd]. split.
  - intros x Hx. apply (concat_rows_In ws es ns cs x Hcs Hx).
  - intros x Hx. destruct ea as [|a0 ea]; [exact Hx|].
    apply (in_or_app (a0 :: ea) na). right. exact Hx.
Qed.

Lemma indices_cover (a b : nat) (l : list nat) (i : nat) :
  In i l →
  In i (firstn a l) ∨ In i (firstn b (skipn a l)) ∨ In i (skipn (a + b) l).
Proof.
  intros Hi.
  rewrite <- (firstn_skipn a l) in Hi. apply in_app_or in Hi as [Hi|Hi]; [left; exact Hi|].
  rewrite <- (firstn_skipn b (skipn a l)) in Hi.
  apply in_app_or in Hi as [Hi|Hi]; [right; left; exact Hi|].
  right. right. rewrite skipn_skipn, (Nat.add_comm b a) in Hi. exact Hi.
Qed.

Lemma write_dataset_groups (f : option H5File) (wavelengths_array : list R)
    (train validation test : split_data) :
  let out := write_dataset f wavelengths_array train validation test now config in
  h5_groups out !! "train"%string = Some (group_of train)
  ∧ h5_groups out !! "validation"%string = Some (group_of validation)
  ∧ h5_groups out !! "test"%string = Some (group_of test).
Proof.
  cbv zeta. unfold write_dataset. cbn [h5_groups].
  split; [|split].
  - rewrite lookup_insert_ne by discriminate. rewrite lookup_insert_ne by discriminate.
    apply lookup_insert_eq.
  - rewrite lookup_insert_ne by discriminate. apply lookup_insert_eq.
  - apply lookup_insert_eq.
Qed.

Lemma group_of_persisted (f : H5File) (ds : string) (data : split_data)
    (sample : MixedSpectrumSimulator.Sample) :
  In ds SPLITS → h5_groups f !! ds = Some (group_of data) →
  In (arr_values sample.(MixedSpectrumSimulator.s_spectrum)) (fst (fst data)) →
  In sample.(MixedSpectrumSimulator.s_atom_percentages) (snd data) →
  persisted f sample.
Proof.
  intros Hds Hgrp Hsp Hap. destruct data as [[s l] a].
  exists ds, (group_of (s, l, a)), s, a. repeat split; assumption.
Qed.

(** A run that reaches the end of [generate_dataset] leaves a dataset file
    that holds every sample of the in-memory lists. *)
Lemma persist_success (st st' : state rs) :
  persist rs config now st = (Ok tt, st') →
  ∃ f, w_dataset rs st' = Some f
     ∧ ∀ sample, In sample (w_accepted rs st) → persisted f sample.
Proof.
  unfold persist. intros H.
  apply drv_bind_ok in H as (st_ & st1 & Hget & H).
  injection Hget as <- <-.
  destruct (w_accepted rs st) as [|first rest] eqn:Hacc; [discriminate|].
  cbv zeta in H.
  set (samples := first :: rest) in *.
  apply drv_bind_ok in H as (indices & st1 & Hperm & H).
  unfold draw in Hperm.
  pose proof (permutation_ok rs rs_ok (length samples) (w_rng rs st)) as Hp.
  destruct (permutation rs (length samples) (w_rng rs st)) as [indices' g'].
  injection Hperm as -> <-. cbn [fst] in Hp.
  apply drv_bind_ok in H as (train_data & st2 & Htrain & H).
  apply lift_result_ok in Htrain as [Htrain ->].
  apply drv_bind_ok in H as (val_data & st3 & Hval & H).
  apply lift_result_ok in Hval as [Hval ->].
  apply drv_bind_ok in H as (test_data & st4 & Htest & H).
  apply lift_result_ok in Htest as [Htest ->].
  apply drv_bind_ok in H as ([] & st5 & _ & H).
  apply drv_bind_ok in H as ([] & st6 & _ & H).
  apply drv_bind_ok in H as (train & st7 & Hctrain & H).
  apply lift_result_ok in Hctrain as [Hctrain ->].
  apply drv_bind_ok in H as (validation & st8 & Hcval & H).
  apply lift_result_ok in Hcval as [Hcval ->].
  apply drv_bind_ok in H as (test & st9 & Hctest & H).
  apply lift_result_ok in Hctest as [Hctest ->].
  unfold modify in H. injection H as <-.
  eexists. split; [reflexivity|].
  intros sample Hs. apply In_nth_error in Hs as [i Hi].
  assert (Hin : In i indices).
  { assert (Hlt : (i < length samples)%nat) by (apply nth_error_Some; congruence).
    apply (Permutation_in i Hp). apply in_seq. lia. }
  destruct (write_dataset_groups (w_dataset rs st)
              (MixedSpectrumSimulator.s_wavelengths first) train validation test)
    as (Hgtrain & Hgval & Hgtest).
  apply (indices_cover
           (int_of_product FLOAT_0_7 (length samples))
           (int_of_product FLOAT_0_15 (length samples)) indices i)
    in Hin as [Hin|[Hin|Hin]].
  - destruct (split_of_In samples _ train_data i sample Htrain Hin Hi) as [Hsp Hap].
    destruct (combine_split_In _ _ _ _ _ Hctrain) as [Hcs Hca].
    apply (group_of_persisted _ "train" train); [left; reflexivity | exact Hgtrain | |].
    + apply Hcs, Hsp.
    + apply Hca, Hap.
  - destruct (split_of_In samples _ val_data i sample Hval Hin Hi) as [Hsp Hap].
    destruct (combine_split_In _ _ _ _ _ Hcval) as [Hcs Hca].
    apply (group_of_persisted _ "validation" validation);
      [right; left; reflexivity | exact Hgval | |].
    + apply Hcs, Hsp.
    + apply Hca, Hap.
  - destruct (split_of_In samples _ test_data i sample Htest Hin Hi) as [Hsp Hap].
    destruct (combine_split_In _ _ _ _ _ Hctest) as [Hcs Hca].
    apply (group_of_persisted _ "test" test);
      [right; right; left; reflexivity | exact Hgtest | |].
    + apply Hcs, Hsp.
    + apply Hca, Hap.
Qed.

End PersistSuccess.

Section RunLog.
Import DatasetGenerator.
Variable rs : RandomState.
Hypothesis rs_ok : RandomStateSpec rs.
Variable fmt : Formatting.
Variable generate : R → R → rand rs.(rng) (option MixedSpectrumSimulator.Sample).

(** Every run: the log only gained hashes of acceptances whose write met no
    fault, and a completed run leaves a dataset file with every sample of the
    in-memory lists. *)
Lemma run_log (config : Config) (delta_E_max : list (string * R)) (now : string)
    (st0 st1 : state rs) (r : result unit) :
  run rs fmt generate config delta_E_max now st0 = (r, st1) →
  log_inv rs (w_faults rs st0) (w_log rs st0) st1
  ∧ (r = Ok tt →
     ∃ f, w_dataset rs st1 = Some f
        ∧ ∀ sample, In sample (w_accepted rs st1) → persisted f sample).
Proof.
  unfold run. unfold mbind at 1, drv_bind at 1, modify at 1.
  assert (Hinv0 : log_inv rs (w_faults rs st0) (w_log rs st0) (start_run rs st0)).
  { split; [reflexivity|]. intros h Hh. left. exact Hh. }
  unfold mbind at 1, drv_bind at 1, draw at 1.
  destruct (_generate_sample_params rs config delta_E_max (w_rng rs (start_run rs st0)))
    as [[params g1]|e].
  2:{ intros [= <- <-]. split; [exact Hinv0 | discriminate]. }
  set (stA := set_rng rs g1 (start_run rs st0)).
  assert (HinvA : log_inv rs (w_faults rs st0) (w_log rs st0) stA) by exact Hinv0.
  unfold mbind at 1, drv_bind at 1.
  destruct (foldlM (process_slot rs fmt generate (cfg_num_samples config)) tt params stA)
    as [[[]|e] stB] eqn:Hslots;
    pose proof (slots_log rs fmt generate _ _ _ params stA stB _ HinvA Hslots) as HinvB.
  2:{ intros [= <- <-]. split; [exact HinvB | discriminate]. }
  intros Hpersist.
  destruct (persist_outcome rs config now stB st1 r Hpersist)
    as ((Hused & Htrace & Hacc & Hlog & Hfaults) & _ & _).
  split.
  - destruct HinvB as [HfaultsB HlogB]. split.
    + rewrite Htrace, Hfaults. exact HfaultsB.
    + rewrite Hlog, Htrace. exact HlogB.
  - intros ->. destruct (persist_success rs rs_ok config now stB st1 Hpersist) as (f & Hf & Hall).
    exists f. split; [exact Hf|]. rewrite Hacc. exact Hall.
Qed.

End RunLog.

Lemma logged_hashes_loaded (log : DatasetGenerator.json_file) (h : string) :
  In h (logged_hashes log) → h ∈ DatasetGenerator._load_used_combinations log.
Proof.
  destruct log as [|data|]; simpl; try tauto.
  intros Hin. apply elem_of_list_to_set, list_elem_of_In. exact Hin.
Qed.

Section LogFailure.
Import DatasetGenerator.

(** C10. Take any run of the driver and its [j]-th acceptance, of [sample]
    under the hash [h], and let the environment make the [j]-th write of the
    combination log fail (before or while writing). Then the run went on: [h]
    is in the in-memory set of used hashes at the end, it is not among the
    hashes recorded in the log, and if the run completed, [sample] is in the
    in-memory lists and the dataset file holds its spectrum and its
    composition record in one of the three splits. Per candidate, whatever
    the environment does to the write: a fresh sample with a [delta_E_max]
    entry is appended, its hash is added to the set, the attempt returns
    [True], and the log is what [_save_combination] leaves. *)
Theorem log_failure_keeps_sample (rs : RandomState) (fmt : Formatting)
    (generate : R → R → rand rs.(rng) (option MixedSpectrumSimulator.Sample))
    (config : Config) (delta_E_max : list (string * R)) (now : string)
    (st0 st1 : state rs) (r : result unit)
    (j : nat) (h : string) (sample : MixedSpectrumSimulator.Sample) :
  RandomStateSpec rs →
  run rs fmt generate config delta_E_max now st0 = (r, st1) →
  nth_error (w_trace rs st1) j = Some (h, sample) →
  nth j (w_faults rs st0) NoFault ≠ NoFault →
  h ∈ w_used rs st1
  ∧ ¬ In h (logged_hashes (w_log rs st1))
  ∧ (r = Ok tt →
     In sample (w_accepted rs st1)
     ∧ ∃ f, w_dataset rs st1 = Some f ∧ persisted f sample)
  ∧ (∀ (k : nat) (T n_e : R) (st : state rs) (candidate : MixedSpectrumSimulator.Sample)
       (g' : rs.(rng)) (d : R),
       generate T n_e (w_rng rs st) = Ok (Some candidate, g') →
       let h' := _hash_combination fmt T n_e
                   candidate.(MixedSpectrumSimulator.s_atom_percentages) in
       h' ∉ w_used rs st →
       Dict.get candidate.(MixedSpectrumSimulator.s_atom_percentages) "delta_E_max"%string
       = Some d →
       ∃ st', attempt_sample rs fmt generate (S k) T n_e st = (Ok true, st')
            ∧ w_accepted rs st' = w_accepted rs st ++ [candidate]
            ∧ w_used rs st' = {[h']} ∪ w_used rs st
            ∧ w_log rs st'
              = _save_combination (w_log rs st)
                  (combination_of fmt (w_used rs st) T n_e candidate d)
                  (hd NoFault (w_faults rs st))).
Proof.
  intros Hrs Hrun Hj Hfault.
  destruct (run_outcome rs fmt generate (fun _ => True) (fun _ _ _ _ _ _ => I)
              config delta_E_max now st0 st1 r Hrun)
    as ((Hused & Hnd & Hfresh & _) & Hacc & _).
  destruct (run_log rs Hrs fmt generate config delta_E_max now st0 st1 r Hrun)
    as ((_ & Hlog) & Hfile).
  assert (Hin : In (h, sample) (w_trace rs st1)) by (apply (nth_error_In _ j); exact Hj).
  assert (Hh : h ∈ map fst (w_trace rs st1)).
  { apply list_elem_of_In. apply (in_map fst) in Hin. exact Hin. }
  split.
  { rewrite Hused. apply elem_of_union_r, elem_of_list_to_set. exact Hh. }
  split.
  { intros Hlogged. destruct (Hlog h Hlogged) as [H0|(j' & s' & Hj' & Hnone)].
    - apply (Hfresh h Hh). apply logged_hashes_loaded. exact H0.
    - assert (Heq : j = j').
      { apply NoDup_ListNoDup in Hnd.
        apply (proj1 (NoDup_nth_error (map fst (w_trace rs st1))) Hnd).
        - rewrite length_map. apply nth_error_Some. congruence.
        - rewrite !nth_error_map, Hj, Hj'. reflexivity. }
      subst j'. contradiction. }
  split.
  { intros ->. split.
    - rewrite (Hacc tt eq_refl). apply (in_map snd) in Hin. exact Hin.
    - destruct (Hfile eq_refl) as (f & Hf & Hall). exists f. split; [exact Hf|].
      apply Hall. rewrite (Hacc tt eq_refl). apply (in_map snd) in Hin. exact Hin. }
  intros k T n_e st candidate g' d Hgen h' Hnotin Hd.
  rewrite attempt_sample_step, Hgen. cbv zeta.
  destruct (decide (_ ∈ w_used rs st)) as [Hused'|_]; [contradiction|]. rewrite Hd.
  eexists. split; [reflexivity|]. repeat split.
Qed.

End LogFailure.

(** ** A first run whose generator always returns the same sample *)

Section FirstRun.
Import DatasetGenerator.
Variable rs : RandomState.
Hypothesis rs_ok : RandomStateSpec rs.
Variable fmt : Formatting.
Variable generate : R → R → rand rs.(rng) (option MixedSpectrumSimulator.Sample).

Lemma attempt_sample_rejected (T n_e : R) (sample : MixedSpectrumSimulator.Sample)
    (st : state rs) :
  generate T n_e (w_rng rs st) = Ok (Some sample, w_rng rs st) →
  _hash_combination fmt T n_e sample.(MixedSpectrumSimulator.s_atom_percentages)
  ∈ w_used rs st →
  set_rng rs (w_rng rs st) st = st →
  ∀ attempts_left, attempt_sample rs fmt generate attempts_left T n_e st = (Ok false, st).
Proof.
  intros Hgen Hin Hst. induction attempts_left as [|k IH]; [reflexivity|].
  rewrite attempt_sample_step, Hgen. cbv zeta.
  destruct (decide (_ ∈ w_used rs st)) as [_|Hnotin]; [|contradiction].
  rewrite Hst. exact IH.
Qed.

Lemma slots_rejected (num_samples : nat) (T n_e : R)
    (sample : MixedSpectrumSimulator.Sample) (st : state rs) :
  generate T n_e (w_rng rs st) = Ok (Some sample, w_rng rs st) →
  _hash_combination fmt T n_e sample.(MixedSpectrumSimulator.s_atom_percentages)
  ∈ w_used rs st →
  set_rng rs (w_rng rs st) st = st →
  (num_samples / 5 ≠ 0)%nat →
  ∀ params, Forall (fun p => p = (T, n_e)) params →
    foldlM (process_slot rs fmt generate num_samples) tt params st = (Ok tt, st).
Proof.
  intros Hgen Hin Hst Hnum. induction 1 as [|p params -> _ IH]; [reflexivity|].
  cbn [foldlM]. unfold mbind at 1, drv_bind at 1. unfold process_slot at 1.
  unfold mbind at 1, drv_bind at 1.
  rewrite (attempt_sample_rejected T n_e sample st Hgen Hin Hst).
  destruct (decide ((num_samples / 5)%nat = 0%nat)); [contradiction|].
  exact IH.
Qed.

Lemma take_rows_defined {A : Type} (rows : list A) (idx : list nat) :
  Forall (fun i => (i < length rows)%nat) idx → ∃ chosen, take_rows rows idx = Ok chosen.
Proof.
  unfold take_rows. induction 1 as [|i idx Hi _ [chosen IH]]; [eexists; reflexivity|].
  cbn [mapM_result]. destruct (nth_error rows i) as [x|] eqn:Hx.
  - cbn [mbind result_bind]. rewrite IH. eexists. reflexivity.
  - apply nth_error_None in Hx. lia.
Qed.

Lemma split_of_defined (samples : list MixedSpectrumSimulator.Sample) (idx : list nat) :
  Forall (fun i => (i < length samples)%nat) idx → ∃ data, split_of samples idx = Ok data.
Proof.
  intros Hidx. unfold split_of.
  destruct (take_rows_defined samples idx Hidx) as [chosen ->]. eexists. reflexivity.
Qed.

Lemma combine_split_fresh (ws wl : nat) (ds_name : string) (data : split_data) :
  combine_split ws wl (read_split None ds_name) data = Ok data.
Proof. destruct data as [[s l] a]. reflexivity. Qed.

(** Without a dataset file, a run with at least one sample in memory
    completes. *)
Lemma persist_defined (config : Config) (now : string) (st : state rs) :
  w_accepted rs st ≠ [] → w_dataset rs st = None →
  ∃ st', persist rs config now st = (Ok tt, st').
Proof.
  intros Hacc Hds. unfold persist.
  unfold mbind at 1, drv_bind at 1, get_state at 1.
  destruct (w_accepted rs st) as [|first rest]; [congruence|]. cbv zeta.
  set (samples := first :: rest).
  unfold mbind at 1, drv_bind at 1, draw at 1.
  pose proof (permutation_ok rs rs_ok (length samples) (w_rng rs st)) as Hp.
  destruct (permutation rs (length samples) (w_rng rs st)) as [indices g']. cbn [fst] in Hp.
  assert (Hall : Forall (fun i => (i < length samples)%nat) indices).
  { apply Forall_forall. intros i Hi. apply list_elem_of_In in Hi.
    apply Permutation_sym in Hp. apply (Permutation_in i Hp) in Hi.
    apply in_seq in Hi. lia. }
  set (a := int_of_product FLOAT_0_7 (length samples)).
  set (b := int_of_product FLOAT_0_15 (length samples)).
  destruct (split_of_defined samples (firstn a indices)) as [train_data ->];
    [apply Forall_take; exact Hall|].
  destruct (split_of_defined samples (firstn b (skipn a indices))) as [val_data ->];
    [apply Forall_take, Forall_drop; exact Hall|].
  destruct (split_of_defined samples (skipn (a + b) indices)) as [test_data ->];
    [apply Forall_drop; exact Hall|].
  unfold mbind, drv_bind. cbn [w_dataset set_rng]. rewrite Hds.
  cbn [lift_result mret drv_ret]. rewrite !combine_split_fresh. cbn [lift_result modify].
  eexists. reflexivity.
Qed.

(** A first run: the first slot accepts the sample, whatever happens to the
    log write, every other slot spends its attempts on the same sample, and
    the dataset file is written. *)
Lemma first_run (config : Config) (delta_E_max : list (string * R)) (now : string)
    (st0 : state rs) (T n_e d : R) (sample : MixedSpectrumSimulator.Sample)
    (params : list (R * R)) :
  let g := rs.(seed) 42 in
  let h := _hash_combination fmt T n_e sample.(MixedSpectrumSimulator.s_atom_percentages) in
  _generate_sample_params rs config delta_E_max g = Ok ((T, n_e) :: params, g) →
  Forall (fun p => p = (T, n_e)) params →
  generate T n_e g = Ok (Some sample, g) →
  Dict.get sample.(MixedSpectrumSimulator.s_atom_percentages) "delta_E_max"%string = Some d →
  (config.(cfg_num_samples) / 5 ≠ 0)%nat →
  _load_used_combinations (w_log rs st0) = ∅ →
  w_dataset rs st0 = None →
  ∃ st1, run rs fmt generate config delta_E_max now st0 = (Ok tt, st1)
       ∧ w_trace rs st1 = [(h, sample)]
       ∧ w_log rs st1
         = _save_combination (w_log rs st0) (combination_of fmt ∅ T n_e sample d)
             (hd NoFault (w_faults rs st0)).
Proof.
  intros g h Hparams Hall Hgen Hd Hnum Hloaded Hds.
  unfold run. unfold mbind at 1, drv_bind at 1, modify at 1.
  unfold mbind at 1, drv_bind at 1, draw at 1.
  change (w_rng rs (start_run rs st0)) with g. rewrite Hparams.
  set (stA := set_rng rs g (start_run rs st0)).
  set (stB := add_used rs h sample
                (save_combination rs (combination_of fmt (w_used rs stA) T n_e sample d)
                   (append_sample rs sample (set_rng rs g stA)))).
  assert (Hfresh : h ∉ w_used rs stA).
  { change (w_used rs stA) with (_load_used_combinations (w_log rs st0)).
    rewrite Hloaded. apply not_elem_of_empty. }
  assert (Hfirst : attempt_sample rs fmt generate 5 T n_e stA = (Ok true, stB)).
  { rewrite attempt_sample_step. change (w_rng rs stA) with g. rewrite Hgen. cbv zeta.
    destruct (decide (_ ∈ w_used rs stA)) as [Hin|_]; [contradiction|].
    rewrite Hd. reflexivity. }
  assert (Hslots : foldlM (process_slot rs fmt generate (cfg_num_samples config)) tt
                     ((T, n_e) :: params) stA = (Ok tt, stB)).
  { cbn [foldlM]. unfold mbind at 1, drv_bind at 1. unfold process_slot at 1.
    unfold mbind at 1, drv_bind at 1. rewrite Hfirst.
    destruct (decide ((cfg_num_samples config / 5)%nat = 0%nat)); [contradiction|].
    apply (slots_rejected _ T n_e sample stB Hgen).
    - unfold stB. cbn [w_used add_used].
      apply elem_of_union_l, elem_of_singleton. reflexivity.
    - reflexivity.
    - exact Hnum.
    - exact Hall. }
  unfold mbind at 1, drv_bind at 1. rewrite Hslots.
  destruct (persist_defined config now stB) as [st1 Hpersist];
    [cbn; destruct (w_accepted rs st0); discriminate | exact Hds |].
  exists st1. split; [exact Hpersist|].
  destruct (persist_outcome rs config now stB st1 _ Hpersist)
    as ((_ & Htrace & _ & Hlog & _) & _ & _).
  rewrite Htrace, Hlog. split; [reflexivity|].
  cbn [w_log stB add_used save_combination append_sample set_rng start_run w_faults w_used].
  change (w_used rs stA) with (_load_used_combinations (w_log rs st0)).
  rewrite Hloaded. reflexivity.
Qed.

End FirstRun.

(** ** The example run *)

Lemma example_schedule :
  ∃ params,
    DatasetGenerator._generate_sample_params first_draws example_config [] tt
    = Ok ((10000, 1e16) :: params, tt)
    ∧ Forall (fun p => p = (10000, 1e16)) params.
Proof.
  destruct (generate_sample_params_run first_draws example_config [] tt first_draws_ok
              ltac:(discriminate) ltac:(discriminate) ltac:(cbn; repeat constructor; lra))
    as (params & [] & Hrun & Hlen & Hmem & _).
  assert (Hall : Forall (fun p => p = (10000, 1e16)) params).
  { apply Forall_forall. intros [T n_e] Hp. rewrite Forall_forall in Hmem.
    destruct (Hmem _ Hp) as [HT Hn]. cbn in HT, Hn.
    destruct HT as [<-|[]]. destruct Hn as [<-|[]]. reflexivity. }
  destruct params as [|p params]; [discriminate Hlen|].
  inversion Hall as [|? ? -> Hrest]; subst.
  exists params. split; [exact Hrun | exact Hrest].
Qed.

(** A first run on the example in which the environment fails the only
    write of the combination log: the run completes with one acceptance, and
    there is still no log. *)
Lemma example_run :
  ∃ (s : MixedSpectrumSimulator.Sample) (st1 : DatasetGenerator.state first_draws),
    DatasetGenerator.generate_dataset first_draws plain_formatting example_config
      [example_simulator] [] example_ionization_energies "now"
      (example_state [DatasetGenerator.FailsBeforeWrite] None)
    = (Ok tt, st1)
    ∧ DatasetGenerator.w_trace first_draws st1
      = [(DatasetGenerator._hash_combination plain_formatting 10000 1e16
            s.(MixedSpectrumSimulator.s_atom_percentages), s)]
    ∧ DatasetGenerator.w_log first_draws st1 = DatasetGenerator.Missing.
Proof.
  destruct example_sample as (s & d & Hs & Hd).
  destruct example_schedule as (params & Hparams & Hall).
  destruct (first_run first_draws first_draws_ok plain_formatting example_generate
              example_config [] "now"
              (example_state [DatasetGenerator.FailsBeforeWrite] None)
              10000 1e16 d s params Hparams Hall Hs Hd
              ltac:(discriminate) eq_refl eq_refl)
    as (st1 & Hrun & Htrace & Hlog).
  exists s, st1. split; [exact Hrun|]. split; [exact Htrace | exact Hlog].
Qed.

Lemma log_failure_keeps_sample_witness :
  ∃ (s : MixedSpectrumSimulator.Sample) (st1 : DatasetGenerator.state first_draws),
    let h := DatasetGenerator._hash_combination plain_formatting 10000 1e16
               s.(MixedSpectrumSimulator.s_atom_percentages) in
    DatasetGenerator.run first_draws plain_formatting example_generate example_config []
      "now" (example_state [DatasetGenerator.FailsBeforeWrite] None)
    = (Ok tt, st1)
    ∧ nth_error (DatasetGenerator.w_trace first_draws st1) 0 = Some (h, s)
    ∧ h ∈ DatasetGenerator.w_used first_draws st1
    ∧ ¬ In h (logged_hashes (DatasetGenerator.w_log first_draws st1))
    ∧ In s (DatasetGenerator.w_accepted first_draws st1)
    ∧ ∃ f, DatasetGenerator.w_dataset first_draws st1 = Some f ∧ persisted f s.
Proof.
  destruct example_run as (s & st1 & Hrun & Htrace & _).
  exists s, st1. cbv zeta.
  assert (Hj : nth_error (DatasetGenerator.w_trace first_draws st1) 0
               = Some (DatasetGenerator._hash_combination plain_formatting 10000 1e16
                         s.(MixedSpectrumSimulator.s_atom_percentages), s))
    by (rewrite Htrace; reflexivity).
  destruct (log_failure_keeps_sample first_draws plain_formatting example_generate
              example_config [] "now"
              (example_state [DatasetGenerator.FailsBeforeWrite] None) st1 (Ok tt)
              0 _ s first_draws_ok Hrun Hj ltac:(discriminate))
    as (Hused & Hlog & Hfile & _).
  destruct (Hfile eq_refl) as [Hacc Hf].
  split; [exact Hrun|]. split; [exact Hj|]. split; [exact Hused|]. split; [exact Hlog|].
  split; [exact Hacc | exact Hf].
Defined.

Lemma grid_mismatch_no_write_witness :
  ∃ e st1,
    DatasetGenerator.generate_dataset first_draws plain_formatting example_config
      [example_simulator] [] example_ionization_energies "now"
      (example_state [] (Some stale_dataset))
    = (Raise e, st1)
    ∧ DatasetGenerator.w_dataset first_draws st1 = Some stale_dataset.
Proof.
  apply (grid_mismatch_no_write first_draws plain_formatting example_config
           [example_simulator] [] example_ionization_energies "now"
           (example_state [] (Some stale_dataset)) stale_dataset []).
  - reflexivity.
  - reflexivity.
  - intros H. apply (f_equal (@length R)) in H. rewrite length_linspace in H.
    discriminate H.
Defined.

(** * Further properties of the simulators *)

(** ** [simulate] on arbitrary transition tables *)

Section SimulateDefined.
Import SpectrumSimulator.

Lemma unpack7_raises (data : list pyval) (e : exn) : unpack7 data = Raise e → e = ValueError.
Proof.
  unfold unpack7.
  repeat (destruct data as [|? data];
          try (intros [= <-]; reflexivity); try discriminate).
Qed.

Lemma to_float_caught (v : pyval) (e : exn) : to_float v = Raise e → caught e = true.
Proof. destruct v; simpl; intros [= <-]; reflexivity. Qed.

Lemma add_level_defined (levels : list (R * R)) (E : R) (g : pyval) :
  (∃ levels', add_level levels E g = Ok levels')
  ∨ (∃ e, add_level levels E g = Raise e ∧ caught e = true).
Proof.
  unfold add_level. destruct (Dict.mem levels E); [left; eexists; reflexivity|].
  destruct g; simpl; [right | left | right]; eexists; try reflexivity; split; reflexivity.
Qed.

(** The first loop swallows every exception a row can cause. *)
Lemma collect_levels_defined (levels : list (R * R)) (data : list pyval) :
  ∃ levels', collect_levels levels data = Ok levels'.
Proof.
  unfold collect_levels.
  destruct (unpack7 data) as [[[[[[wl Aki] Ek] Ei] gi] gk]|e] eqn:Hu.
  2:{ apply unpack7_raises in Hu. subst e. eexists. reflexivity. }
  cbn [mbind result_bind].
  destruct (forallb is_not_none [wl; Aki; Ek; Ei; gi; gk]); [|eexists; reflexivity].
  destruct (to_float Ek) as [Ek'|e] eqn:HEk.
  2:{ apply to_float_caught in HEk. cbn [mbind result_bind attempt]. rewrite HEk.
      eexists. reflexivity. }
  destruct (to_float Ei) as [Ei'|e] eqn:HEi.
  2:{ apply to_float_caught in HEi. cbn [mbind result_bind attempt]. rewrite HEi.
      eexists. reflexivity. }
  cbn [mbind result_bind].
  destruct (add_level_defined levels Ei' gi) as [[levels1 ->]|(e & -> & He)].
  2:{ cbn [mbind result_bind attempt]. rewrite He. eexists. reflexivity. }
  cbn [mbind result_bind].
  destruct (add_level_defined levels1 Ek' gk) as [[levels2 ->]|(e & -> & He)].
  - eexists. reflexivity.
  - cbn [attempt]. rewrite He. cbn [attempt]. eexists. reflexivity.
Qed.

Lemma collect_all_levels_defined (rows : list (list pyval)) :
  ∀ levels, ∃ levels', foldlM collect_levels levels rows = Ok levels'.
Proof.
  induction rows as [|data rows IH]; intros levels; [eexists; reflexivity|].
  cbn [foldlM]. destruct (collect_levels_defined levels data) as [levels1 ->].
  cbn [mbind result_bind]. apply IH.
Qed.

Lemma partition_function_ok_nonzero (els : list (option R)) (degs : list R) (T : R) :
  0 < T → ∃ Z, _partition_function els degs T = Ok Z ∧ Z ≠ 0.
Proof.
  intros HT. unfold _partition_function. rewrite (boltzmann_terms_ok T degs HT els).
  cbn [mbind result_bind]. eexists. split; [reflexivity|].
  destruct (decide (_ = 0)) as [_|Hne]; [lra | exact Hne].
Qed.

Lemma add_line_defined (self : t) (atom_percentage temp Z : R) (a : acc)
    (data : list pyval) :
  0 < temp → Z ≠ 0 → self.(sigma) ≠ 0 → acc_ok self a →
  ∃ a', add_line self atom_percentage temp Z a data = Ok a' ∧ acc_ok self a'.
Proof.
  intros HT HZ Hsig Hok. unfold add_line.
  destruct (unpack7 data) as [[[[[[wl Aki] Ek] Ei] gi] gk]|e] eqn:Hu.
  2:{ apply unpack7_raises in Hu. subst e. exists a. split; [reflexivity | exact Hok]. }
  cbn [mbind result_bind].
  destruct (forallb is_not_none [wl; Aki; Ek; Ei; gi; gk]);
    [|exists a; split; [reflexivity | exact Hok]].
  destruct (to_float wl) as [wl'|e] eqn:Hwl.
  2:{ apply to_float_caught in Hwl. cbn [mbind result_bind attempt]. rewrite Hwl.
      exists a. split; [reflexivity | exact Hok]. }
  destruct (to_float Aki) as [Aki'|e] eqn:HAki.
  2:{ apply to_float_caught in HAki. cbn [mbind result_bind attempt]. rewrite HAki.
      exists a. split; [reflexivity | exact Hok]. }
  destruct (to_float Ek) as [Ek'|e] eqn:HEk.
  2:{ apply to_float_caught in HEk. cbn [mbind result_bind attempt]. rewrite HEk.
      exists a. split; [reflexivity | exact Hok]. }
  destruct (to_float gk) as [gk'|e] eqn:Hgk.
  2:{ apply to_float_caught in Hgk. cbn [mbind result_bind attempt]. rewrite Hgk.
      exists a. split; [reflexivity | exact Hok]. }
  cbn [mbind result_bind].
  unfold _calculate_intensity. rewrite (fdiv_ok _ _ (kT_nonzero temp HT)).
  cbn [mbind result_bind]. rewrite (fdiv_ok _ _ HZ). cbn [mbind result_bind].
  destruct (searchsorted (wavelengths self) wl' <? resolution self)%nat eqn:Hidx;
    [|exists a; split; [reflexivity | exact Hok]].
  unfold _gaussian_profile. destruct (decide (sigma self = 0)) as [|_]; [contradiction|].
  cbn [mbind result_bind attempt]. eexists. split; [reflexivity|].
  destruct Hok as (Hi & Hc & Hp & Hl & Hd). unfold acc_ok.
  cbn [intensities element_contributions peak_idx peak_label temp_intensity_data].
  split.
  { match goal with |- context [if ?b then _ else _] => destruct b end;
      [rewrite length_slice_add|]; exact Hi. }
  split.
  { match goal with |- context [if ?b then _ else _] => destruct b end;
      [rewrite length_slice_add|]; exact Hc. }
  split.
  { apply Forall_app. split; [exact Hp|]. constructor; [|constructor].
    apply Nat.ltb_lt. exact Hidx. }
  split; rewrite !length_app; simpl; lia.
Qed.

Lemma add_lines_defined (self : t) (atom_percentage temp Z : R) (rows : list (list pyval)) :
  0 < temp → Z ≠ 0 → self.(sigma) ≠ 0 →
  ∀ a, acc_ok self a →
  ∃ a', foldlM (add_line self atom_percentage temp Z) a rows = Ok a' ∧ acc_ok self a'.
Proof.
  intros HT HZ Hsig. induction rows as [|data rows IH]; intros a Hok.
  - exists a. split; [reflexivity | exact Hok].
  - cbn [foldlM].
    destruct (add_line_defined self atom_percentage temp Z a data HT HZ Hsig Hok)
      as (a1 & -> & Hok1).
    cbn [mbind result_bind]. apply IH. exact Hok1.
Qed.

Lemma simulate_temperature_defined (self : t) (atom_percentage : R)
    (energy_levels degeneracies : list R) (temp : R) :
  0 < temp → self.(sigma) ≠ 0 →
  ∃ a, simulate_temperature self atom_percentage energy_levels degeneracies temp = Ok a
     ∧ acc_ok self a.
Proof.
  intros HT Hsig. unfold simulate_temperature.
  destruct (partition_function_ok_nonzero (map Some energy_levels) degeneracies temp HT)
    as (Z & -> & HZ).
  cbn [mbind result_bind].
  apply (add_lines_defined self atom_percentage temp Z _ HT HZ Hsig).
  unfold acc_ok. cbn. rewrite !repeat_length. repeat split. constructor.
Qed.

End SimulateDefined.


Section SimulateShape.
Import SpectrumSimulator.

Lemma simulate_temperatures_defined (self : t) (atom_percentage : R)
    (energy_levels degeneracies temps : list R) :
  Forall (fun T => 0 < T) temps → self.(sigma) ≠ 0 →
  ∃ per_temp,
    mapM_result (simulate_temperature self atom_percentage energy_levels degeneracies) temps
    = Ok per_temp
    ∧ length per_temp = length temps
    ∧ Forall (acc_ok self) per_temp.
Proof.
  intros Htemps Hsig. induction Htemps as [|T temps HT _ (per_temp & IH & Hlen & Hall)].
  - exists []. repeat split. constructor.
  - cbn [mapM_result].
    destruct (simulate_temperature_defined self atom_percentage energy_levels degeneracies T
                HT Hsig) as (a & -> & Hok).
    cbn [mbind result_bind]. rewrite IH. cbn [mbind result_bind].
    exists (a :: per_temp). split; [reflexivity|]. split; [simpl; rewrite Hlen; reflexivity|].
    constructor; assumption.
Qed.

(** With positive temperatures and a non-zero line width, [simulate] returns
    for every transition table, whatever its cells hold: rows it cannot read
    are skipped. It returns either nothing (no energy level) or one spectrum
    and one contribution array of [resolution] bins per temperature, and
    every recorded peak index is a bin of the grid. *)
Theorem simulate_defined (self : t) (atom_percentage : R) :
  Forall (fun T => 0 < T) self.(temperatures) →
  self.(sigma) ≠ 0 →
  ∃ r, simulate self atom_percentage = Ok r
     ∧ r.(sr_wavelengths) = self.(wavelengths)
     ∧ (r = empty_result self
        ∨ (r.(sr_temperatures) = self.(temperatures)
           ∧ length r.(sr_spectra) = length self.(temperatures)
           ∧ length r.(sr_contributions) = length self.(temperatures)
           ∧ length r.(sr_peak_indices) = length self.(temperatures)))
     ∧ Forall (fun spectrum => length spectrum = self.(resolution)) r.(sr_spectra)
     ∧ Forall (fun contrib => length contrib = self.(resolution)) r.(sr_contributions)
     ∧ Forall (Forall (fun i => (i < self.(resolution))%nat)) r.(sr_peak_indices).
Proof.
  intros Htemps Hsig. unfold simulate.
  assert (Hempty : ∃ r, Ok (empty_result self) = Ok r
     ∧ r.(sr_wavelengths) = self.(wavelengths)
     ∧ (r = empty_result self
        ∨ (r.(sr_temperatures) = self.(temperatures)
           ∧ length r.(sr_spectra) = length self.(temperatures)
           ∧ length r.(sr_contributions) = length self.(temperatures)
           ∧ length r.(sr_peak_indices) = length self.(temperatures)))
     ∧ Forall (fun spectrum => length spectrum = self.(resolution)) r.(sr_spectra)
     ∧ Forall (fun contrib => length contrib = self.(resolution)) r.(sr_contributions)
     ∧ Forall (Forall (fun i => (i < self.(resolution))%nat)) r.(sr_peak_indices)).
  { exists (empty_result self). split; [reflexivity|]. split; [reflexivity|].
    split; [left; reflexivity|]. cbn. repeat split; constructor. }
  destruct (nist_data self) as [|row rows] eqn:Hdata; [exact Hempty|].
  destruct (collect_all_levels_defined (row :: rows) []) as [levels ->].
  cbn [mbind result_bind].
  destruct levels as [|level levels]; [exact Hempty|].
  destruct (simulate_temperatures_defined self atom_percentage
              (Dict.keys (level :: levels)) (Dict.values (level :: levels))
              (temperatures self) Htemps Hsig) as (per_temp & -> & Hlen & Hall).
  cbn [mbind result_bind]. eexists. split; [reflexivity|].
  cbn [sr_wavelengths sr_spectra sr_temperatures sr_contributions sr_peak_indices].
  split; [reflexivity|].
  split; [right; rewrite !length_map; repeat split; exact Hlen|].
  rewrite !Forall_map.
  repeat split; (eapply Forall_impl; [exact Hall|]); intros a Hok; apply Hok.
Qed.

Lemma simulate_defined_witness :
  ∃ r, simulate example_simulator 1 = Ok r
     ∧ r.(sr_wavelengths) = example_simulator.(wavelengths)
     ∧ (r = empty_result example_simulator
        ∨ (r.(sr_temperatures) = example_simulator.(temperatures)
           ∧ length r.(sr_spectra) = length example_simulator.(temperatures)
           ∧ length r.(sr_contributions) = length example_simulator.(temperatures)
           ∧ length r.(sr_peak_indices) = length example_simulator.(temperatures)))
     ∧ Forall (fun spectrum => length spectrum = example_simulator.(resolution))
              r.(sr_spectra)
     ∧ Forall (fun contrib => length contrib = example_simulator.(resolution))
              r.(sr_contributions)
     ∧ Forall (Forall (fun i => (i < example_simulator.(resolution))%nat))
              r.(sr_peak_indices).
Proof.
  apply (simulate_defined example_simulator 1).
  - cbn. repeat constructor. lra.
  - cbn. lra.
Defined.

End SimulateShape.

(** ** Lines outside the grid *)

Lemma linspace_bounds (lo hi : R) (n i : nat) :
  lo <= hi → (i < n)%nat → lo <= nth i (linspace lo hi n) 0 <= hi.
Proof.
  intros Hle Hi. rewrite nth_linspace by exact Hi.
  destruct (decide (n - 1 = 0)%nat) as [Hn|Hn].
  - assert (i = 0%nat) as -> by lia. change (IZR (Z.of_nat 0)) with 0. lra.
  - set (k := IZR (Z.of_nat (n - 1))). set (x := IZR (Z.of_nat i)).
    assert (Hk : 0 < k) by (apply IZR_lt; lia).
    assert (Hx : 0 <= x <= k) by (split; apply IZR_le; lia).
    assert (Hq : 0 <= (hi - lo) / k) by (apply Rmult_le_pos; [lra|]; left; apply Rinv_0_lt_compat; exact Hk).
    assert (Hd : k * ((hi - lo) / k) = hi - lo) by (field; lra).
    split; [nra|]. nra.
Qed.

Section OutsideGrid.
Import SpectrumSimulator.

Lemma calculate_intensity_ok (temp Ek gk Aki Z : R) :
  0 < temp → Z ≠ 0 →
  _calculate_intensity temp Ek gk Aki Z = Ok (gk * Aki * exp (- Ek / (k_B * temp)) / Z).
Proof.
  intros HT HZ. unfold _calculate_intensity. rewrite (fdiv_ok _ _ (kT_nonzero temp HT)).
  cbn [mbind result_bind]. apply fdiv_ok. exact HZ.
Qed.

(** A numeric row whose wavelength lies above the last grid point is
    skipped: the arrays and the peak lists stay as they were. *)
Theorem line_above_grid_skipped (self : t) (lo hi : R) (atom_percentage temp Z : R)
    (a : acc) (wl Aki Ek Ei gi gk : R) (last : pyval) :
  self.(wavelengths) = linspace lo hi self.(resolution) →
  lo <= hi → 0 < temp → Z ≠ 0 →
  hi < wl →
  add_line self atom_percentage temp Z a
    [PFloat wl; PFloat Aki; PFloat Ek; PFloat Ei; PFloat gi; PFloat gk; last]
  = Ok a.
Proof.
  intros Hgrid Hle HT HZ Hwl.
  assert (Hidx : searchsorted (wavelengths self) wl = resolution self).
  { apply searchsorted_unique.
    - rewrite Hgrid. apply linspace_ascending. exact Hle.
    - rewrite Hgrid, length_linspace. lia.
    - intros i Hi. rewrite Hgrid.
      pose proof (linspace_bounds lo hi (resolution self) i Hle Hi). lra.
    - intros i Hi Hi'. rewrite Hgrid, length_linspace in Hi'. lia. }
  unfold add_line. cbn [unpack7 mbind result_bind forallb is_not_none andb to_float].
  rewrite (calculate_intensity_ok temp Ek gk Aki Z HT HZ). cbn [mbind result_bind].
  rewrite Hidx, Nat.ltb_irrefl. reflexivity.
Qed.

Lemma line_above_grid_skipped_witness :
  add_line example_simulator 1 10000 1
    {| intensities := [0; 0]; element_contributions := [0; 0];
       peak_idx := []; peak_label := []; temp_intensity_data := [] |}
    [PFloat 2; PFloat 1e8; PFloat 3; PFloat 0; PFloat 2; PFloat 4; PObj]
  = Ok {| intensities := [0; 0]; element_contributions := [0; 0];
          peak_idx := []; peak_label := []; temp_intensity_data := [] |}.
Proof.
  apply (line_above_grid_skipped example_simulator 0 1 1 10000 1 _ 2 1e8 3 0 2 4 PObj).
  - reflexivity.
  - lra.
  - lra.
  - lra.
  - lra.
Defined.

(** A numeric row whose wavelength is at or below the first grid point is
    not skipped: it is located at bin 0 and accumulated like a line of the
    grid. Bin [j] receives the scaled profile value of grid point [j], and a
    peak is recorded at index 0. *)
Theorem line_below_grid_at_first_bin (self : t) (lo hi : R) (atom_percentage temp Z : R)
    (a : acc) (wl Aki Ek Ei gi gk : R) (last : pyval) :
  self.(wavelengths) = linspace lo hi self.(resolution) →
  lo <= hi → 0 < temp → Z ≠ 0 → self.(sigma) ≠ 0 →
  wl <= lo → (0 < self.(resolution))%nat →
  let scale := gk * Aki * exp (- Ek / (k_B * temp)) / Z * atom_percentage in
  let profile := map (fun x => scale * gaussian_at self.(sigma) wl x) self.(wavelengths) in
  ∃ a', add_line self atom_percentage temp Z a
          [PFloat wl; PFloat Aki; PFloat Ek; PFloat Ei; PFloat gi; PFloat gk; last]
        = Ok a'
      ∧ a'.(peak_idx) = a.(peak_idx) ++ [0%nat]
      ∧ a'.(intensities) = slice_add a.(intensities) 0 profile
      ∧ a'.(element_contributions) = slice_add a.(element_contributions) 0 profile.
Proof.
  intros Hgrid Hle HT HZ Hsig Hwl Hres scale profile.
  assert (Hlen : length (wavelengths self) = resolution self)
    by (rewrite Hgrid; apply length_linspace).
  assert (Hidx : searchsorted (wavelengths self) wl = 0%nat).
  { apply searchsorted_unique.
    - rewrite Hgrid. apply linspace_ascending. exact Hle.
    - lia.
    - intros i Hi. lia.
    - intros i _ Hi. rewrite Hgrid. rewrite Hlen in Hi.
      pose proof (linspace_bounds lo hi (resolution self) i Hle Hi). lra. }
  rewrite (add_line_numeric self atom_percentage temp Z _ a wl Aki Ek Ei gi gk last
             (calculate_intensity_ok temp Ek gk Aki Z HT HZ) Hsig)
    by (rewrite Hidx; exact Hres).
  cbv zeta. rewrite Hidx. rewrite !length_map, Hlen.
  rewrite Nat.sub_0_l, Nat.max_0_l, Nat.add_0_l, Nat.min_id.
  apply Nat.ltb_lt in Hres. rewrite Hres.
  eexists. split; [reflexivity|].
  cbn [peak_idx intensities element_contributions]. split; [reflexivity|].
  rewrite Nat.sub_0_r, firstn_all2 by (rewrite !length_map, Hlen; lia).
  rewrite map_map. split; reflexivity.
Qed.

Lemma line_below_grid_at_first_bin_witness :
  let a := {| intensities := [0; 0]; element_contributions := [0; 0];
              peak_idx := []; peak_label := []; temp_intensity_data := [] |} in
  let scale := 4 * 1e8 * exp (- 3 / (k_B * 10000)) / 1 * 1 in
  let profile := map (fun x => scale * gaussian_at example_simulator.(sigma) (-1) x)
                     example_simulator.(wavelengths) in
  ∃ a', add_line example_simulator 1 10000 1 a
          [PFloat (-1); PFloat 1e8; PFloat 3; PFloat 0; PFloat 2; PFloat 4; PObj]
        = Ok a'
      ∧ a'.(peak_idx) = a.(peak_idx) ++ [0%nat]
      ∧ a'.(intensities) = slice_add a.(intensities) 0 profile
      ∧ a'.(element_contributions) = slice_add a.(element_contributions) 0 profile.
Proof.
  apply (line_below_grid_at_first_bin example_simulator 0 1 1 10000 1 _ (-1) 1e8 3 0 2 4 PObj).
  - reflexivity.
  - lra.
  - lra.
  - lra.
  - cbn. lra.
  - lra.
  - cbn. lia.
Defined.

End OutsideGrid.

Section LineWindow.
Import SpectrumSimulator.

(** Where a line of the grid is accumulated. For a numeric row located at
    bin [idx] of the grid, the window starts at
    [start_idx = max(0, idx - resolution // 2)]: bins below [start_idx] are
    left alone, and bin [j >= start_idx] is increased by the scaled profile
    value of grid point [j - start_idx], the profile being taken from its
    first entry. The line is recorded as a peak at [idx]. *)
Theorem line_window_start (self : t) (atom_percentage temp Z : R) (a : acc)
    (wl Aki Ek Ei gi gk : R) (last : pyval) :
  0 < temp → Z ≠ 0 → self.(sigma) ≠ 0 →
  length self.(wavelengths) = self.(resolution) →
  length a.(intensities) = self.(resolution) →
  (searchsorted self.(wavelengths) wl < self.(resolution))%nat →
  let idx := searchsorted self.(wavelengths) wl in
  let start_idx := (idx - self.(resolution) / 2)%nat in
  let scale := gk * Aki * exp (- Ek / (k_B * temp)) / Z * atom_percentage in
  ∃ a', add_line self atom_percentage temp Z a
          [PFloat wl; PFloat Aki; PFloat Ek; PFloat Ei; PFloat gi; PFloat gk; last]
        = Ok a'
      ∧ a'.(peak_idx) = a.(peak_idx) ++ [idx]
      ∧ length a'.(intensities) = self.(resolution)
      ∧ ∀ j : nat, (j < self.(resolution))%nat →
          nth j a'.(intensities) 0
          = nth j a.(intensities) 0
            + (if (start_idx <=? j)%nat
               then scale * gaussian_at self.(sigma) wl
                              (nth (j - start_idx) self.(wavelengths) 0)
               else 0).
Proof.
  intros HT HZ Hsig Hlen Ha Hidx idx start_idx scale.
  rewrite (add_line_numeric self atom_percentage temp Z _ a wl Aki Ek Ei gi gk last
             (calculate_intensity_ok temp Ek gk Aki Z HT HZ) Hsig Hidx).
  cbv zeta. fold idx. rewrite !length_map, Hlen, Nat.max_0_l. fold start_idx.
  assert (Hend : Nat.min (resolution self) (start_idx + resolution self) = resolution self)
    by lia.
  rewrite Hend.
  assert (Hstart : (start_idx <? resolution self)%nat = true)
    by (apply Nat.ltb_lt; unfold start_idx; fold idx in Hidx; lia).
  rewrite Hstart.
  eexists. split; [reflexivity|]. cbn [peak_idx intensities].
  split; [reflexivity|]. split; [rewrite length_slice_add; exact Ha|].
  intros j Hj. destruct (start_idx <=? j)%nat eqn:Hsj.
  - apply Nat.leb_le in Hsj.
    rewrite nth_slice_add_inside;
      [| exact Hsj
       | rewrite length_firstn, !length_map, Hlen; lia
       | rewrite Ha; exact Hj].
    f_equal. rewrite nth_firstn.
    assert (Hjs : (j - start_idx <? resolution self - start_idx)%nat = true)
      by (apply Nat.ltb_lt; lia).
    rewrite Hjs. rewrite map_map.
    rewrite (nth_indep _ 0 ((fun x => gk * Aki * exp (- Ek / (k_B * temp)) / Z
                                      * atom_percentage * gaussian_at (sigma self) wl x) 0))
      by (rewrite length_map, Hlen; lia).
    rewrite (map_nth (fun x => gk * Aki * exp (- Ek / (k_B * temp)) / Z
                               * atom_percentage * gaussian_at (sigma self) wl x)).
    reflexivity.
  - apply Nat.leb_gt in Hsj.
    rewrite nth_slice_add_before by exact Hsj. lra.
Qed.

Lemma line_window_start_witness :
  let a := {| intensities := [0; 0]; element_contributions := [0; 0];
              peak_idx := []; peak_label := []; temp_intensity_data := [] |} in
  let idx := searchsorted example_simulator.(wavelengths) 0.5 in
  let start_idx := (idx - example_simulator.(resolution) / 2)%nat in
  let scale := 4 * 1e8 * exp (- 3 / (k_B * 10000)) / 1 * 1 in
  ∃ a', add_line example_simulator 1 10000 1 a
          [PFloat 0.5; PFloat 1e8; PFloat 3; PFloat 0; PFloat 2; PFloat 4; PObj]
        = Ok a'
      ∧ a'.(peak_idx) = a.(peak_idx) ++ [idx]
      ∧ length a'.(intensities) = example_simulator.(resolution)
      ∧ ∀ j : nat, (j < example_simulator.(resolution))%nat →
          nth j a'.(intensities) 0
          = nth j a.(intensities) 0
            + (if (start_idx <=? j)%nat
               then scale * gaussian_at example_simulator.(sigma) 0.5
                              (nth (j - start_idx) example_simulator.(wavelengths) 0)
               else 0).
Proof.
  apply (line_window_start example_simulator 1 10000 1 _ 0.5 1e8 3 0 2 4 PObj).
  - lra.
  - lra.
  - cbn. lra.
  - reflexivity.
  - reflexivity.
  - change (searchsorted (linspace 0 1 2) 0.5 < 2)%nat. rewrite example_searchsorted. lia.
Defined.

End LineWindow.

(** * Further properties of the mixture *)

(** ** Ionisation balance *)

(** For a positive temperature and a positive electron density the Saha
    ratio is defined and positive, it is inversely proportional to the
    electron density, and the neutral and ionised fractions that
    [generate_sample] derives from it lie strictly between 0 and 1 and add
    up to 1. *)
Theorem saha_fractions (ion_energy temp electron_density : R) :
  0 < temp → 0 < electron_density →
  ∃ S, MixedSpectrumSimulator._saha_ratio ion_energy temp electron_density = Ok S
     ∧ 0 < S
     ∧ (∀ c, 0 < c →
          MixedSpectrumSimulator._saha_ratio ion_energy temp (c * electron_density)
          = Ok (S / c))
     ∧ fdiv 1 (1 + S) = Ok (1 / (1 + S))
     ∧ fdiv S (1 + S) = Ok (S / (1 + S))
     ∧ 0 < 1 / (1 + S) < 1
     ∧ 0 < S / (1 + S) < 1
     ∧ 1 / (1 + S) + S / (1 + S) = 1.
Proof.
  intros HT Hne.
  destruct (saha_ratio_pos ion_energy temp electron_density HT Hne) as (S & HS & HSpos).
  exists S. split; [exact HS|]. split; [exact HSpos|].
  split.
  { intros c Hc. revert HS.
    unfold MixedSpectrumSimulator._saha_ratio.
    destruct (MixedSpectrumSimulator.pow_3_2 _) as [p|e]; [|discriminate].
    cbn [mbind result_bind]. cbv zeta.
    assert (Hne0 : electron_density ≠ 0) by lra.
    assert (Hcne : c * electron_density ≠ 0) by nra.
    rewrite (fdiv_ok _ _ Hne0), (fdiv_ok _ _ Hcne). cbn [mbind result_bind].
    rewrite (fdiv_ok _ _ (kT_nonzero temp HT)). cbn [mbind result_bind].
    intros [= <-]. f_equal. field. split; lra. }
  assert (Hden : 1 + S ≠ 0) by lra.
  split; [apply fdiv_ok; exact Hden|]. split; [apply fdiv_ok; exact Hden|].
  assert (Hinv : 0 < / (1 + S)) by (apply Rinv_0_lt_compat; lra).
  assert (Hone : (1 + S) * / (1 + S) = 1) by (apply Rinv_r; exact Hden).
  unfold Rdiv. repeat split; nra.
Qed.

Lemma saha_fractions_witness :
  ∃ S, MixedSpectrumSimulator._saha_ratio 8.15 10000 1e16 = Ok S
     ∧ 0 < S
     ∧ (∀ c, 0 < c →
          MixedSpectrumSimulator._saha_ratio 8.15 10000 (c * 1e16) = Ok (S / c))
     ∧ fdiv 1 (1 + S) = Ok (1 / (1 + S))
     ∧ fdiv S (1 + S) = Ok (S / (1 + S))
     ∧ 0 < 1 / (1 + S) < 1
     ∧ 0 < S / (1 + S) < 1
     ∧ 1 / (1 + S) + S / (1 + S) = 1.
Proof. apply (saha_fractions 8.15 10000 1e16); lra. Defined.

(** ** Samples that are not generated *)

Section NoSample.
Import MixedSpectrumSimulator.
Variable rs : RandomState.
Hypothesis rs_ok : RandomStateSpec rs.

Lemma composition_loop_skipped (ie : list (string * R)) (temp n_e : R)
    (elems : list string) (st : list (string * R) * R) (g : rs.(rng)) :
  (∀ e, In e elems → Dict.get_default ie (e +:+ " I")%string 0.0 = 0.0) →
  foldlM (add_element_pair rs.(uniform) ie temp n_e) st
    (map (fun elem => (elem, species_label elem 1, species_label elem 2)) elems) g
  = Ok (st, g).
Proof.
  induction elems as [|e elems IH]; intros Hie; [reflexivity|].
  cbn [map foldlM]. unfold mbind at 1, rand_bind at 1.
  rewrite add_element_pair_skip by (apply Hie; left; reflexivity).
  apply IH. intros e' He'. apply Hie. right. exact He'.
Qed.

Lemma composition_loop_defined (ie : list (string * R)) (temp n_e : R)
    (pairs : list (string * string * string)) :
  0 < temp → 0 < n_e →
  ∀ (st : list (string * R) * R) (g : rs.(rng)),
    ∃ st' g', foldlM (add_element_pair rs.(uniform) ie temp n_e) st pairs g = Ok (st', g').
Proof.
  intros HT Hne. induction pairs as [|[[base neutral] ion] pairs IH]; intros [d total] g.
  - eexists. eexists. reflexivity.
  - cbn [foldlM]. unfold mbind at 1, rand_bind at 1.
    destruct (decide (Dict.get_default ie (base +:+ " I")%string 0.0 = 0.0)) as [Hz|Hnz].
    + rewrite add_element_pair_skip by exact Hz. apply IH.
    + destruct (saha_ratio_pos (Dict.get_default ie (base +:+ " I")%string 0.0) temp n_e
                  HT Hne) as (S & HS & HSpos).
      rewrite (add_element_pair_step _ ie temp n_e S d total base neutral ion g Hnz HS HSpos).
      apply IH.
Qed.

(** When no base element has an ionization energy (the entry [X I] is
    missing or 0.0), [generate_sample] returns [None]: nothing is simulated
    and nothing raises, whatever the temperature and the density are. *)
Theorem generate_sample_without_energies (self : t)
    (ionization_energies : list (string * R)) (g : rs.(rng)) :
  (∀ e, In e BASE_ELEMENTS →
        Dict.get_default ionization_energies (e +:+ " I")%string 0.0 = 0.0) →
  ∃ g', generate_sample rs.(uniform) (rs.(choice) string) self ionization_energies g
        = Ok (None, g').
Proof.
  intros Hie.
  destruct (choice_ok rs rs_ok string BASE_ELEMENTS 7 false g
              ltac:(right; discriminate) ltac:(intros _; simpl; lia))
    as (sel & g1 & Hsel & _ & Hsub & _).
  exists g1. unfold generate_sample.
  unfold mbind at 1, rand_bind at 1. rewrite Hsel. cbv zeta.
  unfold mbind at 1, rand_bind at 1.
  rewrite composition_loop_skipped by (intros e He; apply Hie, Hsub, He).
  destruct (decide (0.0 = 0)) as [_|Hne]; [reflexivity | exfalso; apply Hne; lra].
Qed.

(** Without simulators, at a positive temperature and a positive electron
    density, [generate_sample] returns [None]: the composition is drawn, no
    simulator matches it, and nothing raises. *)
Theorem generate_sample_without_simulators (self : t)
    (ionization_energies : list (string * R)) (g : rs.(rng)) :
  self.(simulators) = [] → 0 < self.(current_T) → 0 < self.(current_n_e) →
  ∃ g', generate_sample rs.(uniform) (rs.(choice) string) self ionization_energies g
        = Ok (None, g').
Proof.
  intros Hsims HT Hne.
  destruct (choice_ok rs rs_ok string BASE_ELEMENTS 7 false g
              ltac:(right; discriminate) ltac:(intros _; simpl; lia))
    as (sel & g1 & Hsel & _ & _ & _).
  unfold generate_sample.
  unfold mbind at 1, rand_bind at 1. rewrite Hsel. cbv zeta.
  destruct (composition_loop_defined ionization_energies (current_T self) (current_n_e self)
              (map (fun elem => (elem, species_label elem 1, species_label elem 2)) sel)
              HT Hne ([], 0.0) g1) as ([d total] & g2 & Hfold).
  exists g2. unfold mbind at 1, rand_bind at 1. rewrite Hfold.
  destruct (decide (total = 0)); [reflexivity|].
  rewrite Hsims. reflexivity.
Qed.

End NoSample.

Lemma generate_sample_without_energies_witness :
  ∃ g', MixedSpectrumSimulator.generate_sample first_draws.(uniform)
          (first_draws.(choice) string) example_mixture [] tt
        = Ok (None, g').
Proof.
  apply (generate_sample_without_energies first_draws first_draws_ok example_mixture [] tt).
  intros e _. reflexivity.
Defined.

Lemma generate_sample_without_simulators_witness :
  ∃ g', MixedSpectrumSimulator.generate_sample first_draws.(uniform)
          (first_draws.(choice) string)
          (MixedSpectrumSimulator.set_conditions
             (MixedSpectrumSimulator.init [] example_config []) 10000 1e16)
          example_ionization_energies tt
        = Ok (None, g').
Proof.
  apply (generate_sample_without_simulators first_draws first_draws_ok
           (MixedSpectrumSimulator.set_conditions
              (MixedSpectrumSimulator.init [] example_config []) 10000 1e16)
           example_ionization_energies tt).
  - reflexivity.
  - change (0 < 10000). lra.
  - change (0 < 1e16). lra.
Defined.

(** ** What a generated sample holds *)

Lemma max_or_positive (dflt : R) (values : list R) :
  0 < dflt → Forall (fun v => 0 < v) values → 0 < MixedSpectrumSimulator.max_or dflt values.
Proof.
  intros Hd Hall. destruct Hall as [|x values Hx _]; [exact Hd|].
  cbn [MixedSpectrumSimulator.max_or]. pose proof (fold_left_Rmax_ge values x). lra.
Qed.

Lemma list_index_lt {A : Type} `{EqDecision A} (x : A) (l : list A) (i : nat) :
  list_index x l = Some i → (i < length l)%nat.
Proof.
  revert i. induction l as [|y l IH]; intros i; simpl; [discriminate|].
  destruct (decide (y = x)); [intros [= <-]; lia|].
  destruct (list_index x l) as [j|]; [|discriminate].
  intros [= <-]. specialize (IH j eq_refl). lia.
Qed.

Lemma mapM_result_Forall {A B : Type} (f : A → result B) (P : B → Prop) (l : list A)
    (out : list B) :
  (∀ x y, f x = Ok y → P y) →
  mapM_result f l = Ok out → length out = length l ∧ Forall P out.
Proof.
  intros Hf. revert out. induction l as [|x l IH]; intros out; cbn [mapM_result].
  - intros [= <-]. split; [reflexivity | constructor].
  - destruct (f x) as [y|] eqn:Hy; [|discriminate]. cbn [mbind result_bind].
    destruct (mapM_result f l) as [ys|]; [|discriminate]. cbn [mbind result_bind].
    intros [= <-]. destruct (IH ys eq_refl) as [Hlen Hall].
    split; [simpl; rewrite Hlen; reflexivity|].
    constructor; [apply (Hf x y Hy) | exact Hall].
Qed.

Lemma label_at_bound (self : MixedSpectrumSimulator.t)
    (selected_simulators : list SpectrumSimulator.t) (element_contributions : list (list R))
    (normalized_spectrum : ndarray) (idx label : nat) :
  MixedSpectrumSimulator.label_at self selected_simulators element_contributions
    normalized_spectrum idx = Ok label →
  (label ≤ length REQUIRED_ELEMENTS)%nat.
Proof.
  unfold MixedSpectrumSimulator.label_at. cbv zeta.
  destruct (Rle_dec _ _); [|intros [= <-]; lia].
  destruct (nth_error selected_simulators _) as [sim|]; [|discriminate].
  destruct (list_index _ REQUIRED_ELEMENTS) as [i|] eqn:Hi; [|intros [= <-]; lia].
  apply list_index_lt in Hi.
  destruct (arr_getitem normalized_spectrum idx); [|discriminate].
  cbn [mbind result_bind]. intros [= <-]. lia.
Qed.

Lemma dict_get_app_fresh {V : Type} (d1 d2 : list (string * V)) (k : string) :
  ¬ In k (Dict.keys d1) → Dict.get (d1 ++ d2) k = Dict.get d2 k.
Proof.
  induction d1 as [|[k0 v0] d1 IH]; intros Hk; [reflexivity|]. simpl.
  destruct (decide (k0 = k)) as [->|Hne]; [exfalso; apply Hk; left; reflexivity|].
  apply IH. intros Hin. apply Hk. right. exact Hin.
Qed.

Lemma pair_keys_required (sel : list string) (k : string) :
  (∀ x, In x sel → In x BASE_ELEMENTS) → In k (flat_map pair_keys sel) →
  In k REQUIRED_ELEMENTS.
Proof.
  intros Hsel Hk. apply in_flat_map in Hk as (e & He & Hk).
  unfold REQUIRED_ELEMENTS. apply in_flat_map. exists e. split; [apply Hsel, He | exact Hk].
Qed.

(** Every bin of a normalized array is within the target. *)
Lemma normalize_intensity_bounded (intensity out : ndarray) (target_max : R) :
  0 <= target_max →
  MixedSpectrumSimulator._normalize_intensity intensity target_max = Ok out →
  Forall (fun x => Rabs x <= target_max) (arr_values out).
Proof.
  intros Ht. unfold MixedSpectrumSimulator._normalize_intensity.
  destruct (MixedSpectrumSimulator.max_abs intensity) as [m|] eqn:Hm; [|discriminate].
  cbn [mbind result_bind].
  unfold MixedSpectrumSimulator.max_abs in Hm. apply list_max_spec in Hm as [Hin Hall].
  assert (Hm0 : 0 <= m).
  { apply in_map_iff in Hin as (x & <- & _). apply Rabs_pos. }
  rewrite Forall_forall in Hall.
  destruct (decide (m = 0)) as [Hz|Hnz]; intros [= <-].
  - apply Forall_forall. intros x Hx.
    assert (Rabs x <= m)
      by (apply Hall, list_elem_of_In, in_map, list_elem_of_In; exact Hx).
    lra.
  - rewrite arr_values_map. apply Forall_forall. intros y Hy.
    apply list_elem_of_In, in_map_iff in Hy as (x & <- & Hx).
    assert (Hxm : Rabs x <= m) by (apply Hall, list_elem_of_In, in_map; exact Hx).
    assert (Hmpos : 0 < m) by lra.
    unfold Rdiv. rewrite !Rabs_mult, (Rabs_pos_eq target_max Ht).
    rewrite (Rabs_pos_eq (/ m)) by (left; apply Rinv_0_lt_compat; exact Hmpos).
    assert (Hq : Rabs x * / m <= 1).
    { apply (Rmult_le_reg_r m); [exact Hmpos|].
      rewrite Rmult_assoc, Rinv_l by lra. lra. }
    assert (0 <= Rabs x * / m)
      by (apply Rmult_le_pos; [apply Rabs_pos | left; apply Rinv_0_lt_compat; exact Hmpos]).
    nra.
Qed.

Section SampleRecord.
Import MixedSpectrumSimulator.
Variable rs : RandomState.
Hypothesis rs_ok : RandomStateSpec rs.

(** A returned sample, stage by stage. *)
Lemma generate_sample_inv (self : t) (ionization_energies : list (string * R))
    (g g' : rs.(rng)) (s : Sample) :
  generate_sample rs.(uniform) (rs.(choice) string) self ionization_energies g
  = Ok (Some s, g') →
  ∃ (scaled : list (string * R)) (delta_E : R) (selected_simulators : list SpectrumSimulator.t)
    (element_contributions : list (list R)) (convolved_spectrum : ndarray),
    (∀ k, In k (Dict.keys scaled) → In k REQUIRED_ELEMENTS ∧ is_species_key k = true)
    ∧ 0 < delta_E
    ∧ s.(s_wavelengths) = self.(wavelengths)
    ∧ s.(s_atom_percentages)
      = map (fun kv : string * R =>
               (fst kv, if is_species_key (fst kv) then snd kv * 100 else snd kv))
            (scaled ++ [("temperature"%string, self.(current_T));
                        ("electron_density"%string, self.(current_n_e));
                        ("delta_E_max"%string, delta_E)])
    ∧ _normalize_intensity convolved_spectrum SIMULATION_CONFIG.(cfg_target_max_intensity)
      = Ok s.(s_spectrum)
    ∧ mapM_result (label_at self selected_simulators element_contributions s.(s_spectrum))
                  (seq 0 self.(resolution))
      = Ok s.(s_labels).
Proof.
  intros H. unfold generate_sample in H.
  apply rand_bind_ok in H as (sel & g1 & Hsel & H).
  destruct (choice_ok rs rs_ok string BASE_ELEMENTS 7 false g
              ltac:(right; discriminate) ltac:(intros _; simpl; lia))
    as (sel' & g1' & Hsel' & _ & Hsub & Hnd).
  rewrite Hsel' in Hsel. injection Hsel as -> ->.
  specialize (Hnd eq_refl BASE_ELEMENTS_NoDup).
  cbv zeta in H.
  apply rand_bind_ok in H as ([d total] & g2 & Hfold & H).
  destruct (composition_loop_ok rs.(uniform) ionization_energies (current_T self)
              (current_n_e self) sel [] ([], 0.0) (d, total) g1 g2) as [_ Hkeys];
    [split; [simpl; lra | intros k []] | exact Hnd | exact Hsub | exact Hfold |].
  cbn [fst app] in Hkeys.
  destruct (decide (total = 0)) as [|Htot]; [discriminate|].
  set (scaled := map (fun kv : string * R => (fst kv, snd kv * (100.0 / total))) d) in H.
  assert (Hscaled_keys : ∀ k, In k (Dict.keys scaled) →
                              In k REQUIRED_ELEMENTS ∧ is_species_key k = true).
  { intros k Hk. unfold scaled, Dict.keys in Hk. rewrite map_map in Hk. cbn [fst] in Hk.
    apply Hkeys in Hk. split.
    - apply (pair_keys_required sel k Hsub Hk).
    - apply (species_keys_not_meta sel k Hsub Hk). }
  rewrite (dict_set_fresh scaled "temperature") in H
    by (intros Hin; apply Hscaled_keys in Hin as [_ Hin]; discriminate).
  rewrite (dict_set_fresh _ "electron_density") in H.
  2:{ unfold Dict.keys. rewrite map_app, in_app_iff. intros [Hin|[Heq|[]]].
      - apply Hscaled_keys in Hin as [_ Hin]. discriminate.
      - discriminate. }
  rewrite (dict_set_fresh _ "delta_E_max") in H.
  2:{ unfold Dict.keys. rewrite !map_app, !in_app_iff. intros [[Hin|[Heq|[]]]|[Heq|[]]].
      - apply Hscaled_keys in Hin as [_ Hin]. discriminate.
      - discriminate.
      - discriminate. }
  match type of H with
  | context [max_or 4.0 ?values] =>
      set (delta_E := max_or 4.0 values) in H;
      assert (HdE : 0 < delta_E)
  end.
  { apply max_or_positive; [lra|]. apply Forall_forall. intros v Hv.
    apply list_elem_of_In, in_flat_map in Hv as ([[base neutral] ion] & _ & Hv).
    apply filter_In in Hv as [_ Hv]. apply bool_decide_eq_true in Hv. lra. }
  clearbody delta_E.
  match type of H with
  | context [List.filter (fun sim => bool_decide (_ ∈ ?keys)) ?sims] =>
      set (selected := List.filter (fun sim => bool_decide (species_label
                 (SpectrumSimulator.element sim) (SpectrumSimulator.ion sim) ∈ keys)) sims)
        in H
  end.
  destruct selected as [|sim0 sims0] eqn:Hselected; [discriminate|].
  apply rand_bind_ok in H as ([mixed contribs] & g3 & _ & H).
  apply rand_bind_ok in H as (peak & g4 & _ & H).
  destruct (decide (peak = 0)); [discriminate|].
  apply rand_bind_ok in H as (convolved & g5 & Hconv & H).
  apply rand_bind_ok in H as (normalized & g6 & Hnorm & H).
  apply lift_ok in Hnorm as [Hnorm _].
  apply rand_bind_ok in H as (labels & g7 & Hlabels & H).
  apply lift_ok in Hlabels as [Hlabels _].
  injection H as <- _.
  exists scaled, delta_E, (sim0 :: sims0), contribs, convolved.
  cbn [s_wavelengths s_atom_percentages s_spectrum s_labels].
  repeat split; try assumption.
  - apply Hscaled_keys. assumption.
  - apply Hscaled_keys. assumption.
  - rewrite <- !app_assoc. reflexivity.
Qed.

End SampleRecord.

Section SampleFacts.
Import MixedSpectrumSimulator.

(** A returned sample carries the simulator's grid, one label per grid bin,
    each 0 (background) or the 1-based position of a species in
    [REQUIRED_ELEMENTS]; its composition mapping stores the temperature and
    the electron density as they were set, a positive [delta_E_max], and
    species entries only under keys of [REQUIRED_ELEMENTS]. In particular
    the key [delta_E_max] that the driver reads is always there. *)
Theorem generate_sample_record (rs : RandomState) (self : t)
    (ionization_energies : list (string * R)) (g g' : rs.(rng)) (s : Sample) :
  RandomStateSpec rs →
  generate_sample rs.(uniform) (rs.(choice) string) self ionization_energies g
  = Ok (Some s, g') →
  s.(s_wavelengths) = self.(wavelengths)
  ∧ length s.(s_labels) = self.(resolution)
  ∧ Forall (fun label => (label ≤ length REQUIRED_ELEMENTS)%nat) s.(s_labels)
  ∧ Dict.get s.(s_atom_percentages) "temperature"%string = Some self.(current_T)
  ∧ Dict.get s.(s_atom_percentages) "electron_density"%string = Some self.(current_n_e)
  ∧ (∃ delta_E, Dict.get s.(s_atom_percentages) "delta_E_max"%string = Some delta_E
                ∧ 0 < delta_E)
  ∧ ∀ k, In k (Dict.keys s.(s_atom_percentages)) → is_species_key k = true →
         In k REQUIRED_ELEMENTS.
Proof.
  intros Hrs H.
  destruct (generate_sample_inv rs Hrs self ionization_energies g g' s H)
    as (scaled & delta_E & sims & contribs & conv & Hkeys & HdE & Hwl & Hap & _ & Hlabels).
  destruct (mapM_result_Forall _ (fun label => (label ≤ length REQUIRED_ELEMENTS)%nat)
              _ _ (label_at_bound self sims contribs (s_spectrum s)) Hlabels)
    as [Hlen Hbound].
  rewrite length_seq in Hlen.
  split; [exact Hwl|]. split; [exact Hlen|]. split; [exact Hbound|].
  assert (Hfresh : ∀ k, is_species_key k = false →
            ¬ In k (Dict.keys (map (fun kv : string * R =>
                                      (fst kv, if is_species_key (fst kv)
                                               then snd kv * 100 else snd kv)) scaled))).
  { intros k Hk Hin. unfold Dict.keys in Hin. rewrite map_map in Hin. cbn [fst] in Hin.
    apply Hkeys in Hin as [_ Hin]. congruence. }
  rewrite Hap, map_app.
  split; [rewrite dict_get_app_fresh by (apply Hfresh; reflexivity); reflexivity|].
  split; [rewrite dict_get_app_fresh by (apply Hfresh; reflexivity); reflexivity|].
  split.
  { exists delta_E. split; [|exact HdE].
    rewrite dict_get_app_fresh by (apply Hfresh; reflexivity). reflexivity. }
  intros k Hk Hspecies. unfold Dict.keys in Hk. rewrite map_app, in_app_iff in Hk.
  destruct Hk as [Hk|Hk].
  - rewrite map_map in Hk. cbn [fst] in Hk. apply Hkeys in Hk as [Hk _]. exact Hk.
  - cbn in Hk. destruct Hk as [<-|[<-|[<-|[]]]]; discriminate Hspecies.
Qed.

Lemma generate_sample_record_witness :
  ∃ s : Sample,
    generate_sample first_draws.(uniform) (first_draws.(choice) string)
      example_mixture example_ionization_energies tt = Ok (Some s, tt)
    ∧ s.(s_wavelengths) = example_mixture.(wavelengths)
    ∧ length s.(s_labels) = example_mixture.(resolution)
    ∧ Forall (fun label => (label ≤ length REQUIRED_ELEMENTS)%nat) s.(s_labels)
    ∧ Dict.get s.(s_atom_percentages) "temperature"%string
      = Some example_mixture.(current_T)
    ∧ Dict.get s.(s_atom_percentages) "electron_density"%string
      = Some example_mixture.(current_n_e)
    ∧ (∃ delta_E, Dict.get s.(s_atom_percentages) "delta_E_max"%string = Some delta_E
                  ∧ 0 < delta_E)
    ∧ ∀ k, In k (Dict.keys s.(s_atom_percentages)) → is_species_key k = true →
           In k REQUIRED_ELEMENTS.
Proof.
  destruct example_sample as (s & _ & Hs & _). exists s. split; [exact Hs|].
  exact (generate_sample_record first_draws example_mixture example_ionization_energies
           tt tt s first_draws_ok Hs).
Defined.

(** Every bin of the spectrum of a returned sample is within the configured
    target peak intensity, 0.8, in absolute value. *)
Theorem generate_sample_spectrum_bounded (rs : RandomState) (self : t)
    (ionization_energies : list (string * R)) (g g' : rs.(rng)) (s : Sample) :
  RandomStateSpec rs →
  generate_sample rs.(uniform) (rs.(choice) string) self ionization_energies g
  = Ok (Some s, g') →
  Forall (fun x => Rabs x <= 0.8) (arr_values s.(s_spectrum)).
Proof.
  intros Hrs H.
  destruct (generate_sample_inv rs Hrs self ionization_energies g g' s H)
    as (_ & _ & _ & _ & conv & _ & _ & _ & _ & Hnorm & _).
  apply (normalize_intensity_bounded conv (s_spectrum s) 0.8); [lra | exact Hnorm].
Qed.

Lemma generate_sample_spectrum_bounded_witness :
  ∃ s : Sample,
    generate_sample first_draws.(uniform) (first_draws.(choice) string)
      example_mixture example_ionization_energies tt = Ok (Some s, tt)
    ∧ Forall (fun x => Rabs x <= 0.8) (arr_values s.(s_spectrum)).
Proof.
  destruct example_sample as (s & _ & Hs & _). exists s. split; [exact Hs|].
  exact (generate_sample_spectrum_bounded first_draws example_mixture
           example_ionization_energies tt tt s first_draws_ok Hs).
Defined.

End SampleFacts.

(** ** The instrument convolution never raises the peak *)

Lemma dot_bound (kernel xs : list R) (M : R) :
  Forall (fun k => 0 < k) kernel → Forall (fun x => Rabs x <= M) xs → 0 <= M →
  Rabs (dot kernel xs) <= Rsum kernel * M.
Proof.
  intros Hk. revert xs. induction Hk as [|k kernel Hkpos _ IH]; intros xs Hxs HM.
  - simpl. rewrite Rabs_R0. lra.
  - assert (Hrest : 0 <= Rsum kernel * M).
    { specialize (IH [] (Forall_nil_2 _) HM). pose proof (Rabs_pos (dot kernel [])). lra. }
    destruct Hxs as [|x xs Hx Hxs]; cbn [dot Rsum fold_right].
    + rewrite Rabs_R0. fold (Rsum kernel). nra.
    + specialize (IH xs Hxs HM). fold (Rsum kernel).
      pose proof (Rabs_triang (k * x) (dot kernel xs)) as Htri.
      rewrite Rabs_mult, (Rabs_pos_eq k) in Htri by lra.
      assert (k * Rabs x <= k * M) by (apply Rmult_le_compat_l; lra).
      lra.
Qed.

Lemma dot_nonneg (kernel xs : list R) :
  Forall (fun k => 0 < k) kernel → Forall (fun x => 0 <= x) xs → 0 <= dot kernel xs.
Proof.
  intros Hk. revert xs. induction Hk as [|k kernel Hkpos _ IH]; intros xs Hxs; [simpl; lra|].
  destruct Hxs as [|x xs Hx Hxs]; cbn [dot]; [lra|].
  specialize (IH xs Hxs). nra.
Qed.

Lemma zero_padded_Forall (P : R → Prop) (signal : list R) (p : nat) :
  P 0 → Forall P signal → Forall P (zero_padded signal p).
Proof.
  intros H0 Hs. unfold zero_padded.
  assert (Hrep : Forall P (repeat 0 p)).
  { apply Forall_forall. intros x Hx. apply list_elem_of_In, repeat_spec in Hx.
    subst x. exact H0. }
  apply Forall_app. split; [exact Hrep|]. apply Forall_app. split; assumption.
Qed.

(** On a grid with a positive step, for a non-negative [sigma_nm] and a
    spectrum of at least two bins: if every input bin is at most [M] in
    absolute value, so is every bin of the convolved spectrum, and a spectrum
    without negative bins stays without negative bins. *)
Theorem convolve_spectrum_bounded (self : MixedSpectrumSimulator.t) (spectrum : list R)
    (sigma_nm step M : R) :
  MixedSpectrumSimulator.wavelength_step self.(MixedSpectrumSimulator.wavelengths) = Ok step →
  0 < step → 0 <= sigma_nm → (2 ≤ length spectrum)%nat →
  Forall (fun x => Rabs x <= M) spectrum →
  ∃ out, MixedSpectrumSimulator._convolve_spectrum self spectrum sigma_nm = Ok (Arr1 out)
       ∧ Forall (fun y => Rabs y <= M) out
       ∧ (Forall (fun x => 0 <= x) spectrum → Forall (fun y => 0 <= y) out).
Proof.
  intros Hstep Hpos Hsig Hlen HM.
  destruct (convolve_spectrum_result self spectrum sigma_nm step Hstep Hpos Hsig Hlen)
    as (kernel & out & _ & Hconv & _ & Hkpos & Hksum & Holen & Hnth).
  assert (HM0 : 0 <= M).
  { destruct HM as [|x spectrum' Hx _]; [simpl in Hlen; lia|].
    pose proof (Rabs_pos x). lra. }
  exists out. split; [exact Hconv|]. split.
  - apply (Forall_nth _ 0). intros i Hi.
    rewrite Hnth by (rewrite <- Holen; exact Hi).
    replace M with (Rsum kernel * M) by (rewrite Hksum; lra).
    apply dot_bound; [exact Hkpos | | exact HM0].
    apply Forall_drop, zero_padded_Forall; [rewrite Rabs_R0; exact HM0 | exact HM].
  - intros Hnn. apply (Forall_nth _ 0). intros i Hi.
    rewrite Hnth by (rewrite <- Holen; exact Hi).
    apply dot_nonneg; [exact Hkpos|].
    apply Forall_drop, zero_padded_Forall; [lra | exact Hnn].
Qed.

Lemma convolve_spectrum_bounded_witness :
  ∃ out, MixedSpectrumSimulator._convolve_spectrum
           (MixedSpectrumSimulator.init [] two_point_config []) [1; -2] 0.5 = Ok (Arr1 out)
       ∧ Forall (fun y => Rabs y <= 2) out
       ∧ (Forall (fun x => 0 <= x) [1; -2] → Forall (fun y => 0 <= y) out).
Proof.
  apply (convolve_spectrum_bounded (MixedSpectrumSimulator.init [] two_point_config [])
           [1; -2] 0.5 1 2 two_point_step).
  - lra.
  - lra.
  - simpl. lia.
  - constructor; [rewrite Rabs_pos_eq; lra|].
    constructor; [rewrite Rabs_left; lra|]. constructor.
Defined.

(** * Further properties of the dataset generator *)

(** ** The combination log *)

Section CombinationLog.
Import DatasetGenerator.

(** Save then load. Starting from a log that is absent or readable, after
    any number of writes none of which failed while writing, the log is
    still absent or readable and [_load_used_combinations] returns the hashes
    it returned before plus the hashes of the writes that met no fault. *)
Theorem combination_log_round_trip (log : json_file)
    (writes : list (Combination * io_fault)) :
  log ≠ Unreadable →
  Forall (fun w => snd w ≠ FailsWhileWriting) writes →
  save_all log writes ≠ Unreadable
  ∧ _load_used_combinations (save_all log writes)
    = list_to_set (written_hashes writes) ∪ _load_used_combinations log.
Proof.
  intros Hlog Hwrites. revert log Hlog.
  induction Hwrites as [|[c fault] writes Hfault _ IH]; intros log Hlog.
  - split; [exact Hlog|]. cbn. rewrite (left_id_L ∅ (∪)). reflexivity.
  - cbn [snd] in Hfault. unfold save_all. cbn [fold_left fst snd].
    fold (save_all (_save_combination log c fault) writes).
    assert (Hnext : _save_combination log c fault ≠ Unreadable)
      by (destruct log, fault; simpl; congruence).
    destruct (IH _ Hnext) as [Hok Hload]. split; [exact Hok|]. rewrite Hload.
    unfold written_hashes. cbn [List.filter snd].
    destruct log as [|data|], fault; try congruence;
      cbn [_save_combination map fst _load_used_combinations list_to_set];
      try reflexivity.
    + apply set_eq. intros x.
      rewrite !elem_of_union, elem_of_singleton, elem_of_empty. tauto.
    + rewrite map_app, list_to_set_app_L. cbn [map list_to_set].
      apply set_eq. intros x.
      rewrite !elem_of_union, elem_of_singleton, elem_of_empty. tauto.
Qed.

Lemma combination_log_round_trip_witness :
  let c := {| c_sample_id := "sample_1"; c_hash := "h"; c_temperature := 10000;
              c_electron_density := 1e16; c_elements := []; c_delta_E_max := 4.0 |} in
  save_all Missing [(c, FailsBeforeWrite); (c, NoFault)] ≠ Unreadable
  ∧ _load_used_combinations (save_all Missing [(c, FailsBeforeWrite); (c, NoFault)])
    = list_to_set (written_hashes [(c, FailsBeforeWrite); (c, NoFault)])
      ∪ _load_used_combinations Missing.
Proof.
  apply (combination_log_round_trip Missing).
  - discriminate.
  - repeat constructor; discriminate.
Defined.

(** One failure while writing loses the log for good: from then on, and
    from any unreadable log, every write leaves the log unreadable whatever
    the environment does, and [_load_used_combinations] returns the empty
    set, so that a later run starts without any used combination. *)
Theorem combination_log_lost (log : json_file) (c : Combination)
    (before after : list (Combination * io_fault)) :
  let log' := save_all log (before ++ (c, FailsWhileWriting) :: after) in
  log' = Unreadable
  ∧ _load_used_combinations log' = ∅
  ∧ ∀ rs st, w_log rs st = log' → w_used rs (start_run rs st) = ∅.
Proof.
  assert (Hstay : ∀ writes, save_all Unreadable writes = Unreadable).
  { induction writes as [|w writes IH]; [reflexivity|]. exact IH. }
  assert (Hlost : save_all log (before ++ (c, FailsWhileWriting) :: after) = Unreadable).
  { unfold save_all. rewrite fold_left_app. cbn [fold_left fst snd].
    match goal with
    | |- fold_left _ _ (_save_combination ?l _ _) = _ =>
        replace (_save_combination l c FailsWhileWriting) with Unreadable
          by (destruct l; reflexivity)
    end.
    apply Hstay. }
  cbv zeta. rewrite Hlost. split; [reflexivity|]. split; [reflexivity|].
  intros rs st Hst. cbn [start_run w_used]. rewrite Hst. reflexivity.
Qed.

End CombinationLog.

(** ** Runs that end with an exception *)

Section FailingRuns.
Import DatasetGenerator.
Variable rs : RandomState.
Hypothesis rs_ok : RandomStateSpec rs.
Variable fmt : Formatting.

Lemma same_but_rng_refl (st : state rs) : same_but_rng rs st st.
Proof. repeat split. Qed.

Lemma same_but_rng_trans (st1 st2 st3 : state rs) :
  same_but_rng rs st1 st2 → same_but_rng rs st2 st3 → same_but_rng rs st1 st3.
Proof.
  intros (H1 & H2 & H3 & H4 & H5 & H6 & H7) (K1 & K2 & K3 & K4 & K5 & K6 & K7).
  repeat split; congruence.
Qed.

Section NoSamples.
Variable generate : R → R → rand rs.(rng) (option MixedSpectrumSimulator.Sample).
Hypothesis generate_none : ∀ T n_e g, ∃ g', generate T n_e g = Ok (None, g').

Lemma attempt_sample_none (T n_e : R) (attempts_left : nat) :
  ∀ st, ∃ st', attempt_sample rs fmt generate attempts_left T n_e st = (Ok false, st')
             ∧ same_but_rng rs st st'.
Proof.
  induction attempts_left as [|k IH]; intros st.
  - exists st. split; [reflexivity | apply same_but_rng_refl].
  - rewrite attempt_sample_step.
    destruct (generate_none T n_e (w_rng rs st)) as [g' ->].
    destruct (IH (set_rng rs g' st)) as (st' & Hrun & Hsame).
    exists st'. split; [exact Hrun|].
    apply (same_but_rng_trans st (set_rng rs g' st) st'); [repeat split | exact Hsame].
Qed.

Lemma slots_none (num_samples : nat) (params : list (R * R)) :
  (num_samples / 5 ≠ 0)%nat →
  ∀ st, ∃ st', foldlM (process_slot rs fmt generate num_samples) tt params st = (Ok tt, st')
             ∧ same_but_rng rs st st'.
Proof.
  intros Hnum. induction params as [|[T n_e] params IH]; intros st.
  - exists st. split; [reflexivity | apply same_but_rng_refl].
  - cbn [foldlM]. unfold mbind at 1, drv_bind at 1. unfold process_slot at 1.
    unfold mbind at 1, drv_bind at 1.
    destruct (attempt_sample_none T n_e 5 st) as (st1 & -> & Hsame1).
    destruct (decide ((num_samples / 5)%nat = 0%nat)); [contradiction|].
    cbn [mret drv_ret].
    destruct (IH st1) as (st' & Hrun & Hsame). exists st'. split; [exact Hrun|].
    apply (same_but_rng_trans st st1 st'); assumption.
Qed.

(** A run whose generator never yields a sample raises the [ValueError] of
    [if not spectra_list]. *)
Lemma run_without_samples (config : Config) (delta_E_max : list (string * R))
    (now : string) (st0 : state rs) :
  config.(cfg_temperature_range) ≠ [] →
  config.(cfg_electron_density_range) ≠ [] →
  Forall (fun T => 0 <= T) config.(cfg_temperature_range) →
  (5 ≤ config.(cfg_num_samples))%nat →
  ∃ st1, run rs fmt generate config delta_E_max now st0 = (Raise ValueError, st1)
       ∧ w_accepted rs st1 = []
       ∧ w_log rs st1 = w_log rs st0
       ∧ w_dataset rs st1 = w_dataset rs st0
       ∧ w_backups rs st1 = w_backups rs st0.
Proof.
  intros Htemps Hdens Hpos Hnum.
  unfold run. unfold mbind at 1, drv_bind at 1, modify at 1.
  unfold mbind at 1, drv_bind at 1, draw at 1.
  destruct (generate_sample_params_run rs config delta_E_max (w_rng rs (start_run rs st0))
              rs_ok Htemps Hdens Hpos) as (params & g1 & -> & _).
  set (stA := set_rng rs g1 (start_run rs st0)).
  assert (Hnum5 : (cfg_num_samples config / 5 ≠ 0)%nat).
  { intros Hz. apply Nat.div_small_iff in Hz; lia. }
  destruct (slots_none (cfg_num_samples config) params Hnum5 stA)
    as (stB & Hslots & (_ & Hacc & _ & Hlog & _ & Hds & Hbk)).
  unfold mbind at 1, drv_bind at 1. rewrite Hslots.
  unfold persist. unfold mbind at 1, drv_bind at 1, get_state at 1.
  rewrite Hacc. cbn [w_accepted stA set_rng start_run raise].
  exists stB. split; [reflexivity|]. split; [exact Hacc|].
  split; [exact Hlog|]. split; [exact Hds | exact Hbk].
Qed.

End NoSamples.

(** When no base element has an ionization energy, [generate_dataset] on a
    configuration with at least one temperature (none negative), at least
    one density and at least five samples raises [ValueError] after all its
    attempts: no sample is kept, and the combination log, the dataset file
    and the backups are what they were. *)
Theorem generate_dataset_without_energies (config : Config)
    (simulators : list SpectrumSimulator.t)
    (delta_E_max ionization_energies : list (string * R)) (now : string) (st0 : state rs) :
  config.(cfg_temperature_range) ≠ [] →
  config.(cfg_electron_density_range) ≠ [] →
  Forall (fun T => 0 <= T) config.(cfg_temperature_range) →
  (5 ≤ config.(cfg_num_samples))%nat →
  (∀ e, In e BASE_ELEMENTS →
        Dict.get_default ionization_energies (e +:+ " I")%string 0.0 = 0.0) →
  ∃ st1,
    generate_dataset rs fmt config simulators delta_E_max ionization_energies now st0
    = (Raise ValueError, st1)
    ∧ w_accepted rs st1 = []
    ∧ w_log rs st1 = w_log rs st0
    ∧ w_dataset rs st1 = w_dataset rs st0
    ∧ w_backups rs st1 = w_backups rs st0.
Proof.
  intros Htemps Hdens Hpos Hnum Hie. unfold generate_dataset. cbv zeta.
  apply run_without_samples; try assumption.
  intros T n_e g.
  apply (generate_sample_without_energies rs rs_ok _ ionization_energies g Hie).
Qed.

Lemma attempt_sample_bound
    (generate : R → R → rand rs.(rng) (option MixedSpectrumSimulator.Sample))
    (attempts_left : nat) (T n_e : R) :
  ∀ (st st' : state rs) (r : result bool),
    attempt_sample rs fmt generate attempts_left T n_e st = (r, st') →
    w_dataset rs st' = w_dataset rs st
    ∧ (length (w_accepted rs st') ≤ S (length (w_accepted rs st)))%nat.
Proof.
  induction attempts_left as [|k IH]; intros st st' r Hrun.
  - cbn in Hrun. injection Hrun as <- <-. split; [reflexivity | lia].
  - rewrite attempt_sample_step in Hrun.
    destruct (generate T n_e (w_rng rs st)) as [[[sample|] g']|e].
    + cbv zeta in Hrun.
      destruct (decide (_ ∈ w_used rs st)); [apply (IH (set_rng rs g' st) st' r Hrun)|].
      destruct (Dict.get (MixedSpectrumSimulator.s_atom_percentages sample) "delta_E_max");
        injection Hrun as <- <-; cbn; rewrite length_app; simpl; split; [reflexivity | lia |
        reflexivity | lia].
    + apply (IH (set_rng rs g' st) st' r Hrun).
    + injection Hrun as <- <-. split; [reflexivity | lia].
Qed.

(** With fewer than five samples configured (and at least one), the run
    never completes: the progress test divides by [num_samples // 5], which
    is 0, so [generate_dataset] raises after the attempts of the first slot
    ([ZeroDivisionError], unless these attempts raised themselves), and the
    dataset file is what it was. *)
Theorem generate_dataset_few_samples (config : Config)
    (simulators : list SpectrumSimulator.t)
    (delta_E_max ionization_energies : list (string * R)) (now : string) (st0 : state rs) :
  config.(cfg_temperature_range) ≠ [] →
  config.(cfg_electron_density_range) ≠ [] →
  Forall (fun T => 0 <= T) config.(cfg_temperature_range) →
  (1 ≤ config.(cfg_num_samples) < 5)%nat →
  ∃ e st1,
    generate_dataset rs fmt config simulators delta_E_max ionization_energies now st0
    = (Raise e, st1)
    ∧ w_dataset rs st1 = w_dataset rs st0
    ∧ (length (w_accepted rs st1) ≤ 1)%nat
    ∧ (e = ZeroDivisionError
       ∨ ∃ T n_e st st',
           attempt_sample rs fmt
             (fun T n_e =>
                MixedSpectrumSimulator.generate_sample rs.(uniform) (rs.(choice) string)
                  (MixedSpectrumSimulator.set_conditions
                     (MixedSpectrumSimulator.init simulators config delta_E_max) T n_e)
                  ionization_energies) 5 T n_e st
           = (Raise e, st')).
Proof.
  intros Htemps Hdens Hpos Hnum. unfold generate_dataset. cbv zeta.
  match goal with
  | |- ∃ e st1, run rs fmt ?gen _ _ _ _ = _ ∧ _ => set (generate := gen)
  end.
  unfold run. unfold mbind at 1, drv_bind at 1, modify at 1.
  unfold mbind at 1, drv_bind at 1, draw at 1.
  destruct (generate_sample_params_run rs config delta_E_max (w_rng rs (start_run rs st0))
              rs_ok Htemps Hdens Hpos) as (params & g1 & -> & Hlen & _).
  set (stA := set_rng rs g1 (start_run rs st0)).
  destruct params as [|[T n_e] params]; [simpl in Hlen; lia|].
  cbn [foldlM]. unfold mbind at 1, drv_bind at 1.
  unfold mbind at 1, drv_bind at 1. unfold process_slot at 1.
  unfold mbind at 1, drv_bind at 1.
  destruct (attempt_sample rs fmt generate 5 T n_e stA) as [[b|e] st1] eqn:Hatt.
  - destruct (decide ((cfg_num_samples config / 5)%nat = 0%nat)) as [_|Hne].
    2:{ exfalso. apply Hne. apply Nat.div_small. lia. }
    cbn [raise]. exists ZeroDivisionError, st1. split; [reflexivity|].
    destruct (attempt_sample_bound generate 5 T n_e stA st1 _ Hatt) as [Hds Hacc].
    split; [exact Hds|]. split; [exact Hacc|]. left. reflexivity.
  - exists e, st1. split; [reflexivity|].
    destruct (attempt_sample_bound generate 5 T n_e stA st1 _ Hatt) as [Hds Hacc].
    split; [exact Hds|]. split; [exact Hacc|].
    right. exists T, n_e, stA, st1. exact Hatt.
Qed.

End FailingRuns.

Lemma generate_dataset_without_energies_witness :
  ∃ st1,
    DatasetGenerator.generate_dataset first_draws plain_formatting example_config
      [example_simulator] [] [] "now" (example_state [] None)
    = (Raise ValueError, st1)
    ∧ DatasetGenerator.w_accepted first_draws st1 = []
    ∧ DatasetGenerator.w_log first_draws st1
      = DatasetGenerator.w_log first_draws (example_state [] None)
    ∧ DatasetGenerator.w_dataset first_draws st1
      = DatasetGenerator.w_dataset first_draws (example_state [] None)
    ∧ DatasetGenerator.w_backups first_draws st1
      = DatasetGenerator.w_backups first_draws (example_state [] None).
Proof.
  apply (generate_dataset_without_energies first_draws first_draws_ok plain_formatting
           example_config [example_simulator] [] [] "now" (example_state [] None)).
  - discriminate.
  - discriminate.
  - cbn. constructor; [lra | constructor].
  - cbn. lia.
  - intros e _. reflexivity.
Defined.

Lemma generate_dataset_few_samples_witness :
  ∃ e st1,
    DatasetGenerator.generate_dataset first_draws plain_formatting few_samples_config
      [example_simulator] [] example_ionization_energies "now" (example_state [] None)
    = (Raise e, st1)
    ∧ DatasetGenerator.w_dataset first_draws st1
      = DatasetGenerator.w_dataset first_draws (example_state [] None)
    ∧ (length (DatasetGenerator.w_accepted first_draws st1) ≤ 1)%nat
    ∧ (e = ZeroDivisionError
       ∨ ∃ T n_e st st',
           DatasetGenerator.attempt_sample first_draws plain_formatting
             (fun T n_e =>
                MixedSpectrumSimulator.generate_sample first_draws.(uniform)
                  (first_draws.(choice) string)
                  (MixedSpectrumSimulator.set_conditions
                     (MixedSpectrumSimulator.init [example_simulator] few_samples_config [])
                     T n_e)
                  example_ionization_energies) 5 T n_e st
           = (Raise e, st')).
Proof.
  apply (generate_dataset_few_samples first_draws first_draws_ok plain_formatting
           few_samples_config [example_simulator] [] example_ionization_energies "now"
           (example_state [] None)).
  - discriminate.
  - discriminate.
  - cbn. constructor; [lra | constructor].
  - cbn. lia.
Defined.

(** ** Binary64 products *)

Section Binary64.
Local Open Scope Z_scope.

Lemma round_half_even_bound (p shift : Z) :
  0 <= p → 0 < shift →
  0 <= round_half_even p shift
  ∧ round_half_even p shift * 2 ^ shift <= p + 2 ^ (shift - 1).
Proof.
  intros Hp Hs. unfold round_half_even.
  assert (Hpow : 0 < 2 ^ shift) by (apply Z.pow_pos_nonneg; lia).
  assert (Hhalf : 2 ^ shift = 2 * 2 ^ (shift - 1)).
  { replace shift with (1 + (shift - 1)) at 1 by lia. rewrite Z.pow_add_r by lia. reflexivity. }
  pose proof (Z.div_mod p (2 ^ shift) ltac:(lia)) as Hdm.
  pose proof (Z.mod_pos_bound p (2 ^ shift) Hpow) as Hr.
  assert (Hq : 0 <= p / 2 ^ shift) by (apply Z.div_pos; lia).
  set (q := p / 2 ^ shift) in *. set (r := p mod 2 ^ shift) in *.
  destruct (2 * r <? 2 ^ shift) eqn:H1.
  - split; [exact Hq|]. nia.
  - apply Z.ltb_ge in H1.
    assert (Hup : (q + 1) * 2 ^ shift <= p + 2 ^ (shift - 1)) by nia.
    destruct (2 ^ shift <? 2 * r); [split; [lia | exact Hup]|].
    destruct (Z.even q); [split; [exact Hq | nia] | split; [lia | exact Hup]].
Qed.

(** Rounding to binary64 raises a number by at most one part in [2 ** 53]. *)
Lemma binary64_round_bound (m e : Z) :
  0 <= m →
  e <= snd (binary64_round m e)
  ∧ 0 <= fst (binary64_round m e)
  ∧ 2 ^ 53 * (fst (binary64_round m e) * 2 ^ (snd (binary64_round m e) - e))
    <= (2 ^ 53 + 1) * m.
Proof.
  intros Hm. unfold binary64_round.
  destruct (Z.log2 m - 52 <=? 0) eqn:Hs.
  - cbn [fst snd]. rewrite Z.sub_diag. split; [lia|]. split; [exact Hm|]. simpl (2 ^ 0). lia.
  - apply Z.leb_gt in Hs. cbn [fst snd].
    set (s := Z.log2 m - 52) in *.
    assert (Hmpos : 0 < m).
    { destruct (Z.eq_dec m 0) as [->|]; [simpl in s; unfold s in Hs; simpl in Hs; lia | lia]. }
    destruct (round_half_even_bound m s Hm Hs) as [H0 Hb].
    replace (e + s - e) with s by lia.
    split; [lia|]. split; [exact H0|].
    pose proof (Z.log2_spec m Hmpos) as [Hlo _].
    assert (Hpow : 2 ^ Z.log2 m = 2 ^ 53 * 2 ^ (s - 1)).
    { rewrite <- Z.pow_add_r by lia. f_equal. unfold s. lia. }
    assert (0 < 2 ^ (s - 1)) by (apply Z.pow_pos_nonneg; lia).
    nia.
Qed.

Lemma shiftl_scaled (p_m p_e k : Z) :
  0 <= p_m → 0 <= k → 0 <= p_e + k →
  0 <= Z.shiftl p_m p_e ∧ Z.shiftl p_m p_e * 2 ^ k <= p_m * 2 ^ (p_e + k).
Proof.
  intros Hp Hk Hpk. split; [apply Z.shiftl_nonneg; exact Hp|].
  destruct (Z.le_gt_cases 0 p_e) as [Hpos|Hneg].
  - rewrite Z.shiftl_mul_pow2 by exact Hpos. rewrite Z.pow_add_r by lia. lia.
  - rewrite Z.shiftl_div_pow2 by lia.
    assert (Hpow : 0 < 2 ^ (- p_e)) by (apply Z.pow_pos_nonneg; lia).
    replace k with (- p_e + (p_e + k)) at 1 by lia.
    rewrite Z.pow_add_r by lia.
    pose proof (Z.mul_div_le p_m (2 ^ (- p_e)) Hpow) as Hle.
    assert (0 <= 2 ^ (p_e + k)) by (apply Z.pow_nonneg; lia).
    nia.
Qed.

(** [int(c * n)] is at most [c * n] raised by two roundings. *)
Lemma int_of_product_bound (c_m k : Z) (n : nat) :
  0 <= c_m → 0 <= k →
  2 ^ 106 * (2 ^ k * Z.of_nat (int_of_product (c_m, - k) n))
  <= (2 ^ 53 + 1) * (2 ^ 53 + 1) * (c_m * Z.of_nat n).
Proof.
  intros Hc Hk. unfold int_of_product. cbn [fst snd].
  pose proof (binary64_round_bound (Z.of_nat n) 0 ltac:(lia)) as Hn.
  destruct (binary64_round (Z.of_nat n) 0) as [n_m n_e]. cbn [fst snd] in Hn.
  destruct Hn as (Hne & Hnm & Hnb). rewrite Z.sub_0_r in Hnb.
  pose proof (binary64_round_bound (c_m * n_m) (- k + n_e) ltac:(lia)) as Hp.
  destruct (binary64_round (c_m * n_m) (- k + n_e)) as [p_m p_e]. cbn [fst snd] in Hp.
  destruct Hp as (Hpe & Hpm & Hpb).
  destruct (shiftl_scaled p_m p_e k Hpm Hk ltac:(lia)) as [Hv0 Hv].
  rewrite Z2Nat.id by exact Hv0.
  set (v := Z.shiftl p_m p_e) in *.
  set (d := p_e - (- k + n_e)) in *.
  assert (Hd : 0 <= d) by (unfold d; lia).
  assert (Hsplit : 2 ^ (p_e + k) = 2 ^ d * 2 ^ n_e).
  { rewrite <- Z.pow_add_r by lia. f_equal. unfold d. lia. }
  rewrite Hsplit in Hv.
  assert (HP : 0 <= 2 ^ n_e) by (apply Z.pow_nonneg; lia).
  assert (HD : 0 <= 2 ^ d) by (apply Z.pow_nonneg; lia).
  set (P := 2 ^ n_e) in *. set (D := 2 ^ d) in *. set (K := 2 ^ 53) in *.
  assert (HK : 0 < K) by (unfold K; lia).
  replace (2 ^ 106) with (K * K) by (unfold K; reflexivity).
  set (N := Z.of_nat n) in *. assert (HN : 0 <= N) by (unfold N; lia).
  clearbody v P D K N. clear Hsplit d Hd Hpe Hne.
  apply Z.le_trans with (K * K * (p_m * D * P)).
  { apply Z.mul_le_mono_nonneg_l; [nia|].
    replace (2 ^ k * v) with (v * 2 ^ k) by lia.
    replace (p_m * D * P) with (p_m * (D * P)) by lia. exact Hv. }
  apply Z.le_trans with (K * P * ((K + 1) * (c_m * n_m))).
  { replace (K * K * (p_m * D * P)) with (K * P * (K * (p_m * D))) by lia.
    apply Z.mul_le_mono_nonneg_l; [nia | exact Hpb]. }
  apply Z.le_trans with ((K + 1) * c_m * (K * (n_m * P))).
  { apply Z.eq_le_incl. lia. }
  replace ((K + 1) * (K + 1) * (c_m * N)) with ((K + 1) * c_m * ((K + 1) * N)) by lia.
  apply Z.mul_le_mono_nonneg_l; [nia | exact Hnb].
Qed.

(** The train and validation sizes together never exceed the number of
    samples. *)
Lemma split_sizes_le (n : nat) :
  (int_of_product FLOAT_0_7 n + int_of_product FLOAT_0_15 n ≤ n)%nat.
Proof.
  pose proof (int_of_product_bound 6305039478318694 53 n ltac:(lia) ltac:(lia)) as Ha.
  pose proof (int_of_product_bound 5404319552844595 55 n ltac:(lia) ltac:(lia)) as Hb.
  change (6305039478318694, - (53)) with FLOAT_0_7 in Ha.
  change (5404319552844595, - (55)) with FLOAT_0_15 in Hb.
  set (a := int_of_product FLOAT_0_7 n) in *. set (b := int_of_product FLOAT_0_15 n) in *.
  clearbody a b.
  apply Nat2Z.inj_le. rewrite Nat2Z.inj_add.
  set (A := Z.of_nat a) in *. set (B := Z.of_nat b) in *. set (N := Z.of_nat n) in *.
  assert (0 <= A) by (unfold A; lia). assert (0 <= B) by (unfold B; lia).
  assert (0 <= N) by (unfold N; lia).
  clearbody A B N. lia.
Qed.

(** The sizes at 90 samples, where the product [0.7 * 90] is just below
    63. *)
Lemma split_sizes_at_90 :
  int_of_product FLOAT_0_7 90 = 62%nat ∧ int_of_product FLOAT_0_15 90 = 13%nat.
Proof. split; reflexivity. Qed.

End Binary64.

(** ** What the persistence phase writes *)

Section PersistFacts.
Import DatasetGenerator.
Variable rs : RandomState.
Hypothesis rs_ok : RandomStateSpec rs.
Variable config : Config.
Variable now : string.

(** A completed persistence phase, stage by stage. *)
Lemma persist_ok_inv (st st' : state rs) :
  persist rs config now st = (Ok tt, st') →
  ∃ first rest indices train_data val_data test_data train validation test,
    w_accepted rs st = first :: rest
    ∧ Permutation (seq 0 (length (first :: rest))) indices
    ∧ let spectra_width := length (arr_values first.(MixedSpectrumSimulator.s_spectrum)) in
      let labels_width := length first.(MixedSpectrumSimulator.s_labels) in
      let num_train := int_of_product FLOAT_0_7 (length (first :: rest)) in
      let num_val := int_of_product FLOAT_0_15 (length (first :: rest)) in
      split_of (first :: rest) (firstn num_train indices) = Ok train_data
      ∧ split_of (first :: rest) (firstn num_val (skipn num_train indices)) = Ok val_data
      ∧ split_of (first :: rest) (skipn (num_train + num_val) indices) = Ok test_data
      ∧ combine_split spectra_width labels_width (read_split (w_dataset rs st) "train")
          train_data = Ok train
      ∧ combine_split spectra_width labels_width (read_split (w_dataset rs st) "validation")
          val_data = Ok validation
      ∧ combine_split spectra_width labels_width (read_split (w_dataset rs st) "test")
          test_data = Ok test
      ∧ w_dataset rs st'
        = Some (write_dataset (w_dataset rs st) first.(MixedSpectrumSimulator.s_wavelengths)
                  train validation test now config)
      ∧ w_backups rs st'
        = w_backups rs st ++ match w_dataset rs st with Some f => [f] | None => [] end
      ∧ (∀ f w, w_dataset rs st = Some f → h5_wavelengths f = Some w →
                w = first.(MixedSpectrumSimulator.s_wavelengths)).
Proof.
  unfold persist. intros H.
  apply drv_bind_ok in H as (st_ & st1 & Hget & H).
  injection Hget as <- <-.
  destruct (w_accepted rs st) as [|first rest] eqn:Hacc; [discriminate|].
  cbv zeta in H.
  set (samples := first :: rest) in *.
  apply drv_bind_ok in H as (indices & st1 & Hperm & H).
  unfold draw in Hperm.
  pose proof (permutation_ok rs rs_ok (length samples) (w_rng rs st)) as Hp.
  destruct (permutation rs (length samples) (w_rng rs st)) as [indices' g'].
  injection Hperm as -> <-. cbn [fst] in Hp.
  apply drv_bind_ok in H as (train_data & st2 & Htrain & H).
  apply lift_result_ok in Htrain as [Htrain ->].
  apply drv_bind_ok in H as (val_data & st3 & Hval & H).
  apply lift_result_ok in Hval as [Hval ->].
  apply drv_bind_ok in H as (test_data & st4 & Htest & H).
  apply lift_result_ok in Htest as [Htest ->].
  apply drv_bind_ok in H as ([] & st5 & Hbackup & H).
  apply drv_bind_ok in H as ([] & st6 & Hcheck & H).
  apply drv_bind_ok in H as (train & st7 & Hctrain & H).
  apply lift_result_ok in Hctrain as [Hctrain ->].
  apply drv_bind_ok in H as (validation & st8 & Hcval & H).
  apply lift_result_ok in Hcval as [Hcval ->].
  apply drv_bind_ok in H as (test & st9 & Hctest & H).
  apply lift_result_ok in Hctest as [Hctest ->].
  unfold modify in H. injection H as <-.
  exists first, rest, indices, train_data, val_data, test_data, train, validation, test.
  split; [reflexivity|]. split; [exact Hp|]. cbv zeta.
  split; [exact Htrain|]. split; [exact Hval|]. split; [exact Htest|].
  split; [exact Hctrain|]. split; [exact Hcval|]. split; [exact Hctest|].
  split; [reflexivity|].
  cbn [w_dataset w_backups set_dataset].
  destruct (w_dataset rs st) as [f|] eqn:Hds.
  - unfold modify in Hbackup. injection Hbackup as <-.
    destruct (h5_wavelengths f) as [w|] eqn:Hw.
    + destruct (decide (w = MixedSpectrumSimulator.s_wavelengths first)) as [Heq|Hne];
        [|discriminate].
      injection Hcheck as <-. split; [reflexivity|].
      intros f0 w0 [= <-] Hw0. congruence.
    + injection Hcheck as <-. split; [reflexivity|].
      intros f0 w0 [= <-] Hw0. congruence.
  - injection Hbackup as <-. injection Hcheck as <-.
    split; [cbn; rewrite app_nil_r; reflexivity|]. intros f0 w0 [=].
Qed.

(** The first thing done to an existing dataset file is a copy: whenever
    the persistence phase starts with at least one sample in memory and a
    dataset file, the backups gain that file as it was, whether the phase
    then completes or raises (grid mismatch, rows of another width). *)
Theorem backup_before_write (st st' : state rs) (r : result unit) (f : H5File) :
  w_accepted rs st ≠ [] →
  w_dataset rs st = Some f →
  persist rs config now st = (r, st') →
  w_backups rs st' = w_backups rs st ++ [f]
  ∧ (∀ e, r = Raise e → w_dataset rs st' = Some f).
Proof.
  intros Hacc Hds Hrun.
  destruct (persist_outcome rs config now st st' r Hrun) as (_ & Hkeep & _).
  split; [|intros e He; rewrite (Hkeep e He); exact Hds].
  revert Hrun. unfold persist.
  unfold mbind at 1, drv_bind at 1, get_state at 1.
  destruct (w_accepted rs st) as [|first rest]; [congruence|]. cbv zeta.
  set (samples := first :: rest).
  unfold mbind at 1, drv_bind at 1, draw at 1.
  pose proof (permutation_ok rs rs_ok (length samples) (w_rng rs st)) as Hp.
  destruct (permutation rs (length samples) (w_rng rs st)) as [indices g']. cbn [fst] in Hp.
  assert (Hall : Forall (fun i => (i < length samples)%nat) indices).
  { apply Forall_forall. intros i Hi. apply list_elem_of_In in Hi.
    apply Permutation_sym in Hp. apply (Permutation_in i Hp) in Hi.
    apply in_seq in Hi. lia. }
  set (a := int_of_product FLOAT_0_7 (length samples)).
  set (b := int_of_product FLOAT_0_15 (length samples)).
  destruct (split_of_defined samples (firstn a indices)) as [train_data ->];
    [apply Forall_take; exact Hall|].
  destruct (split_of_defined samples (firstn b (skipn a indices))) as [val_data ->];
    [apply Forall_take, Forall_drop; exact Hall|].
  destruct (split_of_defined samples (skipn (a + b) indices)) as [test_data ->];
    [apply Forall_drop; exact Hall|].
  unfold mbind, drv_bind. cbn [lift_result]. rewrite Hds. cbn [modify].
  destruct (h5_wavelengths f) as [w|].
  - destruct (decide (w = MixedSpectrumSimulator.s_wavelengths first));
      [|cbn [raise]; intros [= _ <-]; reflexivity].
    cbn [mret drv_ret]. rewrite !lift_result_cases.
    destruct (combine_split _ _ _ train_data); [|intros [= _ <-]; reflexivity].
    destruct (combine_split _ _ _ val_data); [|intros [= _ <-]; reflexivity].
    destruct (combine_split _ _ _ test_data); intros [= _ <-]; reflexivity.
  - cbn [mret drv_ret]. rewrite !lift_result_cases.
    destruct (combine_split _ _ _ train_data); [|intros [= _ <-]; reflexivity].
    destruct (combine_split _ _ _ val_data); [|intros [= _ <-]; reflexivity].
    destruct (combine_split _ _ _ test_data); intros [= _ <-]; reflexivity.
Qed.

End PersistFacts.

Lemma backup_before_write_witness :
  ∃ r st',
    DatasetGenerator.persist first_draws example_config "now"
      (DatasetGenerator.append_sample first_draws example_row
         (example_state [] (Some stale_dataset)))
    = (r, st')
    ∧ DatasetGenerator.w_backups first_draws st' = [] ++ [stale_dataset]
    ∧ (∀ e, r = Raise e →
            DatasetGenerator.w_dataset first_draws st' = Some stale_dataset).
Proof.
  destruct (DatasetGenerator.persist first_draws example_config "now"
              (DatasetGenerator.append_sample first_draws example_row
                 (example_state [] (Some stale_dataset)))) as [r st'] eqn:Hrun.
  exists r, st'. split; [reflexivity|].
  apply (backup_before_write first_draws first_draws_ok example_config "now"
           (DatasetGenerator.append_sample first_draws example_row
              (example_state [] (Some stale_dataset))) st' r stale_dataset).
  - discriminate.
  - reflexivity.
  - exact Hrun.
Defined.

Section AppendFacts.
Import DatasetGenerator.
Variable rs : RandomState.
Hypothesis rs_ok : RandomStateSpec rs.
Variable config : Config.
Variable now : string.

Lemma concat_rows_app {A : Type} (width : nat) (existing new combined : list (list A)) :
  concat_rows width existing new = Ok combined → combined = existing ++ new.
Proof.
  unfold concat_rows. destruct existing as [|row existing]; [intros [= <-]; reflexivity|].
  destruct (length row =? width)%nat; [intros [= <-]; reflexivity | discriminate].
Qed.

Lemma combine_split_app (ws wl : nat) (existing new combined : split_data) :
  combine_split ws wl existing new = Ok combined → combined = split_append existing new.
Proof.
  destruct existing as [[es el] ea], new as [[ns nl] na]. unfold combine_split, split_append.
  destruct (concat_rows ws es ns) as [cs|] eqn:Hcs; [|discriminate].
  cbn [mbind result_bind].
  destruct (concat_rows wl el nl) as [cl|] eqn:Hcl; [|discriminate].
  cbn [mbind result_bind]. intros [= <-]. cbn [fst snd].
  apply concat_rows_app in Hcs, Hcl. subst cs cl.
  destruct ea; reflexivity.
Qed.

Lemma combine_split_defined (ws wl : nat) (existing new : split_data) :
  widths_fit ws wl existing → ∃ combined, combine_split ws wl existing new = Ok combined.
Proof.
  destruct existing as [[es el] ea], new as [[ns nl] na]. unfold widths_fit, combine_split.
  cbn [fst snd]. intros [Hs Hl].
  assert (Hcs : ∃ cs, concat_rows ws es ns = Ok cs).
  { unfold concat_rows. destruct es as [|row es]; [eexists; reflexivity|].
    rewrite Hs, Nat.eqb_refl. eexists; reflexivity. }
  assert (Hcl : ∃ cl, concat_rows wl el nl = Ok cl).
  { unfold concat_rows. destruct el as [|row el]; [eexists; reflexivity|].
    rewrite Hl, Nat.eqb_refl. eexists; reflexivity. }
  destruct Hcs as [cs ->], Hcl as [cl ->]. cbn [mbind result_bind]. eexists. reflexivity.
Qed.

Lemma take_rows_map {A : Type} (rows : list A) (idx : list nat) (chosen : list A) (d : A) :
  take_rows rows idx = Ok chosen → chosen = map (fun i => nth i rows d) idx.
Proof.
  unfold take_rows. revert chosen. induction idx as [|i idx IH]; intros chosen.
  - intros [= <-]. reflexivity.
  - cbn [mapM_result]. destruct (nth_error rows i) as [x|] eqn:Hx; [|discriminate].
    cbn [mbind result_bind].
    destruct (mapM_result _ idx) as [chosen'|]; [|discriminate].
    cbn [mbind result_bind]. intros [= <-]. cbn [map].
    rewrite (IH chosen' eq_refl). f_equal. symmetry. apply nth_error_nth. exact Hx.
Qed.

Lemma map_nth_all {A : Type} (l : list A) (d : A) :
  map (fun i => nth i l d) (seq 0 (length l)) = l.
Proof.
  apply (nth_ext _ _ d d); [rewrite length_map, length_seq; reflexivity|].
  intros i Hi. rewrite length_map, length_seq in Hi.
  exact (nth_map_seq (fun i => nth i l d) (length l) i d Hi).
Qed.

(** The rows of a split are the rows of the samples at its indices. *)
Lemma split_of_rows (samples : list MixedSpectrumSimulator.Sample) (idx : list nat)
    (data : split_data) (d : MixedSpectrumSimulator.Sample) :
  split_of samples idx = Ok data → data = rows_of (map (fun i => nth i samples d) idx).
Proof.
  unfold split_of. destruct (take_rows samples idx) as [chosen|] eqn:Hrows; [|discriminate].
  cbn [mbind result_bind]. intros [= <-].
  rewrite (take_rows_map samples idx chosen d Hrows). reflexivity.
Qed.

(** A completed persistence phase deals the samples in memory to the three
    splits: [int(0.7 * n)] of them to [train], [int(0.15 * n)] to
    [validation], the others to [test], and writes, for each split, the
    rows the file held followed by the rows of the samples dealt to it. *)
Lemma persist_deals (st st' : state rs) :
  persist rs config now st = (Ok tt, st') →
  ∃ first rest (train validation test : list MixedSpectrumSimulator.Sample),
    let n := length (w_accepted rs st) in
    w_accepted rs st = first :: rest
    ∧ length train = int_of_product FLOAT_0_7 n
    ∧ length validation = int_of_product FLOAT_0_15 n
    ∧ length test = (n - int_of_product FLOAT_0_7 n - int_of_product FLOAT_0_15 n)%nat
    ∧ Permutation (train ++ validation ++ test) (w_accepted rs st)
    ∧ w_dataset rs st'
      = Some (write_dataset (w_dataset rs st) first.(MixedSpectrumSimulator.s_wavelengths)
                (split_append (read_split (w_dataset rs st) "train") (rows_of train))
                (split_append (read_split (w_dataset rs st) "validation")
                   (rows_of validation))
                (split_append (read_split (w_dataset rs st) "test") (rows_of test))
                now config).
Proof.
  intros Hrun.
  destruct (persist_ok_inv rs rs_ok config now st st' Hrun)
    as (first & rest & indices & train_data & val_data & test_data & train & validation
        & test & Hacc & Hp & H).
  cbv zeta in H.
  destruct H as (Htrain & Hval & Htest & Hctrain & Hcval & Hctest & Hfile & _ & _).
  rewrite Hacc. set (samples := first :: rest) in *.
  set (n := length samples) in *.
  set (a := int_of_product FLOAT_0_7 n) in *.
  set (b := int_of_product FLOAT_0_15 n) in *.
  assert (Hlen : length indices = n).
  { rewrite <- (Permutation_length Hp). apply length_seq. }
  pose proof (split_sizes_le n) as Hab. fold a b in Hab.
  apply (split_of_rows samples _ _ first) in Htrain, Hval, Htest.
  apply combine_split_app in Hctrain, Hcval, Hctest.
  subst train_data val_data test_data train validation test.
  exists first, rest,
    (map (fun i => nth i samples first) (firstn a indices)),
    (map (fun i => nth i samples first) (firstn b (skipn a indices))),
    (map (fun i => nth i samples first) (skipn (a + b) indices)).
  cbv zeta.
  split; [reflexivity|].
  split; [rewrite length_map, length_firstn; lia|].
  split; [rewrite length_map, length_firstn, length_skipn; lia|].
  split; [rewrite length_map, length_skipn; lia|].
  split; [|exact Hfile].
  rewrite <- !map_app.
  replace (firstn a indices ++ firstn b (skipn a indices) ++ skipn (a + b) indices)
    with indices.
  2:{ rewrite <- (firstn_skipn a indices) at 1. f_equal.
      rewrite <- (firstn_skipn b (skipn a indices)) at 1. f_equal.
      rewrite skipn_skipn, (Nat.add_comm b a). reflexivity. }
  transitivity (map (fun i => nth i samples first) (seq 0 (length samples))).
  - apply Permutation_map, Permutation_sym. exact Hp.
  - rewrite map_nth_all. reflexivity.
Qed.

Lemma length_rows_of (samples : list MixedSpectrumSimulator.Sample) :
  length (fst (fst (rows_of samples))) = length samples.
Proof. unfold rows_of. cbn [fst]. apply length_map. Qed.

(** A completed append keeps what the file held and adds every sample in
    memory once. With a dataset file, a completed persistence phase deals
    the [n] samples in memory to the three splits ([int(0.7 * n)] to
    [train], [int(0.15 * n)] to [validation], the others to [test]); each
    split of the new file holds the rows the old file had in that split, in
    the same order, followed by the spectra, labels and composition records
    of the samples dealt to it; groups other than the three splits and
    attributes other than the three the run sets are kept; the stored grid
    is the grid of the first sample; and [total_samples] is the number of
    rows the three splits held plus [n]. *)
Theorem append_keeps_existing_rows (st st' : state rs) (f : H5File) :
  w_dataset rs st = Some f →
  persist rs config now st = (Ok tt, st') →
  ∃ f' first rest (train validation test : list MixedSpectrumSimulator.Sample),
    let n := length (w_accepted rs st) in
    w_dataset rs st' = Some f'
    ∧ w_accepted rs st = first :: rest
    ∧ h5_wavelengths f' = Some first.(MixedSpectrumSimulator.s_wavelengths)
    ∧ Permutation (train ++ validation ++ test) (w_accepted rs st)
    ∧ length train = int_of_product FLOAT_0_7 n
    ∧ length validation = int_of_product FLOAT_0_15 n
    ∧ h5_groups f' !! "train"%string
      = Some (group_of (split_append (read_split (Some f) "train") (rows_of train)))
    ∧ h5_groups f' !! "validation"%string
      = Some (group_of (split_append (read_split (Some f) "validation")
                          (rows_of validation)))
    ∧ h5_groups f' !! "test"%string
      = Some (group_of (split_append (read_split (Some f) "test") (rows_of test)))
    ∧ (∀ k, ¬ In k SPLITS → h5_groups f' !! k = h5_groups f !! k)
    ∧ (∀ k, ¬ In k ["lastbud"; "total_samples"; "simulation_config"]%string →
            h5_attrs f' !! k = h5_attrs f !! k)
    ∧ h5_attrs f' !! "total_samples"%string
      = Some (AttrNat (length (fst (fst (read_split (Some f) "train")))
                       + length (fst (fst (read_split (Some f) "validation")))
                       + length (fst (fst (read_split (Some f) "test")))
                       + n)).
Proof.
  intros Hds Hrun.
  destruct (persist_deals st st' Hrun)
    as (first & rest & train & validation & test & H).
  cbv zeta in H. destruct H as (Hacc & Ltrain & Lval & Ltest & Hperm & Hfile).
  rewrite Hds in Hfile.
  set (existing_train := read_split (Some f) "train") in *.
  set (existing_val := read_split (Some f) "validation") in *.
  set (existing_test := read_split (Some f) "test") in *.
  destruct (write_dataset_groups config now (Some f)
              (MixedSpectrumSimulator.s_wavelengths first)
              (split_append existing_train (rows_of train))
              (split_append existing_val (rows_of validation))
              (split_append existing_test (rows_of test)))
    as (Hgtrain & Hgval & Hgtest).
  eexists _, first, rest, train, validation, test. cbv zeta.
  split; [exact Hfile|]. split; [exact Hacc|]. split; [reflexivity|].
  split; [exact Hperm|]. split; [exact Ltrain|]. split; [exact Lval|].
  split; [exact Hgtrain|]. split; [exact Hgval|]. split; [exact Hgtest|].
  split.
  { intros k Hk. unfold write_dataset. cbn [h5_groups SPLITS foldr].
    rewrite !lookup_insert_ne by (intros <-; apply Hk; simpl; tauto).
    rewrite !lookup_delete_ne by (intros <-; apply Hk; simpl; tauto).
    reflexivity. }
  split.
  { intros k Hk. unfold write_dataset. cbn [h5_attrs].
    rewrite !lookup_insert_ne by (intros <-; apply Hk; simpl; tauto).
    reflexivity. }
  unfold write_dataset. cbn [h5_attrs].
  rewrite lookup_insert_ne by discriminate. rewrite lookup_insert_eq.
  unfold split_append. cbn [fst]. rewrite !length_app, !length_rows_of.
  pose proof (Permutation_length Hperm) as Hn. rewrite !length_app in Hn.
  do 2 f_equal. lia.
Qed.

(** A first run writes every sample exactly once. Without a dataset file, a
    completed persistence phase leaves a file whose three splits hold the
    spectra, labels and composition records of [int(0.7 * n)],
    [int(0.15 * n)] and the remaining samples, [n] being the number of
    samples in memory and the two products being binary64 products (62 and
    13 at [n = 90]); the three splits together hold the samples in memory,
    each once; and [total_samples] is [n]. *)
Theorem first_run_splits (st st' : state rs) :
  w_dataset rs st = None →
  persist rs config now st = (Ok tt, st') →
  ∃ f (train validation test : list MixedSpectrumSimulator.Sample),
    let n := length (w_accepted rs st) in
    let num_train := int_of_product FLOAT_0_7 n in
    let num_val := int_of_product FLOAT_0_15 n in
    w_dataset rs st' = Some f
    ∧ h5_groups f !! "train"%string = Some (group_of (rows_of train))
    ∧ h5_groups f !! "validation"%string = Some (group_of (rows_of validation))
    ∧ h5_groups f !! "test"%string = Some (group_of (rows_of test))
    ∧ length train = num_train
    ∧ length validation = num_val
    ∧ length test = (n - num_train - num_val)%nat
    ∧ Permutation (train ++ validation ++ test) (w_accepted rs st)
    ∧ h5_attrs f !! "total_samples"%string = Some (AttrNat n).
Proof.
  intros Hds Hrun.
  destruct (persist_deals st st' Hrun)
    as (first & rest & train & validation & test & H).
  cbv zeta in H. destruct H as (Hacc & Ltrain & Lval & Ltest & Hperm & Hfile).
  rewrite Hds in Hfile.
  change (split_append (read_split None "train") (rows_of train))
    with (rows_of train) in Hfile.
  change (split_append (read_split None "validation") (rows_of validation))
    with (rows_of validation) in Hfile.
  change (split_append (read_split None "test") (rows_of test))
    with (rows_of test) in Hfile.
  destruct (write_dataset_groups config now None
              (MixedSpectrumSimulator.s_wavelengths first)
              (rows_of train) (rows_of validation) (rows_of test))
    as (Hgtrain & Hgval & Hgtest).
  eexists _, train, validation, test. cbv zeta.
  split; [exact Hfile|]. split; [exact Hgtrain|]. split; [exact Hgval|].
  split; [exact Hgtest|]. split; [exact Ltrain|]. split; [exact Lval|].
  split; [exact Ltest|]. split; [exact Hperm|].
  unfold write_dataset. cbn [h5_attrs].
  rewrite lookup_insert_ne by discriminate. rewrite lookup_insert_eq.
  rewrite !length_rows_of.
  pose proof (Permutation_length Hperm) as Hn. rewrite !length_app in Hn.
  do 2 f_equal. lia.
Qed.

(** With a dataset file of the same grid whose splits hold rows of the
    widths of the new arrays, a persistence phase with at least one sample
    in memory completes. *)
Lemma persist_defined_append (st : state rs) (f : H5File)
    (first : MixedSpectrumSimulator.Sample) (rest : list MixedSpectrumSimulator.Sample) :
  w_accepted rs st = first :: rest → w_dataset rs st = Some f →
  h5_wavelengths f = Some first.(MixedSpectrumSimulator.s_wavelengths) →
  (∀ ds, In ds SPLITS →
     widths_fit (length (arr_values first.(MixedSpectrumSimulator.s_spectrum)))
       (length first.(MixedSpectrumSimulator.s_labels)) (read_split (Some f) ds)) →
  ∃ st', persist rs config now st = (Ok tt, st').
Proof.
  intros Hacc Hds Hw Hfit. unfold persist.
  unfold mbind at 1, drv_bind at 1, get_state at 1.
  rewrite Hacc. cbv zeta.
  set (samples := first :: rest).
  unfold mbind at 1, drv_bind at 1, draw at 1.
  pose proof (permutation_ok rs rs_ok (length samples) (w_rng rs st)) as Hp.
  destruct (permutation rs (length samples) (w_rng rs st)) as [indices g']. cbn [fst] in Hp.
  assert (Hall : Forall (fun i => (i < length samples)%nat) indices).
  { apply Forall_forall. intros i Hi. apply list_elem_of_In in Hi.
    apply Permutation_sym in Hp. apply (Permutation_in i Hp) in Hi.
    apply in_seq in Hi. lia. }
  set (a := int_of_product FLOAT_0_7 (length samples)).
  set (b := int_of_product FLOAT_0_15 (length samples)).
  destruct (split_of_defined samples (firstn a indices)) as [train_data ->];
    [apply Forall_take; exact Hall|].
  destruct (split_of_defined samples (firstn b (skipn a indices))) as [val_data ->];
    [apply Forall_take, Forall_drop; exact Hall|].
  destruct (split_of_defined samples (skipn (a + b) indices)) as [test_data ->];
    [apply Forall_drop; exact Hall|].
  unfold mbind, drv_bind. cbn [lift_result]. rewrite Hds. cbn [modify]. rewrite Hw.
  destruct (decide (MixedSpectrumSimulator.s_wavelengths first
                    = MixedSpectrumSimulator.s_wavelengths first)) as [_|Hne];
    [|contradiction].
  cbn [mret drv_ret].
  destruct (combine_split_defined _ _ _ train_data (Hfit "train"%string ltac:(simpl; tauto)))
    as [train ->].
  destruct (combine_split_defined _ _ _ val_data
              (Hfit "validation"%string ltac:(simpl; tauto))) as [validation ->].
  destruct (combine_split_defined _ _ _ test_data (Hfit "test"%string ltac:(simpl; tauto)))
    as [test ->].
  cbn [lift_result]. eexists. reflexivity.
Qed.

End AppendFacts.

(** What [filled_dataset] holds in the three splits. *)
Lemma filled_dataset_splits :
  DatasetGenerator.read_split (Some filled_dataset) "train" = earlier_rows
  ∧ DatasetGenerator.read_split (Some filled_dataset) "validation" = ([], [], [])
  ∧ DatasetGenerator.read_split (Some filled_dataset) "test" = earlier_rows.
Proof.
  unfold DatasetGenerator.read_split, filled_dataset. cbn [DatasetGenerator.h5_groups].
  split; [|split].
  - rewrite lookup_insert_eq. reflexivity.
  - rewrite !lookup_insert_ne by discriminate. rewrite lookup_empty. reflexivity.
  - rewrite lookup_insert_ne by discriminate. rewrite lookup_insert_eq. reflexivity.
Qed.

Lemma append_keeps_existing_rows_witness :
  ∃ st' f',
    DatasetGenerator.persist first_draws example_config "now"
      (example_state_holding [example_row; example_row] (Some filled_dataset))
    = (Ok tt, st')
    ∧ DatasetGenerator.w_dataset first_draws st' = Some f'
    ∧ DatasetGenerator.h5_groups f' !! "train"%string
      = Some (DatasetGenerator.group_of (split_append earlier_rows (rows_of [example_row])))
    ∧ DatasetGenerator.h5_groups f' !! "validation"%string
      = Some (DatasetGenerator.group_of (split_append ([], [], []) (rows_of [])))
    ∧ DatasetGenerator.h5_groups f' !! "test"%string
      = Some (DatasetGenerator.group_of (split_append earlier_rows (rows_of [example_row])))
    ∧ DatasetGenerator.h5_groups f' !! "notes"%string
      = DatasetGenerator.h5_groups filled_dataset !! "notes"%string
    ∧ DatasetGenerator.h5_attrs f' !! "author"%string
      = DatasetGenerator.h5_attrs filled_dataset !! "author"%string
    ∧ DatasetGenerator.h5_attrs f' !! "total_samples"%string
      = Some (DatasetGenerator.AttrNat 4).
Proof.
  destruct filled_dataset_splits as (Etrain & Eval & Etest).
  destruct (persist_defined_append first_draws first_draws_ok example_config "now"
              (example_state_holding [example_row; example_row] (Some filled_dataset))
              filled_dataset example_row [example_row] eq_refl eq_refl eq_refl)
    as [st' Hrun].
  { intros ds [<-|[<-|[<-|[]]]].
    - rewrite Etrain. split; reflexivity.
    - rewrite Eval. split; exact I.
    - rewrite Etest. split; reflexivity. }
  destruct (append_keeps_existing_rows first_draws first_draws_ok example_config "now"
              (example_state_holding [example_row; example_row] (Some filled_dataset))
              st' filled_dataset eq_refl Hrun)
    as (f' & first & rest & train & validation & test & H).
  cbv zeta in H.
  destruct H as (Hf & _ & _ & Hperm & Ltrain & Lval & Gtrain & Gval & Gtest & Hgroups
                 & Hattrs & Htotal).
  change (length train = 1%nat) in Ltrain.
  change (length validation = 0%nat) in Lval.
  change (Permutation (train ++ validation ++ test) [example_row; example_row]) in Hperm.
  destruct train as [|x [|? ?]]; try discriminate Ltrain.
  destruct validation; [|discriminate Lval].
  pose proof (Permutation_length Hperm) as Ltest. cbn in Ltest.
  destruct test as [|y [|? ?]]; try discriminate Ltest.
  assert (Hx : x = example_row).
  { assert (Hin : In x [example_row; example_row])
      by (apply (Permutation_in x Hperm); left; reflexivity).
    destruct Hin as [<-|[<-|[]]]; reflexivity. }
  assert (Hy : y = example_row).
  { assert (Hin : In y [example_row; example_row])
      by (apply (Permutation_in y Hperm); right; left; reflexivity).
    destruct Hin as [<-|[<-|[]]]; reflexivity. }
  subst x y. rewrite Etrain in Gtrain, Htotal. rewrite Eval in Gval, Htotal.
  rewrite Etest in Gtest, Htotal.
  exists st', f'. split; [exact Hrun|]. split; [exact Hf|].
  split; [exact Gtrain|]. split; [exact Gval|]. split; [exact Gtest|].
  split; [apply Hgroups; intros [H|[H|[H|[]]]]; discriminate H|].
  split; [apply Hattrs; intros [H|[H|[H|[]]]]; discriminate H|].
  exact Htotal.
Defined.

Lemma first_run_splits_witness :
  ∃ st' f (train validation test : list MixedSpectrumSimulator.Sample),
    DatasetGenerator.persist first_draws example_config "now"
      (example_state_holding (repeat example_row 90) None)
    = (Ok tt, st')
    ∧ DatasetGenerator.w_dataset first_draws st' = Some f
    ∧ DatasetGenerator.h5_groups f !! "train"%string
      = Some (DatasetGenerator.group_of (rows_of train))
    ∧ DatasetGenerator.h5_groups f !! "validation"%string
      = Some (DatasetGenerator.group_of (rows_of validation))
    ∧ DatasetGenerator.h5_groups f !! "test"%string
      = Some (DatasetGenerator.group_of (rows_of test))
    ∧ length train = 62%nat
    ∧ length validation = 13%nat
    ∧ length test = 15%nat
    ∧ Permutation (train ++ validation ++ test) (repeat example_row 90)
    ∧ DatasetGenerator.h5_attrs f !! "total_samples"%string
      = Some (DatasetGenerator.AttrNat 90).
Proof.
  destruct (persist_defined first_draws first_draws_ok example_config "now"
              (example_state_holding (repeat example_row 90) None)
              ltac:(discriminate) eq_refl) as [st' Hrun].
  destruct (first_run_splits first_draws first_draws_ok example_config "now"
              (example_state_holding (repeat example_row 90) None) st' eq_refl Hrun)
    as (f & train & validation & test & H).
  cbv zeta in H.
  destruct H as (Hf & Gtrain & Gval & Gtest & Ltrain & Lval & Ltest & Hperm & Htotal).
  exists st', f, train, validation, test.
  split; [exact Hrun|]. split; [exact Hf|]. split; [exact Gtrain|]. split; [exact Gval|].
  split; [exact Gtest|]. split; [exact Ltrain|]. split; [exact Lval|].
  split; [exact Ltest|]. split; [exact Hperm | exact Htotal].
Defined.

(** ** The LTE minimum in the scheduler *)




(** ** The scheduler without candidate densities *)

(** With an empty density range, a temperature that is due at least one
    sample makes the second draw fail: the first draw returns no density,
    and [np.random.choice] of an empty list raises. *)
Lemma schedule_temperature_no_density (rs : RandomState) (config : Config)
    (delta_E_max_dict : list (string * R)) (samples_per_temp remainder : nat)
    (tsp : list (R * list (R * R))) (i : nat) (T : R) (g : rs.(rng)) :
  RandomStateSpec rs →
  config.(cfg_electron_density_range) = [] →
  (0 < samples_per_temp + (if (i <? remainder)%nat then 1 else 0))%nat →
  DatasetGenerator.schedule_temperature rs config delta_E_max_dict samples_per_temp
    remainder tsp (i, T) g = Raise ValueError.
Proof.
  intros Hrs Hrange Hdue.
  unfold DatasetGenerator.schedule_temperature. rewrite Hrange.
  assert (Hvalid :
    match DatasetGenerator._calculate_lte_electron_density T
            (MixedSpectrumSimulator.max_or 4.0
               (List.filter (fun v => bool_decide (0 < v)) (Dict.values delta_E_max_dict)))
    with
    | Some n_e_min => Ok (List.filter (fun n_e => bool_decide (n_e_min <= n_e)) [])
    | None => Ok []
    end = Ok ([] : list R)).
  { destruct (DatasetGenerator._calculate_lte_electron_density _ _); reflexivity. }
  unfold mbind at 1, rand_bind at 1, lift at 1. rewrite Hvalid.
  cbn [length Nat.min]. destruct (decide (0%nat = 0%nat)) as [_|Hne]; [|congruence].
  destruct (choice_ok rs Hrs R [] 0%nat false g (or_introl eq_refl) (fun _ => le_n 0))
    as (l & g' & Hchoice & Hlen & _).
  destruct l as [|x l]; [|discriminate].
  unfold mbind at 1, rand_bind at 1. rewrite Hchoice.
  unfold mbind at 1, rand_bind at 1. cbn [length].
  apply Nat.ltb_lt in Hdue. rewrite Hdue.
  unfold mbind at 1, rand_bind at 1.
  rewrite (choice_empty rs Hrs R _ true g') by (apply Nat.ltb_lt in Hdue; lia).
  reflexivity.
Qed.

(** With at least one temperature, no candidate density and at least
    one sample asked for, the scheduler raises [ValueError] (from
    [np.random.choice] on an empty list), whatever the temperatures and the
    generator are. *)
Theorem generate_sample_params_without_densities (rs : RandomState) (config : Config)
    (delta_E_max_dict : list (string * R)) (g : rs.(rng)) :
  RandomStateSpec rs →
  config.(cfg_temperature_range) ≠ [] →
  config.(cfg_electron_density_range) = [] →
  (0 < config.(cfg_num_samples))%nat →
  DatasetGenerator._generate_sample_params rs config delta_E_max_dict g = Raise ValueError.
Proof.
  intros Hrs Htemps Hrange Hsamples.
  unfold DatasetGenerator._generate_sample_params.
  destruct (cfg_temperature_range config) as [|T rest] eqn:Hrange_T; [congruence|].
  set (m := length (T :: rest)).
  assert (Hm : m = S (length rest)) by reflexivity.
  destruct (decide (m = 0%nat)) as [H0|_]; [lia|].
  rewrite Hm at 3. cbn [seq combine foldlM].
  unfold mbind at 1, rand_bind at 1. unfold mbind at 1, rand_bind at 1.
  rewrite (schedule_temperature_no_density rs config delta_E_max_dict _ _ _ 0%nat T g
             Hrs Hrange); [reflexivity|].
  destruct (0 <? cfg_num_samples config mod m)%nat eqn:Hrem; [lia|].
  apply Nat.ltb_ge in Hrem.
  pose proof (Nat.div_mod_eq (cfg_num_samples config) m) as Hdiv.
  assert (Hq : (cfg_num_samples config / m ≠ 0)%nat) by (intros Hq; rewrite Hq in Hdiv; lia).
  lia.
Qed.

Lemma generate_sample_params_without_densities_witness :
  DatasetGenerator._generate_sample_params first_draws no_density_config [] tt
  = Raise ValueError.
Proof.
  apply (generate_sample_params_without_densities first_draws no_density_config [] tt
           first_draws_ok).
  - discriminate.
  - reflexivity.
  - simpl. lia.
Defined.

(** ** The scheduler on a negative temperature *)

Lemma foldlM_rand_app {G S A : Type} (f : S → A → rand G S) (l1 l2 : list A) (s : S) (g : G) :
  foldlM f s (l1 ++ l2) g
  = match foldlM f s l1 g with
    | Ok (s', g') => foldlM f s' l2 g'
    | Raise e => Raise e
    end.
Proof.
  revert s g. induction l1 as [|x l1 IH]; intros s g; [reflexivity|].
  cbn [app foldlM]. unfold mbind, rand_bind.
  destruct (f s x g) as [[s' g']|e]; [apply IH | reflexivity].
Qed.

Lemma combine_seq_app {A : Type} (l1 l2 : list A) (a : nat) :
  combine (seq a (length (l1 ++ l2))) (l1 ++ l2)
  = combine (seq a (length l1)) l1 ++ combine (seq (a + length l1) (length l2)) l2.
Proof.
  revert a. induction l1 as [|x l1 IH]; intros a.
  - simpl. rewrite Nat.add_0_r. reflexivity.
  - cbn [app length seq combine]. rewrite IH.
    replace (a + S (length l1))%nat with (S a + length l1)%nat by lia. reflexivity.
Qed.

(** The first negative value of a list that has one. *)
Lemma first_negative (l : list R) :
  Exists (fun T => T < 0) l →
  ∃ pre T post, l = pre ++ T :: post ∧ Forall (fun T => 0 <= T) pre ∧ T < 0.
Proof.
  induction l as [|x l IH]; intros Hex; [inversion Hex|].
  destruct (Rlt_le_dec x 0) as [Hneg|Hpos].
  - exists [], x, l. split; [reflexivity|]. split; [constructor | exact Hneg].
  - inversion Hex as [? ? Hx | ? ? Hl]; subst; [lra|].
    destruct (IH Hl) as (pre & T & post & -> & Hpre & HT).
    exists (x :: pre), T, post. split; [reflexivity|]. split; [constructor; assumption | exact HT].
Qed.

(** A negative temperature makes the comparison of the first candidate
    density with the LTE minimum fail. *)
Lemma schedule_temperature_negative (rs : RandomState) (config : Config)
    (delta_E_max_dict : list (string * R)) (samples_per_temp remainder : nat)
    (tsp : list (R * list (R * R))) (i : nat) (T : R) (g : rs.(rng)) :
  config.(cfg_electron_density_range) ≠ [] →
  T < 0 →
  DatasetGenerator.schedule_temperature rs config delta_E_max_dict samples_per_temp
    remainder tsp (i, T) g = Raise TypeError.
Proof.
  intros Hrange HT.
  unfold DatasetGenerator.schedule_temperature, DatasetGenerator._calculate_lte_electron_density.
  destruct (decide (T < 0)) as [_|Hpos]; [|contradiction].
  destruct (cfg_electron_density_range config) as [|n_e range]; [congruence|].
  reflexivity.
Qed.

(** The scheduler stops at the first temperature whose round raises: the
    temperatures before it, none negative, are scheduled first. *)
Lemma generate_sample_params_raises_at (rs : RandomState) (config : Config)
    (delta_E_max_dict : list (string * R)) (g : rs.(rng))
    (pre post : list R) (T : R) (e : exn) :
  RandomStateSpec rs →
  config.(cfg_electron_density_range) ≠ [] →
  config.(cfg_temperature_range) = pre ++ T :: post →
  Forall (fun T => 0 <= T) pre →
  (∀ samples_per_temp remainder tsp g',
     DatasetGenerator.schedule_temperature rs config delta_E_max_dict samples_per_temp
       remainder tsp (length pre, T) g' = Raise e) →
  DatasetGenerator._generate_sample_params rs config delta_E_max_dict g = Raise e.
Proof.
  intros Hrs Hrange Htemps Hpre Hraise.
  unfold DatasetGenerator._generate_sample_params.
  destruct (decide (length (cfg_temperature_range config) = 0%nat)) as [H0|_].
  { rewrite Htemps, length_app in H0. simpl in H0. lia. }
  assert (Hrounds :
    combine (seq 0 (length (cfg_temperature_range config))) (cfg_temperature_range config)
    = combine (seq 0 (length pre)) pre
      ++ (length pre, T) :: combine (seq (S (length pre)) (length post)) post).
  { rewrite Htemps, combine_seq_app. reflexivity. }
  rewrite Hrounds.
  assert (Hpre_rounds :
    Forall (fun iT : nat * R => 0 <= snd iT) (combine (seq 0 (length pre)) pre)).
  { apply Forall_forall. intros [i T'] HiT. apply list_elem_of_In, in_combine_r in HiT.
    rewrite Forall_forall in Hpre. apply Hpre, list_elem_of_In. exact HiT. }
  destruct (schedule_rounds_ok rs Hrs config delta_E_max_dict Hrange _ Hpre_rounds
              (fold_left (fun d T => Dict.set d T []) (cfg_temperature_range config) []) g)
    as (tsp & g1 & Hfold & _).
  unfold mbind at 1, rand_bind at 1.
  rewrite foldlM_rand_app, Hfold. cbn [foldlM].
  unfold mbind at 1, rand_bind at 1. rewrite Hraise. reflexivity.
Qed.

(** With at least one candidate density, a negative value anywhere in
    the temperature list makes the scheduler raise [TypeError]: the
    temperatures before the first negative one are scheduled, then the LTE
    minimum of the negative one is a complex number, which cannot be
    compared with a density. *)
Theorem generate_sample_params_negative_temperature (rs : RandomState) (config : Config)
    (delta_E_max_dict : list (string * R)) (g : rs.(rng)) :
  RandomStateSpec rs →
  config.(cfg_electron_density_range) ≠ [] →
  Exists (fun T => T < 0) config.(cfg_temperature_range) →
  DatasetGenerator._generate_sample_params rs config delta_E_max_dict g = Raise TypeError.
Proof.
  intros Hrs Hrange Hneg.
  destruct (first_negative _ Hneg) as (pre & T & post & Htemps & Hpre & HT).
  apply (generate_sample_params_raises_at rs config delta_E_max_dict g pre post T TypeError
           Hrs Hrange Htemps Hpre).
  intros samples_per_temp remainder tsp g'.
  apply schedule_temperature_negative; assumption.
Qed.

Lemma generate_sample_params_negative_temperature_witness :
  DatasetGenerator._generate_sample_params first_draws negative_temperature_config [] tt
  = Raise TypeError.
Proof.
  apply (generate_sample_params_negative_temperature first_draws negative_temperature_config
           [] tt first_draws_ok).
  - discriminate.
  - apply Exists_cons_tl, Exists_cons_hd. simpl. lra.
Defined.

(** ** The hash of a composition *)

Section KeyOrder.
Import DatasetGenerator.

Lemma string_ltb_trans (a b c : string) :
  String.ltb a b = true → String.ltb b c = true → String.ltb a c = true.
Proof.
  unfold String.ltb. intros Hab Hbc.
  destruct (String.compare a b) eqn:Eab; try discriminate.
  destruct (String.compare b c) eqn:Ebc; try discriminate.
  apply OrderedTypeEx.String_as_OT.cmp_lt in Eab, Ebc.
  pose proof (OrderedTypeEx.String_as_OT.lt_trans _ _ _ Eab Ebc) as Hac.
  apply OrderedTypeEx.String_as_OT.cmp_lt in Hac.
  unfold OrderedTypeEx.String_as_OT.cmp in Hac. rewrite Hac. reflexivity.
Qed.

Lemma string_ltb_irrefl (a : string) : String.ltb a a = false.
Proof.
  unfold String.ltb. pose proof (String.compare_antisym a a) as H.
  destruct (String.compare a a); try reflexivity; discriminate.
Qed.

Lemma string_ltb_total (a b : string) :
  a ≠ b → String.ltb a b = false → String.ltb b a = true.
Proof.
  unfold String.ltb. intros Hne. rewrite (String.compare_antisym b a).
  destruct (String.compare a b) eqn:E; try discriminate; intros _.
  - apply String.compare_eq_iff in E. contradiction.
  - reflexivity.
Qed.

Lemma insert_by_key_perm (kv : string * R) (l : list (string * R)) :
  Permutation (insert_by_key kv l) (kv :: l).
Proof.
  induction l as [|kv' l IH]; [reflexivity|]. cbn [insert_by_key].
  destruct (String.ltb (fst kv') (fst kv)); [|reflexivity].
  rewrite IH. apply perm_swap.
Qed.

Lemma sorted_by_key_perm (l : list (string * R)) : Permutation (sorted_by_key l) l.
Proof.
  induction l as [|kv l IH]; [reflexivity|].
  unfold sorted_by_key in *. cbn [fold_right]. rewrite insert_by_key_perm, IH. reflexivity.
Qed.

Lemma insert_by_key_ascending (kv : string * R) (l : list (string * R)) :
  ascending_keys l → ¬ In (fst kv) (map fst l) → ascending_keys (insert_by_key kv l).
Proof.
  induction l as [|kv' l IH]; intros Hasc Hfresh.
  - split; constructor.
  - destruct Hasc as [Hhead Htail]. cbn [insert_by_key].
    destruct (String.ltb (fst kv') (fst kv)) eqn:Hlt.
    + split.
      * apply Forall_forall. intros x Hx. apply list_elem_of_In in Hx.
        apply (Permutation_in _ (insert_by_key_perm kv l)) in Hx. destruct Hx as [<-|Hx].
        -- exact Hlt.
        -- rewrite Forall_forall in Hhead. apply Hhead, list_elem_of_In, Hx.
      * apply IH; [exact Htail|]. intros Hin. apply Hfresh. right. exact Hin.
    + assert (Hkv : String.ltb (fst kv) (fst kv') = true).
      { apply string_ltb_total; [|exact Hlt]. intros Heq. apply Hfresh. left. exact Heq. }
      split; [|split; assumption].
      constructor; [exact Hkv|].
      eapply Forall_impl; [exact Hhead|]. intros x Hx. cbn beta in Hx.
      exact (string_ltb_trans _ _ _ Hkv Hx).
Qed.

Lemma sorted_by_key_ascending (l : list (string * R)) :
  NoDup (map fst l) → ascending_keys (sorted_by_key l).
Proof.
  induction l as [|kv l IH]; intros Hnd; [exact I|].
  apply NoDup_cons in Hnd. destruct Hnd as [Hfresh Hnd].
  change (sorted_by_key (kv :: l)) with (insert_by_key kv (sorted_by_key l)).
  apply insert_by_key_ascending; [apply IH, Hnd|].
  intros Hin. apply Hfresh, list_elem_of_In.
  apply (Permutation_in _ (Permutation_map fst (sorted_by_key_perm l))). exact Hin.
Qed.

(** A list with strictly ascending keys is determined by its elements. *)
Lemma ascending_keys_unique (l1 l2 : list (string * R)) :
  ascending_keys l1 → ascending_keys l2 → Permutation l1 l2 → l1 = l2.
Proof.
  revert l2. induction l1 as [|x l1 IH]; intros l2 H1 H2 Hperm.
  - apply Permutation_nil in Hperm. congruence.
  - destruct l2 as [|y l2]; [symmetry in Hperm; apply Permutation_nil in Hperm; discriminate|].
    destruct H1 as [Hx H1], H2 as [Hy H2].
    assert (Hxy : x = y).
    { assert (Hin_x : In x (y :: l2)) by (apply (Permutation_in _ Hperm); left; reflexivity).
      assert (Hin_y : In y (x :: l1))
        by (apply (Permutation_in _ (Permutation_sym Hperm)); left; reflexivity).
      destruct Hin_x as [->|Hin_x]; [reflexivity|].
      destruct Hin_y as [->|Hin_y]; [reflexivity|].
      rewrite Forall_forall in Hx, Hy.
      pose proof (Hx y (proj2 (list_elem_of_In _ _) Hin_y)) as Hlt1.
      pose proof (Hy x (proj2 (list_elem_of_In _ _) Hin_x)) as Hlt2.
      pose proof (string_ltb_trans _ _ _ Hlt1 Hlt2) as Hxx.
      rewrite string_ltb_irrefl in Hxx. discriminate. }
    subst y. f_equal. apply IH; [exact H1 | exact H2|].
    exact (Permutation_cons_inv Hperm).
Qed.

Lemma filter_Permutation {A : Type} (P : A → bool) (l1 l2 : list A) :
  Permutation l1 l2 → Permutation (List.filter P l1) (List.filter P l2).
Proof.
  induction 1 as [|x l1 l2 _ IH|x y l|l1 l2 l3 _ IH1 _ IH2]; cbn [List.filter].
  - reflexivity.
  - destruct (P x); [apply perm_skip|]; exact IH.
  - destruct (P x), (P y); try reflexivity. apply perm_swap.
  - exact (Permutation_trans IH1 IH2).
Qed.

Lemma filter_keys_NoDup (P : string * R → bool) (l : list (string * R)) :
  NoDup (map fst l) → NoDup (map fst (List.filter P l)).
Proof.
  induction l as [|kv l IH]; intros Hnd; [exact Hnd|].
  apply NoDup_cons in Hnd. destruct Hnd as [Hfresh Hnd]. cbn [List.filter].
  destruct (P kv); [|exact (IH Hnd)].
  cbn [map]. apply NoDup_cons. split; [|exact (IH Hnd)].
  intros Hin. apply Hfresh. apply list_elem_of_In in Hin. apply list_elem_of_In.
  apply in_map_iff in Hin. destruct Hin as (kv' & Hk & Hin).
  apply filter_In in Hin. apply in_map_iff. exists kv'. split; [exact Hk | apply Hin].
Qed.

(** The sorted list of pairs depends on the pairs only, not on their order,
    when the keys are distinct. *)
Lemma sorted_by_key_Permutation (l1 l2 : list (string * R)) :
  NoDup (map fst l1) → Permutation l1 l2 → sorted_by_key l1 = sorted_by_key l2.
Proof.
  intros Hnd Hperm.
  assert (Hnd2 : NoDup (map fst l2)).
  { rewrite <- (Permutation_map fst Hperm). exact Hnd. }
  apply ascending_keys_unique.
  - apply sorted_by_key_ascending, Hnd.
  - apply sorted_by_key_ascending, Hnd2.
  - rewrite !sorted_by_key_perm. exact Hperm.
Qed.

End KeyOrder.

(** The hash of a combination does not depend on the order in which
    the composition dictionary was filled: two dictionaries with the same
    items (distinct keys, as in any dictionary) in different insertion
    orders give the same hash for the same temperature and density. *)
Theorem hash_combination_order_independent (fmt : DatasetGenerator.Formatting)
    (temp n_e : R) (atom_percentages reordered : list (string * R)) :
  NoDup (Dict.keys atom_percentages) →
  Permutation atom_percentages reordered →
  DatasetGenerator._hash_combination fmt temp n_e atom_percentages
  = DatasetGenerator._hash_combination fmt temp n_e reordered.
Proof.
  intros Hnd Hperm. unfold DatasetGenerator._hash_combination. cbv zeta.
  rewrite (sorted_by_key_Permutation
             (map (fun kv : string * R => (fst kv, DatasetGenerator.round6 fmt (snd kv)))
                  (List.filter (fun kv => MixedSpectrumSimulator.is_species_key (fst kv))
                               atom_percentages))
             (map (fun kv : string * R => (fst kv, DatasetGenerator.round6 fmt (snd kv)))
                  (List.filter (fun kv => MixedSpectrumSimulator.is_species_key (fst kv))
                               reordered))); [reflexivity| |].
  - rewrite map_map. cbn [fst].
    change (map (fun x : string * R => fst x)
              (List.filter (fun kv => MixedSpectrumSimulator.is_species_key (fst kv))
                           atom_percentages))
      with (map fst (List.filter (fun kv => MixedSpectrumSimulator.is_species_key (fst kv))
                                 atom_percentages)).
    apply filter_keys_NoDup. exact Hnd.
  - apply Permutation_map, filter_Permutation. exact Hperm.
Qed.

Lemma hash_combination_order_independent_witness :
  DatasetGenerator._hash_combination plain_formatting 10000 1e16
    [("Si_1", 60); ("Al_1", 40); ("temperature", 10000)]%string
  = DatasetGenerator._hash_combination plain_formatting 10000 1e16
      [("temperature", 10000); ("Al_1", 40); ("Si_1", 60)]%string.
Proof.
  apply hash_combination_order_independent.
  - unfold Dict.keys. cbn [map fst]. apply (bool_decide_unpack _). vm_compute. reflexivity.
  - apply perm_trans with [("Al_1", 40); ("Si_1", 60); ("temperature", 10000)]%string.
    + apply perm_swap.
    + apply perm_trans with [("Al_1", 40); ("temperature", 10000); ("Si_1", 60)]%string.
      * apply perm_skip, perm_swap.
      * apply perm_swap.
Defined.

(** ** Incomplete rows of the transition table *)

Section IncompleteRows.
Import SpectrumSimulator.

Lemma foldlM_result_skip {S A : Type} (f : S → A → result S) (pre post : list A) (x : A)
    (s : S) :
  (∀ s', f s' x = Ok s') →
  foldlM f s (pre ++ x :: post) = foldlM f s (pre ++ post).
Proof.
  intros Hskip. revert s. induction pre as [|y pre IH]; intros s.
  - cbn [app foldlM]. unfold mbind, result_bind. rewrite Hskip. reflexivity.
  - cbn [app foldlM]. unfold mbind, result_bind. destruct (f s y); [apply IH | reflexivity].
Qed.

Lemma mapM_result_ext {A B : Type} (f f' : A → result B) (l : list A) :
  (∀ x, f x = f' x) → mapM_result f l = mapM_result f' l.
Proof.
  intros Hext. induction l as [|x l IH]; [reflexivity|].
  cbn [mapM_result]. rewrite Hext, IH. reflexivity.
Qed.

(** What an incomplete row does in the two loops: the unpacking fails and
    the error is swallowed, or the [None] test skips the row. *)
Lemma incomplete_cases (data : list pyval) :
  incomplete data = true →
  unpack7 data = Raise ValueError
  ∨ ∃ wl Aki Ek Ei gi gk,
      unpack7 data = Ok (wl, Aki, Ek, Ei, gi, gk)
      ∧ forallb is_not_none [wl; Aki; Ek; Ei; gi; gk] = false.
Proof.
  unfold incomplete.
  destruct data as [|wl [|Aki [|Ek [|Ei [|gi [|gk [|last [|extra data]]]]]]]];
    try (intros _; left; reflexivity).
  intros H. right. exists wl, Aki, Ek, Ei, gi, gk. split; [reflexivity|].
  cbn [length Nat.eqb negb orb firstn] in H. apply negb_true_iff in H. exact H.
Qed.

Lemma collect_levels_incomplete (levels : list (R * R)) (data : list pyval) :
  incomplete data = true → collect_levels levels data = Ok levels.
Proof.
  intros H. unfold collect_levels.
  destruct (incomplete_cases data H) as [Hu|(wl & Aki & Ek & Ei & gi & gk & Hu & Hnone)];
    rewrite Hu; unfold mbind, result_bind; [reflexivity|].
  rewrite Hnone. reflexivity.
Qed.

Lemma add_line_incomplete (self : t) (atom_percentage temp Z : R) (a : acc)
    (data : list pyval) :
  incomplete data = true → add_line self atom_percentage temp Z a data = Ok a.
Proof.
  intros H. unfold add_line.
  destruct (incomplete_cases data H) as [Hu|(wl & Aki & Ek & Ei & gi & gk & Hu & Hnone)];
    rewrite Hu; unfold mbind, result_bind; [reflexivity|].
  rewrite Hnone. reflexivity.
Qed.

Lemma simulate_temperature_incomplete (pre post : list (list pyval)) (row : list pyval)
    (element : string) (ion : nat) (temperatures : list R) (ionization_energy : R)
    (config : Config) (atom_percentage : R) (energy_levels degeneracies : list R) (temp : R) :
  incomplete row = true →
  simulate_temperature
    (init (pre ++ row :: post) element ion temperatures ionization_energy config)
    atom_percentage energy_levels degeneracies temp
  = simulate_temperature
      (init (pre ++ post) element ion temperatures ionization_energy config)
      atom_percentage energy_levels degeneracies temp.
Proof.
  intros H. unfold simulate_temperature. cbn [init nist_data resolution].
  destruct (_partition_function (map Some energy_levels) degeneracies temp) as [Z|e];
    [|reflexivity].
  unfold mbind, result_bind.
  rewrite (foldlM_result_skip _ pre post row);
    [reflexivity | intros a; apply add_line_incomplete, H].
Qed.

End IncompleteRows.

(** A row of the transition table that does not have seven cells, or
    has [None] among its first six, is ignored: a simulator built on a table
    with such a row returns from [simulate] what the simulator built on the
    table without the row returns (results and exceptions alike). *)
Theorem simulate_ignores_incomplete_row (pre post : list (list pyval)) (row : list pyval)
    (element : string) (ion : nat) (temperatures : list R) (ionization_energy : R)
    (config : Config) (atom_percentage : R) :
  incomplete row = true →
  SpectrumSimulator.simulate
    (SpectrumSimulator.init (pre ++ row :: post) element ion temperatures
       ionization_energy config) atom_percentage
  = SpectrumSimulator.simulate
      (SpectrumSimulator.init (pre ++ post) element ion temperatures
         ionization_energy config) atom_percentage.
Proof.
  intros H. unfold SpectrumSimulator.simulate.
  cbn [SpectrumSimulator.init SpectrumSimulator.nist_data SpectrumSimulator.temperatures
       SpectrumSimulator.wavelengths].
  rewrite (foldlM_result_skip SpectrumSimulator.collect_levels pre post row []
             (fun levels => collect_levels_incomplete levels row H)).
  destruct (pre ++ post) as [|first rest] eqn:Hdata.
  - destruct pre; [|discriminate]. cbn [app] in Hdata. subst post. reflexivity.
  - rewrite <- Hdata.
    assert (Hne : ∃ first' rest', pre ++ row :: post = first' :: rest')
      by (destruct pre; eexists _, _; reflexivity).
    destruct Hne as (first' & rest' & Hfull). rewrite Hfull, <- Hfull.
    destruct (foldlM SpectrumSimulator.collect_levels [] (pre ++ post)) as [levels|e];
      [|reflexivity].
    unfold mbind, result_bind. destruct levels as [|level levels]; [reflexivity|].
    rewrite (mapM_result_ext _ _ temperatures
               (fun temp =>
                  simulate_temperature_incomplete pre post row element ion temperatures
                    ionization_energy config atom_percentage
                    (Dict.keys (level :: levels)) (Dict.values (level :: levels)) temp H)).
    reflexivity.
Qed.

Lemma simulate_ignores_incomplete_row_witness :
  SpectrumSimulator.simulate
    (SpectrumSimulator.init
       ([[PFloat 0.5; PFloat 1e8; PFloat 3; PFloat 0; PFloat 2; PFloat 4; PObj]]
        ++ [PFloat 0.7; PNone; PFloat 3; PFloat 0; PFloat 2; PFloat 4; PObj] :: [])
       "Si" 1 [10000] 8.15 example_config) 1
  = SpectrumSimulator.simulate
      (SpectrumSimulator.init
         ([[PFloat 0.5; PFloat 1e8; PFloat 3; PFloat 0; PFloat 2; PFloat 4; PObj]] ++ [])
         "Si" 1 [10000] 8.15 example_config) 1.
Proof.
  apply simulate_ignores_incomplete_row. reflexivity.
Defined.

(** ** The ionization energies of the required species *)

Section MissingEnergies.

Let fill_one (d : list (string * R)) (sp_name : string) : list (string * R) :=
  if Dict.mem d sp_name then d else Dict.set d sp_name 0.0.

Lemma species_names_required :
  mapM_result DataManager.species_name REQUIRED_ELEMENTS = Ok SPECIES_NAMES.
Proof. vm_compute. reflexivity. Qed.

Lemma fill_loop_names (elems : list string) (names : list string) (d : list (string * R)) :
  mapM_result DataManager.species_name elems = Ok names →
  foldlM (fun (d : list (string * R)) (elem : string) =>
            sp_name ← DataManager.species_name elem;
            if Dict.mem d sp_name then Ok d else Ok (Dict.set d sp_name 0.0)) d elems
  = Ok (fold_left fill_one names d).
Proof.
  revert names d. induction elems as [|elem elems IH]; intros names d Hnames.
  - injection Hnames as <-. reflexivity.
  - cbn [mapM_result] in Hnames. unfold mbind, result_bind in Hnames.
    destruct (DataManager.species_name elem) as [sp_name|] eqn:Hname; [|discriminate].
    destruct (mapM_result DataManager.species_name elems) as [rest|] eqn:Hrest; [|discriminate].
    injection Hnames as <-. cbn [foldlM fold_left]. unfold mbind at 1, result_bind at 1.
    rewrite Hname. unfold mbind at 1, result_bind at 1.
    rewrite <- (IH rest (fill_one d sp_name) eq_refl). unfold fill_one.
    destruct (Dict.mem d sp_name); reflexivity.
Qed.

Lemma fill_one_get (d : list (string * R)) (sp_name k : string) :
  Dict.get (fill_one d sp_name) k
  = match Dict.get d k with
    | Some v => Some v
    | None => if decide (sp_name = k) then Some 0.0 else None
    end.
Proof.
  unfold fill_one, Dict.mem. destruct (decide (sp_name = k)) as [->|Hne].
  - destruct (Dict.get d k) as [v|] eqn:Hget; [exact Hget|]. apply dict_get_set_eq.
  - destruct (Dict.get d sp_name); [destruct (Dict.get d k); reflexivity|].
    rewrite dict_get_set_ne by exact Hne. destruct (Dict.get d k); reflexivity.
Qed.

Lemma fill_all_get (names : list string) (d : list (string * R)) (k : string) :
  Dict.get (fold_left fill_one names d) k
  = match Dict.get d k with
    | Some v => Some v
    | None => if bool_decide (k ∈ names) then Some 0.0 else None
    end.
Proof.
  revert d. induction names as [|n names IH]; intros d.
  - cbn [fold_left]. destruct (Dict.get d k); [reflexivity|].
    rewrite bool_decide_eq_false_2 by (apply not_elem_of_nil). reflexivity.
  - cbn [fold_left]. rewrite IH, fill_one_get.
    destruct (Dict.get d k) as [v|]; [reflexivity|].
    destruct (decide (n = k)) as [->|Hne].
    + rewrite bool_decide_eq_true_2 by (apply list_elem_of_here). reflexivity.
    + destruct (bool_decide (k ∈ names)) eqn:Hin.
      * apply bool_decide_eq_true in Hin.
        rewrite bool_decide_eq_true_2 by (apply list_elem_of_further, Hin). reflexivity.
      * apply bool_decide_eq_false in Hin.
        rewrite bool_decide_eq_false_2; [reflexivity|].
        intros Hk. apply elem_of_cons in Hk. destruct Hk as [->|Hk]; [congruence | contradiction].
Qed.

(** The loop returns, and a lookup in its result is the lookup in the
    dictionary it started from, with 0.0 for the species names that had no
    entry. *)
Lemma fill_missing_energies_get (ionization_energies : list (string * R)) :
  ∃ filled,
    DataManager.fill_missing_energies ionization_energies = Ok filled
    ∧ ∀ k, Dict.get filled k
           = match Dict.get ionization_energies k with
             | Some v => Some v
             | None => if bool_decide (k ∈ SPECIES_NAMES) then Some 0.0 else None
             end.
Proof.
  exists (fold_left fill_one SPECIES_NAMES ionization_energies). split.
  - unfold DataManager.fill_missing_energies.
    apply fill_loop_names, species_names_required.
  - intros k. apply fill_all_get.
Qed.

End MissingEnergies.

(** The last loop of [load_ionization_energies] never raises. In the
    dictionary it returns, an entry that was read from the file keeps its
    value, each of the names ["Si I"], ["Si II"], ..., ["Cl II"] of the
    required species that had no entry has the value 0.0, and no other key
    is added. *)
Theorem fill_missing_energies_lookup (ionization_energies : list (string * R)) :
  ∃ filled,
    DataManager.fill_missing_energies ionization_energies = Ok filled
    ∧ (∀ k v, Dict.get ionization_energies k = Some v → Dict.get filled k = Some v)
    ∧ (∀ k, k ∈ SPECIES_NAMES → Dict.get ionization_energies k = None →
            Dict.get filled k = Some 0.0)
    ∧ (∀ k, k ∉ SPECIES_NAMES → Dict.get ionization_energies k = None →
            Dict.get filled k = None).
Proof.
  destruct (fill_missing_energies_get ionization_energies) as (filled & Hrun & Hget).
  exists filled. split; [exact Hrun|]. repeat split.
  - intros k v Hk. rewrite Hget, Hk. reflexivity.
  - intros k Hin Hk. rewrite Hget, Hk, bool_decide_eq_true_2 by exact Hin. reflexivity.
  - intros k Hin Hk. rewrite Hget, Hk, bool_decide_eq_false_2 by exact Hin. reflexivity.
Qed.

Section EnergiesRead.
Import MixedSpectrumSimulator.
Context {G : Type}.
Variable uniform : R → R → G → R * G.
Variable choice : list string → nat → bool → G → result (list string * G).

Lemma foldlM_rand_ext {S A : Type} (f f' : S → A → rand G S) (l : list A) (s : S) (g : G) :
  (∀ s x g, f s x g = f' s x g) → foldlM f s l g = foldlM f' s l g.
Proof.
  intros Hext. revert s g. induction l as [|x l IH]; intros s g; [reflexivity|].
  cbn [foldlM]. unfold mbind, rand_bind. rewrite Hext.
  destruct (f' s x g) as [[s' g']|e]; [apply IH | reflexivity].
Qed.

Lemma rand_bind_cong {A B : Type} (m m' : rand G A) (k k' : A → rand G B) (g : G) :
  m g = m' g → (∀ a g', k a g' = k' a g') → (m ≫= k) g = (m' ≫= k') g.
Proof.
  intros Hm Hk. unfold mbind, rand_bind. rewrite Hm.
  destruct (m' g) as [[a g']|e]; [apply Hk | reflexivity].
Qed.

(** A round of the composition loop reads the energies with
    [.get(name, 0.0)] only. *)
Lemma add_element_pair_energies (energies energies' : list (string * R))
    (temp electron_density : R) (st : list (string * R) * R)
    (pair : string * string * string) (g : G) :
  (∀ k, Dict.get_default energies k 0.0 = Dict.get_default energies' k 0.0) →
  add_element_pair uniform energies temp electron_density st pair g
  = add_element_pair uniform energies' temp electron_density st pair g.
Proof.
  intros Hsame. unfold add_element_pair. destruct pair as [[base_elem elem_neutral] elem_ion].
  destruct st as [atom_percentages_dict total_target_percentage].
  rewrite Hsame. reflexivity.
Qed.

Lemma generate_sample_energies (self : t) (energies energies' : list (string * R)) (g : G) :
  (∀ k, Dict.get_default energies k 0.0 = Dict.get_default energies' k 0.0) →
  generate_sample uniform choice self energies g
  = generate_sample uniform choice self energies' g.
Proof.
  intros Hsame. unfold generate_sample.
  apply rand_bind_cong; [reflexivity|]. intros selected g'.
  apply rand_bind_cong; [|reflexivity].
  apply foldlM_rand_ext. intros st pair g0.
  apply add_element_pair_energies, Hsame.
Qed.

End EnergiesRead.

(** Filling in the missing ionization energies changes no sample: on
    the dictionary returned by the last loop of [load_ionization_energies],
    [generate_sample] returns, from the same generator state, what it
    returns on the dictionary the loop started from. *)
Theorem generate_sample_after_fill {G : Type} (uniform : R → R → G → R * G)
    (choice : list string → nat → bool → G → result (list string * G))
    (self : MixedSpectrumSimulator.t) (ionization_energies : list (string * R)) (g : G) :
  ∃ filled,
    DataManager.fill_missing_energies ionization_energies = Ok filled
    ∧ MixedSpectrumSimulator.generate_sample uniform choice self filled g
      = MixedSpectrumSimulator.generate_sample uniform choice self ionization_energies g.
Proof.
  destruct (fill_missing_energies_get ionization_energies) as (filled & Hrun & Hget).
  exists filled. split; [exact Hrun|].
  apply generate_sample_energies. intros k. unfold Dict.get_default. rewrite Hget.
  destruct (Dict.get ionization_energies k); [reflexivity|].
  destruct (bool_decide (k ∈ SPECIES_NAMES)); reflexivity.
Qed.

(** ** Normalisation: idempotence and scale invariance *)

Lemma arr_map_ext (f f' : R → R) (a : ndarray) :
  Forall (fun x => f x = f' x) (arr_values a) → arr_map f a = arr_map f' a.
Proof.
  destruct a as [x|l]; cbn [arr_values arr_map]; intros Hall.
  - inversion Hall; subst. f_equal. assumption.
  - f_equal. induction Hall as [|x l Hx _ IH]; [reflexivity|].
    cbn [map]. rewrite Hx, IH. reflexivity.
Qed.

Lemma arr_map_id (f : R → R) (a : ndarray) :
  Forall (fun x => f x = x) (arr_values a) → arr_map f a = a.
Proof.
  destruct a as [x|l]; cbn [arr_values arr_map]; intros Hall.
  - inversion Hall; subst. f_equal. assumption.
  - f_equal. induction Hall as [|x l Hx _ IH]; [reflexivity|].
    cbn [map]. rewrite Hx, IH. reflexivity.
Qed.

Lemma arr_map_map (f f' : R → R) (a : ndarray) :
  arr_map f (arr_map f' a) = arr_map (fun x => f (f' x)) a.
Proof. destruct a as [x|l]; cbn [arr_map]; [reflexivity|]. rewrite map_map. reflexivity. Qed.

(** The largest absolute value of an array scaled by a positive factor. *)
Lemma max_abs_scale (a : ndarray) (c : R) :
  0 < c →
  MixedSpectrumSimulator.max_abs (arr_map (Rmult c) a)
  = match MixedSpectrumSimulator.max_abs a with
    | Ok m => Ok (c * m)
    | Raise e => Raise e
    end.
Proof.
  intros Hc. unfold MixedSpectrumSimulator.max_abs. rewrite arr_values_map.
  generalize (arr_values a) as l. intros l.
  destruct (list_max RuntimeError (map Rabs l)) as [m|e] eqn:Hm.
  - apply list_max_spec in Hm. destruct Hm as [Hin Hall]. apply list_max_spec. split.
    + apply in_map_iff in Hin. destruct Hin as (x & <- & Hx).
      apply in_map_iff. exists (c * x). split.
      * rewrite Rabs_mult, (Rabs_pos_eq c) by lra. reflexivity.
      * apply in_map_iff. exists x. split; [reflexivity | exact Hx].
    + rewrite Forall_forall. intros y Hy. apply list_elem_of_In in Hy.
      apply in_map_iff in Hy. destruct Hy as (z & <- & Hz).
      apply in_map_iff in Hz. destruct Hz as (x & <- & Hx).
      rewrite Forall_forall in Hall.
      assert (Hxm : Rabs x <= m).
      { apply Hall, list_elem_of_In, in_map_iff. exists x. split; [reflexivity | exact Hx]. }
      rewrite Rabs_mult, (Rabs_pos_eq c) by lra. nra.
  - destruct l as [|x l]; [exact Hm | discriminate].
Qed.

(** An array whose largest absolute value is zero holds zeros only. *)
Lemma max_abs_zero (a : ndarray) :
  MixedSpectrumSimulator.max_abs a = Ok 0 → Forall (fun x => x = 0) (arr_values a).
Proof.
  unfold MixedSpectrumSimulator.max_abs. intros Hm.
  apply list_max_spec in Hm. destruct Hm as [_ Hall].
  rewrite Forall_forall in Hall. apply Forall_forall. intros x Hx.
  assert (Hle : Rabs x <= 0).
  { apply Hall, list_elem_of_In, in_map_iff. exists x.
    split; [reflexivity | apply list_elem_of_In, Hx]. }
  pose proof (Rabs_pos x) as Hpos.
  destruct (Req_dec x 0) as [Hz|Hnz]; [exact Hz|].
  pose proof (Rabs_pos_lt x Hnz). lra.
Qed.

(** Normalising twice is normalising once: for a positive target peak
    intensity, [_normalize_intensity] returns its own result unchanged. *)
Theorem normalize_intensity_idempotent (intensity out : ndarray) (target_max : R) :
  0 < target_max →
  MixedSpectrumSimulator._normalize_intensity intensity target_max = Ok out →
  MixedSpectrumSimulator._normalize_intensity out target_max = Ok out.
Proof.
  intros Ht. unfold MixedSpectrumSimulator._normalize_intensity.
  destruct (MixedSpectrumSimulator.max_abs intensity) as [m|e] eqn:Hm; [|discriminate].
  cbn [mbind result_bind].
  destruct (decide (m = 0)) as [Hz|Hnz]; intros [= <-].
  - rewrite Hm. cbn [mbind result_bind].
    destruct (decide (m = 0)); [reflexivity | contradiction].
  - rewrite (max_abs_scaled intensity m target_max Hm Hnz), (Rabs_pos_eq target_max) by lra.
    cbn [mbind result_bind].
    destruct (decide (target_max = 0)) as [|_]; [lra|].
    f_equal. apply arr_map_id. apply Forall_forall. intros y _. field. lra.
Qed.

Lemma normalize_intensity_idempotent_witness :
  MixedSpectrumSimulator._normalize_intensity (Arr1 [0.8; 0.4]) 0.8 = Ok (Arr1 [0.8; 0.4]).
Proof.
  apply (normalize_intensity_idempotent (Arr1 [0.8; 0.4]) (Arr1 [0.8; 0.4]) 0.8); [lra|].
  unfold MixedSpectrumSimulator._normalize_intensity, MixedSpectrumSimulator.max_abs.
  cbn [arr_values map list_max fold_left mbind result_bind].
  rewrite !Rabs_pos_eq by lra. rewrite Rmax_left by lra.
  destruct (decide (0.8 = 0)) as [|_]; [lra|].
  cbn [arr_map map].
  replace (0.8 / 0.8 * 0.8) with 0.8 by lra.
  replace (0.4 / 0.8 * 0.8) with 0.4 by lra.
  reflexivity.
Defined.

(** The absolute scale of a spectrum does not matter to its
    normalisation: a spectrum multiplied by a positive factor is normalised
    to what the spectrum itself is normalised to (the same array, or the
    same exception for an empty one). *)
Theorem normalize_intensity_scale_invariant (intensity : ndarray) (c target_max : R) :
  0 < c →
  MixedSpectrumSimulator._normalize_intensity (arr_map (Rmult c) intensity) target_max
  = MixedSpectrumSimulator._normalize_intensity intensity target_max.
Proof.
  intros Hc. unfold MixedSpectrumSimulator._normalize_intensity.
  rewrite (max_abs_scale intensity c Hc).
  destruct (MixedSpectrumSimulator.max_abs intensity) as [m|e] eqn:Hm; [|reflexivity].
  cbn [mbind result_bind].
  destruct (decide (m = 0)) as [->|Hnz].
  - destruct (decide (c * 0 = 0)) as [_|Hne]; [|lra].
    f_equal. apply arr_map_id.
    eapply Forall_impl; [exact (max_abs_zero intensity Hm)|].
    intros x ->. cbn beta. lra.
  - destruct (decide (c * m = 0)) as [Hz|_]; [nra|].
    f_equal. rewrite arr_map_map. apply arr_map_ext.
    apply Forall_forall. intros x _. field. split; lra.
Qed.

Lemma normalize_intensity_scale_invariant_witness :
  MixedSpectrumSimulator._normalize_intensity (arr_map (Rmult 2) (Arr1 [1; 3])) 0.8
  = MixedSpectrumSimulator._normalize_intensity (Arr1 [1; 3]) 0.8.
Proof.
  apply normalize_intensity_scale_invariant. lra.
Defined.

(** ** The convolution is homogeneous *)

Lemma dot_scale (kernel xs : list R) (c : R) :
  dot kernel (map (Rmult c) xs) = c * dot kernel xs.
Proof.
  revert xs. induction kernel as [|k kernel IH]; intros [|x xs]; cbn [dot map]; try lra.
  rewrite IH. lra.
Qed.

Lemma repeat_zero_scale (c : R) (p : nat) : map (Rmult c) (repeat 0 p) = repeat 0 p.
Proof.
  induction p as [|p IH]; [reflexivity|]. cbn [repeat map]. rewrite IH, Rmult_0_r. reflexivity.
Qed.

Lemma squeeze_scale (c : R) (l : list R) :
  squeeze (map (Rmult c) l) = arr_map (Rmult c) (squeeze l).
Proof. destruct l as [|x [|y l]]; reflexivity. Qed.

Lemma conv1d_scale (input kernel : list R) (padding : Z) (c : R) :
  conv1d (map (Rmult c) input) kernel padding
  = match conv1d input kernel padding with
    | Ok out => Ok (map (Rmult c) out)
    | Raise e => Raise e
    end.
Proof.
  unfold conv1d. destruct (padding <? 0)%Z; [reflexivity|].
  destruct kernel as [|k kernel]; [reflexivity|].
  assert (Hpad :
    repeat 0 (Z.to_nat padding) ++ map (Rmult c) input ++ repeat 0 (Z.to_nat padding)
    = map (Rmult c) (repeat 0 (Z.to_nat padding) ++ input ++ repeat 0 (Z.to_nat padding)))
    by (rewrite !map_app, repeat_zero_scale; reflexivity).
  rewrite Hpad, length_map.
  destruct (_ <? _)%nat; [reflexivity|].
  f_equal. rewrite map_map. apply map_ext. intros i.
  rewrite <- dot_scale, skipn_map. reflexivity.
Qed.

(** [_convolve_spectrum] is homogeneous: the convolution of a spectrum
    multiplied by a factor is the convolution of the spectrum multiplied by
    that factor, and it raises exactly when the convolution of the spectrum
    does. *)
Theorem convolve_spectrum_homogeneous (self : MixedSpectrumSimulator.t)
    (spectrum : list R) (c sigma_nm : R) :
  MixedSpectrumSimulator._convolve_spectrum self (map (Rmult c) spectrum) sigma_nm
  = match MixedSpectrumSimulator._convolve_spectrum self spectrum sigma_nm with
    | Ok convolved => Ok (arr_map (Rmult c) convolved)
    | Raise e => Raise e
    end.
Proof.
  unfold MixedSpectrumSimulator._convolve_spectrum.
  destruct (MixedSpectrumSimulator.wavelength_step _) as [step|e]; [|reflexivity].
  cbn [mbind result_bind].
  destruct (fdiv sigma_nm step) as [sigma_points|e]; [|reflexivity].
  cbn [mbind result_bind].
  destruct (MixedSpectrumSimulator.instrument_kernel sigma_points) as [kernel|e]; [|reflexivity].
  cbn [mbind result_bind]. rewrite conv1d_scale.
  destruct (conv1d spectrum kernel _) as [out|e]; [|reflexivity].
  cbn [mbind result_bind]. rewrite squeeze_scale. reflexivity.
Qed.

(** ** A run whose scheduler fails *)

(** When the scheduler raises, so does the run, at once: the state is the
    one of the start of the run. *)
Lemma run_scheduler_raises (rs : RandomState) (fmt : DatasetGenerator.Formatting)
    (generate : R → R → rand rs.(rng) (option MixedSpectrumSimulator.Sample))
    (config : Config) (delta_E_max : list (string * R)) (now : string) (e : exn)
    (st : DatasetGenerator.state rs) :
  DatasetGenerator._generate_sample_params rs config delta_E_max (rs.(seed) 42) = Raise e →
  DatasetGenerator.run rs fmt generate config delta_E_max now st
  = (Raise e, DatasetGenerator.start_run rs st).
Proof.
  intros Hsched. unfold DatasetGenerator.run.
  unfold mbind at 1, DatasetGenerator.drv_bind at 1, DatasetGenerator.modify at 1.
  unfold mbind at 1, DatasetGenerator.drv_bind at 1, DatasetGenerator.draw at 1.
  cbn [DatasetGenerator.start_run DatasetGenerator.w_rng]. rewrite Hsched. reflexivity.
Qed.

(** A configuration with a negative temperature stops
    [generate_dataset] before the first sample: it raises [TypeError] out of
    the scheduler, and the combination log, the dataset file and its backups
    are what they were. *)
Theorem generate_dataset_negative_temperature (rs : RandomState)
    (fmt : DatasetGenerator.Formatting) (config : Config)
    (simulators : list SpectrumSimulator.t)
    (delta_E_max ionization_energies : list (string * R)) (now : string)
    (st : DatasetGenerator.state rs) :
  RandomStateSpec rs →
  config.(cfg_electron_density_range) ≠ [] →
  Exists (fun T => T < 0) config.(cfg_temperature_range) →
  ∃ st',
    DatasetGenerator.generate_dataset rs fmt config simulators delta_E_max
      ionization_energies now st = (Raise TypeError, st')
    ∧ DatasetGenerator.w_log rs st' = DatasetGenerator.w_log rs st
    ∧ DatasetGenerator.w_dataset rs st' = DatasetGenerator.w_dataset rs st
    ∧ DatasetGenerator.w_backups rs st' = DatasetGenerator.w_backups rs st
    ∧ DatasetGenerator.w_accepted rs st' = [].
Proof.
  intros Hrs Hrange Hneg. exists (DatasetGenerator.start_run rs st).
  split; [|repeat split].
  unfold DatasetGenerator.generate_dataset. cbv zeta.
  apply run_scheduler_raises.
  destruct (first_negative _ Hneg) as (pre & T & post & Htemps & Hpre & HT).
  apply (generate_sample_params_raises_at rs config delta_E_max (rs.(seed) 42) pre post T
           TypeError Hrs Hrange Htemps Hpre).
  intros samples_per_temp remainder tsp g'.
  apply schedule_temperature_negative; assumption.
Qed.

Lemma generate_dataset_negative_temperature_witness :
  ∃ st',
    DatasetGenerator.generate_dataset first_draws plain_formatting
      negative_temperature_config [example_simulator] [] example_ionization_energies "now"
      (example_state [] None) = (Raise TypeError, st')
    ∧ DatasetGenerator.w_log first_draws st' = DatasetGenerator.Missing
    ∧ DatasetGenerator.w_dataset first_draws st' = None.
Proof.
  destruct (generate_dataset_negative_temperature first_draws plain_formatting
              negative_temperature_config [example_simulator] [] example_ionization_energies
              "now" (example_state [] None) first_draws_ok)
    as (st' & Hrun & Hlog & Hds & _).
  - discriminate.
  - apply Exists_cons_tl, Exists_cons_hd. simpl. lra.
  - exists st'. split; [exact Hrun|]. split; [exact Hlog | exact Hds].
Defined.
